(** * AHP XC cross-correlator driver (indi_ahp_xc.cpp): delay compensation,
      integration accumulation, finalize serialization and the integration
      cycle, embedded from the C++ source.

    The driver computes on C [double]s.  The embedding is parametric in the
    arithmetic ([Arith]), so that what is proved holds whatever the
    operations return; the interpretation provided is IEEE-754 binary64
    (Rocq's primitive floats), the arithmetic the compiled driver runs on.
    Functions of libindi, libnova, libdsp, libahp_xc and cfitsio that the
    driver calls are parameters ([Extern], [fits_outcome]).

    Arrays are lists; reading or writing outside an array, or copying
    outside an allocated block, is a [Fault], so that in-bounds claims can
    be stated. *)

From Stdlib Require Import ZArith QArith Uint63 Floats Bool Lia.
From stdpp Require Import base list.

Local Open Scope Z_scope.

(* ------------------------------------------------------------------ *)
(** ** Arithmetic on [double] *)

Class Arith (D : Type) := {
  d_zero : D;
  d_add : D -> D -> D;
  d_sub : D -> D -> D;
  d_mul : D -> D -> D;
  d_div : D -> D -> D;
  d_gt : D -> D -> bool;       (* a > b *)
  d_le : D -> D -> bool;       (* a <= b *)
  d_eq : D -> D -> bool;       (* a == b *)
  d_of_int : Z -> D;           (* integer to double conversion *)
  d_to_uint : D -> Z;          (* double to unsigned int conversion *)
  d_to_int : D -> Z            (* static_cast<int>(double) *)
}.

(** libm: [sqrt], [pow], [fabs]. *)
Class Libm (D : Type) := {
  d_sqrt : D -> D;
  d_pow : D -> D -> D;
  d_fabs : D -> D
}.

(** 32-bit C integers: [unsigned int] wraps modulo 2^32; [int] is kept in
    two's complement range; [size_t] wraps modulo 2^64. *)
Definition wrap_uint (z : Z) : Z := z mod 2 ^ 32.
Definition wrap_int (z : Z) : Z := (z + 2 ^ 31) mod 2 ^ 32 - 2 ^ 31.
Definition wrap_size (z : Z) : Z := z mod 2 ^ 64.
Definition INT_MAX : Z := 2 ^ 31 - 1.

Module Binary64.
(** IEEE-754 binary64, as the compiled driver computes. *)

Definition of_int (z : Z) : float :=
  if z <? 0 then PrimFloat.opp (PrimFloat.of_uint63 (Uint63.of_Z (- z)))
  else PrimFloat.of_uint63 (Uint63.of_Z z).

(** Truncation toward zero of a finite double; [None] for NaN and the
    infinities. *)
Definition trunc (f : float) : option Z :=
  match Prim2SF f with
  | S754_zero _ => Some 0
  | S754_finite s m e =>
      let v := if 0 <=? e then Z.pos m * 2 ^ e else Z.pos m / 2 ^ (- e) in
      Some (if s then - v else v)
  | _ => None
  end.

(** Conversions out of range are undefined in C; they are modelled as
    x86-64 performs them. *)
Definition to_uint (f : float) : Z :=
  match trunc f with
  | Some v => if (- 2 ^ 63 <=? v) && (v <? 2 ^ 63) then wrap_uint v else 0
  | None => 0
  end.

Definition to_int (f : float) : Z :=
  match trunc f with
  | Some v => if (- 2 ^ 31 <=? v) && (v <? 2 ^ 31) then v else - 2 ^ 31
  | None => - 2 ^ 31
  end.

#[export] Instance arith : Arith float := {|
  d_zero := 0%float;
  d_add := PrimFloat.add;
  d_sub := PrimFloat.sub;
  d_mul := PrimFloat.mul;
  d_div := PrimFloat.div;
  d_gt := fun a b => PrimFloat.ltb b a;
  d_le := PrimFloat.leb;
  d_eq := PrimFloat.eqb;
  d_of_int := of_int;
  d_to_uint := to_uint;
  d_to_int := to_int
|}.

(** [pow] is only ever called with exponent 2 by the driver. *)
#[export] Instance libm : Libm float := {|
  d_sqrt := PrimFloat.sqrt;
  d_pow := fun x y => if PrimFloat.eqb y 2%float then PrimFloat.mul x x else nan;
  d_fabs := PrimFloat.abs
|}.
End Binary64.

(* ------------------------------------------------------------------ *)
(** ** Faults and the error monad *)

Inductive fault := OutOfBounds.

Inductive result (A : Type) :=
| Ok (a : A)
| Fault (f : fault).
Arguments Ok {A} a.
Arguments Fault {A} f.

Definition bind {A B} (m : result A) (k : A -> result B) : result B :=
  match m with
  | Ok a => k a
  | Fault f => Fault f
  end.

Declare Scope xc_scope.
Delimit Scope xc_scope with xc.
Notation "x <- m ;; k" := (bind m (fun x => k))
  (at level 100, m at next level, right associativity) : xc_scope.
Local Open Scope xc_scope.

(** [for (...) body] over the values [l] of the loop variable, threading the
    loop-carried state. *)
Fixpoint for_each {A S} (l : list A) (body : A -> S -> result S) (s : S)
  : result S :=
  match l with
  | [] => Ok s
  | a :: l' => s' <- body a s ;; for_each l' body s'
  end.

(** Array read [a[i]] and write [a[i] = v] with an [int] index. *)
Definition rd {A} (a : list A) (i : Z) : result A :=
  if i <? 0 then Fault OutOfBounds
  else match a !! Z.to_nat i with
       | Some v => Ok v
       | None => Fault OutOfBounds
       end.

Definition wr {A} (a : list A) (i : Z) (v : A) : result (list A) :=
  if i <? 0 then Fault OutOfBounds
  else if (Z.to_nat i <? length a)%nat then Ok (<[Z.to_nat i := v]> a)
  else Fault OutOfBounds.

(** Unsigned loop variables index arrays directly. *)
Definition rdn {A} (a : list A) (i : nat) : result A :=
  match a !! i with
  | Some v => Ok v
  | None => Fault OutOfBounds
  end.

Definition wrn {A} (a : list A) (i : nat) (v : A) : result (list A) :=
  if (i <? length a)%nat then Ok (<[i := v]> a) else Fault OutOfBounds.

(* ------------------------------------------------------------------ *)
(** ** Data *)

Record timeval := { tv_sec : Z; tv_usec : Z }.

(** [IBLOB]: the transportable slot of one output; [blob] is the offset of
    the data in the shared blob buffer, [None] while the pointer is unset. *)
Record IBLOB := { blob : option Z; bloblen : Z }.

(** What cfitsio and [malloc] do during one call of [createFITS]. *)
Record fits_outcome := {
  malloc_ok : bool;
  create_memfile_status : Z;
  create_img_status : Z;
  write_img_status : Z;
  fits_memsize : Z   (* size of the memory file, as cfitsio leaves it *)
}.

Section Driver.
Context {D : Type} {AR : Arith D} {LM : Libm D}.

(** [INDI::Correlator::Baseline] and the three coordinates of a line
    location. *)
Record vec3 := { vx : D; vy : D; vz : D }.

(** A [baseline] object: its vector (set by [setBaseline]) and wavelength. *)
Record baseline := { b_vector : vec3; b_wavelength : D }.

(** [dsp_stream] of libdsp; every stream of the driver has two dimensions. *)
Record dsp_stream := { sizes0 : Z; sizes1 : Z; len : Z; buf : list D }.

Record ahp_xc_correlation := { counts : D; magnitude : D }.
Record ahp_xc_sample := {
  lag_size : nat;
  correlations : list ahp_xc_correlation
}.
Record ahp_xc_packet := {
  pkt_counts : list D;
  autocorrelations : list ahp_xc_sample;
  crosscorrelations : list ahp_xc_sample
}.

Inductive blob_vector := plotBP | autocorrelationsBP | crosscorrelationsBP.

Inductive event :=
| ahp_xc_set_channel_auto (index : nat) (value size step : Z)
| ahp_xc_set_channel_cross (index : nat) (value size step : Z)
| DSP_processBLOB (stream : dsp_stream)
| call_createFITS (bpp : Z) (stream : dsp_stream) (returned_non_null : bool)
| IDSetBLOB (which : blob_vector)
| IDSetNumber_FramedIntegration.

(** What the driver gets from the hardware library, libindi, libnova and
    the memory allocator. *)
Record Extern := {
  ahp_xc_get_nlines : nat;
  ahp_xc_get_nbaselines : nat;
  ahp_xc_get_autocorrelator_lagsize : Z;
  ahp_xc_get_crosscorrelator_lagsize : Z;
  ahp_xc_get_frequency : Z;
  ahp_xc_get_delaysize : Z;
  LIGHTSPEED : D;
  baseline_delay : D -> D -> vec3 -> D;
  getDelay : baseline -> D -> D -> D;
  getUVCoordinates : baseline -> D -> D -> D * D;
  get_local_sidereal_time : timeval -> D -> D;
  get_local_hour_angle : D -> D -> D;
  get_alt_az_coordinates : D -> D -> D -> D * D;
  HasDSP : bool;
  new_baseline : baseline;   (* [new baseline ()] *)
  uninit : D;                (* what freshly allocated memory holds *)
  uninit_blob : IBLOB
}.

(** [static unsigned int nplots = 1]. *)
Definition nplots : nat := 1.

Record AHP_XC := {
  InIntegration : bool;
  IntegrationRequest : D;
  ExpStart : timeval;
  timeleft : D;
  Longitude : D;
  Latitude : D;
  RA : D;
  Dec : D;
  Altitude : D;
  Azimuth : D;
  lineEnableSP : list bool; (* lineEnableSP[x].sp[0].s == ISS_ON *)
  lineLocationNP : list vec3; (* lineLocationNP[x].np[0..2].value *)
  center : list vec3;
  delay : list D;
  baselines : list baseline;
  plot_str : list dsp_stream;
  autocorrelations_str : list dsp_stream;
  crosscorrelations_str : list dsp_stream;
  plotB : list IBLOB;
  autocorrelationsB : list IBLOB;
  crosscorrelationsB : list IBLOB;
  totalcounts : list D;
  totalcorrelations : list ahp_xc_correlation;
  events : list event (* calls made to the hardware, the encoder and the client *)
}.

Definition set_InIntegration (st : AHP_XC) (v : bool) : AHP_XC :=
  {| InIntegration := v; IntegrationRequest := IntegrationRequest st;
     ExpStart := ExpStart st; timeleft := timeleft st;
     Longitude := Longitude st; Latitude := Latitude st; RA := RA st;
     Dec := Dec st; Altitude := Altitude st; Azimuth := Azimuth st;
     lineEnableSP := lineEnableSP st; lineLocationNP := lineLocationNP st;
     center := center st; delay := delay st; baselines := baselines st;
     plot_str := plot_str st;
     autocorrelations_str := autocorrelations_str st;
     crosscorrelations_str := crosscorrelations_str st; plotB := plotB st;
     autocorrelationsB := autocorrelationsB st;
     crosscorrelationsB := crosscorrelationsB st;
     totalcounts := totalcounts st;
     totalcorrelations := totalcorrelations st; events := events st |}.

Definition set_IntegrationRequest (st : AHP_XC) (v : D) : AHP_XC :=
  {| InIntegration := InIntegration st; IntegrationRequest := v;
     ExpStart := ExpStart st; timeleft := timeleft st;
     Longitude := Longitude st; Latitude := Latitude st; RA := RA st;
     Dec := Dec st; Altitude := Altitude st; Azimuth := Azimuth st;
     lineEnableSP := lineEnableSP st; lineLocationNP := lineLocationNP st;
     center := center st; delay := delay st; baselines := baselines st;
     plot_str := plot_str st;
     autocorrelations_str := autocorrelations_str st;
     crosscorrelations_str := crosscorrelations_str st; plotB := plotB st;
     autocorrelationsB := autocorrelationsB st;
     crosscorrelationsB := crosscorrelationsB st;
     totalcounts := totalcounts st;
     totalcorrelations := totalcorrelations st; events := events st |}.

Definition set_ExpStart (st : AHP_XC) (v : timeval) : AHP_XC :=
  {| InIntegration := InIntegration st;
     IntegrationRequest := IntegrationRequest st; ExpStart := v;
     timeleft := timeleft st; Longitude := Longitude st;
     Latitude := Latitude st; RA := RA st; Dec := Dec st;
     Altitude := Altitude st; Azimuth := Azimuth st;
     lineEnableSP := lineEnableSP st; lineLocationNP := lineLocationNP st;
     center := center st; delay := delay st; baselines := baselines st;
     plot_str := plot_str st;
     autocorrelations_str := autocorrelations_str st;
     crosscorrelations_str := crosscorrelations_str st; plotB := plotB st;
     autocorrelationsB := autocorrelationsB st;
     crosscorrelationsB := crosscorrelationsB st;
     totalcounts := totalcounts st;
     totalcorrelations := totalcorrelations st; events := events st |}.

Definition set_timeleft (st : AHP_XC) (v : D) : AHP_XC :=
  {| InIntegration := InIntegration st;
     IntegrationRequest := IntegrationRequest st; ExpStart := ExpStart st;
     timeleft := v; Longitude := Longitude st; Latitude := Latitude st;
     RA := RA st; Dec := Dec st; Altitude := Altitude st;
     Azimuth := Azimuth st; lineEnableSP := lineEnableSP st;
     lineLocationNP := lineLocationNP st; center := center st;
     delay := delay st; baselines := baselines st; plot_str := plot_str st;
     autocorrelations_str := autocorrelations_str st;
     crosscorrelations_str := crosscorrelations_str st; plotB := plotB st;
     autocorrelationsB := autocorrelationsB st;
     crosscorrelationsB := crosscorrelationsB st;
     totalcounts := totalcounts st;
     totalcorrelations := totalcorrelations st; events := events st |}.

Definition set_Altitude (st : AHP_XC) (v : D) : AHP_XC :=
  {| InIntegration := InIntegration st;
     IntegrationRequest := IntegrationRequest st; ExpStart := ExpStart st;
     timeleft := timeleft st; Longitude := Longitude st;
     Latitude := Latitude st; RA := RA st; Dec := Dec st; Altitude := v;
     Azimuth := Azimuth st; lineEnableSP := lineEnableSP st;
     lineLocationNP := lineLocationNP st; center := center st;
     delay := delay st; baselines := baselines st; plot_str := plot_str st;
     autocorrelations_str := autocorrelations_str st;
     crosscorrelations_str := crosscorrelations_str st; plotB := plotB st;
     autocorrelationsB := autocorrelationsB st;
     crosscorrelationsB := crosscorrelationsB st;
     totalcounts := totalcounts st;
     totalcorrelations := totalcorrelations st; events := events st |}.

Definition set_Azimuth (st : AHP_XC) (v : D) : AHP_XC :=
  {| InIntegration := InIntegration st;
     IntegrationRequest := IntegrationRequest st; ExpStart := ExpStart st;
     timeleft := timeleft st; Longitude := Longitude st;
     Latitude := Latitude st; RA := RA st; Dec := Dec st;
     Altitude := Altitude st; Azimuth := v;
     lineEnableSP := lineEnableSP st; lineLocationNP := lineLocationNP st;
     center := center st; delay := delay st; baselines := baselines st;
     plot_str := plot_str st;
     autocorrelations_str := autocorrelations_str st;
     crosscorrelations_str := crosscorrelations_str st; plotB := plotB st;
     autocorrelationsB := autocorrelationsB st;
     crosscorrelationsB := crosscorrelationsB st;
     totalcounts := totalcounts st;
     totalcorrelations := totalcorrelations st; events := events st |}.

Definition set_center (st : AHP_XC) (v : list vec3) : AHP_XC :=
  {| InIntegration := InIntegration st;
     IntegrationRequest := IntegrationRequest st; ExpStart := ExpStart st;
     timeleft := timeleft st; Longitude := Longitude st;
     Latitude := Latitude st; RA := RA st; Dec := Dec st;
     Altitude := Altitude st; Azimuth := Azimuth st;
     lineEnableSP := lineEnableSP st; lineLocationNP := lineLocationNP st;
     center := v; delay := delay st; baselines := baselines st;
     plot_str := plot_str st;
     autocorrelations_str := autocorrelations_str st;
     crosscorrelations_str := crosscorrelations_str st; plotB := plotB st;
     autocorrelationsB := autocorrelationsB st;
     crosscorrelationsB := crosscorrelationsB st;
     totalcounts := totalcounts st;
     totalcorrelations := totalcorrelations st; events := events st |}.

Definition set_delay (st : AHP_XC) (v : list D) : AHP_XC :=
  {| InIntegration := InIntegration st;
     IntegrationRequest := IntegrationRequest st; ExpStart := ExpStart st;
     timeleft := timeleft st; Longitude := Longitude st;
     Latitude := Latitude st; RA := RA st; Dec := Dec st;
     Altitude := Altitude st; Azimuth := Azimuth st;
     lineEnableSP := lineEnableSP st; lineLocationNP := lineLocationNP st;
     center := center st; delay := v; baselines := baselines st;
     plot_str := plot_str st;
     autocorrelations_str := autocorrelations_str st;
     crosscorrelations_str := crosscorrelations_str st; plotB := plotB st;
     autocorrelationsB := autocorrelationsB st;
     crosscorrelationsB := crosscorrelationsB st;
     totalcounts := totalcounts st;
     totalcorrelations := totalcorrelations st; events := events st |}.

Definition set_plot_str (st : AHP_XC) (v : list dsp_stream) : AHP_XC :=
  {| InIntegration := InIntegration st;
     IntegrationRequest := IntegrationRequest st; ExpStart := ExpStart st;
     timeleft := timeleft st; Longitude := Longitude st;
     Latitude := Latitude st; RA := RA st; Dec := Dec st;
     Altitude := Altitude st; Azimuth := Azimuth st;
     lineEnableSP := lineEnableSP st; lineLocationNP := lineLocationNP st;
     center := center st; delay := delay st; baselines := baselines st;
     plot_str := v; autocorrelations_str := autocorrelations_str st;
     crosscorrelations_str := crosscorrelations_str st; plotB := plotB st;
     autocorrelationsB := autocorrelationsB st;
     crosscorrelationsB := crosscorrelationsB st;
     totalcounts := totalcounts st;
     totalcorrelations := totalcorrelations st; events := events st |}.

Definition set_autocorrelations_str (st : AHP_XC) (v : list dsp_stream) : AHP_XC :=
  {| InIntegration := InIntegration st;
     IntegrationRequest := IntegrationRequest st; ExpStart := ExpStart st;
     timeleft := timeleft st; Longitude := Longitude st;
     Latitude := Latitude st; RA := RA st; Dec := Dec st;
     Altitude := Altitude st; Azimuth := Azimuth st;
     lineEnableSP := lineEnableSP st; lineLocationNP := lineLocationNP st;
     center := center st; delay := delay st; baselines := baselines st;
     plot_str := plot_str st; autocorrelations_str := v;
     crosscorrelations_str := crosscorrelations_str st; plotB := plotB st;
     autocorrelationsB := autocorrelationsB st;
     crosscorrelationsB := crosscorrelationsB st;
     totalcounts := totalcounts st;
     totalcorrelations := totalcorrelations st; events := events st |}.

Definition set_crosscorrelations_str (st : AHP_XC) (v : list dsp_stream) : AHP_XC :=
  {| InIntegration := InIntegration st;
     IntegrationRequest := IntegrationRequest st; ExpStart := ExpStart st;
     timeleft := timeleft st; Longitude := Longitude st;
     Latitude := Latitude st; RA := RA st; Dec := Dec st;
     Altitude := Altitude st; Azimuth := Azimuth st;
     lineEnableSP := lineEnableSP st; lineLocationNP := lineLocationNP st;
     center := center st; delay := delay st; baselines := baselines st;
     plot_str := plot_str st;
     autocorrelations_str := autocorrelations_str st;
     crosscorrelations_str := v; plotB := plotB st;
     autocorrelationsB := autocorrelationsB st;
     crosscorrelationsB := crosscorrelationsB st;
     totalcounts := totalcounts st;
     totalcorrelations := totalcorrelations st; events := events st |}.

Definition set_plotB (st : AHP_XC) (v : list IBLOB) : AHP_XC :=
  {| InIntegration := InIntegration st;
     IntegrationRequest := IntegrationRequest st; ExpStart := ExpStart st;
     timeleft := timeleft st; Longitude := Longitude st;
     Latitude := Latitude st; RA := RA st; Dec := Dec st;
     Altitude := Altitude st; Azimuth := Azimuth st;
     lineEnableSP := lineEnableSP st; lineLocationNP := lineLocationNP st;
     center := center st; delay := delay st; baselines := baselines st;
     plot_str := plot_str st;
     autocorrelations_str := autocorrelations_str st;
     crosscorrelations_str := crosscorrelations_str st; plotB := v;
     autocorrelationsB := autocorrelationsB st;
     crosscorrelationsB := crosscorrelationsB st;
     totalcounts := totalcounts st;
     totalcorrelations := totalcorrelations st; events := events st |}.

Definition set_autocorrelationsB (st : AHP_XC) (v : list IBLOB) : AHP_XC :=
  {| InIntegration := InIntegration st;
     IntegrationRequest := IntegrationRequest st; ExpStart := ExpStart st;
     timeleft := timeleft st; Longitude := Longitude st;
     Latitude := Latitude st; RA := RA st; Dec := Dec st;
     Altitude := Altitude st; Azimuth := Azimuth st;
     lineEnableSP := lineEnableSP st; lineLocationNP := lineLocationNP st;
     center := center st; delay := delay st; baselines := baselines st;
     plot_str := plot_str st;
     autocorrelations_str := autocorrelations_str st;
     crosscorrelations_str := crosscorrelations_str st; plotB := plotB st;
     autocorrelationsB := v; crosscorrelationsB := crosscorrelationsB st;
     totalcounts := totalcounts st;
     totalcorrelations := totalcorrelations st; events := events st |}.

Definition set_crosscorrelationsB (st : AHP_XC) (v : list IBLOB) : AHP_XC :=
  {| InIntegration := InIntegration st;
     IntegrationRequest := IntegrationRequest st; ExpStart := ExpStart st;
     timeleft := timeleft st; Longitude := Longitude st;
     Latitude := Latitude st; RA := RA st; Dec := Dec st;
     Altitude := Altitude st; Azimuth := Azimuth st;
     lineEnableSP := lineEnableSP st; lineLocationNP := lineLocationNP st;
     center := center st; delay := delay st; baselines := baselines st;
     plot_str := plot_str st;
     autocorrelations_str := autocorrelations_str st;
     crosscorrelations_str := crosscorrelations_str st; plotB := plotB st;
     autocorrelationsB := autocorrelationsB st; crosscorrelationsB := v;
     totalcounts := totalcounts st;
     totalcorrelations := totalcorrelations st; events := events st |}.

Definition set_totalcounts (st : AHP_XC) (v : list D) : AHP_XC :=
  {| InIntegration := InIntegration st;
     IntegrationRequest := IntegrationRequest st; ExpStart := ExpStart st;
     timeleft := timeleft st; Longitude := Longitude st;
     Latitude := Latitude st; RA := RA st; Dec := Dec st;
     Altitude := Altitude st; Azimuth := Azimuth st;
     lineEnableSP := lineEnableSP st; lineLocationNP := lineLocationNP st;
     center := center st; delay := delay st; baselines := baselines st;
     plot_str := plot_str st;
     autocorrelations_str := autocorrelations_str st;
     crosscorrelations_str := crosscorrelations_str st; plotB := plotB st;
     autocorrelationsB := autocorrelationsB st;
     crosscorrelationsB := crosscorrelationsB st; totalcounts := v;
     totalcorrelations := totalcorrelations st; events := events st |}.

Definition set_totalcorrelations (st : AHP_XC) (v : list ahp_xc_correlation) : AHP_XC :=
  {| InIntegration := InIntegration st;
     IntegrationRequest := IntegrationRequest st; ExpStart := ExpStart st;
     timeleft := timeleft st; Longitude := Longitude st;
     Latitude := Latitude st; RA := RA st; Dec := Dec st;
     Altitude := Altitude st; Azimuth := Azimuth st;
     lineEnableSP := lineEnableSP st; lineLocationNP := lineLocationNP st;
     center := center st; delay := delay st; baselines := baselines st;
     plot_str := plot_str st;
     autocorrelations_str := autocorrelations_str st;
     crosscorrelations_str := crosscorrelations_str st; plotB := plotB st;
     autocorrelationsB := autocorrelationsB st;
     crosscorrelationsB := crosscorrelationsB st;
     totalcounts := totalcounts st; totalcorrelations := v;
     events := events st |}.

Definition set_events (st : AHP_XC) (v : list event) : AHP_XC :=
  {| InIntegration := InIntegration st;
     IntegrationRequest := IntegrationRequest st; ExpStart := ExpStart st;
     timeleft := timeleft st; Longitude := Longitude st;
     Latitude := Latitude st; RA := RA st; Dec := Dec st;
     Altitude := Altitude st; Azimuth := Azimuth st;
     lineEnableSP := lineEnableSP st; lineLocationNP := lineLocationNP st;
     center := center st; delay := delay st; baselines := baselines st;
     plot_str := plot_str st;
     autocorrelations_str := autocorrelations_str st;
     crosscorrelations_str := crosscorrelations_str st; plotB := plotB st;
     autocorrelationsB := autocorrelationsB st;
     crosscorrelationsB := crosscorrelationsB st;
     totalcounts := totalcounts st;
     totalcorrelations := totalcorrelations st; events := v |}.

(* ------------------------------------------------------------------ *)
(** ** libdsp *)

(** [dsp_stream_new] followed by two [dsp_stream_add_dim]: [len] is the
    product of the sizes. *)
Definition dsp_stream_new2 (w h : Z) : dsp_stream :=
  {| sizes0 := w; sizes1 := h; len := wrap_int (w * h); buf := [] |}.

(** [dsp_stream_set_dim (s, 1, size)] and [dsp_stream_set_dim (s, 0, size)]. *)
Definition dsp_stream_set_dim1 (s : dsp_stream) (size : Z) : dsp_stream :=
  {| sizes0 := sizes0 s; sizes1 := size; len := wrap_int (sizes0 s * size);
     buf := buf s |}.

Definition dsp_stream_set_dim0 (s : dsp_stream) (size : Z) : dsp_stream :=
  {| sizes0 := size; sizes1 := sizes1 s; len := wrap_int (size * sizes1 s);
     buf := buf s |}.

(** [realloc (buf, sizeof (dsp_t) * n)]: the first cells are kept, new cells
    hold whatever the allocator returns. *)
Definition realloc (E : Extern) (b : list D) (n : Z) : list D :=
  resize (Z.to_nat n) (uninit E) b.

Definition dsp_stream_alloc_buffer (E : Extern) (s : dsp_stream) (n : Z)
  : dsp_stream :=
  {| sizes0 := sizes0 s; sizes1 := sizes1 s; len := len s;
     buf := realloc E (buf s) n |}.

(** [dsp_buffer_set (s->buf, s->len, 0)]: the first [len] cells are zeroed. *)
Definition dsp_buffer_set0 (s : dsp_stream) : result dsp_stream :=
  if (Z.to_nat (len s) <=? length (buf s))%nat then
    Ok {| sizes0 := sizes0 s; sizes1 := sizes1 s; len := len s;
          buf := replicate (Z.to_nat (len s)) d_zero
                 ++ drop (Z.to_nat (len s)) (buf s) |}
  else Fault OutOfBounds.

(* ------------------------------------------------------------------ *)
(** ** [AHP_XC::createFITS] *)

Definition supported_bpp (bpp : Z) : bool :=
  (bpp =? 8) || (bpp =? 16) || (bpp =? 32) || (bpp =? 64)
  || (bpp =? -32) || (bpp =? -64).

(** Returns whether the result is non-null, and the value left in
    [*memsize]. *)
Definition createFITS (o : fits_outcome) (bpp : Z) (memsize : Z)
  : bool * Z :=
  if negb (supported_bpp bpp) then (false, memsize)
  else if negb (malloc_ok o) then (false, 5760)
  else if negb (create_memfile_status o =? 0) then (false, fits_memsize o)
  else if negb (create_img_status o =? 0) then (false, fits_memsize o)
  else if negb (write_img_status o =? 0) then (false, fits_memsize o)
  else (true, fits_memsize o).

(* ------------------------------------------------------------------ *)
(** ** [AHP_XC::StartIntegration], [AHP_XC::AbortIntegration],
       [AHP_XC::CalcTimeLeft] *)

(** [now] is what [gettimeofday] returns. *)
Definition StartIntegration (st : AHP_XC) (duration : D) (now : timeval)
  : bool * AHP_XC :=
  if InIntegration st then (false, st)
  else
    let st := set_IntegrationRequest st duration in
    let st := set_ExpStart st now in
    let st := set_InIntegration st true in
    (true, st).

Definition AbortIntegration (st : AHP_XC) : bool * AHP_XC :=
  (true, set_InIntegration st false).

Definition millis (t : timeval) : D :=
  d_add (d_mul (d_of_int (tv_sec t)) (d_of_int 1000))
        (d_of_int (Z.quot (tv_usec t) 1000)).

Definition CalcTimeLeft (st : AHP_XC) (now : timeval) : D :=
  let timesince := d_sub (millis now) (millis (ExpStart st)) in
  let timesince := d_div timesince (d_of_int 1000) in
  d_sub (IntegrationRequest st) timesince.

(* ------------------------------------------------------------------ *)
(** ** [AHP_XC::Callback]: delay compensation *)

Section Tick.
Variable E : Extern.

Definition nlines : nat := ahp_xc_get_nlines E.

(** The values [0 .. n-1] of an unsigned loop variable, and [x+1 .. n-1]
    of the inner one. *)
Definition upto (n : nat) : list nat := seq 0 n.
Definition above (x n : nat) : list nat := seq (x + 1) (n - (x + 1)).

Definition vadd (a b : vec3) : vec3 :=
  {| vx := d_add (vx a) (vx b); vy := d_add (vy a) (vy b);
     vz := d_add (vz a) (vz b) |}.
Definition vsub (a b : vec3) : vec3 :=
  {| vx := d_sub (vx a) (vx b); vy := d_sub (vy a) (vy b);
     vz := d_sub (vz a) (vz b) |}.
Definition vdiv (a : vec3) (k : D) : vec3 :=
  {| vx := d_div (vx a) k; vy := d_div (vy a) k; vz := d_div (vz a) k |}.
Definition vzero : vec3 := {| vx := d_zero; vy := d_zero; vz := d_zero |}.

(** Lines 296-321: the phase centre [center_tmp]. *)
Record center_loop := { center_tmp : vec3; first : Z; c_idx : Z }.

Definition center_body (st : AHP_XC) (x : nat) (s : center_loop)
  : result center_loop :=
  en <- rdn (lineEnableSP st) x ;;
  if en : bool then
    if -1 <? first s then
      lx <- rdn (lineLocationNP st) x ;;
      lf <- rd (lineLocationNP st) (first s) ;;
      Ok {| center_tmp := vadd (center_tmp s) (vsub lx lf);
            first := first s; c_idx := c_idx s + 1 |}
    else
      Ok {| center_tmp := center_tmp s; first := Z.of_nat x;
            c_idx := c_idx s |}
  else Ok s.

Definition array_center (st : AHP_XC) : result vec3 :=
  s <- for_each (upto nlines) (center_body st)
         {| center_tmp := vzero; first := -1; c_idx := 1 |} ;;
  let c := vdiv (center_tmp s) (d_of_int (c_idx s)) in
  lf <- rd (lineLocationNP st) (first s) ;;
  Ok (vadd c lf).

(** Lines 322-336: relative positions and the reference antenna [farest]. *)
Record farest_loop := { fl_center : list vec3; farest : nat; delay_max : D }.

Definition norm (c : vec3) : D :=
  d_sqrt (d_add (d_add (d_pow (vx c) (d_of_int 2)) (d_pow (vy c) (d_of_int 2)))
                (d_pow (vz c) (d_of_int 2))).

Definition delay_ratio (st : AHP_XC) (c : vec3) : D :=
  d_div (baseline_delay E (Altitude st) (Azimuth st) c) (norm c).

Definition farest_body (st : AHP_XC) (ctr : vec3) (x : nat) (s : farest_loop)
  : result farest_loop :=
  en <- rdn (lineEnableSP st) x ;;
  if en : bool then
    lx <- rdn (lineLocationNP st) x ;;
    cs <- wrn (fl_center s) x (vsub lx ctr) ;;
    let delay_tmp := delay_ratio st (vsub lx ctr) in
    Ok {| fl_center := cs;
          farest := if d_gt delay_tmp (delay_max s) then x else farest s;
          delay_max := if d_gt delay_tmp (delay_max s) then delay_tmp
                       else delay_max s |}
  else Ok s.

Definition select_farest (st : AHP_XC) (ctr : vec3) : result farest_loop :=
  for_each (upto nlines) (farest_body st ctr)
    {| fl_center := center st; farest := 0%nat; delay_max := d_zero |}.

(** Lines 348-349: the hardware tick count of a delay. *)
Definition clamp_clocks (delay_clocks : Z) : Z :=
  if 0 <? delay_clocks then
    if delay_clocks <? wrap_uint (ahp_xc_get_delaysize E) then delay_clocks
    else wrap_uint (ahp_xc_get_delaysize E - 1)
  else 0.

Definition delay_clocks_of (d : D) : Z :=
  clamp_clocks
    (d_to_uint (d_div (d_mul d (d_of_int (ahp_xc_get_frequency E)))
                      (LIGHTSPEED E))).

Definition emit (st : AHP_XC) (evs : list event) : AHP_XC :=
  set_events st (events st ++ evs).

(** [lineEnableSP[x] == ISS_ON && lineEnableSP[y] == ISS_ON]; the second
    operand is read only when the first holds. *)
Definition both_enabled (st : AHP_XC) (x y : nat) : result bool :=
  ex <- rdn (lineEnableSP st) x ;;
  if ex : bool then rdn (lineEnableSP st) y else Ok false.

(** Lines 345-363: the body of the pair loop; the loop carries the driver
    and [idx]. *)
Definition set_pair_delay (st : AHP_XC) (line : nat) (d : D) : result AHP_XC :=
  dl <- wrn (delay st) line d ;;
  Ok (emit (set_delay st dl)
        [ahp_xc_set_channel_auto line 0 1 1;
         ahp_xc_set_channel_cross line (delay_clocks_of d) 1 1]).

Definition delay_pair_body (far : nat) (x y : nat) (s : AHP_XC * nat)
  : result (AHP_XC * nat) :=
  let st := fst s in
  let idx := snd s in
  b <- both_enabled st x y ;;
  st <- (if b : bool then
           bl <- rdn (baselines st) idx ;;
           let d := d_fabs (getDelay E bl (Altitude st) (Azimuth st)) in
           st <- (if (y =? far)%nat then set_pair_delay st x d else Ok st) ;;
           if (x =? far)%nat then set_pair_delay st y d else Ok st
         else Ok st) ;;
  Ok (st, S idx).

(** [for x ... for y = x + 1 ...] with a body on the pair. *)
Definition for_pairs {S} (n : nat) (body : nat -> nat -> S -> result S)
  (s : S) : result S :=
  for_each (upto n) (fun x s => for_each (above x n) (body x) s) s.

(** Lines 296-365. *)
Definition delay_compensation (st : AHP_XC) : result AHP_XC :=
  ctr <- array_center st ;;
  fl <- select_farest st ctr ;;
  let st := set_center st (fl_center fl) in
  dl <- wrn (delay st) (farest fl) d_zero ;;
  let st := set_delay st dl in
  let st := emit st [ahp_xc_set_channel_auto (farest fl) 0 1 1;
                     ahp_xc_set_channel_cross (farest fl) 0 1 1] in
  s <- for_pairs nlines (delay_pair_body (farest fl)) (st, 0%nat) ;;
  Ok (fst s).

(* ------------------------------------------------------------------ *)
(** ** [AHP_XC::Callback]: preview plot, accumulation, totals *)

(** C integer division truncates toward zero. *)
Definition idiv (a b : Z) : Z := wrap_int (Z.quot a b).

(** The centre lag of a cross-correlation sample. *)
Definition center_lag (pkt : ahp_xc_packet) (idx : nat)
  : result ahp_xc_correlation :=
  smp <- rdn (crosscorrelations pkt) idx ;;
  rdn (correlations smp) (lag_size smp / 2)%nat.

(** Lines 379-382: the pixel of a baseline, whether it is inside the plot,
    and the pixel opposite to it. *)
Definition plot_z (w h xx yy : Z) : Z :=
  wrap_int (wrap_int (wrap_int (idiv (wrap_int (w * h)) 2 + idiv w 2) + xx)
            + wrap_int (yy * w)).

Definition plot_visible (w h xx yy : Z) : bool :=
  (idiv (wrap_int (- w)) 2 <=? xx) && (xx <? idiv w 2)
  && (idiv (wrap_int (- w)) 2 <=? yy) && (yy <? idiv h 2).

Definition plot_mirror (w h z : Z) : Z :=
  wrap_int (wrap_int (wrap_int (w * h) - 1) - z).

(** Lines 374-392. *)
Definition plot_pair_body (pkt : ahp_xc_packet) (x y : nat) (s : AHP_XC * nat)
  : result (AHP_XC * nat) :=
  let st := fst s in
  let idx := snd s in
  b <- both_enabled st x y ;;
  st <- (if b : bool then
           p0 <- rdn (plot_str st) 0 ;;
           let w := sizes0 p0 in
           let h := sizes1 p0 in
           bl <- rdn (baselines st) idx ;;
           let uv := getUVCoordinates E bl (Altitude st) (Azimuth st) in
           let xx := d_to_int
                       (d_div (d_mul (d_of_int w) (fst uv)) (d_of_int 2)) in
           let yy := d_to_int
                       (d_div (d_mul (d_of_int h) (snd uv)) (d_of_int 2)) in
           let z := plot_z w h xx yy in
           if plot_visible w h xx yy then
             c <- center_lag pkt idx ;;
             old <- rd (buf p0) z ;;
             b1 <- wr (buf p0) z (d_add old (d_div (magnitude c) (counts c))) ;;
             c' <- center_lag pkt idx ;;
             old' <- rd b1 (plot_mirror w h z) ;;
             b2 <- wr b1 (plot_mirror w h z)
                     (d_add old' (d_div (magnitude c') (counts c'))) ;;
             ps <- wrn (plot_str st) 0
                     {| sizes0 := w; sizes1 := h; len := len p0; buf := b2 |} ;;
             Ok (set_plot_str st ps)
           else Ok st
         else Ok st) ;;
  Ok (st, S idx).

Definition fill_plot (st : AHP_XC) (pkt : ahp_xc_packet) : result AHP_XC :=
  if (0 <? nplots)%nat then
    s <- for_pairs nlines (plot_pair_body pkt) (st, 0%nat) ;;
    Ok (fst s)
  else Ok st.

(** Lines 400-406 and 413-419: one more row for a stream, filled with the
    magnitudes of the sample. *)
Definition write_lags (smp : ahp_xc_sample) (pos : Z) (b : list D)
  : result (list D) :=
  for_each (upto (lag_size smp))
    (fun i b => c <- rdn (correlations smp) i ;;
                wr b (pos + Z.of_nat i) (magnitude c))
    b.

Definition append_row (str : dsp_stream) (smp : ahp_xc_sample)
  : result dsp_stream :=
  let pos := wrap_int (len str - sizes0 str) in
  let h := wrap_int (sizes1 str + 1) in
  let n := wrap_int (len str + sizes0 str) in
  b <- write_lags smp pos (realloc E (buf str) (wrap_uint n)) ;;
  Ok {| sizes0 := sizes0 str; sizes1 := h; len := n; buf := b |}.

Definition append_rows (strs : list dsp_stream) (smps : list ahp_xc_sample)
  (n : nat) : result (list dsp_stream) :=
  for_each (upto n)
    (fun x strs => str <- rdn strs x ;;
                   smp <- rdn smps x ;;
                   str' <- append_row str smp ;;
                   wrn strs x str')
    strs.

(** Lines 396-421. *)
Definition accumulate (st : AHP_XC) (pkt : ahp_xc_packet) : result AHP_XC :=
  st <- (if (0 <? nlines)%nat && (1 <? ahp_xc_get_autocorrelator_lagsize E)
         then
           strs <- append_rows (autocorrelations_str st)
                     (autocorrelations pkt) nlines ;;
           Ok (set_autocorrelations_str st strs)
         else Ok st) ;;
  if (0 <? ahp_xc_get_nbaselines E)%nat
     && (1 <? ahp_xc_get_crosscorrelator_lagsize E)
  then
    strs <- append_rows (crosscorrelations_str st)
              (crosscorrelations pkt) (ahp_xc_get_nbaselines E) ;;
    Ok (set_crosscorrelations_str st strs)
  else Ok st.

(** Lines 292-294. *)
Definition sky_direction (st : AHP_XC) (now : timeval) : AHP_XC :=
  let lst := get_local_sidereal_time E now (Longitude st) in
  let ha := get_local_hour_angle E lst (RA st) in
  let altaz := get_alt_az_coordinates E (d_mul ha (d_of_int 15)) (Dec st)
                 (Latitude st) in
  set_Azimuth (set_Altitude st (fst altaz)) (snd altaz).

(** Lines 290-422: the branch taken while integrating with time left. *)
Definition integrate (st : AHP_XC) (pkt : ahp_xc_packet) (now : timeval)
  : result AHP_XC :=
  let st := sky_direction st now in
  st <- delay_compensation st ;;
  st <- fill_plot st pkt ;;
  accumulate st pkt.

(** Lines 425-441. *)
Definition totals_pair_body (pkt : ahp_xc_packet) (x y : nat) (s : AHP_XC * nat)
  : result (AHP_XC * nat) :=
  let st := fst s in
  let idx := snd s in
  b <- both_enabled st x y ;;
  st <- (if b : bool then
           t <- rdn (totalcorrelations st) idx ;;
           c <- center_lag pkt idx ;;
           tc <- wrn (totalcorrelations st) idx
                   {| counts := d_add (counts t) (counts c);
                      magnitude := magnitude t |} ;;
           let st := set_totalcorrelations st tc in
           t <- rdn (totalcorrelations st) idx ;;
           c <- center_lag pkt idx ;;
           tc <- wrn (totalcorrelations st) idx
                   {| counts := counts t;
                      magnitude := d_add (magnitude t) (magnitude c) |} ;;
           Ok (set_totalcorrelations st tc)
         else Ok st) ;;
  Ok (st, S idx).

Definition totals_body (pkt : ahp_xc_packet) (x : nat) (s : AHP_XC * nat)
  : result (AHP_XC * nat) :=
  let st := fst s in
  en <- rdn (lineEnableSP st) x ;;
  st <- (if en : bool then
           t <- rdn (totalcounts st) x ;;
           c <- rdn (pkt_counts pkt) x ;;
           tc <- wrn (totalcounts st) x (d_add t c) ;;
           Ok (set_totalcounts st tc)
         else Ok st) ;;
  for_each (above x nlines) (totals_pair_body pkt x) (st, snd s).

Definition totals (st : AHP_XC) (pkt : ahp_xc_packet) : result AHP_XC :=
  s <- for_each (upto nlines) (totals_body pkt) (st, 0%nat) ;;
  Ok (fst s).

(* ------------------------------------------------------------------ *)
(** ** [AHP_XC::Callback]: finalize (lines 200-289) *)

(** The loop-carried state of the finalize step: the driver, [memsize] and
    the number of [createFITS] calls made so far; [fits k] tells what cfitsio
    does during call number [k]. *)
Record fin_loop := { f_st : AHP_XC; f_memsize : Z; f_calls : nat }.

Definition empty_blob : IBLOB := {| blob := None; bloblen := 0 |}.

(** [memcpy (&blob[memsize], fits, n)] (lines 220, 242, 270).  [blob] holds
    [capacity] bytes; the encoding [fits] that [createFITS] returned holds
    [memsize] bytes (lines 126-127, and cfitsio reallocates it as it updates
    [memsize]).  The copy reads the first [n] bytes of [fits] and writes the
    [n] bytes of [blob] from [memsize] on. *)
Definition copy_in_bounds (capacity memsize n : Z) : bool :=
  (n <=? memsize) && (memsize + n <=? capacity).

(** Lines 215-225, 237-247, 265-275: [blob] is reallocated to
    [memsize + next_size] bytes, [str] is encoded, which leaves the size of
    the memory file in [memsize], and, when the encoder returned a result,
    [next_size] bytes are copied to [blob] from that [memsize] on and slot
    [x] of [slots] is filled. *)
Definition encode_into (fits : nat -> fits_outcome) (s : fin_loop)
  (str : dsp_stream) (slots : list IBLOB) (x : nat)
  : result (list IBLOB * fin_loop) :=
  let next_size := wrap_uint (len str) * 8 in
  let capacity := wrap_size (f_memsize s + next_size) in
  let r := createFITS (fits (f_calls s)) (-64) (f_memsize s) in
  let st := emit (f_st s) [call_createFITS (-64) str (fst r)] in
  if fst r then
    if copy_in_bounds capacity (snd r) next_size then
      slots' <- wrn slots x
                  {| blob := Some (snd r); bloblen := wrap_int next_size |} ;;
      Ok (slots', {| f_st := st; f_memsize := wrap_size (snd r + next_size);
                     f_calls := S (f_calls s) |})
    else Fault OutOfBounds
  else
    Ok (slots, {| f_st := st; f_memsize := snd r; f_calls := S (f_calls s) |}).

Definition with_st (s : fin_loop) (st : AHP_XC) : fin_loop :=
  {| f_st := st; f_memsize := f_memsize s; f_calls := f_calls s |}.

Definition plot_blob_body (fits : nat -> fits_outcome) (x : nat) (s : fin_loop)
  : result fin_loop :=
  str <- rdn (plot_str (f_st s)) x ;;
  let s := if HasDSP E then with_st s (emit (f_st s) [DSP_processBLOB str])
           else s in
  r <- encode_into fits s str (plotB (f_st s)) x ;;
  let s := with_st (snd r) (set_plotB (f_st (snd r)) (fst r)) in
  str <- rdn (plot_str (f_st s)) x ;;
  str' <- dsp_buffer_set0 str ;;
  strs <- wrn (plot_str (f_st s)) x str' ;;
  Ok (with_st s (set_plot_str (f_st s) strs)).

(** Lines 248-250 and 276-278: back to one row of zeros. *)
Definition reset_stream (str : dsp_stream) : result dsp_stream :=
  let str := dsp_stream_set_dim1 str 1 in
  let str := dsp_stream_alloc_buffer E str (len str) in
  dsp_buffer_set0 str.

Definition autocorrelation_blob_body (fits : nat -> fits_outcome) (x : nat)
  (s : fin_loop) : result fin_loop :=
  str <- rdn (autocorrelations_str (f_st s)) x ;;
  r <- encode_into fits s str (autocorrelationsB (f_st s)) x ;;
  let s := with_st (snd r) (set_autocorrelationsB (f_st (snd r)) (fst r)) in
  str <- rdn (autocorrelations_str (f_st s)) x ;;
  str' <- reset_stream str ;;
  strs <- wrn (autocorrelations_str (f_st s)) x str' ;;
  Ok (with_st s (set_autocorrelations_str (f_st s) strs)).

(** The source indexes the stream and the slot by [x], the first line of the
    pair. *)
Definition crosscorrelation_blob_body (fits : nat -> fits_outcome) (x y : nat)
  (s : fin_loop) : result fin_loop :=
  str <- rdn (crosscorrelations_str (f_st s)) x ;;
  r <- encode_into fits s str (crosscorrelationsB (f_st s)) x ;;
  let s := with_st (snd r) (set_crosscorrelationsB (f_st (snd r)) (fst r)) in
  str <- rdn (crosscorrelations_str (f_st s)) x ;;
  str' <- reset_stream str ;;
  strs <- wrn (crosscorrelations_str (f_st s)) x str' ;;
  Ok (with_st s (set_crosscorrelations_str (f_st s) strs)).

Definition with_memsize0 (s : fin_loop) : fin_loop :=
  {| f_st := f_st s; f_memsize := 0; f_calls := f_calls s |}.

Definition finalize (fits : nat -> fits_outcome) (st : AHP_XC)
  : result AHP_XC :=
  let st := set_InIntegration st false in
  s <- for_each (upto nplots) (plot_blob_body fits)
         {| f_st := st; f_memsize := 0; f_calls := 0 |} ;;
  let s := with_memsize0 (with_st s (emit (f_st s) [IDSetBLOB plotBP])) in
  s <- (if (0 <? nlines)%nat && (1 <? ahp_xc_get_autocorrelator_lagsize E)
        then
          s <- for_each (upto nlines) (autocorrelation_blob_body fits) s ;;
          Ok (with_st s (emit (f_st s) [IDSetBLOB autocorrelationsBP]))
        else Ok s) ;;
  let s := with_memsize0 s in
  s <- (if (0 <? ahp_xc_get_nbaselines E)%nat
           && (1 <? ahp_xc_get_crosscorrelator_lagsize E)
        then
          s <- for_pairs nlines (crosscorrelation_blob_body fits) s ;;
          Ok (with_st s (emit (f_st s) [IDSetBLOB crosscorrelationsBP]))
        else Ok s) ;;
  Ok (emit (f_st s) [IDSetNumber_FramedIntegration]).

(* ------------------------------------------------------------------ *)
(** ** One iteration of the [while (threadsRunning)] loop of
       [AHP_XC::Callback] *)

(** What the iteration observes of its environment: [isConnected ()], the
    packet [ahp_xc_get_packet] delivered ([None] when it reports that none
    is ready), the time of day, and cfitsio's behaviour. *)
Record tick_input := {
  isConnected : bool;
  packet : option ahp_xc_packet;
  now : timeval;
  fits : nat -> fits_outcome
}.

Definition Callback_iteration (st : AHP_XC) (i : tick_input)
  : result AHP_XC :=
  if negb (isConnected i) then Ok st
  else
    match packet i with
    | None => Ok st
    | Some pkt =>
        let tl := CalcTimeLeft st (now i) in
        let st := set_timeleft st (if d_le tl d_zero then d_zero else tl) in
        st <- (if InIntegration st then
                 if d_eq (timeleft st) d_zero then finalize (fits i) st
                 else integrate st pkt (now i)
               else Ok st) ;;
        totals st pkt
    end.

(** The loop over the successive observations. *)
Definition Callback (st : AHP_XC) (inputs : list tick_input)
  : result AHP_XC :=
  for_each inputs (fun i st => Callback_iteration st i) st.

(* ------------------------------------------------------------------ *)
(** ** Configuration: [ISNewSwitch] on a line's enable switch and
       [ISNewNumber] on a line's location (lines 717-740) *)

Definition set_lineEnableSP (st : AHP_XC) (v : list bool) : AHP_XC :=
  {| InIntegration := InIntegration st;
     IntegrationRequest := IntegrationRequest st; ExpStart := ExpStart st;
     timeleft := timeleft st; Longitude := Longitude st;
     Latitude := Latitude st; RA := RA st; Dec := Dec st;
     Altitude := Altitude st; Azimuth := Azimuth st; lineEnableSP := v;
     lineLocationNP := lineLocationNP st; center := center st;
     delay := delay st; baselines := baselines st; plot_str := plot_str st;
     autocorrelations_str := autocorrelations_str st;
     crosscorrelations_str := crosscorrelations_str st; plotB := plotB st;
     autocorrelationsB := autocorrelationsB st;
     crosscorrelationsB := crosscorrelationsB st;
     totalcounts := totalcounts st;
     totalcorrelations := totalcorrelations st; events := events st |}.

Definition set_locations (st : AHP_XC) (locs : list vec3)
  (bls : list baseline) : AHP_XC :=
  {| InIntegration := InIntegration st;
     IntegrationRequest := IntegrationRequest st; ExpStart := ExpStart st;
     timeleft := timeleft st; Longitude := Longitude st;
     Latitude := Latitude st; RA := RA st; Dec := Dec st;
     Altitude := Altitude st; Azimuth := Azimuth st;
     lineEnableSP := lineEnableSP st; lineLocationNP := locs;
     center := center st; delay := delay st; baselines := bls;
     plot_str := plot_str st;
     autocorrelations_str := autocorrelations_str st;
     crosscorrelations_str := crosscorrelations_str st; plotB := plotB st;
     autocorrelationsB := autocorrelationsB st;
     crosscorrelationsB := crosscorrelationsB st;
     totalcounts := totalcounts st;
     totalcorrelations := totalcorrelations st; events := events st |}.

Definition enable_line (st : AHP_XC) (x : nat) (on : bool) : AHP_XC :=
  set_lineEnableSP st (<[x := on]> (lineEnableSP st)).

Definition location_pair_body (i : nat) (x y : nat) (s : AHP_XC * nat)
  : result (AHP_XC * nat) :=
  let st := fst s in
  let idx := snd s in
  st <- (if (x =? i)%nat || (y =? i)%nat then
           ly <- rdn (lineLocationNP st) y ;;
           lx <- rdn (lineLocationNP st) x ;;
           bl <- rdn (baselines st) idx ;;
           bls <- wrn (baselines st) idx
                    {| b_vector := vsub ly lx;
                       b_wavelength := b_wavelength bl |} ;;
           Ok (set_locations st (lineLocationNP st) bls)
         else Ok st) ;;
  Ok (st, S idx).

Definition set_line_location (st : AHP_XC) (i : nat) (v : vec3)
  : result AHP_XC :=
  locs <- wrn (lineLocationNP st) i v ;;
  let st := set_locations st locs (baselines st) in
  s <- for_pairs nlines (location_pair_body i) (st, 0%nat) ;;
  Ok (fst s).

(* ------------------------------------------------------------------ *)
(** ** [AHP_XC::setupParams] (lines 666-678) *)

Definition setup_plot (size : Z) (str : dsp_stream) : dsp_stream :=
  let str := dsp_stream_set_dim0 str size in
  let str := dsp_stream_set_dim1 str size in
  dsp_stream_alloc_buffer E str (len str).

(** [size] is [(int) (float) settingsN[2].value]. *)
Definition setupParams_body (size : Z) (x : nat) (st : AHP_XC)
  : result AHP_XC :=
  p <- rdn (plot_str st) x ;;
  ps <- wrn (plot_str st) x (setup_plot size p) ;;
  Ok (set_plot_str st ps).

Definition setupParams (size : Z) (st : AHP_XC) : result AHP_XC :=
  if (0 <? nplots)%nat then for_each (upto nplots) (setupParams_body size) st
  else Ok st.

(* ------------------------------------------------------------------ *)
(** ** [AHP_XC::AHP_XC] and [AHP_XC::Handshake] *)

(** The constructor: every array is a [malloc (1)], which holds no element;
    the site and target coordinates belong to the base class. *)
Definition AHP_XC_new (lon lat ra dec : D) (t0 : timeval) : AHP_XC :=
  {| InIntegration := false; IntegrationRequest := d_zero; ExpStart := t0;
     timeleft := uninit E; Longitude := lon; Latitude := lat; RA := ra;
     Dec := dec; Altitude := uninit E; Azimuth := uninit E;
     lineEnableSP := []; lineLocationNP := []; center := []; delay := [];
     baselines := []; plot_str := []; autocorrelations_str := [];
     crosscorrelations_str := []; plotB := []; autocorrelationsB := [];
     crosscorrelationsB := []; totalcounts := []; totalcorrelations := [];
     events := [] |}.

(** [dsp_stream_new], two [dsp_stream_add_dim], [dsp_stream_alloc_buffer]. *)
Definition new_stream (w h : Z) : dsp_stream :=
  let str := dsp_stream_new2 w h in
  dsp_stream_alloc_buffer E str (len str).

(** What a new cell of an array holds until a loop of [Handshake] writes
    it. *)
Definition unset_location : vec3 :=
  {| vx := uninit E; vy := uninit E; vz := uninit E |}.
Definition unset_baseline : baseline :=
  {| b_vector := unset_location; b_wavelength := uninit E |}.
Definition unset_stream : dsp_stream :=
  {| sizes0 := 0; sizes1 := 0; len := 0; buf := [] |}.
Definition unset_switch : bool := true.

(** Lines 1009-1081: the arrays at their new sizes.  [realloc] keeps the
    cells an array had; the blob and stream arrays are resized only when
    the lag size exceeds 1, [center] is a new [malloc], the totals are
    cleared by [memset]. *)
Definition Handshake_arrays (st : AHP_XC) : AHP_XC :=
  let nb := ahp_xc_get_nbaselines E in
  let al := ahp_xc_get_autocorrelator_lagsize E in
  let cl := ahp_xc_get_crosscorrelator_lagsize E in
  {| InIntegration := InIntegration st;
     IntegrationRequest := IntegrationRequest st; ExpStart := ExpStart st;
     timeleft := timeleft st; Longitude := Longitude st;
     Latitude := Latitude st; RA := RA st; Dec := Dec st;
     Altitude := Altitude st; Azimuth := Azimuth st;
     lineEnableSP := resize nlines unset_switch (lineEnableSP st);
     lineLocationNP := resize nlines unset_location (lineLocationNP st);
     center := replicate nlines unset_location;
     delay := resize nlines (uninit E) (delay st);
     baselines := resize nb unset_baseline (baselines st);
     plot_str :=
       if (0 <? nplots)%nat then resize nplots unset_stream (plot_str st)
       else plot_str st;
     autocorrelations_str :=
       if 1 <? al then resize nlines unset_stream (autocorrelations_str st)
       else autocorrelations_str st;
     crosscorrelations_str :=
       if 1 <? cl then resize nb unset_stream (crosscorrelations_str st)
       else crosscorrelations_str st;
     plotB :=
       if (0 <? nplots)%nat then resize nplots (uninit_blob E) (plotB st)
       else plotB st;
     autocorrelationsB :=
       if 1 <? al then resize nlines (uninit_blob E) (autocorrelationsB st)
       else autocorrelationsB st;
     crosscorrelationsB :=
       if 1 <? cl then resize nb (uninit_blob E) (crosscorrelationsB st)
       else crosscorrelationsB st;
     totalcounts := replicate nlines d_zero;
     totalcorrelations :=
       replicate nb {| counts := d_zero; magnitude := d_zero |};
     events := events st |}.

(** Lines 1082-1093. *)
Definition handshake_baseline_body (x : nat) (st : AHP_XC) : result AHP_XC :=
  let cl := ahp_xc_get_crosscorrelator_lagsize E in
  st <- (if 1 <? cl then
           strs <- wrn (crosscorrelations_str st) x
                     (new_stream (wrap_int (cl * 2 - 1)) 1) ;;
           Ok (set_crosscorrelations_str st strs)
         else Ok st) ;;
  bls <- wrn (baselines st) x (new_baseline E) ;;
  Ok (set_locations st (lineLocationNP st) bls).

(** Lines 1100-1112. *)
Definition handshake_plot_body (x : nat) (st : AHP_XC) : result AHP_XC :=
  strs <- wrn (plot_str st) x (new_stream 1 1) ;;
  pb <- wrn (plotB st) x empty_blob ;;
  Ok (set_plotB (set_plot_str st strs) pb).

(** Lines 1187-1205: [IUFillBLOB] on [crosscorrelationsB[idx]] and
    [IUFillNumber] on [correlationsN[idx * 2]] and [[idx * 2 + 1]], an array
    of [2 * nbaselines] numbers. *)
Definition handshake_pair_body (x y : nat) (s : AHP_XC * nat)
  : result (AHP_XC * nat) :=
  let st := fst s in
  let idx := snd s in
  st <- (if 1 <? ahp_xc_get_crosscorrelator_lagsize E then
           cb <- wrn (crosscorrelationsB st) idx empty_blob ;;
           Ok (set_crosscorrelationsB st cb)
         else Ok st) ;;
  if (idx * 2 + 1 <? ahp_xc_get_nbaselines E * 2)%nat then Ok (st, S idx)
  else Fault OutOfBounds.

(** Lines 1115-1206: the stream, the location and the switch of line [x];
    [IUFillBLOB] on [autocorrelationsB[x]] is under the test of the
    crosscorrelator lag size (line 1177). *)
Definition handshake_line_body (x : nat) (s : AHP_XC * nat)
  : result (AHP_XC * nat) :=
  let al := ahp_xc_get_autocorrelator_lagsize E in
  let st := fst s in
  st <- (if 1 <? al then
           strs <- wrn (autocorrelations_str st) x
                     (new_stream (wrap_int al) 1) ;;
           Ok (set_autocorrelations_str st strs)
         else Ok st) ;;
  locs <- wrn (lineLocationNP st) x vzero ;;
  let st := set_locations st locs (baselines st) in
  en <- wrn (lineEnableSP st) x false ;;
  let st := set_lineEnableSP st en in
  st <- (if 1 <? ahp_xc_get_crosscorrelator_lagsize E then
           ab <- wrn (autocorrelationsB st) x empty_blob ;;
           Ok (set_autocorrelationsB st ab)
         else Ok st) ;;
  for_each (above x nlines) (handshake_pair_body x) (st, snd s).

(** [Handshake] once the correlator is connected and detected (from line
    1009 on); [plot_size] is [settingsN[2].value]. *)
Definition Handshake (st : AHP_XC) (plot_size : Z) : result AHP_XC :=
  let st := Handshake_arrays st in
  st <- for_each (upto (ahp_xc_get_nbaselines E)) handshake_baseline_body st ;;
  st <- for_each (upto nplots) handshake_plot_body st ;;
  s <- for_each (upto nlines) handshake_line_body (st, 0%nat) ;;
  setupParams plot_size (fst s).

End Tick.

End Driver.

(* ================================================================== *)
(** * Properties *)

(** ** The error monad and the loops *)

Lemma bind_Ok {A B} (m : result A) (k : A -> result B) (b : B) :
  bind m k = Ok b <-> exists a, m = Ok a /\ k a = Ok b.
Proof.
  destruct m as [a|f]; simpl; split.
  - intros H; exists a; auto.
  - intros (a' & Ha & Hk); congruence.
  - discriminate.
  - intros (a' & Ha & _); discriminate.
Qed.

Lemma for_each_app {A S} (l1 l2 : list A) (body : A -> S -> result S) (s : S) :
  for_each (l1 ++ l2) body s = (s' <- for_each l1 body s ;; for_each l2 body s').
Proof.
  revert s; induction l1 as [|a l1 IH]; intros s; simpl; [reflexivity|].
  destruct (body a s); simpl; auto.
Qed.

(** Loop invariant rule: [I done s] relates the loop-carried state to the
    iterations already made. *)
Lemma for_each_inv {A S} (I : list A -> S -> Prop) (l : list A)
  (body : A -> S -> result S) (s : S) :
  I [] s ->
  (forall done a rest s, l = done ++ a :: rest -> I done s ->
     exists s', body a s = Ok s' /\ I (done ++ [a]) s') ->
  exists s', for_each l body s = Ok s' /\ I l s'.
Proof.
  intros H0 Hstep.
  assert (G : forall rest done s, l = done ++ rest -> I done s ->
              exists s', for_each rest body s = Ok s' /\ I l s').
  { induction rest as [|a rest IH]; intros done s1 Hl Hs.
    - exists s1. rewrite app_nil_r in Hl. subst; auto.
    - destruct (Hstep done a rest s1 Hl Hs) as (s2 & Hb & Hs2).
      destruct (IH (done ++ [a]) s2) as (s3 & Hf & Hs3); auto.
      { rewrite <- app_assoc; exact Hl. }
      exists s3; simpl; rewrite Hb; auto. }
  apply (G l [] s); auto.
Qed.

(** The pairs [(x, y)], [x < y < n], in the order the nested loops visit
    them; the position of a pair is the value of [idx] at its iteration. *)
Definition pairs (n : nat) : list (nat * nat) :=
  x ← upto n; (fun y => (x, y)) <$> above x n.

Lemma for_each_bind {A B S} (l : list A) (f : A -> list B)
  (body : B -> S -> result S) (s : S) :
  for_each (l ≫= f) body s = for_each l (fun a s => for_each (f a) body s) s.
Proof.
  revert s; induction l as [|a l IH]; intros s; [reflexivity|].
  change ((a :: l) ≫= f) with (f a ++ (l ≫= f)).
  rewrite for_each_app; simpl.
  destruct (for_each (f a) body s); simpl; auto.
Qed.

Lemma for_each_fmap {A B S} (g : A -> B) (l : list A)
  (body : B -> S -> result S) (s : S) :
  for_each (g <$> l) body s = for_each l (fun a => body (g a)) s.
Proof.
  revert s; induction l as [|a l IH]; intros s; simpl; [reflexivity|].
  destruct (body (g a) s); simpl; auto.
Qed.

Lemma for_each_ext {A S} (l : list A) (f g : A -> S -> result S) (s : S) :
  (forall a s, f a s = g a s) -> for_each l f s = for_each l g s.
Proof.
  intros H; revert s; induction l as [|a l IH]; intros s; simpl; auto.
  rewrite H. destruct (g a s); simpl; auto.
Qed.

Lemma for_pairs_flat {S} (n : nat) (body : nat -> nat -> S -> result S) (s : S) :
  for_pairs n body s = for_each (pairs n) (fun p => body (fst p) (snd p)) s.
Proof.
  unfold for_pairs, pairs. rewrite for_each_bind.
  apply for_each_ext; intros x s'. rewrite for_each_fmap. reflexivity.
Qed.

Lemma elem_of_pairs (n x y : nat) :
  (x, y) ∈ pairs n <-> (x < y /\ y < n)%nat.
Proof.
  unfold pairs, upto, above. rewrite list_elem_of_bind. split.
  - intros (x' & Hy & Hx). apply list_elem_of_fmap in Hy as (y' & Heq & Hy).
    inversion Heq; subst. apply elem_of_seq in Hx, Hy. lia.
  - intros [Hxy Hy]. exists x. split.
    + apply list_elem_of_fmap. exists y. split; [reflexivity|].
      apply elem_of_seq. lia.
    + apply elem_of_seq. lia.
Qed.

Lemma NoDup_pairs (n : nat) : NoDup (pairs n).
Proof.
  unfold pairs. apply NoDup_bind.
  - intros x1 x2 p _ _ H1 H2.
    apply list_elem_of_fmap in H1 as (y1 & -> & _).
    apply list_elem_of_fmap in H2 as (y2 & Heq & _). congruence.
  - intros x _. apply NoDup_fmap_2; [|apply NoDup_seq].
    intros y1 y2 Heq; congruence.
  - apply NoDup_seq.
Qed.

(** In a list without repetition, the concatenation of pieces that are all
    empty but one is that one. *)
Lemma concat_imap_single {A B} (f : nat -> A -> list B) (l : list A)
  (k0 : nat) (a0 : A) :
  l !! k0 = Some a0 ->
  (forall k a, l !! k = Some a -> k <> k0 -> f k a = []) ->
  concat (imap f l) = f k0 a0.
Proof.
  revert f k0; induction l as [|a l IH]; intros f k0 Hk0 Hne; [discriminate|].
  simpl. destruct k0 as [|k0]; simpl in Hk0.
  - inversion Hk0; subst.
    assert (Hrest : concat (imap (f ∘ S) l) = []).
    { clear IH. assert (G : forall k a, l !! k = Some a -> (f ∘ S) k a = []).
      { intros k a' Hl. apply (Hne (S k)); [exact Hl|lia]. }
      revert G. generalize (f ∘ S). clear.
      induction l as [|a l IH]; intros g G; simpl; [reflexivity|].
      rewrite (G 0%nat a eq_refl). simpl. apply IH.
      intros k a' Hl. apply (G (S k)); exact Hl. }
    rewrite Hrest, app_nil_r. reflexivity.
  - rewrite (Hne 0%nat a eq_refl) by lia. simpl.
    apply (IH (f ∘ S) k0 Hk0).
    intros k a' Hl Hk. apply (Hne (S k)); [exact Hl|lia].
Qed.

Lemma concat_imap_nil {A B} (f : nat -> A -> list B) (l : list A) :
  (forall k a, l !! k = Some a -> f k a = []) -> concat (imap f l) = [].
Proof.
  revert f; induction l as [|a l IH]; intros f H; simpl; [reflexivity|].
  rewrite (H 0%nat a eq_refl). simpl. apply IH.
  intros k a' Hl. apply (H (S k)); exact Hl.
Qed.

Lemma for_upto_inv {St} (I : nat -> St -> Prop) (n : nat)
  (body : nat -> St -> result St) (s : St) :
  I 0%nat s ->
  (forall k s, (k < n)%nat -> I k s -> exists s', body k s = Ok s' /\ I (S k) s') ->
  exists s', for_each (upto n) body s = Ok s' /\ I n s'.
Proof.
  intros H0 Hstep. unfold upto. induction n as [|n IH].
  - exists s; auto.
  - destruct IH as (s1 & Hf & Hs1); [intros; apply Hstep; auto with lia|].
    destruct (Hstep n s1) as (s2 & Hb & Hs2); [lia|exact Hs1|].
    exists s2. rewrite seq_S, for_each_app, Hf. simpl. rewrite Hb. auto.
Qed.

Lemma rdn_Ok {A} (a : list A) (i : nat) (v : A) :
  a !! i = Some v -> rdn a i = Ok v.
Proof. unfold rdn; intros ->; reflexivity. Qed.

Lemma rdn_inv {A} (a : list A) (i : nat) (v : A) :
  rdn a i = Ok v -> a !! i = Some v.
Proof. unfold rdn; destruct (a !! i); congruence. Qed.

Lemma rdn_total `{Inhabited A} (a : list A) (i : nat) :
  (i < length a)%nat -> rdn a i = Ok (a !!! i).
Proof. intros Hi. apply rdn_Ok, list_lookup_lookup_total_lt, Hi. Qed.

Lemma rdn_Fault {A} (a : list A) (i : nat) :
  (length a <= i)%nat -> rdn a i = Fault OutOfBounds.
Proof. unfold rdn; intros Hi. rewrite lookup_ge_None_2; auto. Qed.

Lemma wrn_Ok {A} (a : list A) (i : nat) (v : A) :
  (i < length a)%nat -> wrn a i v = Ok (<[i := v]> a).
Proof.
  unfold wrn; intros Hi. destruct (Nat.ltb_spec i (length a)); [reflexivity|lia].
Qed.

Lemma rd_of_nat `{Inhabited A} (a : list A) (i : nat) :
  (i < length a)%nat -> rd a (Z.of_nat i) = Ok (a !!! i).
Proof.
  intros Hi. unfold rd. destruct (Z.ltb_spec (Z.of_nat i) 0); [lia|].
  rewrite Nat2Z.id, (list_lookup_lookup_total_lt a i Hi). reflexivity.
Qed.

Lemma rd_negative {A} (a : list A) (i : Z) :
  i < 0 -> rd a i = Fault OutOfBounds.
Proof. unfold rd; intros Hi. destruct (Z.ltb_spec i 0); [reflexivity|lia]. Qed.

Lemma wr_Ok {A} (a : list A) (i : Z) (v : A) :
  0 <= i < Z.of_nat (length a) -> wr a i v = Ok (<[Z.to_nat i := v]> a).
Proof.
  intros Hi. unfold wr. destruct (Z.ltb_spec i 0); [lia|].
  destruct (Nat.ltb_spec (Z.to_nat i) (length a)); [reflexivity|lia].
Qed.

Lemma rd_Ok `{Inhabited A} (a : list A) (i : Z) :
  0 <= i < Z.of_nat (length a) -> rd a i = Ok (a !!! Z.to_nat i).
Proof.
  intros Hi. rewrite <- (Z2Nat.id i) at 1 by lia. apply rd_of_nat. lia.
Qed.

(* ------------------------------------------------------------------ *)
(** ** Arrays written by a loop *)

(** The array [l] once the loop has written [f x] into every cell below
    [k]. *)
Definition filled {A} (f : nat -> A) (k : nat) (l : list A) : list A :=
  imap (fun x v => if (x <? k)%nat then f x else v) l.

Lemma length_filled {A} (f : nat -> A) (k : nat) (l : list A) :
  length (filled f k l) = length l.
Proof. apply length_imap. Qed.

Lemma filled_lookup {A} (f : nat -> A) (k : nat) (l : list A) (x : nat) :
  filled f k l !! x = (fun v => if (x <? k)%nat then f x else v) <$> l !! x.
Proof. apply list_lookup_imap. Qed.

Lemma filled_0 {A} (f : nat -> A) (l : list A) : filled f 0 l = l.
Proof.
  apply list_eq. intros x. rewrite filled_lookup.
  destruct (l !! x) as [v|]; reflexivity.
Qed.

Lemma filled_S {A} (f : nat -> A) (k : nat) (l : list A) :
  filled f (S k) l = <[k := f k]> (filled f k l).
Proof.
  apply list_eq. intros x. destruct (decide (x = k)) as [->|Hx].
  - destruct (l !! k) as [v|] eqn:Hv.
    + rewrite list_lookup_insert_eq
        by (rewrite length_filled; eapply lookup_lt_Some; exact Hv).
      rewrite filled_lookup, Hv. simpl.
      rewrite (proj2 (Nat.ltb_lt k (S k))) by lia. reflexivity.
    + rewrite list_insert_ge
        by (rewrite length_filled; apply lookup_ge_None; exact Hv).
      rewrite !filled_lookup, Hv. reflexivity.
  - rewrite list_lookup_insert_ne by auto. rewrite !filled_lookup.
    destruct (l !! x) as [v|]; [|reflexivity]. simpl.
    destruct (Nat.ltb_spec x (S k)), (Nat.ltb_spec x k);
      try reflexivity; lia.
Qed.

Lemma filled_total_ge `{Inhabited A} (f : nat -> A) (k : nat) (l : list A)
  (x : nat) :
  (k <= x)%nat -> filled f k l !!! x = l !!! x.
Proof.
  intros Hx. rewrite !list_lookup_total_alt, filled_lookup.
  destruct (l !! x) as [v|]; [|reflexivity]. simpl.
  destruct (Nat.ltb_spec x k); [lia|reflexivity].
Qed.

Lemma filled_full {A} (f : nat -> A) (k : nat) (l : list A) (x : nat) :
  (length l <= k)%nat -> (x < length l)%nat -> filled f k l !! x = Some (f x).
Proof.
  intros Hk Hx. rewrite filled_lookup.
  destruct (lookup_lt_is_Some_2 l x Hx) as [v ->]. simpl.
  destruct (Nat.ltb_spec x k); [reflexivity|lia].
Qed.

(** An array every cell of which has been written with [v]. *)
Lemma filled_all {A} (v : A) (n : nat) (l : list A) :
  length l = n -> filled (fun _ => v) n l = replicate n v.
Proof.
  intros Hl. apply list_eq. intros x. destruct (Nat.lt_ge_cases x n).
  - rewrite filled_full, lookup_replicate_2 by lia. reflexivity.
  - rewrite (proj2 (lookup_ge_None _ x)) by (rewrite length_filled; lia).
    symmetry. apply lookup_ge_None. rewrite length_replicate. lia.
Qed.

(* ------------------------------------------------------------------ *)
(** ** Delay compensation in closed form *)

Section DelayProps.
Context {D : Type} {AR : Arith D} {LM : Libm D}.
Variable E : @Extern D.

#[local] Instance vec3_inhabited : Inhabited (@vec3 D) := populate vzero.
#[local] Instance baseline_inhabited : Inhabited (@baseline D) :=
  populate {| b_vector := vzero; b_wavelength := d_zero |}.
#[local] Instance D_inhabited : Inhabited D := populate d_zero.

(** The arrays indexed by line and by baseline have the sizes [Handshake]
    gave them. *)
Record lines_ok (st : @AHP_XC D) : Prop := {
  ok_enable : length (lineEnableSP st) = nlines E;
  ok_location : length (lineLocationNP st) = nlines E;
  ok_center : length (center st) = nlines E;
  ok_delay : length (delay st) = nlines E;
  ok_baselines : length (baselines st) = length (pairs (nlines E))
}.

Definition enabled (st : @AHP_XC D) (x : nat) : bool := lineEnableSP st !!! x.
Definition location (st : @AHP_XC D) (x : nat) : vec3 := lineLocationNP st !!! x.

(** The enabled lines among the first [k], in increasing order. *)
Definition enabled_upto (st : @AHP_XC D) (k : nat) : list nat :=
  filter (fun x => enabled st x = true) (seq 0 k).

Definition enabled_lines (st : @AHP_XC D) : list nat := enabled_upto st (nlines E).

Lemma enabled_upto_S (st : @AHP_XC D) (k : nat) :
  enabled_upto st (S k)
  = enabled_upto st k ++ (if enabled st k then [k] else []).
Proof.
  unfold enabled_upto. rewrite seq_S, filter_app. f_equal. simpl.
  rewrite filter_cons, filter_nil. destruct (enabled st k); reflexivity.
Qed.

Lemma elem_of_enabled_upto (st : @AHP_XC D) (k x : nat) :
  x ∈ enabled_upto st k <-> (x < k)%nat /\ enabled st x = true.
Proof.
  unfold enabled_upto. rewrite list_elem_of_filter, elem_of_seq. intuition lia.
Qed.

(** What the loop of lines 299-315 leaves in [center_tmp], [first], [idx]. *)
Definition center_loop_of (st : @AHP_XC D) (ens : list nat) : center_loop :=
  match ens with
  | [] => {| center_tmp := vzero; first := -1; c_idx := 1 |}
  | f :: rest =>
      {| center_tmp :=
           foldl (fun acc x => vadd acc (vsub (location st x) (location st f)))
             vzero rest;
         first := Z.of_nat f;
         c_idx := 1 + Z.of_nat (length rest) |}
  end.

Lemma center_loop_spec (st : @AHP_XC D) :
  lines_ok st ->
  for_each (upto (nlines E)) (center_body st)
    {| center_tmp := vzero; first := -1; c_idx := 1 |}
  = Ok (center_loop_of st (enabled_lines st)).
Proof.
  intros Hok.
  destruct (for_upto_inv
    (fun k s => s = center_loop_of st (enabled_upto st k)) (nlines E)
    (center_body st) {| center_tmp := vzero; first := -1; c_idx := 1 |})
    as (s' & Hf & Hs'); [reflexivity| |rewrite Hf, Hs'; reflexivity].
  intros k s Hk ->. rewrite enabled_upto_S. unfold center_body.
  rewrite (rdn_total (lineEnableSP st) k) by (rewrite (ok_enable st Hok); lia).
  simpl. fold (enabled st k). destruct (enabled st k).
  - destruct (enabled_upto st k) as [|f rest] eqn:Hen; simpl.
    + eexists; split; reflexivity.
    + assert (Hf : f ∈ enabled_upto st k) by (rewrite Hen; left).
      apply elem_of_enabled_upto in Hf as [Hf _].
      destruct (Z.ltb_spec (-1) (Z.of_nat f)); [|lia].
      rewrite (rdn_total (lineLocationNP st) k)
        by (rewrite (ok_location st Hok); lia).
      rewrite (rd_of_nat (lineLocationNP st) f)
        by (rewrite (ok_location st Hok); lia).
      simpl. eexists; split; [reflexivity|].
      rewrite foldl_app, length_app. simpl. f_equal. lia.
  - rewrite app_nil_r. eexists; split; reflexivity.
Qed.

(** Lines 296-321: the value of [center_tmp] after line 321, when some line
    is enabled. *)
Definition center_of (st : @AHP_XC D) (f : nat) (rest : list nat) : vec3 :=
  vadd (vdiv (foldl (fun acc x => vadd acc (vsub (location st x) (location st f)))
                vzero rest)
             (d_of_int (1 + Z.of_nat (length rest))))
       (location st f).

Lemma array_center_spec (st : @AHP_XC D) (f : nat) (rest : list nat) :
  lines_ok st -> enabled_lines st = f :: rest ->
  array_center E st = Ok (center_of st f rest).
Proof.
  intros Hok Hen. unfold array_center.
  rewrite (center_loop_spec st Hok), Hen. simpl.
  assert (Hf : f ∈ enabled_lines st) by (rewrite Hen; left).
  apply elem_of_enabled_upto in Hf as [Hf _].
  rewrite (rd_of_nat (lineLocationNP st) f)
    by (rewrite (ok_location st Hok); lia).
  reflexivity.
Qed.

(** With no line enabled, line 319 reads [lineLocationNP[-1]]. *)
Lemma array_center_none_enabled (st : @AHP_XC D) :
  lines_ok st -> enabled_lines st = [] ->
  array_center E st = Fault OutOfBounds.
Proof.
  intros Hok Hen. unfold array_center.
  rewrite (center_loop_spec st Hok), Hen. reflexivity.
Qed.

(** Lines 322-336 in closed form. *)
Definition farest_step (st : @AHP_XC D) (ctr : vec3) (acc : nat * D) (x : nat)
  : nat * D :=
  let r := delay_ratio E st (vsub (location st x) ctr) in
  if d_gt r (snd acc) then (x, r) else acc.

Definition farest_of (st : @AHP_XC D) (ctr : vec3) (ens : list nat) : nat * D :=
  foldl (farest_step st ctr) (0%nat, d_zero) ens.

Definition centers_of (st : @AHP_XC D) (ctr : vec3) (ens : list nat)
  : list vec3 :=
  foldl (fun c x => <[x := vsub (location st x) ctr]> c) (center st) ens.

Lemma length_centers_of (st : @AHP_XC D) (ctr : vec3) (ens : list nat) :
  length (centers_of st ctr ens) = length (center st).
Proof.
  unfold centers_of. induction ens as [|x ens IH] using rev_ind; [reflexivity|].
  rewrite foldl_app. simpl. rewrite length_insert. exact IH.
Qed.

Lemma select_farest_spec (st : @AHP_XC D) (ctr : vec3) :
  lines_ok st ->
  select_farest E st ctr
  = Ok {| fl_center := centers_of st ctr (enabled_lines st);
          farest := fst (farest_of st ctr (enabled_lines st));
          delay_max := snd (farest_of st ctr (enabled_lines st)) |}.
Proof.
  intros Hok. unfold select_farest.
  destruct (for_upto_inv
    (fun k s => s = {| fl_center := centers_of st ctr (enabled_upto st k);
                       farest := fst (farest_of st ctr (enabled_upto st k));
                       delay_max := snd (farest_of st ctr (enabled_upto st k)) |})
    (nlines E) (farest_body E st ctr)
    {| fl_center := center st; farest := 0%nat; delay_max := d_zero |})
    as (s' & Hf & Hs'); [reflexivity| |rewrite Hf, Hs'; reflexivity].
  intros k s Hk ->. rewrite enabled_upto_S. unfold farest_body.
  rewrite (rdn_total (lineEnableSP st) k) by (rewrite (ok_enable st Hok); lia).
  simpl. fold (enabled st k). destruct (enabled st k).
  - rewrite (rdn_total (lineLocationNP st) k)
      by (rewrite (ok_location st Hok); lia).
    simpl. rewrite wrn_Ok
      by (rewrite length_centers_of, (ok_center st Hok); lia).
    simpl. eexists; split; [reflexivity|].
    unfold centers_of, farest_of. rewrite !foldl_app. simpl.
    fold (location st k).
    set (acc := foldl (farest_step st ctr) (0%nat, d_zero) (enabled_upto st k)).
    unfold farest_step. simpl. destruct (d_gt _ _); reflexivity.
  - rewrite app_nil_r. eexists; split; reflexivity.
Qed.

Lemma farest_step_cases (st : @AHP_XC D) (ctr : vec3) (acc : nat * D) (x : nat) :
  farest_step st ctr acc x = acc \/ fst (farest_step st ctr acc x) = x.
Proof. unfold farest_step. destruct (d_gt _ _); auto. Qed.

Lemma farest_fold_cases (st : @AHP_XC D) (ctr : vec3) (l : list nat)
  (acc : nat * D) :
  fst (foldl (farest_step st ctr) acc l) ∈ l
  \/ foldl (farest_step st ctr) acc l = acc.
Proof.
  induction l as [|y l IH] using rev_ind; [right; reflexivity|].
  rewrite foldl_app. simpl.
  destruct (farest_step_cases st ctr (foldl (farest_step st ctr) acc l) y)
    as [-> | ->].
  - destruct IH as [IH|IH].
    + left. apply elem_of_app. left. exact IH.
    + right. exact IH.
  - left. apply elem_of_app. right. left.
Qed.

(** The reference antenna is line 0 or an enabled line. *)
Lemma farest_of_cases (st : @AHP_XC D) (ctr : vec3) (ens : list nat) :
  fst (farest_of st ctr ens) = 0%nat \/ fst (farest_of st ctr ens) ∈ ens.
Proof.
  unfold farest_of.
  destruct (farest_fold_cases st ctr ens (0%nat, d_zero)) as [H | ->]; auto.
Qed.

Lemma farest_of_lt (st : @AHP_XC D) (ctr : vec3) :
  (0 < nlines E)%nat ->
  (fst (farest_of st ctr (enabled_lines st)) < nlines E)%nat.
Proof.
  intros Hn. destruct (farest_of_cases st ctr (enabled_lines st)) as [->|H]; [exact Hn|].
  apply elem_of_enabled_upto in H as [H _]. exact H.
Qed.

(** When some enabled line has a positive ratio the reference is an enabled
    line. *)
Lemma farest_of_positive (st : @AHP_XC D) (ctr : vec3) (ens : list nat) (x : nat) :
  x ∈ ens ->
  d_gt (delay_ratio E st (vsub (location st x) ctr)) d_zero = true ->
  fst (farest_of st ctr ens) ∈ ens.
Proof.
  intros Hx Hpos.
  apply list_elem_of_split in Hx as (l1 & l2 & ->).
  unfold farest_of. rewrite foldl_app. simpl.
  set (acc1 := foldl (farest_step st ctr) (0%nat, d_zero) l1).
  assert (H2 : fst (farest_step st ctr acc1 x) ∈ l1 ++ [x]).
  { destruct (farest_fold_cases st ctr l1 (0%nat, d_zero)) as [Hin|Heq];
      fold acc1 in Hin || fold acc1 in Heq.
    - destruct (farest_step_cases st ctr acc1 x) as [-> | ->].
      + apply elem_of_app. left. exact Hin.
      + apply elem_of_app. right. left.
    - unfold farest_step. rewrite Heq. simpl. rewrite Hpos. simpl.
      apply elem_of_app. right. left. }
  destruct (farest_fold_cases st ctr l2 (farest_step st ctr acc1 x)) as [Hin|Heq].
  - apply elem_of_app. right. right. exact Hin.
  - rewrite Heq. apply elem_of_app in H2 as [H2|H2].
    + apply elem_of_app. left. exact H2.
    + apply list_elem_of_singleton in H2. rewrite H2.
      apply elem_of_app. right. left.
Qed.

(** Lines 340-365 in closed form: the writes [delay[line] = d] of the pair
    loop, in order; each comes with the two hardware commands of
    [set_pair_delay]. *)
Definition pair_delay (st : @AHP_XC D) (k : nat) : D :=
  d_fabs (getDelay E (baselines st !!! k) (Altitude st) (Azimuth st)).

Definition pair_writes (st : @AHP_XC D) (far : nat) (k : nat) (p : nat * nat)
  : list (nat * D) :=
  if enabled st (fst p) && enabled st (snd p) then
    (if (snd p =? far)%nat then [(fst p, pair_delay st k)] else [])
    ++ (if (fst p =? far)%nat then [(snd p, pair_delay st k)] else [])
  else [].

Definition delay_writes (st : @AHP_XC D) (far : nat) : list (nat * D) :=
  concat (imap (pair_writes st far) (pairs (nlines E))).

Definition apply_writes (dl : list D) (ws : list (nat * D)) : list D :=
  foldl (fun dl w => <[fst w := snd w]> dl) dl ws.

Definition write_cmds (ws : list (nat * D)) : list (@event D) :=
  w ← ws; [ahp_xc_set_channel_auto (fst w) 0 1 1;
           ahp_xc_set_channel_cross (fst w) (delay_clocks_of E (snd w)) 1 1].

Lemma length_apply_writes (dl : list D) (ws : list (nat * D)) :
  length (apply_writes dl ws) = length dl.
Proof.
  unfold apply_writes. induction ws as [|w ws IH] using rev_ind; [reflexivity|].
  rewrite foldl_app. simpl. rewrite length_insert. exact IH.
Qed.

Lemma both_enabled_spec (st : @AHP_XC D) (x y : nat) :
  (x < length (lineEnableSP st))%nat -> (y < length (lineEnableSP st))%nat ->
  both_enabled st x y = Ok (enabled st x && enabled st y).
Proof.
  intros Hx Hy. unfold both_enabled, enabled.
  rewrite (rdn_total _ x Hx). simpl.
  destruct (lineEnableSP st !!! x); [|reflexivity].
  rewrite (rdn_total _ y Hy). reflexivity.
Qed.

Lemma set_pair_delay_spec (st : @AHP_XC D) (dl : list D) (ev : list (@event D))
  (line : nat) (d : D) :
  (line < length dl)%nat ->
  set_pair_delay E (set_events (set_delay st dl) ev) line d
  = Ok (set_events (set_delay st (<[line := d]> dl))
          (ev ++ [ahp_xc_set_channel_auto line 0 1 1;
                  ahp_xc_set_channel_cross line (delay_clocks_of E d) 1 1])).
Proof.
  intros Hl. unfold set_pair_delay. simpl. rewrite wrn_Ok by exact Hl.
  reflexivity.
Qed.

Lemma pairs_split_inv (n : nat) (done rest : list (nat * nat)) (p : nat * nat) :
  pairs n = done ++ p :: rest ->
  (fst p < snd p)%nat /\ (snd p < n)%nat
  /\ (length done < length (pairs n))%nat.
Proof.
  intros Hp. assert (Hin : p ∈ pairs n).
  { rewrite Hp. apply elem_of_app. right. left. }
  destruct p as [x y]. apply elem_of_pairs in Hin. simpl.
  rewrite Hp, length_app. simpl. lia.
Qed.

Lemma delay_pair_loop_spec (st : @AHP_XC D) (far : nat) :
  lines_ok st ->
  for_pairs (nlines E) (delay_pair_body E far) (st, 0%nat)
  = Ok (set_events (set_delay st (apply_writes (delay st) (delay_writes st far)))
          (events st ++ write_cmds (delay_writes st far)),
        length (pairs (nlines E))).
Proof.
  intros Hok. rewrite for_pairs_flat.
  destruct (for_each_inv
    (fun done s =>
       s = (set_events
              (set_delay st
                 (apply_writes (delay st) (concat (imap (pair_writes st far) done))))
              (events st ++ write_cmds (concat (imap (pair_writes st far) done))),
            length done))
    (pairs (nlines E)) (fun p => delay_pair_body E far (fst p) (snd p))
    (st, 0%nat)) as (s' & Hf & Hs').
  - simpl. unfold write_cmds. simpl. rewrite app_nil_r.
    destruct st; reflexivity.
  - intros done p rest s Hp ->.
    destruct (pairs_split_inv _ _ _ _ Hp) as (Hxy & Hy & Hidx).
    destruct p as [x y]. simpl in Hxy, Hy.
    rewrite imap_app, concat_app. simpl. rewrite app_nil_r, Nat.add_0_r.
    set (W := concat (imap (pair_writes st far) done)).
    unfold delay_pair_body. cbn [fst snd].
    rewrite both_enabled_spec
      by (cbn; rewrite (ok_enable st Hok); lia).
    change (enabled (set_events _ _) ?a) with (enabled st a).
    unfold pair_writes. cbn [fst snd bind].
    destruct (enabled st x && enabled st y).
    + rewrite (rdn_total (baselines _) (length done))
        by (cbn; rewrite (ok_baselines st Hok); exact Hidx).
      cbn [bind].
      change (d_fabs (getDelay E (baselines (set_events _ _) !!! length done) _ _))
        with (pair_delay st (length done)).
      assert (HlW : forall W', length (apply_writes (delay st) W') = nlines E).
      { intros W'. rewrite length_apply_writes. apply (ok_delay st Hok). }
      destruct (Nat.eqb_spec y far) as [Hyf|Hyf];
        destruct (Nat.eqb_spec x far) as [Hxf|Hxf].
      * rewrite set_pair_delay_spec by (rewrite HlW; lia). cbn [bind].
        rewrite set_pair_delay_spec by (rewrite length_insert, HlW; lia).
        eexists; split; [reflexivity|].
        unfold apply_writes, write_cmds.
        rewrite foldl_app, bind_app, length_app. simpl.
        rewrite <- !app_assoc, Nat.add_1_r. reflexivity.
      * rewrite set_pair_delay_spec by (rewrite HlW; lia). cbn [bind].
        eexists; split; [reflexivity|].
        unfold apply_writes, write_cmds.
        rewrite foldl_app, bind_app, length_app. simpl.
        rewrite <- !app_assoc, Nat.add_1_r. reflexivity.
      * cbn [bind].
        rewrite set_pair_delay_spec by (rewrite HlW; lia).
        eexists; split; [reflexivity|].
        unfold apply_writes, write_cmds.
        rewrite foldl_app, bind_app, length_app. simpl.
        rewrite <- !app_assoc, Nat.add_1_r. reflexivity.
      * cbn [bind]. eexists; split; [reflexivity|].
        rewrite !app_nil_r, length_app, Nat.add_1_r. reflexivity.
    + eexists; split; [reflexivity|].
      rewrite !app_nil_r, length_app, Nat.add_1_r. reflexivity.
  - rewrite Hf, Hs'. reflexivity.
Qed.

(** Lines 296-365 in closed form, when some line is enabled: [f] is the
    first enabled line, [rest] the others. *)
Definition reference (st : @AHP_XC D) : nat :=
  match enabled_lines st with
  | [] => 0%nat
  | f :: rest =>
      fst (farest_of st (center_of st f rest) (f :: rest))
  end.

Definition reference_cmds (far : nat) : list (@event D) :=
  [ahp_xc_set_channel_auto far 0 1 1; ahp_xc_set_channel_cross far 0 1 1].

Lemma delay_compensation_spec (st : @AHP_XC D) (f : nat) (rest : list nat) :
  lines_ok st -> enabled_lines st = f :: rest ->
  delay_compensation E st
  = Ok (set_events
          (set_delay
             (set_center st (centers_of st (center_of st f rest) (f :: rest)))
             (apply_writes (<[reference st := d_zero]> (delay st))
                (delay_writes st (reference st))))
          (events st ++ reference_cmds (reference st)
           ++ write_cmds (delay_writes st (reference st)))).
Proof.
  intros Hok Hen. unfold delay_compensation, reference.
  rewrite (array_center_spec st f rest Hok Hen). cbn [bind].
  rewrite (select_farest_spec st _ Hok). cbn [bind fl_center farest].
  rewrite Hen.
  set (ctr := center_of st f rest).
  set (far := fst (farest_of st ctr (f :: rest))).
  assert (Hf : (f < nlines E)%nat).
  { assert (H : f ∈ enabled_lines st) by (rewrite Hen; left).
    apply elem_of_enabled_upto in H as [H _]. exact H. }
  assert (Hfar : (far < nlines E)%nat).
  { unfold far. rewrite <- Hen. apply farest_of_lt. lia. }
  rewrite wrn_Ok by (cbn; rewrite (ok_delay st Hok); exact Hfar).
  cbn [bind].
  match goal with |- context [for_pairs _ _ (?s, _)] => set (st1 := s) end.
  assert (Hok1 : lines_ok st1).
  { destruct Hok as [H1 H2 H3 H4 H5]. constructor.
    - exact H1.
    - exact H2.
    - exact (eq_trans (length_centers_of st ctr (f :: rest)) H3).
    - exact (eq_trans (length_insert (delay st) far d_zero) H4).
    - exact H5. }
  rewrite (delay_pair_loop_spec st1 far Hok1). cbn [bind fst].
  change (delay_writes st1 far) with (delay_writes st far).
  change (events st1) with (events st ++ reference_cmds far).
  rewrite <- app_assoc. reflexivity.
Qed.

(** With no line enabled the tick reads outside [lineLocationNP]. *)
Lemma delay_compensation_none_enabled (st : @AHP_XC D) :
  lines_ok st -> enabled_lines st = [] ->
  delay_compensation E st = Fault OutOfBounds.
Proof.
  intros Hok Hen. unfold delay_compensation.
  rewrite (array_center_none_enabled st Hok Hen). reflexivity.
Qed.

(* ------------------------------------------------------------------ *)
(** ** Hardware tick counts assigned by a delay-compensation tick *)

(** The tick counts sent to channel [z] by [ahp_xc_set_channel_cross], in
    order. *)
Definition cross_values (z : nat) (evs : list (@event D)) : list Z :=
  omap (fun e => match e with
                 | ahp_xc_set_channel_cross i v _ _ =>
                     if (i =? z)%nat then Some v else None
                 | _ => None
                 end) evs.

Lemma cross_values_app (z : nat) (e1 e2 : list (@event D)) :
  cross_values z (e1 ++ e2) = cross_values z e1 ++ cross_values z e2.
Proof. apply omap_app. Qed.

Lemma write_cmds_app (w1 w2 : list (nat * D)) :
  write_cmds (w1 ++ w2) = write_cmds w1 ++ write_cmds w2.
Proof. apply bind_app. Qed.

Lemma cross_values_concat {A} (z : nat) (f : nat -> A -> list (nat * D))
  (l : list A) :
  cross_values z (write_cmds (concat (imap f l)))
  = concat (imap (fun k a => cross_values z (write_cmds (f k a))) l).
Proof.
  revert f; induction l as [|a l IH]; intros f; [reflexivity|].
  simpl. rewrite write_cmds_app, cross_values_app. f_equal. apply IH.
Qed.

Lemma pair_cross_values (st : @AHP_XC D) (far z k x y : nat) :
  (x < y)%nat ->
  cross_values z (write_cmds (pair_writes st far k (x, y)))
  = if enabled st x && enabled st y
       && ((y =? far)%nat && (x =? z)%nat || (x =? far)%nat && (y =? z)%nat)
    then [delay_clocks_of E (pair_delay st k)] else [].
Proof.
  intros Hxy. unfold pair_writes. cbn [fst snd].
  destruct (enabled st x && enabled st y); [|reflexivity].
  destruct (Nat.eqb_spec y far), (Nat.eqb_spec x far),
    (Nat.eqb_spec x z), (Nat.eqb_spec y z); simpl;
    repeat match goal with
           | |- context [(?a =? ?b)%nat] => destruct (Nat.eqb_spec a b)
           end; simpl; try reflexivity; lia.
Qed.

Lemma clamp_clocks_range (dc : Z) :
  1 <= ahp_xc_get_delaysize E < 2 ^ 32 ->
  0 <= clamp_clocks E dc <= ahp_xc_get_delaysize E - 1.
Proof.
  intros Hds. unfold clamp_clocks, wrap_uint.
  rewrite !Z.mod_small by lia.
  destruct (Z.ltb_spec 0 dc); [|lia].
  destruct (Z.ltb_spec dc (ahp_xc_get_delaysize E)); lia.
Qed.

(** The reference channel receives tick count 0 and nothing else. *)
Lemma cross_values_reference (st : @AHP_XC D) (far : nat) :
  cross_values far (reference_cmds far ++ write_cmds (delay_writes st far)) = [0].
Proof.
  rewrite cross_values_app. unfold reference_cmds at 1. simpl.
  rewrite Nat.eqb_refl. unfold delay_writes.
  rewrite cross_values_concat, concat_imap_nil; [reflexivity|].
  intros k [x y] Hk. apply list_elem_of_lookup_2, elem_of_pairs in Hk.
  rewrite pair_cross_values by lia.
  destruct (Nat.eqb_spec y far), (Nat.eqb_spec x far); simpl;
    rewrite ?andb_false_r; try reflexivity; try lia.
Qed.

(** Any other enabled line [z], when the reference is enabled, receives
    exactly the tick count of the baseline that joins it to the
    reference. *)
Lemma cross_values_other (st : @AHP_XC D) (far z : nat) :
  (far < nlines E)%nat -> (z < nlines E)%nat -> z <> far ->
  enabled st far = true -> enabled st z = true ->
  exists k,
    pairs (nlines E) !! k = Some (Nat.min z far, Nat.max z far)
    /\ cross_values z (reference_cmds far ++ write_cmds (delay_writes st far))
       = [delay_clocks_of E (pair_delay st k)].
Proof.
  intros Hfar Hz Hne Hef Hez.
  assert (Hin : (Nat.min z far, Nat.max z far) ∈ pairs (nlines E))
    by (apply elem_of_pairs; lia).
  apply list_elem_of_lookup_1 in Hin as (k0 & Hk0).
  exists k0. split; [exact Hk0|].
  rewrite cross_values_app. unfold reference_cmds at 1. simpl.
  destruct (Nat.eqb_spec far z) as [Heq|_]; [congruence|].
  unfold delay_writes. rewrite cross_values_concat.
  rewrite (concat_imap_single _ _ k0 _ Hk0).
  - rewrite pair_cross_values by lia.
    destruct (Nat.le_gt_cases z far).
    + rewrite Nat.min_l, Nat.max_r by lia. rewrite Hez, Hef, !Nat.eqb_refl.
      reflexivity.
    + rewrite Nat.min_r, Nat.max_l by lia. rewrite Hez, Hef, !Nat.eqb_refl.
      simpl. rewrite orb_true_r. reflexivity.
  - intros k [x y] Hk Hkk.
    assert (Hp : (x, y) <> (Nat.min z far, Nat.max z far)).
    { intros Heq. apply Hkk.
      apply (NoDup_lookup _ _ _ _ (NoDup_pairs (nlines E)) Hk).
      rewrite Heq. exact Hk0. }
    apply list_elem_of_lookup_2, elem_of_pairs in Hk.
    rewrite pair_cross_values by lia.
    destruct (Nat.eqb_spec y far), (Nat.eqb_spec x z),
      (Nat.eqb_spec x far), (Nat.eqb_spec y z); simpl;
      rewrite ?andb_false_r; try reflexivity; exfalso; apply Hp; f_equal; lia.
Qed.

(** A line that is not enabled and is not the reference receives nothing. *)
Lemma cross_values_disabled (st : @AHP_XC D) (far z : nat) :
  z <> far -> enabled st z = false ->
  cross_values z (reference_cmds far ++ write_cmds (delay_writes st far)) = [].
Proof.
  intros Hne Hez. rewrite cross_values_app. unfold reference_cmds at 1. simpl.
  destruct (Nat.eqb_spec far z) as [Heq|_]; [congruence|].
  unfold delay_writes. rewrite cross_values_concat, concat_imap_nil; [reflexivity|].
  intros k [x y] Hk. apply list_elem_of_lookup_2, elem_of_pairs in Hk.
  rewrite pair_cross_values by lia.
  destruct (Nat.eqb_spec x z), (Nat.eqb_spec y z); subst;
    rewrite ?Hez, ?andb_false_r, ?orb_false_r; simpl; try reflexivity.
Qed.

(** C1 (amended).  On a delay-compensation tick with at least one enabled
    line, the reference antenna [reference st] is sent hardware tick count 0
    and nothing else.  When the reference is itself an enabled line, every
    other enabled line [z] is sent exactly one tick count: that of the
    baseline joining it to the reference, computed as
    [|delay| * clock_frequency / LIGHTSPEED], converted to an unsigned
    integer and clamped, hence in [0, delaysize - 1] (it may be 0 as well).
    Lines that are neither enabled nor the reference are sent nothing. *)
Theorem delay_tick_counts (st : @AHP_XC D) :
  lines_ok st -> enabled_lines st <> [] ->
  1 <= ahp_xc_get_delaysize E < 2 ^ 32 ->
  exists st' evs,
    delay_compensation E st = Ok st'
    /\ events st' = events st ++ evs
    /\ cross_values (reference st) evs = [0]
    /\ (enabled st (reference st) = true ->
        forall z, (z < nlines E)%nat -> enabled st z = true ->
                  z <> reference st ->
        exists k v,
          pairs (nlines E) !! k
          = Some (Nat.min z (reference st), Nat.max z (reference st))
          /\ cross_values z evs = [v]
          /\ v = clamp_clocks E
                   (d_to_uint
                      (d_div (d_mul (pair_delay st k)
                                    (d_of_int (ahp_xc_get_frequency E)))
                             (LIGHTSPEED E)))
          /\ 0 <= v <= ahp_xc_get_delaysize E - 1)
    /\ (forall z, z <> reference st -> enabled st z = false ->
                  cross_values z evs = []).
Proof.
  intros Hok Hen Hds.
  destruct (enabled_lines st) as [|f rest] eqn:Hl; [congruence|].
  eexists _, _. split; [apply (delay_compensation_spec st f rest Hok Hl)|].
  split; [reflexivity|]. split; [apply cross_values_reference|]. split.
  - intros Hef z Hz Hez Hne.
    assert (Hfar : (reference st < nlines E)%nat).
    { unfold reference. rewrite Hl. rewrite <- Hl. apply farest_of_lt. lia. }
    destruct (cross_values_other st (reference st) z Hfar Hz Hne Hef Hez)
      as (k & Hk & Hv).
    exists k, (delay_clocks_of E (pair_delay st k)).
    split; [exact Hk|]. split; [exact Hv|]. split; [reflexivity|].
    apply clamp_clocks_range, Hds.
  - intros z Hne Hez. apply cross_values_disabled; assumption.
Qed.

Lemma delay_writes_single (st : @AHP_XC D) (f far : nat) :
  enabled_lines st = [f] -> delay_writes st far = [].
Proof.
  intros Hen. unfold delay_writes. apply concat_imap_nil.
  intros k [x y] Hk. apply list_elem_of_lookup_2, elem_of_pairs in Hk.
  unfold pair_writes. cbn [fst snd].
  destruct (enabled st x) eqn:Hx, (enabled st y) eqn:Hy; try reflexivity.
  assert (Hxin : x ∈ enabled_lines st) by (apply elem_of_enabled_upto; split; [lia|auto]).
  assert (Hyin : y ∈ enabled_lines st) by (apply elem_of_enabled_upto; split; [lia|auto]).
  rewrite Hen in Hxin, Hyin.
  apply list_elem_of_singleton in Hxin, Hyin. lia.
Qed.

(** C7 (amended).  With exactly one enabled line [f], a delay-compensation
    tick makes no access out of bounds, and its pair loop writes no delay
    and issues no command.  What the tick does is pin the reference: it
    sets [delay[reference]] to 0 and sends the two commands that put the
    reference channel at tick count 0 (besides storing the relative position
    of [f]). *)
Theorem single_antenna_tick (st : @AHP_XC D) (f : nat) :
  lines_ok st -> enabled_lines st = [f] ->
  delay_compensation E st
  = Ok (set_events
          (set_delay
             (set_center st
                (<[f := vsub (location st f) (center_of st f [])]> (center st)))
             (<[reference st := d_zero]> (delay st)))
          (events st ++ reference_cmds (reference st))).
Proof.
  intros Hok Hen.
  rewrite (delay_compensation_spec st f [] Hok Hen).
  rewrite (delay_writes_single st f _ Hen). simpl.
  unfold write_cmds. simpl. reflexivity.
Qed.

Lemma centers_of_lookup (st : @AHP_XC D) (ctr : vec3) (ens : list nat) (x : nat) :
  (x < length (center st))%nat ->
  centers_of st ctr ens !! x
  = if decide (x ∈ ens) then Some (vsub (location st x) ctr)
    else center st !! x.
Proof.
  intros Hx. unfold centers_of.
  induction ens as [|y ens IH] using rev_ind.
  - simpl. destruct (decide (x ∈ [])) as [H|_]; [|reflexivity].
    apply elem_of_nil in H. destruct H.
  - rewrite foldl_app. simpl. destruct (decide (x = y)) as [->|Hne].
    + rewrite list_lookup_insert_eq.
      * destruct (decide (y ∈ ens ++ [y])) as [_|H]; [reflexivity|].
        exfalso. apply H. apply elem_of_app. right. left.
      * fold (centers_of st ctr ens). rewrite length_centers_of. exact Hx.
    + rewrite list_lookup_insert_ne by auto. rewrite IH.
      destruct (decide (x ∈ ens)) as [H|H];
        destruct (decide (x ∈ ens ++ [y])) as [H'|H']; try reflexivity.
      * exfalso. apply H'. apply elem_of_app. left. exact H.
      * exfalso. apply elem_of_app in H' as [H'|H']; [auto|].
        apply list_elem_of_singleton in H'. auto.
Qed.

(** C3 (amended).  With at least one enabled line, the phase centre a
    delay-compensation tick computes is the position of the first enabled
    line plus the sum, over the enabled lines after it in increasing
    order, of their offsets from it, divided by the number of enabled
    lines; every operation is an operation on doubles.  The disabled lines
    do not enter.  The relative position stored for each enabled line is
    its position minus that centre, and the entries of the disabled lines
    are left as they were. *)
Theorem phase_center_formula (st : @AHP_XC D) :
  lines_ok st -> enabled_lines st <> [] ->
  exists f rest c st',
    enabled_lines st = f :: rest
    /\ array_center E st = Ok c
    /\ c = vadd
             (vdiv
                (foldl (fun acc x =>
                          vadd acc (vsub (location st x) (location st f)))
                   vzero rest)
                (d_of_int (1 + Z.of_nat (length rest))))
             (location st f)
    /\ delay_compensation E st = Ok st'
    /\ (forall x, x ∈ enabled_lines st ->
          center st' !! x = Some (vsub (location st x) c))
    /\ (forall x, x ∉ enabled_lines st -> center st' !! x = center st !! x).
Proof.
  intros Hok Hen. destruct (enabled_lines st) as [|f rest] eqn:Hl; [congruence|].
  exists f, rest, (center_of st f rest). eexists.
  split; [reflexivity|].
  split; [apply (array_center_spec st f rest Hok Hl)|].
  split; [reflexivity|].
  split; [apply (delay_compensation_spec st f rest Hok Hl)|].
  split.
  - intros x Hx.
    change (centers_of st (center_of st f rest) (f :: rest) !! x
            = Some (vsub (location st x) (center_of st f rest))).
    rewrite centers_of_lookup.
    + destruct (decide (x ∈ f :: rest)) as [_|H]; [reflexivity|contradiction].
    + rewrite (ok_center st Hok). rewrite <- Hl in Hx.
      apply elem_of_enabled_upto in Hx as [Hx _]. exact Hx.
  - intros x Hx.
    change (centers_of st (center_of st f rest) (f :: rest) !! x
            = center st !! x).
    destruct (Nat.lt_ge_cases x (length (center st))) as [Hlt|Hge].
    + rewrite centers_of_lookup by exact Hlt.
      destruct (decide (x ∈ f :: rest)) as [H|_]; [contradiction|reflexivity].
    + rewrite (proj2 (lookup_ge_None (center st) x)) by exact Hge.
      apply lookup_ge_None. rewrite length_centers_of. exact Hge.
Qed.

End DelayProps.

(* ------------------------------------------------------------------ *)
(** ** Accumulation: one more row per stream *)

Lemma wrap_int_small (z : Z) : - 2 ^ 31 <= z <= INT_MAX -> wrap_int z = z.
Proof.
  unfold wrap_int, INT_MAX. intros Hz. rewrite Z.mod_small; lia.
Qed.

Lemma wrap_uint_small (z : Z) : 0 <= z < 2 ^ 32 -> wrap_uint z = z.
Proof. unfold wrap_uint. intros Hz. apply Z.mod_small; lia. Qed.

Section StreamProps.
Context {D : Type} {AR : Arith D} {LM : Libm D}.
Variable E : @Extern D.

(** A stream of width [w]: at least one row, [len] cells. *)
Record stream_wf (w : Z) (s : @dsp_stream D) : Prop := {
  sw_width : sizes0 s = w;
  sw_height : 1 <= sizes1 s;
  sw_len : len s = w * sizes1 s;
  sw_buf : length (buf s) = Z.to_nat (len s)
}.

(** Room for [k] more rows within an [int]. *)
Definition stream_room (k : Z) (s : @dsp_stream D) : Prop :=
  0 <= sizes0 s /\ len s + k * sizes0 s <= INT_MAX.

(** A sample of the packet fits a stream of width [w]. *)
Record sample_ok (w : Z) (smp : @ahp_xc_sample D) : Prop := {
  sm_size : Z.of_nat (lag_size smp) = w;
  sm_len : length (correlations smp) = lag_size smp
}.

Definition magnitudes (smp : @ahp_xc_sample D) : list D :=
  magnitude <$> correlations smp.

(** Row [r] of a stream. *)
Definition stream_row (s : @dsp_stream D) (r : nat) : list D :=
  take (Z.to_nat (sizes0 s)) (drop (r * Z.to_nat (sizes0 s)) (buf s)).

(** The rows that hold data: all but the last one, which is the spare row
    the next tick writes. *)
Definition data_rows (s : @dsp_stream D) : list D :=
  take (Z.to_nat (len s - sizes0 s)) (buf s).

Lemma write_lags_spec (smp : @ahp_xc_sample D) (pos : nat) (b : list D) :
  length (correlations smp) = lag_size smp ->
  (pos + lag_size smp <= length b)%nat ->
  write_lags smp (Z.of_nat pos) b
  = Ok (take pos b ++ magnitudes smp ++ drop (pos + lag_size smp) b).
Proof.
  intros Hlen Hb. unfold write_lags.
  destruct (for_upto_inv
    (fun i b' => b' = take pos b ++ take i (magnitudes smp) ++ drop (pos + i) b)
    (lag_size smp)
    (fun i b0 => c <- rdn (correlations smp) i ;;
                 wr b0 (Z.of_nat pos + Z.of_nat i) (magnitude c)) b)
    as (b' & Hf & Hb').
  - simpl. rewrite Nat.add_0_r, take_drop. reflexivity.
  - intros i b0 Hi ->.
    destruct (lookup_lt_is_Some_2 (correlations smp) i) as [c Hc]; [lia|].
    rewrite (rdn_Ok _ _ _ Hc). cbn [bind].
    assert (Hm : magnitudes smp !! i = Some (magnitude c)).
    { unfold magnitudes. rewrite list_lookup_fmap, Hc. reflexivity. }
    assert (Hlm : length (magnitudes smp) = lag_size smp).
    { unfold magnitudes. rewrite length_fmap. exact Hlen. }
    rewrite wr_Ok.
    2:{ rewrite !length_app, length_take, length_take, length_drop. lia. }
    eexists; split; [reflexivity|].
    replace (Z.to_nat (Z.of_nat pos + Z.of_nat i)) with (pos + i)%nat by lia.
    rewrite app_assoc.
    rewrite insert_app_r_alt
      by (rewrite length_app, !length_take; lia).
    rewrite length_app, !length_take.
    replace (pos + i - (pos `min` length b + i `min` length (magnitudes smp)))%nat
      with 0%nat by lia.
    destruct (drop (pos + i) b) as [|y tl] eqn:Hd.
    { apply (f_equal length) in Hd. rewrite length_drop in Hd. simpl in Hd. lia. }
    simpl. rewrite (take_S_r _ _ _ Hm).
    replace (pos + S i)%nat with (S (pos + i)) by lia.
    assert (Hd' : drop (S (pos + i)) b = tl).
    { rewrite <- Nat.add_1_r, <- drop_drop, Hd. reflexivity. }
    rewrite Hd', <- !app_assoc. reflexivity.
  - rewrite Hf, Hb'. rewrite (take_ge (magnitudes smp)); [reflexivity|].
    unfold magnitudes. rewrite length_fmap. lia.
Qed.

(** [append_row] in closed form: the spare row receives the magnitudes of
    the sample and a new spare row is allocated. *)
Definition appended (s : @dsp_stream D) (smp : @ahp_xc_sample D) : dsp_stream :=
  {| sizes0 := sizes0 s; sizes1 := sizes1 s + 1; len := len s + sizes0 s;
     buf := data_rows s ++ magnitudes smp
            ++ replicate (Z.to_nat (sizes0 s)) (uninit E) |}.

Lemma append_row_spec (w : Z) (s : @dsp_stream D) (smp : @ahp_xc_sample D) :
  1 <= w -> stream_wf w s -> stream_room 1 s -> sample_ok w smp ->
  append_row E s smp = Ok (appended s smp).
Proof.
  intros Hw [Hsw Hsh Hsl Hsb] [_ Hroom] [Hms Hml].
  unfold append_row, INT_MAX in *.
  assert (Hlen : 0 <= len s - sizes0 s) by nia.
  rewrite !wrap_int_small by (unfold INT_MAX; nia).
  rewrite wrap_uint_small by nia.
  replace (len s - sizes0 s) with (Z.of_nat (Z.to_nat (len s - sizes0 s))) at 1 by lia.
  unfold realloc. rewrite resize_ge by lia.
  rewrite write_lags_spec.
  2:{ exact Hml. }
  2:{ rewrite length_app, length_replicate. lia. }
  cbn [bind]. unfold appended, data_rows. f_equal. f_equal.
  rewrite take_app_le by lia. f_equal. f_equal.
  rewrite drop_app_ge by lia.
  rewrite drop_replicate. f_equal. lia.
Qed.

Lemma appended_wf (w : Z) (s : @dsp_stream D) (smp : @ahp_xc_sample D) :
  1 <= w -> stream_wf w s -> sample_ok w smp -> stream_wf w (appended s smp).
Proof.
  intros Hw [Hsw Hsh Hsl Hsb] [Hms Hml]. constructor; cbn.
  - exact Hsw.
  - lia.
  - rewrite Hsl, Hsw. ring.
  - unfold data_rows, magnitudes.
    rewrite !length_app, length_take, length_fmap, length_replicate. nia.
Qed.

Lemma appended_room (k : Z) (s : @dsp_stream D) (smp : @ahp_xc_sample D) :
  stream_room (k + 1) s -> stream_room k (appended s smp).
Proof. unfold stream_room. cbn. intros [H0 H1]. split; [exact H0|nia]. Qed.

Lemma appended_data_rows (w : Z) (s : @dsp_stream D) (smp : @ahp_xc_sample D) :
  1 <= w -> stream_wf w s -> sample_ok w smp ->
  data_rows (appended s smp) = data_rows s ++ magnitudes smp.
Proof.
  intros Hw [Hsw Hsh Hsl Hsb] [Hms Hml]. unfold data_rows at 1. cbn.
  replace (len s + sizes0 s - sizes0 s) with (len s) by lia.
  rewrite app_assoc. rewrite take_app_le.
  2:{ unfold data_rows, magnitudes.
      rewrite length_app, length_take, length_fmap. nia. }
  apply take_ge. unfold data_rows, magnitudes.
  rewrite length_app, length_take, length_fmap. nia.
Qed.

#[local] Instance dsp_stream_inhabited : Inhabited (@dsp_stream D) :=
  populate {| sizes0 := 0; sizes1 := 0; len := 0; buf := [] |}.
#[local] Instance sample_inhabited : Inhabited (@ahp_xc_sample D) :=
  populate {| lag_size := 0; correlations := [] |}.

(** Lines 398-407 and 411-420: every stream of the array gets its row. *)
Lemma append_rows_spec (w : Z) (strs : list (@dsp_stream D))
  (smps : list (@ahp_xc_sample D)) (n : nat) :
  1 <= w -> length strs = n -> length smps = n ->
  Forall (stream_wf w) strs -> Forall (stream_room 1) strs ->
  Forall (sample_ok w) smps ->
  append_rows E strs smps n = Ok (zip_with (appended) strs smps).
Proof.
  intros Hw Hls Hlp Hwf Hroom Hsm. unfold append_rows.
  destruct (for_upto_inv
    (fun k (l : list (@dsp_stream D)) =>
       length l = n
       /\ forall x, (x < n)%nat ->
            l !! x = Some (if (x <? k)%nat
                           then appended (strs !!! x) (smps !!! x)
                           else strs !!! x))
    n
    (fun x l => str <- rdn l x ;; smp <- rdn smps x ;;
                str' <- append_row E str smp ;; wrn l x str')
    strs) as (l' & Hf & Hl' & Hlk).
  - split; [exact Hls|]. intros x Hx. simpl.
    apply list_lookup_lookup_total_lt. lia.
  - intros k l Hk [Hl Hlk].
    rewrite (rdn_Ok l k _ (Hlk k Hk)). rewrite Nat.ltb_irrefl. cbn [bind].
    rewrite (rdn_total smps k) by lia. cbn [bind].
    assert (Hsk : strs !! k = Some (strs !!! k))
      by (apply list_lookup_lookup_total_lt; lia).
    assert (Hpk : smps !! k = Some (smps !!! k))
      by (apply list_lookup_lookup_total_lt; lia).
    rewrite (append_row_spec w).
    2:{ exact Hw. }
    2:{ exact (proj1 (Forall_lookup _ _) Hwf k _ Hsk). }
    2:{ exact (proj1 (Forall_lookup _ _) Hroom k _ Hsk). }
    2:{ exact (proj1 (Forall_lookup _ _) Hsm k _ Hpk). }
    cbn [bind]. rewrite wrn_Ok by lia.
    eexists; split; [reflexivity|]. split; [rewrite length_insert; exact Hl|].
    intros x Hx. destruct (decide (x = k)) as [->|Hne].
    + rewrite list_lookup_insert_eq by lia.
      destruct (Nat.ltb_spec k (S k)); [reflexivity|lia].
    + rewrite list_lookup_insert_ne by auto. rewrite (Hlk x Hx).
      destruct (Nat.ltb_spec x k), (Nat.ltb_spec x (S k)); try reflexivity; lia.
  - rewrite Hf. f_equal. apply list_eq. intros x.
    destruct (Nat.lt_ge_cases x n) as [Hx|Hx].
    + rewrite (Hlk x Hx). destruct (Nat.ltb_spec x n); [|lia].
      rewrite lookup_zip_with.
      rewrite (list_lookup_lookup_total_lt strs x) by lia.
      rewrite (list_lookup_lookup_total_lt smps x) by lia. reflexivity.
    + rewrite !lookup_ge_None_2; [reflexivity| |lia].
      rewrite length_zip_with. lia.
Qed.

Lemma zip_appended_wf (w : Z) (strs : list (@dsp_stream D))
  (smps : list (@ahp_xc_sample D)) :
  1 <= w -> length strs = length smps ->
  Forall (stream_wf w) strs -> Forall (sample_ok w) smps ->
  Forall (stream_wf w) (zip_with (appended) strs smps).
Proof.
  intros Hw Hl Hwf Hsm. apply Forall_lookup. intros x s Hx.
  apply lookup_zip_with_Some in Hx as (s0 & smp & -> & Hs & Hp).
  apply (appended_wf w); auto.
  - exact (proj1 (Forall_lookup _ _) Hwf x _ Hs).
  - exact (proj1 (Forall_lookup _ _) Hsm x _ Hp).
Qed.

Lemma zip_appended_room (k : Z) (strs : list (@dsp_stream D))
  (smps : list (@ahp_xc_sample D)) :
  Forall (stream_room (k + 1)) strs ->
  Forall (stream_room k) (zip_with (appended) strs smps).
Proof.
  intros Hr. apply Forall_lookup. intros x s Hx.
  apply lookup_zip_with_Some in Hx as (s0 & smp & -> & Hs & Hp).
  apply appended_room. exact (proj1 (Forall_lookup _ _) Hr x _ Hs).
Qed.

End StreamProps.

(* ------------------------------------------------------------------ *)
(** ** The integrating tick *)

Lemma for_seq_inv {St} (I : nat -> St -> Prop) (a m : nat)
  (body : nat -> St -> result St) (s : St) :
  I 0%nat s ->
  (forall j s, (j < m)%nat -> I j s ->
     exists s', body (a + j)%nat s = Ok s' /\ I (S j) s') ->
  exists s', for_each (seq a m) body s = Ok s' /\ I m s'.
Proof.
  intros H0 Hstep. induction m as [|m IH].
  - exists s; auto.
  - destruct IH as (s1 & Hf & Hs1); [intros; apply Hstep; auto with lia|].
    destruct (Hstep m s1) as (s2 & Hb & Hs2); [lia|exact Hs1|].
    exists s2. rewrite seq_S, for_each_app, Hf. simpl. rewrite Hb. auto.
Qed.

Lemma plot_z_bounds (k xx yy : Z) :
  1 <= k -> 4 * k * k <= INT_MAX ->
  plot_visible (2 * k) (2 * k) xx yy = true ->
  0 <= plot_z (2 * k) (2 * k) xx yy < 4 * k * k
  /\ 0 <= plot_mirror (2 * k) (2 * k) (plot_z (2 * k) (2 * k) xx yy) < 4 * k * k.
Proof.
  intros Hk Hmax. unfold plot_visible, plot_z, plot_mirror, idiv.
  unfold INT_MAX in Hmax.
  assert (Hkk : k <= k * k) by nia.
  assert (Hq1 : Z.quot (2 * k) 2 = k)
    by (replace (2 * k) with (k * 2) by ring; apply Z.quot_mul; lia).
  assert (Hq2 : Z.quot (- (2 * k)) 2 = - k)
    by (replace (- (2 * k)) with ((- k) * 2) by ring; apply Z.quot_mul; lia).
  assert (Hq3 : Z.quot (2 * k * (2 * k)) 2 = 2 * k * k)
    by (replace (2 * k * (2 * k)) with ((2 * k * k) * 2) by ring;
        apply Z.quot_mul; lia).
  rewrite (wrap_int_small (- (2 * k))) by (unfold INT_MAX; lia).
  rewrite (wrap_int_small (2 * k * (2 * k))) by (unfold INT_MAX; lia).
  rewrite !Hq1, !Hq2, !Hq3.
  rewrite (wrap_int_small (- k)) by (unfold INT_MAX; lia).
  rewrite !(wrap_int_small k) by (unfold INT_MAX; lia).
  rewrite !(wrap_int_small (2 * k * k)) by (unfold INT_MAX; lia).
  intros Hv. apply andb_prop in Hv as [Hv H4]. apply andb_prop in Hv as [Hv H3].
  apply andb_prop in Hv as [H1 H2].
  apply Z.leb_le in H1, H3. apply Z.ltb_lt in H2, H4.
  rewrite !(wrap_int_small (2 * k * k + k)) by (unfold INT_MAX; lia).
  rewrite !(wrap_int_small (2 * k * k + k + xx)) by (unfold INT_MAX; lia).
  rewrite !(wrap_int_small (yy * (2 * k))) by (unfold INT_MAX; nia).
  rewrite !(wrap_int_small (2 * k * k + k + xx + yy * (2 * k)))
    by (unfold INT_MAX; nia).
  rewrite (wrap_int_small (2 * k * (2 * k) - 1)) by (unfold INT_MAX; lia).
  rewrite wrap_int_small by (unfold INT_MAX; nia).
  nia.
Qed.

Section TickProps.
Context {D : Type} {AR : Arith D} {LM : Libm D}.
Variable E : @Extern D.

#[local] Instance vec3_inh : Inhabited (@vec3 D) := populate vzero.
#[local] Instance baseline_inh : Inhabited (@baseline D) :=
  populate {| b_vector := vzero; b_wavelength := d_zero |}.
#[local] Instance D_inh : Inhabited D := populate d_zero.
#[local] Instance stream_inh : Inhabited (@dsp_stream D) :=
  populate {| sizes0 := 0; sizes1 := 0; len := 0; buf := [] |}.
#[local] Instance sample_inh : Inhabited (@ahp_xc_sample D) :=
  populate {| lag_size := 0; correlations := [] |}.
#[local] Instance correlation_inh : Inhabited (@ahp_xc_correlation D) :=
  populate {| counts := d_zero; magnitude := d_zero |}.

(** A square plot of even side [2 * k]. *)
Record plot_ok (k : Z) (p : @dsp_stream D) : Prop := {
  po_k : 1 <= k;
  po_max : 4 * k * k <= INT_MAX;
  po_w : sizes0 p = 2 * k;
  po_h : sizes1 p = 2 * k;
  po_len : len p = 4 * k * k;
  po_buf : length (buf p) = Z.to_nat (4 * k * k)
}.

(** The driver as [Handshake] sets it up and as the ticks keep it. *)
Record wf (st : @AHP_XC D) : Prop := {
  wf_lines : lines_ok E st;
  wf_nbaselines : ahp_xc_get_nbaselines E = length (pairs (nlines E));
  wf_totalcounts : length (totalcounts st) = nlines E;
  wf_totalcorrelations :
    length (totalcorrelations st) = ahp_xc_get_nbaselines E;
  wf_plot : exists k p, plot_str st = [p] /\ plot_ok k p;
  wf_plotB : length (plotB st) = nplots;
  wf_auto :
    1 < ahp_xc_get_autocorrelator_lagsize E ->
    length (autocorrelations_str st) = nlines E
    /\ Forall (stream_wf (ahp_xc_get_autocorrelator_lagsize E))
         (autocorrelations_str st)
    /\ length (autocorrelationsB st) = nlines E;
  wf_cross :
    1 < ahp_xc_get_crosscorrelator_lagsize E ->
    length (crosscorrelations_str st) = ahp_xc_get_nbaselines E
    /\ Forall (stream_wf (ahp_xc_get_crosscorrelator_lagsize E * 2 - 1))
         (crosscorrelations_str st)
    /\ length (crosscorrelationsB st) = ahp_xc_get_nbaselines E
}.

(** Room for [k] more rows in every stream. *)
Definition room (k : Z) (st : @AHP_XC D) : Prop :=
  Forall (stream_room k) (autocorrelations_str st)
  /\ Forall (stream_room k) (crosscorrelations_str st).

(** A packet as the hardware library delivers it for this correlator. *)
Record packet_ok (pkt : @ahp_xc_packet D) : Prop := {
  pk_counts : length (pkt_counts pkt) = nlines E;
  pk_cross_len : length (crosscorrelations pkt) = ahp_xc_get_nbaselines E;
  pk_cross_lags :
    Forall (fun smp => length (correlations smp) = lag_size smp
                       /\ (1 <= lag_size smp)%nat) (crosscorrelations pkt);
  pk_auto :
    1 < ahp_xc_get_autocorrelator_lagsize E ->
    length (autocorrelations pkt) = nlines E
    /\ Forall (sample_ok (ahp_xc_get_autocorrelator_lagsize E))
         (autocorrelations pkt);
  pk_cross :
    1 < ahp_xc_get_crosscorrelator_lagsize E ->
    Forall (sample_ok (ahp_xc_get_crosscorrelator_lagsize E * 2 - 1))
      (crosscorrelations pkt)
}.

Lemma center_lag_ok (pkt : @ahp_xc_packet D) (idx : nat) :
  packet_ok pkt -> (idx < ahp_xc_get_nbaselines E)%nat ->
  exists c, center_lag pkt idx = Ok c.
Proof.
  intros Hp Hidx. unfold center_lag.
  rewrite (rdn_total (crosscorrelations pkt) idx)
    by (rewrite (pk_cross_len pkt Hp); exact Hidx).
  cbn [bind].
  assert (Hs : crosscorrelations pkt !! idx = Some (crosscorrelations pkt !!! idx)).
  { apply list_lookup_lookup_total_lt. rewrite (pk_cross_len pkt Hp). exact Hidx. }
  destruct (proj1 (Forall_lookup _ _) (pk_cross_lags pkt Hp) idx _ Hs) as [Hl H1].
  eexists. apply rdn_total. rewrite Hl.
  apply Nat.div_lt; lia.
Qed.

(** Lines 367-395: the plot keeps its shape; nothing else changes. *)
Lemma fill_plot_spec (st : @AHP_XC D) (pkt : @ahp_xc_packet D) (k : Z)
  (p : @dsp_stream D) :
  wf st -> packet_ok pkt -> plot_str st = [p] -> plot_ok k p ->
  exists p', fill_plot E st pkt = Ok (set_plot_str st [p']) /\ plot_ok k p'.
Proof.
  intros Hwf Hpk Hp Hpo. unfold fill_plot. simpl (0 <? nplots)%nat. cbv iota.
  rewrite for_pairs_flat.
  destruct (for_each_inv
    (fun done s => exists p', s = (set_plot_str st [p'], length done)
                              /\ plot_ok k p')
    (pairs (nlines E)) (fun q => plot_pair_body E pkt (fst q) (snd q))
    (st, 0%nat)) as (s' & Hf & p' & Hs' & Hpo').
  - exists p. split; [|exact Hpo]. simpl. f_equal. rewrite <- Hp.
    destruct st; reflexivity.
  - intros done q rest s Hq (p1 & -> & Hpo1).
    destruct (pairs_split_inv _ _ _ _ Hq) as (Hxy & Hy & Hidx).
    destruct q as [x y]. cbn [fst snd] in *.
    unfold plot_pair_body. cbn [fst snd].
    rewrite both_enabled_spec
      by (cbn; rewrite (ok_enable E st (wf_lines st Hwf)); lia).
    cbn [bind]. destruct (enabled _ x && enabled _ y).
    2:{ cbn [bind]. eexists; split; [reflexivity|]. exists p1.
        rewrite length_app, Nat.add_1_r. auto. }
    change (rdn (plot_str (set_plot_str st [p1])) 0) with (Ok p1).
    cbn [bind].
    rewrite (rdn_total (baselines _) (length done))
      by (cbn; rewrite (ok_baselines E st (wf_lines st Hwf)); exact Hidx).
    cbn [bind].
    destruct Hpo1 as [Hk Hmax Hw Hh Hlen Hbuf].
    rewrite Hw, Hh.
    match goal with |- context [plot_visible _ _ ?a ?b] =>
      set (xx := a); set (yy := b) end.
    destruct (plot_visible (2 * k) (2 * k) xx yy) eqn:Hvis.
    2:{ cbn [bind]. eexists; split; [reflexivity|]. exists p1.
        rewrite length_app, Nat.add_1_r. split; [reflexivity|].
        constructor; assumption. }
    destruct (plot_z_bounds k xx yy Hk Hmax Hvis) as [Hz Hz'].
    destruct (center_lag_ok pkt (length done) Hpk) as [c Hc].
    { rewrite (wf_nbaselines st Hwf). exact Hidx. }
    rewrite Hc. cbn [bind].
    rewrite rd_Ok by (rewrite Hbuf; lia). cbn [bind].
    rewrite wr_Ok by (rewrite Hbuf; lia). cbn [bind].
    rewrite rd_Ok by (rewrite length_insert, Hbuf; lia). cbn [bind].
    rewrite wr_Ok by (rewrite length_insert, Hbuf; lia). cbn [bind].
    eexists; split; [reflexivity|]. eexists. split.
    + rewrite length_app, Nat.add_1_r. reflexivity.
    + constructor; cbn; auto. rewrite !length_insert. exact Hbuf.
  - exists p'. rewrite Hf, Hs'. split; [reflexivity|exact Hpo'].
Qed.

(** Lines 396-421 in closed form. *)
Definition acc_auto (st : @AHP_XC D) (pkt : @ahp_xc_packet D)
  : list (@dsp_stream D) :=
  if (0 <? nlines E)%nat && (1 <? ahp_xc_get_autocorrelator_lagsize E)
  then zip_with (appended E) (autocorrelations_str st) (autocorrelations pkt)
  else autocorrelations_str st.

Definition acc_cross (st : @AHP_XC D) (pkt : @ahp_xc_packet D)
  : list (@dsp_stream D) :=
  if (0 <? ahp_xc_get_nbaselines E)%nat
     && (1 <? ahp_xc_get_crosscorrelator_lagsize E)
  then zip_with (appended E) (crosscorrelations_str st) (crosscorrelations pkt)
  else crosscorrelations_str st.

Lemma set_autocorrelations_str_same (st : @AHP_XC D) :
  set_autocorrelations_str st (autocorrelations_str st) = st.
Proof. destruct st; reflexivity. Qed.

Lemma set_crosscorrelations_str_same (st : @AHP_XC D) :
  set_crosscorrelations_str st (crosscorrelations_str st) = st.
Proof. destruct st; reflexivity. Qed.

Lemma accumulate_spec (st : @AHP_XC D) (pkt : @ahp_xc_packet D) :
  wf st -> packet_ok pkt -> room 1 st ->
  accumulate E st pkt
  = Ok (set_crosscorrelations_str
          (set_autocorrelations_str st (acc_auto st pkt)) (acc_cross st pkt)).
Proof.
  intros Hwf Hpk [Hra Hrc]. unfold accumulate, acc_auto, acc_cross.
  destruct ((0 <? nlines E)%nat && (1 <? ahp_xc_get_autocorrelator_lagsize E))
    eqn:Ha.
  - apply andb_prop in Ha as [_ Ha]. apply Z.ltb_lt in Ha.
    destruct (wf_auto st Hwf Ha) as (Hl & Hs & _).
    destruct (pk_auto pkt Hpk Ha) as (Hpl & Hps).
    rewrite (append_rows_spec E (ahp_xc_get_autocorrelator_lagsize E))
      by (auto; lia).
    cbn [bind].
    destruct ((0 <? ahp_xc_get_nbaselines E)%nat
              && (1 <? ahp_xc_get_crosscorrelator_lagsize E)) eqn:Hc.
    + apply andb_prop in Hc as [_ Hc]. apply Z.ltb_lt in Hc.
      destruct (wf_cross st Hwf Hc) as (Hcl & Hcs & _).
      change (crosscorrelations_str (set_autocorrelations_str st _))
        with (crosscorrelations_str st).
      rewrite (append_rows_spec E (ahp_xc_get_crosscorrelator_lagsize E * 2 - 1));
        auto; try lia.
      * exact (pk_cross_len pkt Hpk).
      * exact (pk_cross pkt Hpk Hc).
    + rewrite <- (set_crosscorrelations_str_same (set_autocorrelations_str st _)) at 1.
      reflexivity.
  - cbn [bind].
    destruct ((0 <? ahp_xc_get_nbaselines E)%nat
              && (1 <? ahp_xc_get_crosscorrelator_lagsize E)) eqn:Hc.
    + apply andb_prop in Hc as [_ Hc]. apply Z.ltb_lt in Hc.
      destruct (wf_cross st Hwf Hc) as (Hcl & Hcs & _).
      rewrite (append_rows_spec E (ahp_xc_get_crosscorrelator_lagsize E * 2 - 1));
        auto; try lia.
      * exact (pk_cross_len pkt Hpk).
      * exact (pk_cross pkt Hpk Hc).
    + rewrite set_autocorrelations_str_same, set_crosscorrelations_str_same.
      reflexivity.
Qed.

(** The pairs of the first [k] outer iterations. *)
Definition pairs_before (n k : nat) : list (nat * nat) :=
  x ← upto k; (fun y => (x, y)) <$> above x n.

Lemma pairs_before_S (n k : nat) :
  length (pairs_before n (S k))
  = (length (pairs_before n k) + (n - (k + 1)))%nat.
Proof.
  unfold pairs_before, upto. rewrite seq_S, bind_app, length_app. simpl.
  rewrite app_nil_r, length_fmap. unfold above. rewrite length_seq. reflexivity.
Qed.

Lemma pairs_before_le (n k : nat) :
  (k <= n)%nat -> (length (pairs_before n k) <= length (pairs n))%nat.
Proof.
  intros Hk. unfold pairs, pairs_before, upto.
  assert (Hs : seq 0 n = seq 0 k ++ seq (0 + k) (n - k)).
  { rewrite <- seq_app. f_equal. lia. }
  rewrite Hs, bind_app, length_app. lia.
Qed.

(** Lines 425-441: the running totals; nothing else changes. *)
Lemma totals_spec (st : @AHP_XC D) (pkt : @ahp_xc_packet D) :
  wf st -> packet_ok pkt ->
  exists tc tcr,
    totals E st pkt = Ok (set_totalcorrelations (set_totalcounts st tc) tcr)
    /\ length tc = nlines E /\ length tcr = ahp_xc_get_nbaselines E.
Proof.
  intros Hwf Hpk. unfold totals.
  set (n := nlines E).
  pose (I := fun (i : nat) (s : @AHP_XC D * nat) =>
    exists tc tcr,
      s = (set_totalcorrelations (set_totalcounts st tc) tcr, i)
      /\ length tc = n /\ length tcr = ahp_xc_get_nbaselines E).
  destruct (for_upto_inv
    (fun k s => I (length (pairs_before n k)) s) n (totals_body E pkt)
    (st, 0%nat)) as (s' & Hf & tc & tcr & -> & Htc & Htcr).
  - exists (totalcounts st), (totalcorrelations st). simpl. split.
    + f_equal. destruct st; reflexivity.
    + split; [exact (wf_totalcounts st Hwf)|exact (wf_totalcorrelations st Hwf)].
  - intros k s Hk (tc & tcr & -> & Htc & Htcr).
    unfold totals_body. cbn [fst snd].
    change (lineEnableSP (set_totalcorrelations _ _)) with (lineEnableSP st).
    rewrite (rdn_total (lineEnableSP st) k)
      by (rewrite (ok_enable E st (wf_lines st Hwf)); exact Hk).
    cbn [bind].
    assert (Hline : exists tc',
      (if ((lineEnableSP st : list bool) !!! k : bool)
       then t <- rdn (totalcounts (set_totalcorrelations (set_totalcounts st tc) tcr)) k ;;
            c <- rdn (pkt_counts pkt) k ;;
            tc0 <- wrn (totalcounts (set_totalcorrelations (set_totalcounts st tc) tcr))
                     k (d_add t c) ;;
            Ok (set_totalcounts (set_totalcorrelations (set_totalcounts st tc) tcr) tc0)
       else Ok (set_totalcorrelations (set_totalcounts st tc) tcr))
      = Ok (set_totalcorrelations (set_totalcounts st tc') tcr)
      /\ length tc' = n).
    { destruct (lineEnableSP st !!! k).
      - cbn [totalcounts set_totalcorrelations set_totalcounts].
        rewrite (rdn_total tc k) by lia. cbn [bind].
        rewrite (rdn_total (pkt_counts pkt) k)
          by (rewrite (pk_counts pkt Hpk); exact Hk).
        cbn [bind]. rewrite wrn_Ok by lia. cbn [bind].
        exists (<[k := d_add (tc !!! k) (pkt_counts pkt !!! k)]> tc).
        split; [reflexivity|]. rewrite length_insert. exact Htc.
      - exists tc; split; [reflexivity|exact Htc]. }
    destruct Hline as (tc' & -> & Htc'). cbn [bind].
    unfold above.
    destruct (for_seq_inv
      (fun j s => I (length (pairs_before n k) + j)%nat s)
      (k + 1) (n - (k + 1)) (totals_pair_body pkt k)
      (set_totalcorrelations (set_totalcounts st tc') tcr,
       length (pairs_before n k))) as (s2 & Hf2 & HI2).
    + rewrite Nat.add_0_r. exists tc', tcr. auto.
    + intros j s Hj (tc1 & tcr1 & -> & Htc1 & Htcr1).
      assert (Hidx : (length (pairs_before n k) + j < ahp_xc_get_nbaselines E)%nat).
      { rewrite (wf_nbaselines st Hwf).
        pose proof (pairs_before_le n (S k) ltac:(lia)) as Hle.
        rewrite pairs_before_S in Hle. fold n. lia. }
      unfold totals_pair_body. cbn [fst snd].
      rewrite both_enabled_spec
        by (cbn; rewrite (ok_enable E st (wf_lines st Hwf)); fold n; lia).
      cbn [bind]. destruct (enabled _ k && enabled _ _).
      2:{ cbn [bind]. eexists; split; [reflexivity|].
          exists tc1, tcr1. rewrite Nat.add_succ_r. auto. }
      cbn [totalcorrelations set_totalcorrelations set_totalcounts].
      destruct (center_lag_ok pkt _ Hpk Hidx) as [c Hc].
      rewrite (rdn_total tcr1) by lia. cbn [bind]. rewrite Hc. cbn [bind].
      rewrite wrn_Ok by lia. cbn [bind].
      rewrite (rdn_total (<[_ := _]> tcr1)) by (rewrite length_insert; lia).
      cbn [bind]. rewrite wrn_Ok by (rewrite length_insert; lia). cbn [bind].
      eexists; split; [reflexivity|].
      eexists tc1, _. rewrite Nat.add_succ_r. split; [reflexivity|].
      split; [exact Htc1|]. rewrite !length_insert. exact Htcr1.
    + exists s2. split; [exact Hf2|]. rewrite pairs_before_S. exact HI2.
  - exists tc, tcr. rewrite Hf. auto.
Qed.

(** ** One iteration of the reader loop while integrating *)

(** The iteration finds the integration time elapsed (line 200). *)
Definition expired (st : @AHP_XC D) (t : timeval) : bool :=
  d_eq (if d_le (CalcTimeLeft st t) d_zero then d_zero else CalcTimeLeft st t)
       d_zero.

(** The state an integrating iteration leaves, by the fields it writes. *)
Definition tick_state (st : @AHP_XC D) (tl alt az : D) (c : list vec3)
  (dl : list D) (ev : list event) (p : dsp_stream)
  (a x : list dsp_stream) (tc : list D) (tcr : list ahp_xc_correlation)
  : AHP_XC :=
  set_totalcorrelations
    (set_totalcounts
       (set_crosscorrelations_str
          (set_autocorrelations_str
             (set_plot_str
                (set_events
                   (set_delay
                      (set_center
                         (set_Azimuth (set_Altitude (set_timeleft st tl) alt) az)
                         c)
                      dl)
                   ev)
                [p])
             a)
          x)
       tc)
    tcr.

Lemma wf_tick_state (st : @AHP_XC D) (tl alt az : D) (c : list vec3)
  (dl : list D) (ev : list event) (k : Z) (p : dsp_stream)
  (a x : list dsp_stream) (tc : list D) (tcr : list ahp_xc_correlation) :
  wf st -> length c = nlines E -> length dl = nlines E -> plot_ok k p ->
  length tc = nlines E -> length tcr = ahp_xc_get_nbaselines E ->
  length a = length (autocorrelations_str st) ->
  (1 < ahp_xc_get_autocorrelator_lagsize E ->
   Forall (stream_wf (ahp_xc_get_autocorrelator_lagsize E)) a) ->
  length x = length (crosscorrelations_str st) ->
  (1 < ahp_xc_get_crosscorrelator_lagsize E ->
   Forall (stream_wf (ahp_xc_get_crosscorrelator_lagsize E * 2 - 1)) x) ->
  wf (tick_state st tl alt az c dl ev p a x tc tcr).
Proof.
  intros [[H1 H2 H3 H4 H5] H6 H7 H8 H9 H10 H11 H12] Hc Hd Hp Htc Htcr Ha Haw Hx Hxw.
  constructor; cbn; auto.
  - constructor; cbn; auto.
  - exists k, p. auto.
  - intros Hl. destruct (H11 Hl) as (Hn & _ & Hb). rewrite Ha. auto.
  - intros Hl. destruct (H12 Hl) as (Hn & _ & Hb). rewrite Hx. auto.
Qed.

Lemma wf_acc_auto (st : @AHP_XC D) (pkt : @ahp_xc_packet D) :
  wf st -> packet_ok pkt ->
  length (acc_auto st pkt) = length (autocorrelations_str st)
  /\ (1 < ahp_xc_get_autocorrelator_lagsize E ->
      Forall (stream_wf (ahp_xc_get_autocorrelator_lagsize E)) (acc_auto st pkt)).
Proof.
  intros Hwf Hpk. unfold acc_auto.
  destruct ((0 <? nlines E)%nat && (1 <? ahp_xc_get_autocorrelator_lagsize E))
    eqn:Ha.
  - apply andb_prop in Ha as [_ Ha]. apply Z.ltb_lt in Ha.
    destruct (wf_auto st Hwf Ha) as (Hl & Hs & _).
    destruct (pk_auto pkt Hpk Ha) as (Hpl & Hps).
    split.
    + rewrite length_zip_with. lia.
    + intros _. apply zip_appended_wf; auto; lia.
  - split; [reflexivity|]. intros Hl. apply (wf_auto st Hwf Hl).
Qed.

Lemma wf_acc_cross (st : @AHP_XC D) (pkt : @ahp_xc_packet D) :
  wf st -> packet_ok pkt ->
  length (acc_cross st pkt) = length (crosscorrelations_str st)
  /\ (1 < ahp_xc_get_crosscorrelator_lagsize E ->
      Forall (stream_wf (ahp_xc_get_crosscorrelator_lagsize E * 2 - 1))
        (acc_cross st pkt)).
Proof.
  intros Hwf Hpk. unfold acc_cross.
  destruct ((0 <? ahp_xc_get_nbaselines E)%nat
            && (1 <? ahp_xc_get_crosscorrelator_lagsize E)) eqn:Hc.
  - apply andb_prop in Hc as [_ Hc]. apply Z.ltb_lt in Hc.
    destruct (wf_cross st Hwf Hc) as (Hl & Hs & _).
    pose proof (pk_cross_len pkt Hpk) as Hpl.
    pose proof (pk_cross pkt Hpk Hc) as Hps.
    split.
    + rewrite length_zip_with. lia.
    + intros _. apply zip_appended_wf; auto; lia.
  - split; [reflexivity|]. intros Hl. apply (wf_cross st Hwf Hl).
Qed.

(** Lines 192-441 when an integration is active and has time left: the sky
    direction is recomputed, the delays are compensated, the plot is
    filled, every stream gets a row and the totals are updated. *)
Lemma tick_integrating (st : @AHP_XC D) (i : tick_input) (pkt : ahp_xc_packet) :
  wf st -> room 1 st -> enabled_lines E st <> [] ->
  isConnected i = true -> packet i = Some pkt -> packet_ok pkt ->
  InIntegration st = true -> expired st (now i) = false ->
  exists tl c dl ev p tc tcr,
    let sky := sky_direction E (set_timeleft st tl) (now i) in
    delay_compensation E sky = Ok (set_events (set_delay (set_center sky c) dl) ev)
    /\ Callback_iteration E st i
       = Ok (tick_state st tl (Altitude sky) (Azimuth sky) c dl ev p
               (acc_auto st pkt) (acc_cross st pkt) tc tcr)
    /\ wf (tick_state st tl (Altitude sky) (Azimuth sky) c dl ev p
             (acc_auto st pkt) (acc_cross st pkt) tc tcr).
Proof.
  intros Hwf Hroom Hen Hcon Hpkt Hpk Hin Hexp.
  unfold Callback_iteration. rewrite Hcon, Hpkt. cbn [negb].
  set (tl := if d_le (CalcTimeLeft st (now i)) d_zero then d_zero
             else CalcTimeLeft st (now i)).
  change (InIntegration (set_timeleft st tl)) with (InIntegration st).
  rewrite Hin. change (timeleft (set_timeleft st tl)) with tl.
  unfold expired in Hexp. fold tl in Hexp. rewrite Hexp.
  unfold integrate.
  set (sky := sky_direction E (set_timeleft st tl) (now i)).
  assert (Hok : lines_ok E sky).
  { destruct (wf_lines st Hwf) as [H1 H2 H3 H4 H5]. constructor; assumption. }
  destruct (enabled_lines E st) as [|f rest] eqn:Hl; [congruence|].
  assert (Hl' : enabled_lines E sky = f :: rest) by exact Hl.
  pose proof (delay_compensation_spec E sky f rest Hok Hl') as Hdc.
  destruct (wf_plot st Hwf) as (k & p & Hp & Hpo).
  set (c := centers_of sky (center_of sky f rest) (f :: rest)) in Hdc.
  set (dl := apply_writes (<[reference E sky := d_zero]> (delay sky))
               (delay_writes E sky (reference E sky))) in Hdc.
  set (ev := events sky ++ reference_cmds (reference E sky)
             ++ write_cmds E (delay_writes E sky (reference E sky))) in Hdc.
  assert (Hc : length c = nlines E).
  { unfold c. rewrite length_centers_of. exact (ok_center E sky Hok). }
  assert (Hd : length dl = nlines E).
  { unfold dl. rewrite length_apply_writes, length_insert.
    exact (ok_delay E sky Hok). }
  set (st1 := set_events (set_delay (set_center sky c) dl) ev) in Hdc.
  assert (Hwf1 : wf st1).
  { pose proof (wf_tick_state st tl (Altitude sky) (Azimuth sky) c dl ev k p
                  (autocorrelations_str st) (crosscorrelations_str st)
                  (totalcounts st) (totalcorrelations st) Hwf Hc Hd Hpo
                  (wf_totalcounts st Hwf) (wf_totalcorrelations st Hwf)
                  eq_refl (fun H => proj1 (proj2 (wf_auto st Hwf H)))
                  eq_refl (fun H => proj1 (proj2 (wf_cross st Hwf H)))) as W.
    destruct W as [[H1 H2 H3 H4 H5] H6 H7 H8 H9 H10 H11 H12].
    constructor; try assumption.
    - constructor; assumption.
    - exists k, p. split; [exact Hp|exact Hpo]. }
  rewrite Hdc. cbn [bind].
  destruct (fill_plot_spec st1 pkt k p Hwf1 Hpk Hp Hpo) as (p' & Hfp & Hpo').
  rewrite Hfp. cbn [bind].
  set (st2 := set_plot_str st1 [p']).
  assert (Hwf2 : wf st2).
  { pose proof (wf_tick_state st tl (Altitude sky) (Azimuth sky) c dl ev k p'
                  (autocorrelations_str st) (crosscorrelations_str st)
                  (totalcounts st) (totalcorrelations st) Hwf Hc Hd Hpo'
                  (wf_totalcounts st Hwf) (wf_totalcorrelations st Hwf)
                  eq_refl (fun H => proj1 (proj2 (wf_auto st Hwf H)))
                  eq_refl (fun H => proj1 (proj2 (wf_cross st Hwf H)))) as W.
    destruct W as [[H1 H2 H3 H4 H5] H6 H7 H8 H9 H10 H11 H12].
    constructor; try assumption. constructor; assumption. }
  rewrite (accumulate_spec st2 pkt Hwf2 Hpk Hroom). cbn [bind].
  change (acc_auto st2 pkt) with (acc_auto st pkt).
  change (acc_cross st2 pkt) with (acc_cross st pkt).
  destruct (wf_acc_auto st pkt Hwf Hpk) as [Hal Haw].
  destruct (wf_acc_cross st pkt Hwf Hpk) as [Hxl Hxw].
  set (st3 := set_crosscorrelations_str
                (set_autocorrelations_str st2 (acc_auto st pkt))
                (acc_cross st pkt)).
  assert (Hwf3 : wf st3).
  { pose proof (wf_tick_state st tl (Altitude sky) (Azimuth sky) c dl ev k p'
                  (acc_auto st pkt) (acc_cross st pkt)
                  (totalcounts st) (totalcorrelations st) Hwf Hc Hd Hpo'
                  (wf_totalcounts st Hwf) (wf_totalcorrelations st Hwf)
                  Hal Haw Hxl Hxw) as W.
    destruct W as [[H1 H2 H3 H4 H5] H6 H7 H8 H9 H10 H11 H12].
    constructor; try assumption. constructor; assumption. }
  destruct (totals_spec st3 pkt Hwf3 Hpk) as (tc & tcr & Htot & Htc & Htcr).
  exists tl, c, dl, ev, p', tc, tcr. cbv zeta. fold sky.
  split; [exact Hdc|]. split.
  - rewrite Htot. reflexivity.
  - apply (wf_tick_state st tl _ _ c dl ev k p'); auto.
Qed.

(** Lines 192-441 when no integration is active: only the totals move. *)
Lemma tick_idle (st : @AHP_XC D) (i : tick_input) (pkt : ahp_xc_packet) :
  wf st -> isConnected i = true -> packet i = Some pkt -> packet_ok pkt ->
  InIntegration st = false ->
  exists tl tc tcr,
    Callback_iteration E st i
    = Ok (set_totalcorrelations (set_totalcounts (set_timeleft st tl) tc) tcr)
    /\ length tc = nlines E /\ length tcr = ahp_xc_get_nbaselines E.
Proof.
  intros Hwf Hcon Hpkt Hpk Hin.
  unfold Callback_iteration. rewrite Hcon, Hpkt. cbn [negb].
  set (tl := if d_le (CalcTimeLeft st (now i)) d_zero then d_zero
             else CalcTimeLeft st (now i)).
  change (InIntegration (set_timeleft st tl)) with (InIntegration st).
  rewrite Hin. cbn [bind].
  assert (Hwf1 : wf (set_timeleft st tl)).
  { destruct Hwf as [[H1 H2 H3 H4 H5] H6 H7 H8 H9 H10 H11 H12].
    constructor; try assumption. constructor; assumption. }
  destruct (totals_spec (set_timeleft st tl) pkt Hwf1 Hpk)
    as (tc & tcr & Htot & Htc & Htcr).
  exists tl, tc, tcr. auto.
Qed.

(* ------------------------------------------------------------------ *)
(** ** Finalize: the three serialization loops seen as one *)

(** What a serialization loop works on: an array of streams, the array of
    slots, the events, [memsize] and the count of [createFITS] calls. *)
Record ser_state := {
  ss_strs : list (@dsp_stream D);
  ss_slots : list IBLOB;
  ss_events : list (@event D);
  ss_memsize : Z;
  ss_calls : nat
}.

(** One iteration: [pre] is what precedes the encoding ([processBLOB] for a
    plot), [reset] what follows it. *)
Definition ser_step (fits : nat -> fits_outcome)
  (pre : @dsp_stream D -> list (@event D))
  (reset : @dsp_stream D -> result (@dsp_stream D)) (x : nat) (s : ser_state)
  : result ser_state :=
  str <- rdn (ss_strs s) x ;;
  let next_size := wrap_uint (len str) * 8 in
  let capacity := wrap_size (ss_memsize s + next_size) in
  let r := createFITS (fits (ss_calls s)) (-64) (ss_memsize s) in
  let ev := ss_events s ++ pre str ++ [call_createFITS (-64) str (fst r)] in
  slots <- (if fst r
            then if copy_in_bounds capacity (snd r) next_size
                 then wrn (ss_slots s) x
                        {| blob := Some (snd r);
                           bloblen := wrap_int next_size |}
                 else Fault OutOfBounds
            else Ok (ss_slots s)) ;;
  str' <- reset str ;;
  strs <- wrn (ss_strs s) x str' ;;
  Ok {| ss_strs := strs; ss_slots := slots; ss_events := ev;
        ss_memsize := if fst r then wrap_size (snd r + next_size) else snd r;
        ss_calls := S (ss_calls s) |}.

(** The encoder fails during call [o]. *)
Definition encoder_fails (o : fits_outcome) : Prop :=
  fst (createFITS o (-64) 0) = false.

Lemma createFITS_memsize (o : fits_outcome) (m m' : Z) :
  fst (createFITS o (-64) m) = fst (createFITS o (-64) m').
Proof.
  unfold createFITS. simpl.
  destruct (malloc_ok o), (create_memfile_status o =? 0),
    (create_img_status o =? 0), (write_img_status o =? 0); reflexivity.
Qed.

(** With a supported sample size, what [createFITS] leaves in [memsize]
    does not depend on what it held. *)
Lemma createFITS_offset (o : fits_outcome) (m m' : Z) :
  snd (createFITS o (-64) m) = snd (createFITS o (-64) m').
Proof.
  unfold createFITS. simpl.
  destruct (malloc_ok o), (create_memfile_status o =? 0),
    (create_img_status o =? 0), (write_img_status o =? 0); reflexivity.
Qed.

(** The slot a successful encoding of [str] fills: the offset is the size
    of the memory file, the length that of the data of [str]. *)
Definition filled_slot (o : fits_outcome) (str : @dsp_stream D) : IBLOB :=
  {| blob := Some (snd (createFITS o (-64) 0));
     bloblen := wrap_int (wrap_uint (len str) * 8) |}.

(** Every copy of a loop that encodes [inputs] in turn stays within
    [blob]; [calls] is the number of the first call and [m] the value of
    [memsize] before it. *)
Fixpoint ser_fits (fits : nat -> fits_outcome)
  (inputs : list (@dsp_stream D)) (calls : nat) (m : Z) : bool :=
  match inputs with
  | [] => true
  | str :: inputs' =>
      let n := wrap_uint (len str) * 8 in
      let r := createFITS (fits calls) (-64) m in
      if fst r
      then copy_in_bounds (wrap_size (m + n)) (snd r) n
           && ser_fits fits inputs' (S calls) (wrap_size (snd r + n))
      else ser_fits fits inputs' (S calls) (snd r)
  end.

(** The streams after the loop over [l], and the events it adds: neither
    depends on what the encoder returns, but for the flag recorded in the
    events. *)
Fixpoint ser_strs (reset' : @dsp_stream D -> @dsp_stream D) (l : list nat)
  (strs : list (@dsp_stream D)) : list (@dsp_stream D) :=
  match l with
  | [] => strs
  | x :: l' => ser_strs reset' l' (<[x := reset' (strs !!! x)]> strs)
  end.

Fixpoint ser_inputs (reset' : @dsp_stream D -> @dsp_stream D) (l : list nat)
  (strs : list (@dsp_stream D)) : list (@dsp_stream D) :=
  match l with
  | [] => []
  | x :: l' =>
      strs !!! x :: ser_inputs reset' l' (<[x := reset' (strs !!! x)]> strs)
  end.

Fixpoint ser_events (fits : nat -> fits_outcome)
  (pre : @dsp_stream D -> list (@event D)) (inputs : list (@dsp_stream D))
  (calls : nat) : list (@event D) :=
  match inputs with
  | [] => []
  | str :: inputs' =>
      pre str
      ++ call_createFITS (-64) str (fst (createFITS (fits calls) (-64) 0))
      :: ser_events fits pre inputs' (S calls)
  end.

(** A serialization loop whose copies stay within [blob] runs to its end:
    it hands every stream to the encoder; a slot all of whose encodings
    failed is left as it was, and a slot whose last encoding succeeded
    holds that encoding. *)
Lemma ser_loop_spec (fits : nat -> fits_outcome)
  (pre : @dsp_stream D -> list (@event D))
  (reset : @dsp_stream D -> result (@dsp_stream D))
  (reset' : @dsp_stream D -> @dsp_stream D) (P : @dsp_stream D -> Prop)
  (l : list nat) :
  (forall s, P s -> reset s = Ok (reset' s) /\ P (reset' s)) ->
  forall ss,
    Forall P (ss_strs ss) ->
    Forall (fun x => (x < length (ss_strs ss))%nat
                     /\ (x < length (ss_slots ss))%nat) l ->
    ser_fits fits (ser_inputs reset' l (ss_strs ss)) (ss_calls ss)
      (ss_memsize ss) = true ->
    exists slots' m',
      for_each l (ser_step fits pre reset) ss
      = Ok {| ss_strs := ser_strs reset' l (ss_strs ss);
              ss_slots := slots';
              ss_events := ss_events ss
                           ++ ser_events fits pre
                                (ser_inputs reset' l (ss_strs ss)) (ss_calls ss);
              ss_memsize := m';
              ss_calls := (ss_calls ss + length l)%nat |}
      /\ length slots' = length (ss_slots ss)
      /\ Forall P (ser_strs reset' l (ss_strs ss))
      /\ length (ser_strs reset' l (ss_strs ss)) = length (ss_strs ss)
      /\ (forall z,
            (forall j, l !! j = Some z ->
                       encoder_fails (fits (ss_calls ss + j)%nat)) ->
            slots' !! z = ss_slots ss !! z)
      /\ (forall j z str,
            l !! j = Some z ->
            (forall j', (j < j')%nat -> l !! j' <> Some z) ->
            ser_inputs reset' l (ss_strs ss) !! j = Some str ->
            fst (createFITS (fits (ss_calls ss + j)%nat) (-64) 0) = true ->
            slots' !! z
            = Some (filled_slot (fits (ss_calls ss + j)%nat) str)).
Proof.
  intros Hreset. induction l as [|x l IH]; intros ss HP Hl Hfit.
  - exists (ss_slots ss), (ss_memsize ss). simpl.
    rewrite app_nil_r, Nat.add_0_r. destruct ss; simpl.
    split; [reflexivity|]. split; [reflexivity|]. split; [exact HP|].
    split; [reflexivity|]. split; [auto|].
    intros j z str Hj. rewrite lookup_nil in Hj. discriminate Hj.
  - apply Forall_cons in Hl as [[Hx Hxs] Hl].
    simpl for_each. unfold ser_step at 1.
    rewrite (rdn_total (ss_strs ss) x Hx). cbn [bind].
    set (str := ss_strs ss !!! x).
    assert (HPs : P str).
    { apply (proj1 (Forall_lookup _ _) HP x).
      apply list_lookup_lookup_total_lt, Hx. }
    destruct (Hreset str HPs) as [Hr HPr].
    set (r := createFITS (fits (ss_calls ss)) (-64) (ss_memsize ss)).
    cbn [ser_inputs ser_fits] in Hfit. fold str in Hfit. fold r in Hfit.
    set (n := wrap_uint (len str) * 8) in *.
    assert (Hslots : exists slots1,
      (if fst r
       then if copy_in_bounds (wrap_size (ss_memsize ss + n)) (snd r) n
            then wrn (ss_slots ss) x
                   {| blob := Some (snd r); bloblen := wrap_int n |}
            else Fault OutOfBounds
       else Ok (ss_slots ss)) = Ok slots1
      /\ length slots1 = length (ss_slots ss)
      /\ (forall z, (z = x -> fst r = false) ->
                    slots1 !! z = ss_slots ss !! z)
      /\ (fst r = true ->
          slots1 !! x
          = Some {| blob := Some (snd r); bloblen := wrap_int n |})
      /\ ser_fits fits
           (ser_inputs reset' l (<[x := reset' str]> (ss_strs ss)))
           (S (ss_calls ss))
           (if fst r then wrap_size (snd r + n) else snd r) = true).
    { destruct (fst r).
      - apply andb_prop in Hfit as [Hcp Hrest]. rewrite Hcp.
        rewrite wrn_Ok by exact Hxs. eexists; split; [reflexivity|].
        split; [apply length_insert|]. split; [|split; [|exact Hrest]].
        + intros z Hz. apply list_lookup_insert_ne. intros ->.
          specialize (Hz eq_refl). discriminate.
        + intros _. apply list_lookup_insert_eq. exact Hxs.
      - eexists; split; [reflexivity|]. split; [reflexivity|].
        split; [auto|]. split; [intros H; discriminate H|exact Hfit]. }
    destruct Hslots as (slots1 & -> & Hls1 & Hsl1 & Hok1 & Hfit1).
    cbn [bind].
    rewrite Hr. cbn [bind]. rewrite wrn_Ok by exact Hx. cbn [bind].
    match goal with |- context [for_each l _ ?s] => set (ss1 := s) end.
    destruct (IH ss1) as (slots' & m' & Hf & Hls & HP' & Hlen & Hsl & Hok).
    { cbn. apply Forall_insert; assumption. }
    { cbn. rewrite length_insert, Hls1. exact Hl. }
    { exact Hfit1. }
    exists slots', m'. rewrite Hf. cbn [ss_strs ss_slots ss_events ss_calls ss1].
    split; [|split; [|split; [|split; [|split]]]].
    + f_equal. simpl. fold str. f_equal.
      * rewrite <- !app_assoc. simpl. unfold r.
        rewrite (createFITS_memsize _ (ss_memsize ss) 0). reflexivity.
      * lia.
    + rewrite Hls. exact Hls1.
    + exact HP'.
    + etransitivity; [exact Hlen|]. apply length_insert.
    + intros z Hz. rewrite Hsl.
      * apply Hsl1. intros ->. specialize (Hz 0%nat eq_refl).
        unfold encoder_fails in Hz. rewrite Nat.add_0_r in Hz. unfold r.
        rewrite (createFITS_memsize _ (ss_memsize ss) 0). exact Hz.
      * intros j Hj. specialize (Hz (S j) Hj).
        change (ss_calls ss1) with (S (ss_calls ss)).
        replace (S (ss_calls ss) + j)%nat with (ss_calls ss + S j)%nat by lia.
        exact Hz.
    + intros j z s0 Hj Hlast Hin Hsucc. destruct j as [|j].
      * cbn in Hj. inversion Hj; subst z. clear Hj.
        cbn [ser_inputs] in Hin. cbn in Hin. inversion Hin; subst s0. clear Hin.
        rewrite Nat.add_0_r in *. rewrite Hsl.
        -- change (ss_slots ss1) with slots1. rewrite Hok1.
           ++ unfold filled_slot. fold str. fold n. unfold r.
              rewrite (createFITS_offset _ (ss_memsize ss) 0). reflexivity.
           ++ unfold r. rewrite (createFITS_memsize _ (ss_memsize ss) 0).
              exact Hsucc.
        -- intros j Hj. exfalso. apply (Hlast (S j)); [lia|exact Hj].
      * cbn in Hj. cbn [ser_inputs] in Hin. cbn in Hin.
        replace (ss_calls ss + S j)%nat with (S (ss_calls ss) + j)%nat
          in * by lia.
        apply (Hok j z s0 Hj).
        -- intros j' Hj'. apply (Hlast (S j')). lia.
        -- exact Hin.
        -- exact Hsucc.
Qed.

(** A serialization loop one of whose copies runs past [blob] faults. *)
Lemma ser_loop_overflow (fits : nat -> fits_outcome)
  (pre : @dsp_stream D -> list (@event D))
  (reset : @dsp_stream D -> result (@dsp_stream D))
  (reset' : @dsp_stream D -> @dsp_stream D) (P : @dsp_stream D -> Prop)
  (l : list nat) :
  (forall s, P s -> reset s = Ok (reset' s) /\ P (reset' s)) ->
  forall ss,
    Forall P (ss_strs ss) ->
    Forall (fun x => (x < length (ss_strs ss))%nat
                     /\ (x < length (ss_slots ss))%nat) l ->
    ser_fits fits (ser_inputs reset' l (ss_strs ss)) (ss_calls ss)
      (ss_memsize ss) = false ->
    for_each l (ser_step fits pre reset) ss = Fault OutOfBounds.
Proof.
  intros Hreset. induction l as [|x l IH]; intros ss HP Hl Hfit.
  - discriminate Hfit.
  - apply Forall_cons in Hl as [[Hx Hxs] Hl].
    simpl for_each. unfold ser_step at 1.
    rewrite (rdn_total (ss_strs ss) x Hx). cbn [bind].
    set (str := ss_strs ss !!! x).
    assert (HPs : P str).
    { apply (proj1 (Forall_lookup _ _) HP x).
      apply list_lookup_lookup_total_lt, Hx. }
    destruct (Hreset str HPs) as [Hr HPr].
    set (r := createFITS (fits (ss_calls ss)) (-64) (ss_memsize ss)).
    cbn [ser_inputs ser_fits] in Hfit. fold str in Hfit. fold r in Hfit.
    set (n := wrap_uint (len str) * 8) in *.
    destruct (fst r) eqn:Hok.
    + destruct (copy_in_bounds (wrap_size (ss_memsize ss + n)) (snd r) n)
        eqn:Hcp; [|reflexivity].
      cbn [andb] in Hfit.
      rewrite wrn_Ok by exact Hxs. cbn [bind]. rewrite Hr. cbn [bind].
      rewrite wrn_Ok by exact Hx. cbn [bind].
      apply IH.
      * cbn. apply Forall_insert; assumption.
      * cbn. rewrite !length_insert. exact Hl.
      * exact Hfit.
    + cbn [bind]. rewrite Hr. cbn [bind].
      rewrite wrn_Ok by exact Hx. cbn [bind].
      apply IH.
      * cbn. apply Forall_insert; assumption.
      * cbn. rewrite length_insert. exact Hl.
      * exact Hfit.
Qed.

(** A loop every encoding of which fails makes no copy. *)
Lemma ser_fits_fail (fits : nat -> fits_outcome)
  (inputs : list (@dsp_stream D)) :
  forall calls m,
    (forall j, (j < length inputs)%nat ->
               encoder_fails (fits (calls + j)%nat)) ->
    ser_fits fits inputs calls m = true.
Proof.
  induction inputs as [|str inputs IH]; intros calls m Hf; [reflexivity|].
  cbn [ser_fits].
  pose proof (Hf 0%nat ltac:(simpl; lia)) as H0.
  unfold encoder_fails in H0. rewrite Nat.add_0_r in H0.
  rewrite (createFITS_memsize _ m 0), H0.
  apply IH. intros j Hj.
  replace (S calls + j)%nat with (calls + S j)%nat by lia.
  apply Hf. simpl. lia.
Qed.

(** A loop on a part of the state is a loop on that part alone. *)
Lemma for_each_sim {A S T} (l : list A) (body : A -> S -> result S)
  (step : A -> T -> result T) (view : S -> T) (put : S -> T -> S) :
  (forall a s, body a s = (t <- step a (view s) ;; Ok (put s t))) ->
  (forall s t, view (put s t) = t) ->
  (forall s t t', put (put s t) t' = put s t') ->
  (forall s, put s (view s) = s) ->
  forall s, for_each l body s = (t <- for_each l step (view s) ;; Ok (put s t)).
Proof.
  intros Hb Hvp Hpp Hpv. induction l as [|a l IH]; intros s; simpl.
  - rewrite Hpv. reflexivity.
  - rewrite Hb. destruct (step a (view s)) as [t|f]; simpl; [|reflexivity].
    rewrite IH, Hvp. destruct (for_each l step t); simpl; [|reflexivity].
    rewrite Hpp. reflexivity.
Qed.

Definition view_plot (s : @fin_loop D) : ser_state :=
  {| ss_strs := plot_str (f_st s); ss_slots := plotB (f_st s);
     ss_events := events (f_st s); ss_memsize := f_memsize s;
     ss_calls := f_calls s |}.

Definition put_plot (s : @fin_loop D) (t : ser_state) : @fin_loop D :=
  {| f_st := set_events (set_plotB (set_plot_str (f_st s) (ss_strs t))
                           (ss_slots t)) (ss_events t);
     f_memsize := ss_memsize t; f_calls := ss_calls t |}.

Definition view_auto (s : @fin_loop D) : ser_state :=
  {| ss_strs := autocorrelations_str (f_st s);
     ss_slots := autocorrelationsB (f_st s);
     ss_events := events (f_st s); ss_memsize := f_memsize s;
     ss_calls := f_calls s |}.

Definition put_auto (s : @fin_loop D) (t : ser_state) : @fin_loop D :=
  {| f_st := set_events
               (set_autocorrelationsB
                  (set_autocorrelations_str (f_st s) (ss_strs t)) (ss_slots t))
               (ss_events t);
     f_memsize := ss_memsize t; f_calls := ss_calls t |}.

Definition view_cross (s : @fin_loop D) : ser_state :=
  {| ss_strs := crosscorrelations_str (f_st s);
     ss_slots := crosscorrelationsB (f_st s);
     ss_events := events (f_st s); ss_memsize := f_memsize s;
     ss_calls := f_calls s |}.

Definition put_cross (s : @fin_loop D) (t : ser_state) : @fin_loop D :=
  {| f_st := set_events
               (set_crosscorrelationsB
                  (set_crosscorrelations_str (f_st s) (ss_strs t)) (ss_slots t))
               (ss_events t);
     f_memsize := ss_memsize t; f_calls := ss_calls t |}.

Definition pre_plot (str : @dsp_stream D) : list (@event D) :=
  if HasDSP E then [DSP_processBLOB str] else [].

Definition pre_none (str : @dsp_stream D) : list (@event D) := [].

Lemma emit_emit (st : @AHP_XC D) (a b : list (@event D)) :
  emit (emit st a) b = emit st (a ++ b).
Proof.
  unfold emit. cbn [events set_events]. rewrite <- app_assoc. reflexivity.
Qed.

Lemma plot_blob_body_sim (fits : nat -> fits_outcome) (x : nat)
  (s : @fin_loop D) :
  plot_blob_body E fits x s
  = (t <- ser_step fits pre_plot dsp_buffer_set0 x (view_plot s) ;;
     Ok (put_plot s t)).
Proof.
  unfold plot_blob_body, ser_step, encode_into, view_plot, put_plot, pre_plot.
  cbn [ss_strs ss_slots ss_events ss_memsize ss_calls].
  destruct (rdn (plot_str (f_st s)) x) as [str|] eqn:Hrd; [|reflexivity].
  cbn [bind].
  destruct (HasDSP E);
    cbn [f_st f_memsize f_calls with_st emit events set_events plotB plot_str];
    destruct (createFITS (fits (f_calls s)) (-64) (f_memsize s)) as [ok m];
    cbn [fst snd]; destruct ok;
    try (destruct (copy_in_bounds _ _ _); [|reflexivity]);
    try (destruct (wrn (plotB (f_st s)) x _) as [slots|]; [|reflexivity]);
    cbn [bind fst snd f_st f_memsize f_calls with_st emit events set_events
         set_plotB plotB plot_str];
    rewrite Hrd; cbn [bind];
    (destruct (dsp_buffer_set0 str) as [str'|]; [|reflexivity]); cbn [bind];
    (destruct (wrn (plot_str (f_st s)) x str') as [strs|]; [|reflexivity]);
    cbn [bind]; rewrite ?emit_emit; reflexivity.
Qed.

Lemma autocorrelation_blob_body_sim (fits : nat -> fits_outcome) (x : nat)
  (s : @fin_loop D) :
  autocorrelation_blob_body E fits x s
  = (t <- ser_step fits pre_none (reset_stream E) x (view_auto s) ;;
     Ok (put_auto s t)).
Proof.
  unfold autocorrelation_blob_body, ser_step, encode_into, view_auto, put_auto,
    pre_none.
  cbn [ss_strs ss_slots ss_events ss_memsize ss_calls].
  destruct (rdn (autocorrelations_str (f_st s)) x) as [str|] eqn:Hrd;
    [|reflexivity].
  cbn [bind].
  destruct (createFITS (fits (f_calls s)) (-64) (f_memsize s)) as [ok m];
    cbn [fst snd]; destruct ok;
    try (destruct (copy_in_bounds _ _ _); [|reflexivity]);
    try (destruct (wrn (autocorrelationsB (f_st s)) x _) as [slots|];
         [|reflexivity]);
    cbn [bind fst snd f_st f_memsize f_calls with_st emit events set_events
         set_autocorrelationsB autocorrelationsB autocorrelations_str];
    rewrite Hrd; cbn [bind];
    (destruct (reset_stream E str) as [str'|]; [|reflexivity]); cbn [bind];
    (destruct (wrn (autocorrelations_str (f_st s)) x str') as [strs|];
     [|reflexivity]);
    cbn [bind]; reflexivity.
Qed.

Lemma crosscorrelation_blob_body_sim (fits : nat -> fits_outcome) (x y : nat)
  (s : @fin_loop D) :
  crosscorrelation_blob_body E fits x y s
  = (t <- ser_step fits pre_none (reset_stream E) x (view_cross s) ;;
     Ok (put_cross s t)).
Proof.
  unfold crosscorrelation_blob_body, ser_step, encode_into, view_cross,
    put_cross, pre_none.
  cbn [ss_strs ss_slots ss_events ss_memsize ss_calls].
  destruct (rdn (crosscorrelations_str (f_st s)) x) as [str|] eqn:Hrd;
    [|reflexivity].
  cbn [bind].
  destruct (createFITS (fits (f_calls s)) (-64) (f_memsize s)) as [ok m];
    cbn [fst snd]; destruct ok;
    try (destruct (copy_in_bounds _ _ _); [|reflexivity]);
    try (destruct (wrn (crosscorrelationsB (f_st s)) x _) as [slots|];
         [|reflexivity]);
    cbn [bind fst snd f_st f_memsize f_calls with_st emit events set_events
         set_crosscorrelationsB crosscorrelationsB crosscorrelations_str];
    rewrite Hrd; cbn [bind];
    (destruct (reset_stream E str) as [str'|]; [|reflexivity]); cbn [bind];
    (destruct (wrn (crosscorrelations_str (f_st s)) x str') as [strs|];
     [|reflexivity]);
    cbn [bind]; reflexivity.
Qed.

(** [dsp_buffer_set0] and [reset_stream] when they succeed. *)
Definition zeroed (s : @dsp_stream D) : dsp_stream :=
  {| sizes0 := sizes0 s; sizes1 := sizes1 s; len := len s;
     buf := replicate (Z.to_nat (len s)) d_zero
            ++ drop (Z.to_nat (len s)) (buf s) |}.

Definition fresh_row (s : @dsp_stream D) : dsp_stream :=
  {| sizes0 := sizes0 s; sizes1 := 1; len := sizes0 s;
     buf := replicate (Z.to_nat (sizes0 s)) d_zero |}.

Lemma zeroed_plot (k : Z) (p : @dsp_stream D) :
  plot_ok k p -> dsp_buffer_set0 p = Ok (zeroed p) /\ plot_ok k (zeroed p).
Proof.
  intros [Hk Hmax Hw Hh Hlen Hbuf]. unfold dsp_buffer_set0.
  destruct (Nat.leb_spec (Z.to_nat (len p)) (length (buf p))); [|lia].
  split; [reflexivity|]. constructor; cbn; auto.
  rewrite length_app, length_replicate, length_drop. lia.
Qed.

(** A stream that fits an [int]. *)
Definition stream_fit (w : Z) (s : @dsp_stream D) : Prop :=
  stream_wf w s /\ stream_room 0 s.

Lemma fresh_row_stream (w : Z) (s : @dsp_stream D) :
  1 <= w -> stream_fit w s ->
  reset_stream E s = Ok (fresh_row s) /\ stream_fit w (fresh_row s).
Proof.
  intros Hw [[Hsw Hsh Hsl Hsb] [_ Hroom]]. unfold INT_MAX in Hroom.
  unfold reset_stream, dsp_stream_set_dim1, dsp_stream_alloc_buffer,
    dsp_buffer_set0, realloc.
  cbn [sizes0 sizes1 len buf].
  assert (Hwm : sizes0 s <= INT_MAX) by (unfold INT_MAX; nia).
  rewrite Z.mul_1_r, wrap_int_small by (unfold INT_MAX in *; lia).
  rewrite length_resize.
  destruct (Nat.leb_spec (Z.to_nat (sizes0 s)) (Z.to_nat (sizes0 s))); [|lia].
  split.
  - unfold fresh_row. do 2 f_equal.
    rewrite drop_ge by (rewrite length_resize; lia). apply app_nil_r.
  - split; [constructor; cbn; auto; try lia|].
    + rewrite length_replicate. reflexivity.
    + unfold stream_room, INT_MAX in *. cbn. lia.
Qed.

Lemma stream_room_le (j k : Z) (s : @dsp_stream D) :
  j <= k -> stream_room k s -> stream_room j s.
Proof. unfold stream_room. intros Hjk [H0 H1]. split; [exact H0|nia]. Qed.

(** Whether the autocorrelation and crosscorrelation blobs are generated
    (lines 232 and 257). *)
Definition auto_on : bool :=
  (0 <? nlines E)%nat && (1 <? ahp_xc_get_autocorrelator_lagsize E).
Definition cross_on : bool :=
  (0 <? ahp_xc_get_nbaselines E)%nat
  && (1 <? ahp_xc_get_crosscorrelator_lagsize E).

(** The order in which finalize visits the streams of each array. *)
Definition plot_visits : list nat := upto nplots.
Definition auto_visits : list nat := upto (nlines E).
Definition cross_visits : list nat := fst <$> pairs (nlines E).

(** The number of [createFITS] calls made before the autocorrelations and
    before the crosscorrelations. *)
Definition auto_base : nat := nplots.
Definition cross_base : nat :=
  (nplots + if auto_on then nlines E else 0)%nat.

Definition fin_plots (st : @AHP_XC D) : list dsp_stream :=
  ser_strs zeroed plot_visits (plot_str st).
Definition fin_autos (st : @AHP_XC D) : list dsp_stream :=
  if auto_on then ser_strs fresh_row auto_visits (autocorrelations_str st)
  else autocorrelations_str st.
Definition fin_cross (st : @AHP_XC D) : list dsp_stream :=
  if cross_on then ser_strs fresh_row cross_visits (crosscorrelations_str st)
  else crosscorrelations_str st.

(** The events of finalize: every stream is handed to the encoder, whatever
    the encoder returned for the ones before. *)
Definition fin_events (fits : nat -> fits_outcome) (st : @AHP_XC D)
  : list event :=
  ser_events fits pre_plot (ser_inputs zeroed plot_visits (plot_str st)) 0
  ++ [IDSetBLOB plotBP]
  ++ (if auto_on
      then ser_events fits pre_none
             (ser_inputs fresh_row auto_visits (autocorrelations_str st))
             auto_base
           ++ [IDSetBLOB autocorrelationsBP]
      else [])
  ++ (if cross_on
      then ser_events fits pre_none
             (ser_inputs fresh_row cross_visits (crosscorrelations_str st))
             cross_base
           ++ [IDSetBLOB crosscorrelationsBP]
      else [])
  ++ [IDSetNumber_FramedIntegration].

(** The state finalize leaves, by the fields it writes. *)
Definition fin_state (fits : nat -> fits_outcome) (st : @AHP_XC D)
  (pb ab cb : list IBLOB) : AHP_XC :=
  set_events
    (set_crosscorrelationsB
       (set_crosscorrelations_str
          (set_autocorrelationsB
             (set_autocorrelations_str
                (set_plotB
                   (set_plot_str (set_InIntegration st false) (fin_plots st))
                   pb)
                (fin_autos st))
             ab)
          (fin_cross st))
       cb)
    (events st ++ fin_events fits st).

Lemma set_slots_same (st : @AHP_XC D) :
  set_autocorrelationsB
    (set_autocorrelations_str st (autocorrelations_str st))
    (autocorrelationsB st) = st
  /\ set_crosscorrelationsB
       (set_crosscorrelations_str st (crosscorrelations_str st))
       (crosscorrelationsB st) = st.
Proof. destruct st; split; reflexivity. Qed.

Lemma put_view_plot (s : @fin_loop D) : put_plot s (view_plot s) = s.
Proof. destruct s as [st m c]; destruct st; reflexivity. Qed.
Lemma put_view_auto (s : @fin_loop D) : put_auto s (view_auto s) = s.
Proof. destruct s as [st m c]; destruct st; reflexivity. Qed.
Lemma put_view_cross (s : @fin_loop D) : put_cross s (view_cross s) = s.
Proof. destruct s as [st m c]; destruct st; reflexivity. Qed.

Lemma cross_visits_lt (x : nat) :
  x ∈ cross_visits -> (x < length (pairs (nlines E)))%nat.
Proof.
  unfold cross_visits. intros Hx.
  apply list_elem_of_fmap in Hx as ([x' y] & -> & Hp). cbn [fst].
  apply elem_of_pairs in Hp as [Hxy Hy].
  (* the pairs [(x', x'+1)], ..., are [x' + 1] pairs at least *)
  assert (Hle : (length (pairs_before (nlines E) (S x'))
                 <= length (pairs (nlines E)))%nat)
    by (apply pairs_before_le; lia).
  assert (Hge : forall k, (k < nlines E)%nat ->
                  (k <= length (pairs_before (nlines E) k))%nat).
  { induction k as [|k IH]; intros Hk; [lia|].
    rewrite pairs_before_S. specialize (IH ltac:(lia)). lia. }
  specialize (Hge x' ltac:(lia)). rewrite pairs_before_S in Hle. lia.
Qed.

Lemma view_put_plot (s : @fin_loop D) (t : ser_state) :
  view_plot (put_plot s t) = t.
Proof. destruct t; reflexivity. Qed.
Lemma view_put_auto (s : @fin_loop D) (t : ser_state) :
  view_auto (put_auto s t) = t.
Proof. destruct t; reflexivity. Qed.
Lemma view_put_cross (s : @fin_loop D) (t : ser_state) :
  view_cross (put_cross s t) = t.
Proof. destruct t; reflexivity. Qed.

Lemma plot_loop_sim (fits : nat -> fits_outcome) (s : @fin_loop D) :
  for_each (upto nplots) (plot_blob_body E fits) s
  = (t <- for_each plot_visits (ser_step fits pre_plot dsp_buffer_set0)
            (view_plot s) ;;
     Ok (put_plot s t)).
Proof.
  apply for_each_sim.
  - apply plot_blob_body_sim.
  - apply view_put_plot.
  - reflexivity.
  - apply put_view_plot.
Qed.

Lemma auto_loop_sim (fits : nat -> fits_outcome) (s : @fin_loop D) :
  for_each (upto (nlines E)) (autocorrelation_blob_body E fits) s
  = (t <- for_each auto_visits (ser_step fits pre_none (reset_stream E))
            (view_auto s) ;;
     Ok (put_auto s t)).
Proof.
  apply for_each_sim.
  - apply autocorrelation_blob_body_sim.
  - apply view_put_auto.
  - reflexivity.
  - apply put_view_auto.
Qed.

Lemma cross_loop_sim (fits : nat -> fits_outcome) (s : @fin_loop D) :
  for_pairs (nlines E) (crosscorrelation_blob_body E fits) s
  = (t <- for_each cross_visits (ser_step fits pre_none (reset_stream E))
            (view_cross s) ;;
     Ok (put_cross s t)).
Proof.
  rewrite for_pairs_flat. unfold cross_visits. rewrite for_each_fmap.
  apply (for_each_sim (pairs (nlines E))
           (fun p => crosscorrelation_blob_body E fits (fst p) (snd p))
           (fun p => ser_step fits pre_none (reset_stream E) (fst p))).
  - intros p s'. apply crosscorrelation_blob_body_sim.
  - apply view_put_cross.
  - reflexivity.
  - apply put_view_cross.
Qed.

(** The slots a loop over [l] fills: a stream whose last encoding
    succeeded has that encoding in its slot. *)
Definition slots_filled (fits : nat -> fits_outcome)
  (reset' : @dsp_stream D -> @dsp_stream D) (l : list nat)
  (strs : list (@dsp_stream D)) (base : nat) (slots' : list IBLOB) : Prop :=
  forall j z str,
    l !! j = Some z ->
    (forall j', (j < j')%nat -> l !! j' <> Some z) ->
    ser_inputs reset' l strs !! j = Some str ->
    fst (createFITS (fits (base + j)%nat) (-64) 0) = true ->
    slots' !! z = Some (filled_slot (fits (base + j)%nat) str).

Lemma plot_loop_spec (fits : nat -> fits_outcome) (s : @fin_loop D) (k : Z)
  (p : @dsp_stream D) :
  plot_str (f_st s) = [p] -> plot_ok k p ->
  length (plotB (f_st s)) = nplots ->
  ser_fits fits (ser_inputs zeroed plot_visits (plot_str (f_st s)))
    (f_calls s) (f_memsize s) = true ->
  exists pb m,
    for_each (upto nplots) (plot_blob_body E fits) s
    = Ok (put_plot s
            {| ss_strs := ser_strs zeroed plot_visits (plot_str (f_st s));
               ss_slots := pb;
               ss_events :=
                 events (f_st s)
                 ++ ser_events fits pre_plot
                      (ser_inputs zeroed plot_visits (plot_str (f_st s)))
                      (f_calls s);
               ss_memsize := m;
               ss_calls := (f_calls s + length plot_visits)%nat |})
    /\ length pb = length (plotB (f_st s))
    /\ Forall (plot_ok k) (ser_strs zeroed plot_visits (plot_str (f_st s)))
    /\ length (ser_strs zeroed plot_visits (plot_str (f_st s)))
       = length (plot_str (f_st s))
    /\ (forall z,
          (forall j, plot_visits !! j = Some z ->
                     encoder_fails (fits (f_calls s + j)%nat)) ->
          pb !! z = plotB (f_st s) !! z)
    /\ slots_filled fits zeroed plot_visits (plot_str (f_st s)) (f_calls s) pb.
Proof.
  intros Hp Hpo Hpb Hfit. rewrite plot_loop_sim.
  destruct (ser_loop_spec fits pre_plot dsp_buffer_set0 zeroed (plot_ok k)
              plot_visits (zeroed_plot k) (view_plot s))
    as (pb & m & Hf & Hl & HP & Hlen & Hsl & Hok).
  - cbn. rewrite Hp. constructor; [exact Hpo|constructor].
  - cbn. rewrite Hp, Hpb. repeat constructor.
  - exact Hfit.
  - exists pb, m. rewrite Hf. cbn [bind]. auto 10.
Qed.

Lemma plot_loop_overflow (fits : nat -> fits_outcome) (s : @fin_loop D)
  (k : Z) (p : @dsp_stream D) :
  plot_str (f_st s) = [p] -> plot_ok k p ->
  length (plotB (f_st s)) = nplots ->
  ser_fits fits (ser_inputs zeroed plot_visits (plot_str (f_st s)))
    (f_calls s) (f_memsize s) = false ->
  for_each (upto nplots) (plot_blob_body E fits) s = Fault OutOfBounds.
Proof.
  intros Hp Hpo Hpb Hfit. rewrite plot_loop_sim.
  rewrite (ser_loop_overflow fits pre_plot dsp_buffer_set0 zeroed (plot_ok k)
             plot_visits (zeroed_plot k) (view_plot s)); [reflexivity| | |].
  - cbn. rewrite Hp. constructor; [exact Hpo|constructor].
  - cbn. rewrite Hp, Hpb. repeat constructor.
  - exact Hfit.
Qed.

Lemma auto_loop_spec (fits : nat -> fits_outcome) (s : @fin_loop D) :
  1 < ahp_xc_get_autocorrelator_lagsize E ->
  length (autocorrelations_str (f_st s)) = nlines E ->
  Forall (stream_fit (ahp_xc_get_autocorrelator_lagsize E))
    (autocorrelations_str (f_st s)) ->
  length (autocorrelationsB (f_st s)) = nlines E ->
  ser_fits fits
    (ser_inputs fresh_row auto_visits (autocorrelations_str (f_st s)))
    (f_calls s) (f_memsize s) = true ->
  exists ab m,
    for_each (upto (nlines E)) (autocorrelation_blob_body E fits) s
    = Ok (put_auto s
            {| ss_strs := ser_strs fresh_row auto_visits
                            (autocorrelations_str (f_st s));
               ss_slots := ab;
               ss_events :=
                 events (f_st s)
                 ++ ser_events fits pre_none
                      (ser_inputs fresh_row auto_visits
                         (autocorrelations_str (f_st s)))
                      (f_calls s);
               ss_memsize := m;
               ss_calls := (f_calls s + length auto_visits)%nat |})
    /\ length ab = length (autocorrelationsB (f_st s))
    /\ Forall (stream_fit (ahp_xc_get_autocorrelator_lagsize E))
         (ser_strs fresh_row auto_visits (autocorrelations_str (f_st s)))
    /\ length (ser_strs fresh_row auto_visits (autocorrelations_str (f_st s)))
       = length (autocorrelations_str (f_st s))
    /\ (forall z,
          (forall j, auto_visits !! j = Some z ->
                     encoder_fails (fits (f_calls s + j)%nat)) ->
          ab !! z = autocorrelationsB (f_st s) !! z)
    /\ slots_filled fits fresh_row auto_visits
         (autocorrelations_str (f_st s)) (f_calls s) ab.
Proof.
  intros Hal Hl Hfit Hb Hcp. rewrite auto_loop_sim.
  assert (H1 : 1 <= ahp_xc_get_autocorrelator_lagsize E) by lia.
  destruct (ser_loop_spec fits pre_none (reset_stream E) fresh_row
              (stream_fit (ahp_xc_get_autocorrelator_lagsize E))
              auto_visits
              (fun s0 => fresh_row_stream _ s0 H1) (view_auto s))
    as (ab & m & Hf & Hlb & HP & Hlen & Hsl & Hok).
  - exact Hfit.
  - cbn. apply Forall_forall. intros x Hx. apply elem_of_seq in Hx.
    rewrite Hl, Hb. lia.
  - exact Hcp.
  - exists ab, m. rewrite Hf. cbn [bind]. auto 10.
Qed.

Lemma auto_loop_overflow (fits : nat -> fits_outcome) (s : @fin_loop D) :
  1 < ahp_xc_get_autocorrelator_lagsize E ->
  length (autocorrelations_str (f_st s)) = nlines E ->
  Forall (stream_fit (ahp_xc_get_autocorrelator_lagsize E))
    (autocorrelations_str (f_st s)) ->
  length (autocorrelationsB (f_st s)) = nlines E ->
  ser_fits fits
    (ser_inputs fresh_row auto_visits (autocorrelations_str (f_st s)))
    (f_calls s) (f_memsize s) = false ->
  for_each (upto (nlines E)) (autocorrelation_blob_body E fits) s
  = Fault OutOfBounds.
Proof.
  intros Hal Hl Hfit Hb Hcp. rewrite auto_loop_sim.
  assert (H1 : 1 <= ahp_xc_get_autocorrelator_lagsize E) by lia.
  rewrite (ser_loop_overflow fits pre_none (reset_stream E) fresh_row
             (stream_fit (ahp_xc_get_autocorrelator_lagsize E))
             auto_visits
             (fun s0 => fresh_row_stream _ s0 H1) (view_auto s));
    [reflexivity| | |].
  - exact Hfit.
  - cbn. apply Forall_forall. intros x Hx. apply elem_of_seq in Hx.
    rewrite Hl, Hb. lia.
  - exact Hcp.
Qed.

Lemma cross_loop_spec (fits : nat -> fits_outcome) (s : @fin_loop D) :
  1 < ahp_xc_get_crosscorrelator_lagsize E ->
  length (crosscorrelations_str (f_st s)) = length (pairs (nlines E)) ->
  Forall (stream_fit (ahp_xc_get_crosscorrelator_lagsize E * 2 - 1))
    (crosscorrelations_str (f_st s)) ->
  length (crosscorrelationsB (f_st s)) = length (pairs (nlines E)) ->
  ser_fits fits
    (ser_inputs fresh_row cross_visits (crosscorrelations_str (f_st s)))
    (f_calls s) (f_memsize s) = true ->
  exists cb m,
    for_pairs (nlines E) (crosscorrelation_blob_body E fits) s
    = Ok (put_cross s
            {| ss_strs := ser_strs fresh_row cross_visits
                            (crosscorrelations_str (f_st s));
               ss_slots := cb;
               ss_events :=
                 events (f_st s)
                 ++ ser_events fits pre_none
                      (ser_inputs fresh_row cross_visits
                         (crosscorrelations_str (f_st s)))
                      (f_calls s);
               ss_memsize := m;
               ss_calls := (f_calls s + length cross_visits)%nat |})
    /\ length cb = length (crosscorrelationsB (f_st s))
    /\ Forall (stream_fit (ahp_xc_get_crosscorrelator_lagsize E * 2 - 1))
         (ser_strs fresh_row cross_visits (crosscorrelations_str (f_st s)))
    /\ length (ser_strs fresh_row cross_visits (crosscorrelations_str (f_st s)))
       = length (crosscorrelations_str (f_st s))
    /\ (forall z,
          (forall j, cross_visits !! j = Some z ->
                     encoder_fails (fits (f_calls s + j)%nat)) ->
          cb !! z = crosscorrelationsB (f_st s) !! z)
    /\ slots_filled fits fresh_row cross_visits
         (crosscorrelations_str (f_st s)) (f_calls s) cb.
Proof.
  intros Hcl Hl Hfit Hb Hcp. rewrite cross_loop_sim.
  assert (H1 : 1 <= ahp_xc_get_crosscorrelator_lagsize E * 2 - 1) by lia.
  destruct (ser_loop_spec fits pre_none (reset_stream E) fresh_row
              (stream_fit (ahp_xc_get_crosscorrelator_lagsize E * 2 - 1))
              cross_visits
              (fun s0 => fresh_row_stream _ s0 H1) (view_cross s))
    as (cb & m & Hf & Hlb & HP & Hlen & Hsl & Hok).
  - exact Hfit.
  - cbn. apply Forall_forall. intros x Hx. apply cross_visits_lt in Hx.
    rewrite Hl, Hb. lia.
  - exact Hcp.
  - exists cb, m. rewrite Hf. cbn [bind]. auto 10.
Qed.

Lemma cross_loop_overflow (fits : nat -> fits_outcome) (s : @fin_loop D) :
  1 < ahp_xc_get_crosscorrelator_lagsize E ->
  length (crosscorrelations_str (f_st s)) = length (pairs (nlines E)) ->
  Forall (stream_fit (ahp_xc_get_crosscorrelator_lagsize E * 2 - 1))
    (crosscorrelations_str (f_st s)) ->
  length (crosscorrelationsB (f_st s)) = length (pairs (nlines E)) ->
  ser_fits fits
    (ser_inputs fresh_row cross_visits (crosscorrelations_str (f_st s)))
    (f_calls s) (f_memsize s) = false ->
  for_pairs (nlines E) (crosscorrelation_blob_body E fits) s
  = Fault OutOfBounds.
Proof.
  intros Hcl Hl Hfit Hb Hcp. rewrite cross_loop_sim.
  assert (H1 : 1 <= ahp_xc_get_crosscorrelator_lagsize E * 2 - 1) by lia.
  rewrite (ser_loop_overflow fits pre_none (reset_stream E) fresh_row
             (stream_fit (ahp_xc_get_crosscorrelator_lagsize E * 2 - 1))
             cross_visits
             (fun s0 => fresh_row_stream _ s0 H1) (view_cross s));
    [reflexivity| | |].
  - exact Hfit.
  - cbn. apply Forall_forall. intros x Hx. apply cross_visits_lt in Hx.
    rewrite Hl, Hb. lia.
  - exact Hcp.
Qed.

Ltac fin_simpl :=
  unfold emit;
  cbn [f_st f_calls f_memsize with_memsize0 with_st put_plot put_auto put_cross
       ss_strs ss_slots ss_events ss_calls ss_memsize emit events set_events
       autocorrelations_str autocorrelationsB crosscorrelations_str
       crosscorrelationsB plot_str plotB set_plotB set_plot_str
       set_autocorrelationsB set_autocorrelations_str set_crosscorrelationsB
       set_crosscorrelations_str set_InIntegration].

(** Every copy of finalize stays within [blob]: [memsize] is back at zero
    before each of the three loops. *)
Definition plots_fit (fits : nat -> fits_outcome) (st : @AHP_XC D) : bool :=
  ser_fits fits (ser_inputs zeroed plot_visits (plot_str st)) 0 0.
Definition autos_fit (fits : nat -> fits_outcome) (st : @AHP_XC D) : bool :=
  if auto_on
  then ser_fits fits
         (ser_inputs fresh_row auto_visits (autocorrelations_str st))
         auto_base 0
  else true.
Definition cross_fit (fits : nat -> fits_outcome) (st : @AHP_XC D) : bool :=
  if cross_on
  then ser_fits fits
         (ser_inputs fresh_row cross_visits (crosscorrelations_str st))
         cross_base 0
  else true.
Definition fin_fits (fits : nat -> fits_outcome) (st : @AHP_XC D) : bool :=
  plots_fit fits st && autos_fit fits st && cross_fit fits st.

(** The autocorrelation part of finalize (lines 232-255) from the state
    [s1] the plots leave. *)
Lemma fin_auto_part (fits : nat -> fits_outcome) (st : @AHP_XC D)
  (s1 : @fin_loop D) :
  wf st -> room 0 st ->
  autocorrelations_str (f_st s1) = autocorrelations_str st ->
  autocorrelationsB (f_st s1) = autocorrelationsB st ->
  f_calls s1 = auto_base -> f_memsize s1 = 0 ->
  (autos_fit fits st = true ->
   exists ab s2,
     (if (0 <? nlines E)%nat && (1 <? ahp_xc_get_autocorrelator_lagsize E)
      then s <- for_each (upto (nlines E))
                  (autocorrelation_blob_body E fits) s1 ;;
           Ok (with_st s (emit (f_st s) [IDSetBLOB autocorrelationsBP]))
      else Ok s1) = Ok s2
     /\ f_st s2
        = set_events
            (set_autocorrelationsB
               (set_autocorrelations_str (f_st s1) (fin_autos st)) ab)
            (events (f_st s1)
             ++ (if auto_on
                 then ser_events fits pre_none
                        (ser_inputs fresh_row auto_visits
                           (autocorrelations_str st))
                        auto_base
                      ++ [IDSetBLOB autocorrelationsBP]
                 else []))
     /\ f_calls s2 = cross_base
     /\ length ab = length (autocorrelationsB st)
     /\ (forall z,
           (forall j, auto_visits !! j = Some z ->
                      encoder_fails (fits (auto_base + j)%nat)) ->
           ab !! z = autocorrelationsB st !! z)
     /\ (auto_on = true ->
         slots_filled fits fresh_row auto_visits (autocorrelations_str st)
           auto_base ab))
  /\ (autos_fit fits st = false ->
      (if (0 <? nlines E)%nat && (1 <? ahp_xc_get_autocorrelator_lagsize E)
       then s <- for_each (upto (nlines E))
                   (autocorrelation_blob_body E fits) s1 ;;
            Ok (with_st s (emit (f_st s) [IDSetBLOB autocorrelationsBP]))
       else Ok s1) = Fault OutOfBounds).
Proof.
  intros Hwf [Hra Hrc] Hx1 Hx2 Hx3 Hx4.
  unfold autos_fit, fin_autos, cross_base. fold auto_on.
  destruct auto_on eqn:Hon.
  - unfold auto_on in Hon. apply andb_prop in Hon as [_ Hal].
    apply Z.ltb_lt in Hal.
    destruct (wf_auto st Hwf Hal) as (Hl & Hs & Hb).
    assert (Hfit : Forall (stream_fit (ahp_xc_get_autocorrelator_lagsize E))
                     (autocorrelations_str (f_st s1))).
    { rewrite Hx1. apply Forall_and. split; [exact Hs|exact Hra]. }
    split; intros Hcp.
    + destruct (auto_loop_spec fits s1 Hal) as (ab & m2 & Hf2 & Hlab & _ & _ & Hsla & Hoka).
      { rewrite Hx1. exact Hl. }
      { exact Hfit. }
      { rewrite Hx2. exact Hb. }
      { rewrite Hx1, Hx3, Hx4. exact Hcp. }
      exists ab. eexists. rewrite Hf2. cbn [bind]. split; [reflexivity|].
      rewrite Hx1, Hx2, Hx3 in *.
      split; [|split; [|split; [|split]]].
      * fin_simpl. unfold emit. fin_simpl.
        rewrite <- ?app_assoc. reflexivity.
      * fin_simpl. unfold auto_visits, upto. rewrite length_seq.
        unfold auto_base. reflexivity.
      * exact Hlab.
      * exact Hsla.
      * intros _. exact Hoka.
    + rewrite (auto_loop_overflow fits s1 Hal); [reflexivity| | | |].
      * rewrite Hx1. exact Hl.
      * exact Hfit.
      * rewrite Hx2. exact Hb.
      * rewrite Hx1, Hx3, Hx4. exact Hcp.
  - split; [intros _|intros H; discriminate H].
    exists (autocorrelationsB st), s1. split; [reflexivity|].
    split; [|split; [|split; [|split]]]; auto.
    + rewrite app_nil_r, <- Hx1, <- Hx2. destruct (f_st s1); reflexivity.
    + intros H; discriminate H.
Qed.

(** The crosscorrelation part of finalize (lines 256-284) from the state
    [s3] the autocorrelations leave. *)
Lemma fin_cross_part (fits : nat -> fits_outcome) (st : @AHP_XC D)
  (s3 : @fin_loop D) :
  wf st -> room 0 st ->
  crosscorrelations_str (f_st s3) = crosscorrelations_str st ->
  crosscorrelationsB (f_st s3) = crosscorrelationsB st ->
  f_calls s3 = cross_base -> f_memsize s3 = 0 ->
  (cross_fit fits st = true ->
   exists cb s4,
     (if (0 <? ahp_xc_get_nbaselines E)%nat
         && (1 <? ahp_xc_get_crosscorrelator_lagsize E)
      then s <- for_pairs (nlines E) (crosscorrelation_blob_body E fits) s3 ;;
           Ok (with_st s (emit (f_st s) [IDSetBLOB crosscorrelationsBP]))
      else Ok s3) = Ok s4
     /\ f_st s4
        = set_events
            (set_crosscorrelationsB
               (set_crosscorrelations_str (f_st s3) (fin_cross st)) cb)
            (events (f_st s3)
             ++ (if cross_on
                 then ser_events fits pre_none
                        (ser_inputs fresh_row cross_visits
                           (crosscorrelations_str st))
                        cross_base
                      ++ [IDSetBLOB crosscorrelationsBP]
                 else []))
     /\ length cb = length (crosscorrelationsB st)
     /\ (forall z,
           (forall j, cross_visits !! j = Some z ->
                      encoder_fails (fits (cross_base + j)%nat)) ->
           cb !! z = crosscorrelationsB st !! z)
     /\ (cross_on = true ->
         slots_filled fits fresh_row cross_visits (crosscorrelations_str st)
           cross_base cb))
  /\ (cross_fit fits st = false ->
      (if (0 <? ahp_xc_get_nbaselines E)%nat
          && (1 <? ahp_xc_get_crosscorrelator_lagsize E)
       then s <- for_pairs (nlines E) (crosscorrelation_blob_body E fits) s3 ;;
            Ok (with_st s (emit (f_st s) [IDSetBLOB crosscorrelationsBP]))
       else Ok s3) = Fault OutOfBounds).
Proof.
  intros Hwf [Hra Hrc] Hx1 Hx2 Hx3 Hx4.
  unfold cross_fit, fin_cross. fold cross_on.
  destruct cross_on eqn:Hon.
  - unfold cross_on in Hon. apply andb_prop in Hon as [_ Hcl].
    apply Z.ltb_lt in Hcl.
    destruct (wf_cross st Hwf Hcl) as (Hl & Hs & Hb).
    rewrite (wf_nbaselines st Hwf) in Hl, Hb.
    assert (Hfit : Forall (stream_fit
                             (ahp_xc_get_crosscorrelator_lagsize E * 2 - 1))
                     (crosscorrelations_str (f_st s3))).
    { rewrite Hx1. apply Forall_and. split; [exact Hs|exact Hrc]. }
    split; intros Hcp.
    + destruct (cross_loop_spec fits s3 Hcl) as (cb & m4 & Hf4 & Hlcb & _ & _ & Hslc & Hokc).
      { rewrite Hx1. exact Hl. }
      { exact Hfit. }
      { rewrite Hx2. exact Hb. }
      { rewrite Hx1, Hx3, Hx4. exact Hcp. }
      exists cb. eexists. rewrite Hf4. cbn [bind]. split; [reflexivity|].
      rewrite Hx1, Hx2, Hx3 in *.
      split; [|split; [|split]]; auto.
      fin_simpl. rewrite <- !app_assoc. reflexivity.
    + rewrite (cross_loop_overflow fits s3 Hcl); [reflexivity| | | |].
      * rewrite Hx1. exact Hl.
      * exact Hfit.
      * rewrite Hx2. exact Hb.
      * rewrite Hx1, Hx3, Hx4. exact Hcp.
  - split; [intros _|intros H; discriminate H].
    exists (crosscorrelationsB st), s3. split; [reflexivity|].
    split; [|split; [|split]]; auto.
    + rewrite app_nil_r, <- Hx1, <- Hx2. destruct (f_st s3); reflexivity.
    + intros H; discriminate H.
Qed.

(** Lines 200-289 in closed form: when every copy stays within [blob],
    finalize runs to its end whatever else the encoder returns; a slot whose
    every encoding failed is left as it was, and a slot whose last encoding
    succeeded holds it. *)
Lemma finalize_spec (fits : nat -> fits_outcome) (st : @AHP_XC D) :
  wf st -> room 0 st -> fin_fits fits st = true ->
  exists pb ab cb,
    finalize E fits st = Ok (fin_state fits st pb ab cb)
    /\ length pb = length (plotB st)
    /\ length ab = length (autocorrelationsB st)
    /\ length cb = length (crosscorrelationsB st)
    /\ (forall z,
          (forall j, plot_visits !! j = Some z -> encoder_fails (fits j)) ->
          pb !! z = plotB st !! z)
    /\ (forall z,
          (forall j, auto_visits !! j = Some z ->
                     encoder_fails (fits (auto_base + j)%nat)) ->
          ab !! z = autocorrelationsB st !! z)
    /\ (forall z,
          (forall j, cross_visits !! j = Some z ->
                     encoder_fails (fits (cross_base + j)%nat)) ->
          cb !! z = crosscorrelationsB st !! z)
    /\ slots_filled fits zeroed plot_visits (plot_str st) 0 pb
    /\ (auto_on = true ->
        slots_filled fits fresh_row auto_visits (autocorrelations_str st)
          auto_base ab)
    /\ (cross_on = true ->
        slots_filled fits fresh_row cross_visits (crosscorrelations_str st)
          cross_base cb).
Proof.
  intros Hwf Hroom Hfit. unfold fin_fits in Hfit.
  apply andb_prop in Hfit as [Hfit Hfc]. apply andb_prop in Hfit as [Hfp Hfa].
  unfold finalize.
  destruct (wf_plot st Hwf) as (k & p & Hp & Hpo).
  destruct (plot_loop_spec fits
              {| f_st := set_InIntegration st false; f_memsize := 0;
                 f_calls := 0 |} k p Hp Hpo (wf_plotB st Hwf) Hfp)
    as (pb & m1 & Hf1 & Hlpb & _ & _ & Hslp & Hokp).
  rewrite Hf1. cbn [bind]. clear Hf1.
  cbn [f_st f_calls plot_str plotB events set_InIntegration] in *.
  set (s1 := with_memsize0 (with_st _ _)).
  destruct (fin_auto_part fits st s1 Hwf Hroom) as [Hauto _];
    try reflexivity.
  destruct (Hauto Hfa) as (ab & s2 & -> & Hs2 & Hc2 & Hlab & Hsla & Hoka).
  cbn [bind].
  set (s3 := with_memsize0 s2).
  assert (Hst3 : crosscorrelations_str (f_st s3) = crosscorrelations_str st
                 /\ crosscorrelationsB (f_st s3) = crosscorrelationsB st
                 /\ f_calls s3 = cross_base).
  { unfold s3. fin_simpl. rewrite Hs2. fin_simpl. auto. }
  destruct Hst3 as (Hx1 & Hx2 & Hx3).
  destruct (fin_cross_part fits st s3 Hwf Hroom Hx1 Hx2 Hx3 eq_refl)
    as [Hcross _].
  destruct (Hcross Hfc) as (cb & s4 & -> & Hs4 & Hlcb & Hslc & Hokc).
  cbn [bind].
  exists pb, ab, cb. split; [|auto 12].
  f_equal. rewrite Hs4. unfold s3. cbn [f_st with_memsize0]. rewrite Hs2.
  unfold s1, fin_state, fin_events, fin_plots. fin_simpl.
  rewrite <- !app_assoc. reflexivity.
Qed.

(** When a copy runs past [blob], finalize faults. *)
Lemma finalize_overflow (fits : nat -> fits_outcome) (st : @AHP_XC D) :
  wf st -> room 0 st -> fin_fits fits st = false ->
  finalize E fits st = Fault OutOfBounds.
Proof.
  intros Hwf Hroom Hfit. unfold finalize.
  destruct (wf_plot st Hwf) as (k & p & Hp & Hpo).
  destruct (plots_fit fits st) eqn:Hfp.
  2:{ rewrite (plot_loop_overflow fits
                 {| f_st := set_InIntegration st false; f_memsize := 0;
                    f_calls := 0 |} k p Hp Hpo (wf_plotB st Hwf) Hfp).
      reflexivity. }
  destruct (plot_loop_spec fits
              {| f_st := set_InIntegration st false; f_memsize := 0;
                 f_calls := 0 |} k p Hp Hpo (wf_plotB st Hwf) Hfp)
    as (pb & m1 & Hf1 & Hlpb & _ & _ & Hslp & Hokp).
  rewrite Hf1. cbn [bind]. clear Hf1.
  cbn [f_st f_calls plot_str plotB events set_InIntegration] in *.
  set (s1 := with_memsize0 (with_st _ _)).
  destruct (fin_auto_part fits st s1 Hwf Hroom) as [Hauto Hauto'];
    try reflexivity.
  destruct (autos_fit fits st) eqn:Hfa.
  2:{ rewrite (Hauto' eq_refl). reflexivity. }
  destruct (Hauto eq_refl) as (ab & s2 & -> & Hs2 & Hc2 & Hlab & Hsla & Hoka).
  cbn [bind].
  set (s3 := with_memsize0 s2).
  assert (Hst3 : crosscorrelations_str (f_st s3) = crosscorrelations_str st
                 /\ crosscorrelationsB (f_st s3) = crosscorrelationsB st
                 /\ f_calls s3 = cross_base).
  { unfold s3. fin_simpl. rewrite Hs2. fin_simpl. auto. }
  destruct Hst3 as (Hx1 & Hx2 & Hx3).
  destruct (fin_cross_part fits st s3 Hwf Hroom Hx1 Hx2 Hx3 eq_refl)
    as [_ Hcross'].
  unfold fin_fits in Hfit. rewrite Hfp, Hfa in Hfit. cbn [andb] in Hfit.
  rewrite (Hcross' Hfit). reflexivity.
Qed.

Lemma ser_strs_Forall (P : @dsp_stream D -> Prop)
  (reset' : @dsp_stream D -> @dsp_stream D) (l : list nat)
  (strs : list (@dsp_stream D)) :
  (forall s, P s -> P (reset' s)) -> Forall P strs ->
  Forall P (ser_strs reset' l strs).
Proof.
  intros HP. revert strs. induction l as [|x l IH]; intros strs Hs; [exact Hs|].
  simpl. apply IH. destruct (Nat.lt_ge_cases x (length strs)) as [Hx|Hx].
  - apply Forall_insert; [exact Hs|]. apply HP.
    apply (proj1 (Forall_lookup _ _) Hs x).
    apply list_lookup_lookup_total_lt, Hx.
  - rewrite list_insert_ge by exact Hx. exact Hs.
Qed.

Lemma length_ser_strs (reset' : @dsp_stream D -> @dsp_stream D) (l : list nat)
  (strs : list (@dsp_stream D)) :
  length (ser_strs reset' l strs) = length strs.
Proof.
  revert strs. induction l as [|x l IH]; intros strs; [reflexivity|].
  simpl. rewrite IH. apply length_insert.
Qed.

Lemma fresh_row_wf (w : Z) (s : @dsp_stream D) :
  1 <= w -> stream_wf w s -> stream_wf w (fresh_row s).
Proof.
  intros Hw [Hsw Hsh Hsl Hsb]. constructor; cbn; try lia.
  rewrite length_replicate. reflexivity.
Qed.

Lemma wf_fin_state (fits : nat -> fits_outcome) (st : @AHP_XC D)
  (pb ab cb : list IBLOB) :
  wf st -> length pb = length (plotB st) ->
  length ab = length (autocorrelationsB st) ->
  length cb = length (crosscorrelationsB st) ->
  wf (fin_state fits st pb ab cb).
Proof.
  intros [[H1 H2 H3 H4 H5] H6 H7 H8 H9 H10 H11 H12] Hpb Hab Hcb.
  constructor; try assumption.
  - constructor; assumption.
  - destruct H9 as (k & p & Hp & Hpo). exists k. eexists. split.
    + change (plot_str (fin_state fits st pb ab cb)) with (fin_plots st).
      unfold fin_plots, plot_visits. rewrite Hp. reflexivity.
    + simpl. apply zeroed_plot. exact Hpo.
  - change (length pb = nplots). congruence.
  - intros Hl. destruct (H11 Hl) as (Hn & Hs & Hb).
    change (length (fin_autos st) = nlines E
            /\ Forall (stream_wf (ahp_xc_get_autocorrelator_lagsize E)) (fin_autos st)
            /\ length ab = nlines E).
    unfold fin_autos. destruct auto_on.
    + rewrite length_ser_strs. split; [exact Hn|]. split; [|congruence].
      apply ser_strs_Forall; [|exact Hs].
      intros s. apply fresh_row_wf. lia.
    + split; [exact Hn|]. split; [exact Hs|congruence].
  - intros Hl. destruct (H12 Hl) as (Hn & Hs & Hb).
    change (length (fin_cross st) = ahp_xc_get_nbaselines E
            /\ Forall (stream_wf (ahp_xc_get_crosscorrelator_lagsize E * 2 - 1))
                 (fin_cross st)
            /\ length cb = ahp_xc_get_nbaselines E).
    unfold fin_cross. destruct cross_on.
    + rewrite length_ser_strs. split; [exact Hn|]. split; [|congruence].
      apply ser_strs_Forall; [|exact Hs].
      intros s. apply fresh_row_wf. lia.
    + split; [exact Hn|]. split; [exact Hs|congruence].
Qed.

Lemma wf_set_totals (st : @AHP_XC D) (tc : list D)
  (tcr : list ahp_xc_correlation) :
  wf st -> length tc = nlines E -> length tcr = ahp_xc_get_nbaselines E ->
  wf (set_totalcorrelations (set_totalcounts st tc) tcr).
Proof.
  intros [[H1 H2 H3 H4 H5] H6 H7 H8 H9 H10 H11 H12] Htc Htcr.
  constructor.
  - constructor; [exact H1|exact H2|exact H3|exact H4|exact H5].
  - exact H6.
  - exact Htc.
  - exact Htcr.
  - exact H9.
  - exact H10.
  - exact H11.
  - exact H12.
Qed.

Lemma wf_set_timeleft (st : @AHP_XC D) (tl : D) :
  wf st -> wf (set_timeleft st tl).
Proof.
  intros [[H1 H2 H3 H4 H5] H6 H7 H8 H9 H10 H11 H12].
  constructor.
  - constructor; [exact H1|exact H2|exact H3|exact H4|exact H5].
  - exact H6.
  - exact H7.
  - exact H8.
  - exact H9.
  - exact H10.
  - exact H11.
  - exact H12.
Qed.

(** Lines 192-441 when the integration time has elapsed and every copy
    stays within [blob]: finalize, then the totals. *)
Lemma tick_finalize (st : @AHP_XC D) (i : tick_input) (pkt : ahp_xc_packet) :
  wf st -> room 0 st ->
  isConnected i = true -> packet i = Some pkt -> packet_ok pkt ->
  InIntegration st = true -> expired st (now i) = true ->
  fin_fits (fits i) st = true ->
  exists tl pb ab cb tc tcr,
    finalize E (fits i) (set_timeleft st tl)
    = Ok (fin_state (fits i) (set_timeleft st tl) pb ab cb)
    /\ Callback_iteration E st i
       = Ok (set_totalcorrelations
               (set_totalcounts
                  (fin_state (fits i) (set_timeleft st tl) pb ab cb) tc)
               tcr)
    /\ length pb = length (plotB st)
    /\ length ab = length (autocorrelationsB st)
    /\ length cb = length (crosscorrelationsB st)
    /\ (forall z,
          (forall j, plot_visits !! j = Some z -> encoder_fails (fits i j)) ->
          pb !! z = plotB st !! z)
    /\ (forall z,
          (forall j, auto_visits !! j = Some z ->
                     encoder_fails (fits i (auto_base + j)%nat)) ->
          ab !! z = autocorrelationsB st !! z)
    /\ (forall z,
          (forall j, cross_visits !! j = Some z ->
                     encoder_fails (fits i (cross_base + j)%nat)) ->
          cb !! z = crosscorrelationsB st !! z)
    /\ wf (set_totalcorrelations
             (set_totalcounts
                (fin_state (fits i) (set_timeleft st tl) pb ab cb) tc)
             tcr)
    /\ slots_filled (fits i) zeroed plot_visits (plot_str st) 0 pb
    /\ (auto_on = true ->
        slots_filled (fits i) fresh_row auto_visits (autocorrelations_str st)
          auto_base ab)
    /\ (cross_on = true ->
        slots_filled (fits i) fresh_row cross_visits
          (crosscorrelations_str st) cross_base cb).
Proof.
  intros Hwf Hroom Hcon Hpkt Hpk Hin Hexp Hfit.
  unfold Callback_iteration. rewrite Hcon, Hpkt. cbn [negb].
  set (tl := if d_le (CalcTimeLeft st (now i)) d_zero then d_zero
             else CalcTimeLeft st (now i)).
  change (InIntegration (set_timeleft st tl)) with (InIntegration st).
  rewrite Hin. change (timeleft (set_timeleft st tl)) with tl.
  unfold expired in Hexp. fold tl in Hexp. rewrite Hexp.
  pose proof (wf_set_timeleft st tl Hwf) as Hwf1.
  destruct (finalize_spec (fits i) (set_timeleft st tl) Hwf1 Hroom Hfit)
    as (pb & ab & cb & Hf & Hlp & Hla & Hlc & Hsp & Hsa & Hsc
        & Hop & Hoa & Hoc).
  rewrite Hf. cbn [bind].
  pose proof (wf_fin_state (fits i) (set_timeleft st tl) pb ab cb Hwf1 Hlp Hla Hlc)
    as Hwf2.
  destruct (totals_spec _ pkt Hwf2 Hpk) as (tc & tcr & Htot & Htc & Htcr).
  exists tl, pb, ab, cb, tc, tcr.
  split; [exact Hf|]. split; [exact Htot|].
  split; [exact Hlp|]. split; [exact Hla|]. split; [exact Hlc|].
  split; [exact Hsp|]. split; [exact Hsa|]. split; [exact Hsc|].
  split; [exact (wf_set_totals _ tc tcr Hwf2 Htc Htcr)|].
  split; [exact Hop|]. split; [exact Hoa|exact Hoc].
Qed.

(** The same iteration when a copy runs past [blob]. *)
Lemma tick_overflow (st : @AHP_XC D) (i : tick_input) (pkt : ahp_xc_packet) :
  wf st -> room 0 st ->
  isConnected i = true -> packet i = Some pkt ->
  InIntegration st = true -> expired st (now i) = true ->
  fin_fits (fits i) st = false ->
  Callback_iteration E st i = Fault OutOfBounds.
Proof.
  intros Hwf Hroom Hcon Hpkt Hin Hexp Hfit.
  unfold Callback_iteration. rewrite Hcon, Hpkt. cbn [negb].
  set (tl := if d_le (CalcTimeLeft st (now i)) d_zero then d_zero
             else CalcTimeLeft st (now i)).
  change (InIntegration (set_timeleft st tl)) with (InIntegration st).
  rewrite Hin. change (timeleft (set_timeleft st tl)) with tl.
  unfold expired in Hexp. fold tl in Hexp. rewrite Hexp.
  rewrite (finalize_overflow (fits i) (set_timeleft st tl)
             (wf_set_timeleft st tl Hwf) Hroom Hfit).
  reflexivity.
Qed.

(* ------------------------------------------------------------------ *)
(** ** A run of accumulating iterations *)

(** The iteration [i] receives a well-formed packet while the integration
    started in [st] has time left. *)
Definition accumulating (st : @AHP_XC D) (i : tick_input) : Prop :=
  isConnected i = true
  /\ (exists pkt, packet i = Some pkt /\ packet_ok pkt)
  /\ expired st (now i) = false.

Definition packets (inputs : list (@tick_input D)) : list ahp_xc_packet :=
  omap packet inputs.

(** What one accumulating iteration does to the arrays of streams. *)
Definition grow_auto (strs : list (@dsp_stream D)) (pkt : @ahp_xc_packet D)
  : list dsp_stream :=
  if auto_on then zip_with (appended E) strs (autocorrelations pkt) else strs.

Definition grow_cross (strs : list (@dsp_stream D)) (pkt : @ahp_xc_packet D)
  : list dsp_stream :=
  if cross_on then zip_with (appended E) strs (crosscorrelations pkt) else strs.

(** What the reader loop leaves alone between the start of a cycle and its
    finalize. *)
Record same_setup (st st' : @AHP_XC D) : Prop := {
  ss_InIntegration : InIntegration st' = InIntegration st;
  ss_IntegrationRequest : IntegrationRequest st' = IntegrationRequest st;
  ss_ExpStart : ExpStart st' = ExpStart st;
  ss_lineEnableSP : lineEnableSP st' = lineEnableSP st;
  ss_lineLocationNP : lineLocationNP st' = lineLocationNP st;
  ss_baselines : baselines st' = baselines st;
  ss_plotB : plotB st' = plotB st;
  ss_autocorrelationsB : autocorrelationsB st' = autocorrelationsB st;
  ss_crosscorrelationsB : crosscorrelationsB st' = crosscorrelationsB st
}.

Lemma same_setup_refl (st : @AHP_XC D) : same_setup st st.
Proof. constructor; reflexivity. Qed.

Lemma same_setup_trans (a b c : @AHP_XC D) :
  same_setup a b -> same_setup b c -> same_setup a c.
Proof.
  intros [A1 A2 A3 A4 A5 A6 A7 A8 A9] [B1 B2 B3 B4 B5 B6 B7 B8 B9].
  constructor; congruence.
Qed.

Lemma grow_room (k : Z) (st : @AHP_XC D) (pkt : @ahp_xc_packet D) :
  0 <= k -> room (k + 1) st ->
  Forall (stream_room k) (grow_auto (autocorrelations_str st) pkt)
  /\ Forall (stream_room k) (grow_cross (crosscorrelations_str st) pkt).
Proof.
  intros Hk [Ha Hc]. unfold grow_auto, grow_cross. split.
  - destruct auto_on; [apply zip_appended_room; exact Ha|].
    eapply Forall_impl; [exact Ha|]. intros s. apply stream_room_le. lia.
  - destruct cross_on; [apply zip_appended_room; exact Hc|].
    eapply Forall_impl; [exact Hc|]. intros s. apply stream_room_le. lia.
Qed.

Lemma Callback_accumulating (inputs : list (@tick_input D)) :
  forall st : @AHP_XC D,
    wf st -> InIntegration st = true -> enabled_lines E st <> [] ->
    room (Z.of_nat (length inputs)) st ->
    Forall (accumulating st) inputs ->
    exists st',
      Callback E st inputs = Ok st'
      /\ wf st' /\ same_setup st st' /\ room 0 st'
      /\ autocorrelations_str st'
         = foldl grow_auto (autocorrelations_str st) (packets inputs)
      /\ crosscorrelations_str st'
         = foldl grow_cross (crosscorrelations_str st) (packets inputs).
Proof.
  induction inputs as [|i rest IH]; intros st Hwf Hin Hen Hroom Hacc.
  - exists st. simpl. split; [reflexivity|]. split; [exact Hwf|].
    split; [apply same_setup_refl|]. split; [exact Hroom|]. auto.
  - apply Forall_cons in Hacc as [(Hcon & (pkt & Hpkt & Hpk) & Hexp) Hacc].
    assert (Hroom1 : room 1 st).
    { destruct Hroom as [Ha Hc]. split.
      - eapply Forall_impl; [exact Ha|]. intros s. apply stream_room_le.
        simpl length. lia.
      - eapply Forall_impl; [exact Hc|]. intros s. apply stream_room_le.
        simpl length. lia. }
    destruct (tick_integrating st i pkt Hwf Hroom1 Hen Hcon Hpkt Hpk Hin Hexp)
      as (tl & c & dl & ev & p & tc & tcr & _ & Hit & Hwf1).
    cbv zeta in Hit, Hwf1.
    match type of Hit with _ = Ok ?s => set (st1 := s) in * end.
    destruct (grow_room (Z.of_nat (length rest)) st pkt ltac:(lia)) as [Gra Grc].
    { replace (Z.of_nat (length rest) + 1) with (Z.of_nat (length (i :: rest)))
        by (simpl length; lia). exact Hroom. }
    destruct (IH st1 Hwf1) as (st' & Hrun & Hwf' & Hss & Hr0 & Ha & Hc).
    + exact Hin.
    + exact Hen.
    + split; [exact Gra|exact Grc].
    + eapply Forall_impl; [exact Hacc|]. intros j Hj. exact Hj.
    + exists st'. unfold Callback in *. simpl for_each. rewrite Hit.
      cbn [bind]. split; [exact Hrun|]. split; [exact Hwf'|].
      split; [|split; [exact Hr0|]].
      * apply (same_setup_trans st st1 st'); [|exact Hss].
        constructor; reflexivity.
      * unfold packets. simpl omap. rewrite Hpkt. simpl foldl.
        split; [exact Ha|exact Hc].
Qed.

(** The streams an encoder is handed, in order. *)
Definition encoded (evs : list (@event D)) : list (@dsp_stream D) :=
  omap (fun e => match e with
                 | call_createFITS _ s _ => Some s
                 | _ => None
                 end) evs.

(** The hardware commands among the events. *)
Definition channel_cmds (evs : list (@event D)) : list (@event D) :=
  omap (fun e => match e with
                 | ahp_xc_set_channel_auto _ _ _ _
                 | ahp_xc_set_channel_cross _ _ _ _ => Some e
                 | _ => None
                 end) evs.



Lemma channel_cmds_app (e1 e2 : list (@event D)) :
  channel_cmds (e1 ++ e2) = channel_cmds e1 ++ channel_cmds e2.
Proof. apply omap_app. Qed.

Lemma channel_cmds_ser_events (fits : nat -> fits_outcome)
  (pre : @dsp_stream D -> list (@event D)) (inputs : list (@dsp_stream D))
  (calls : nat) :
  (forall s, channel_cmds (pre s) = []) ->
  channel_cmds (ser_events fits pre inputs calls) = [].
Proof.
  intros Hpre. revert calls. induction inputs as [|s inputs IH]; intros calls.
  - reflexivity.
  - simpl. rewrite channel_cmds_app, Hpre. simpl. apply IH.
Qed.

Lemma pre_plot_quiet (s : @dsp_stream D) :
  encoded (pre_plot s) = [] /\ channel_cmds (pre_plot s) = [].
Proof.
  unfold pre_plot. destruct (HasDSP E); split; reflexivity.
Qed.



Lemma channel_cmds_fin_events (fits : nat -> fits_outcome) (st : @AHP_XC D) :
  channel_cmds (fin_events fits st) = [].
Proof.
  unfold fin_events. rewrite !channel_cmds_app.
  rewrite channel_cmds_ser_events by (intros s; apply pre_plot_quiet).
  assert (H1 : forall b : blob_vector, channel_cmds [IDSetBLOB b] = [])
    by reflexivity.
  assert (H2 : channel_cmds [@IDSetNumber_FramedIntegration D] = [])
    by reflexivity.
  rewrite H1, H2. cbn [app].
  destruct auto_on, cross_on;
    rewrite ?channel_cmds_app, ?channel_cmds_ser_events, ?H1 by reflexivity;
    reflexivity.
Qed.

Lemma length_ser_inputs (reset' : @dsp_stream D -> @dsp_stream D)
  (l : list nat) (strs : list (@dsp_stream D)) :
  length (ser_inputs reset' l strs) = length l.
Proof.
  revert strs. induction l as [|x l IH]; intros strs; [reflexivity|].
  simpl. rewrite IH. reflexivity.
Qed.


Lemma elem_of_ser_events (fits : nat -> fits_outcome)
  (pre : @dsp_stream D -> list (@event D)) (inputs : list (@dsp_stream D))
  (calls j : nat) (s : @dsp_stream D) :
  inputs !! j = Some s ->
  call_createFITS (-64) s (fst (createFITS (fits (calls + j)%nat) (-64) 0))
  ∈ ser_events fits pre inputs calls.
Proof.
  revert calls j. induction inputs as [|s0 inputs IH]; intros calls j Hj;
    [discriminate|].
  simpl. apply elem_of_app. right. destruct j as [|j]; simpl in Hj.
  - inversion Hj; subst. rewrite Nat.add_0_r. left.
  - right. replace (calls + S j)%nat with (S calls + j)%nat by lia.
    apply IH. exact Hj.
Qed.

Lemma length_pairs (n : nat) : (2 * length (pairs n) = n * (n - 1))%nat.
Proof.
  assert (G : forall k, (k <= n)%nat ->
            (2 * length (pairs_before n k) + k * (k + 1) = 2 * k * n)%nat).
  { induction k as [|k IH]; intros Hk; [reflexivity|].
    rewrite pairs_before_S. specialize (IH ltac:(lia)). nia. }
  specialize (G n (Nat.le_refl n)).
  change (pairs_before n n) with (pairs n) in G. nia.
Qed.

Lemma packets_accumulating (st : @AHP_XC D) (inputs : list (@tick_input D)) :
  Forall (accumulating st) inputs ->
  Forall packet_ok (packets inputs) /\ length (packets inputs) = length inputs.
Proof.
  unfold packets. induction 1 as [|i inputs (_ & (pkt & Hp & Hok) & _) _ [IH1 IH2]].
  - split; [constructor|reflexivity].
  - simpl. rewrite Hp. simpl. split; [constructor; assumption|].
    f_equal. exact IH2.
Qed.

(** Rows are only ever added to a stream by the accumulating iterations. *)
Lemma foldl_grow_auto_lookup (pkts : list (@ahp_xc_packet D)) :
  forall (strs : list (@dsp_stream D)) (x : nat) (s : @dsp_stream D),
    auto_on = true -> 1 < ahp_xc_get_autocorrelator_lagsize E ->
    Forall packet_ok pkts -> length strs = nlines E ->
    Forall (stream_wf (ahp_xc_get_autocorrelator_lagsize E)) strs ->
    strs !! x = Some s ->
    exists s',
      foldl grow_auto strs pkts !! x = Some s'
      /\ data_rows s `prefix_of` data_rows s'
      /\ sizes1 s' = sizes1 s + Z.of_nat (length pkts)
      /\ sizes0 s' = sizes0 s.
Proof.
  induction pkts as [|pkt pkts IH]; intros strs x s Hon Hal Hpk Hl Hwf Hx.
  - exists s. simpl. split; [exact Hx|]. split; [reflexivity|]. lia.
  - apply Forall_cons in Hpk as [Hp Hpk].
    destruct (pk_auto pkt Hp Hal) as [Hpl Hps].
    destruct (lookup_lt_is_Some_2 (autocorrelations pkt) x) as [smp Hsmp].
    { rewrite Hpl, <- Hl. eapply lookup_lt_Some. exact Hx. }
    assert (Hx1 : grow_auto strs pkt !! x = Some (appended E s smp)).
    { unfold grow_auto. rewrite Hon. apply lookup_zip_with_Some.
      exists s, smp. auto. }
    assert (Hs : stream_wf (ahp_xc_get_autocorrelator_lagsize E) s)
      by exact (proj1 (Forall_lookup _ _) Hwf x _ Hx).
    assert (Hm : sample_ok (ahp_xc_get_autocorrelator_lagsize E) smp)
      by exact (proj1 (Forall_lookup _ _) Hps x _ Hsmp).
    destruct (IH (grow_auto strs pkt) x (appended E s smp) Hon Hal Hpk)
      as (s' & Hs' & Hpre & Hh & Hw).
    + unfold grow_auto. rewrite Hon, length_zip_with. lia.
    + unfold grow_auto. rewrite Hon. apply zip_appended_wf; auto; lia.
    + exact Hx1.
    + exists s'. simpl foldl. split; [exact Hs'|]. split; [|split].
      * etransitivity; [|exact Hpre].
        rewrite (appended_data_rows E (ahp_xc_get_autocorrelator_lagsize E) s smp)
          by (auto; lia).
        apply prefix_app_r. reflexivity.
      * rewrite Hh. cbn [sizes1 appended]. simpl length. lia.
      * rewrite Hw. reflexivity.
Qed.

Lemma foldl_grow_cross_lookup (pkts : list (@ahp_xc_packet D)) :
  forall (strs : list (@dsp_stream D)) (x : nat) (s : @dsp_stream D),
    cross_on = true -> 1 < ahp_xc_get_crosscorrelator_lagsize E ->
    Forall packet_ok pkts -> length strs = ahp_xc_get_nbaselines E ->
    Forall (stream_wf (ahp_xc_get_crosscorrelator_lagsize E * 2 - 1)) strs ->
    strs !! x = Some s ->
    exists s',
      foldl grow_cross strs pkts !! x = Some s'
      /\ data_rows s `prefix_of` data_rows s'
      /\ sizes1 s' = sizes1 s + Z.of_nat (length pkts)
      /\ sizes0 s' = sizes0 s.
Proof.
  induction pkts as [|pkt pkts IH]; intros strs x s Hon Hcl Hpk Hl Hwf Hx.
  - exists s. simpl. split; [exact Hx|]. split; [reflexivity|]. lia.
  - apply Forall_cons in Hpk as [Hp Hpk].
    pose proof (pk_cross_len pkt Hp) as Hpl.
    pose proof (pk_cross pkt Hp Hcl) as Hps.
    destruct (lookup_lt_is_Some_2 (crosscorrelations pkt) x) as [smp Hsmp].
    { rewrite Hpl, <- Hl. eapply lookup_lt_Some. exact Hx. }
    assert (Hx1 : grow_cross strs pkt !! x = Some (appended E s smp)).
    { unfold grow_cross. rewrite Hon. apply lookup_zip_with_Some.
      exists s, smp. auto. }
    assert (Hs : stream_wf (ahp_xc_get_crosscorrelator_lagsize E * 2 - 1) s)
      by exact (proj1 (Forall_lookup _ _) Hwf x _ Hx).
    assert (Hm : sample_ok (ahp_xc_get_crosscorrelator_lagsize E * 2 - 1) smp)
      by exact (proj1 (Forall_lookup _ _) Hps x _ Hsmp).
    destruct (IH (grow_cross strs pkt) x (appended E s smp) Hon Hcl Hpk)
      as (s' & Hs' & Hpre & Hh & Hw).
    + unfold grow_cross. rewrite Hon, length_zip_with. lia.
    + unfold grow_cross. rewrite Hon. apply zip_appended_wf; auto; lia.
    + exact Hx1.
    + exists s'. simpl foldl. split; [exact Hs'|]. split; [|split].
      * etransitivity; [|exact Hpre].
        rewrite (appended_data_rows E
                   (ahp_xc_get_crosscorrelator_lagsize E * 2 - 1) s smp)
          by (auto; lia).
        apply prefix_app_r. reflexivity.
      * rewrite Hh. cbn [sizes1 appended]. simpl length. lia.
      * rewrite Hw. reflexivity.
Qed.

(* ------------------------------------------------------------------ *)
(** ** The claims on the reader loop *)



(** C2 (amended).  On a ready packet the sky direction is recomputed and
    the delays are compensated when an integration is active and has time
    left.  When no integration is active, and on the iteration that
    finalizes one (which runs to its end when every copy of an encoded
    buffer stays within [blob]), the direction, the delays and the hardware
    channels are left as they are. *)
Theorem delay_compensation_only_while_integrating (st : @AHP_XC D)
  (i : tick_input) (pkt : ahp_xc_packet) :
  wf st -> isConnected i = true -> packet i = Some pkt -> packet_ok pkt ->
  (InIntegration st = true -> expired st (now i) = false ->
   room 1 st -> enabled_lines E st <> [] ->
   exists st' tl st_d,
     Callback_iteration E st i = Ok st'
     /\ delay_compensation E (sky_direction E (set_timeleft st tl) (now i))
        = Ok st_d
     /\ Altitude st' = Altitude (sky_direction E st (now i))
     /\ Azimuth st' = Azimuth (sky_direction E st (now i))
     /\ delay st' = delay st_d
     /\ events st' = events st_d)
  /\ (InIntegration st = false ->
      exists st',
        Callback_iteration E st i = Ok st'
        /\ Altitude st' = Altitude st /\ Azimuth st' = Azimuth st
        /\ delay st' = delay st /\ events st' = events st)
  /\ (InIntegration st = true -> expired st (now i) = true -> room 0 st ->
      fin_fits (fits i) st = true ->
      exists st',
        Callback_iteration E st i = Ok st'
        /\ Altitude st' = Altitude st /\ Azimuth st' = Azimuth st
        /\ delay st' = delay st
        /\ channel_cmds (events st') = channel_cmds (events st)).
Proof.
  intros Hwf Hcon Hpkt Hpk. split; [|split].
  - intros Hin Hexp Hroom Hen.
    destruct (tick_integrating st i pkt Hwf Hroom Hen Hcon Hpkt Hpk Hin Hexp)
      as (tl & c & dl & ev & p & tc & tcr & Hdc & Hit & _).
    cbv zeta in Hdc, Hit.
    eexists _, tl, _. split; [exact Hit|]. split; [exact Hdc|].
    split; [reflexivity|]. split; [reflexivity|].
    unfold tick_state.
    split;
      cbn [delay events set_events set_delay set_totalcorrelations
             set_totalcounts set_crosscorrelations_str
             set_autocorrelations_str set_plot_str];
      reflexivity.
  - intros Hin.
    destruct (tick_idle st i pkt Hwf Hcon Hpkt Hpk Hin)
      as (tl & tc & tcr & Hit & _).
    eexists. split; [exact Hit|]. repeat split; reflexivity.
  - intros Hin Hexp Hroom Hfit.
    destruct (tick_finalize st i pkt Hwf Hroom Hcon Hpkt Hpk Hin Hexp Hfit)
      as (tl & pb & ab & cb & tc & tcr & _ & Hit & _).
    eexists. split; [exact Hit|].
    split; [reflexivity|]. split; [reflexivity|]. split; [reflexivity|].
    change (events (set_totalcorrelations _ _))
      with (events st ++ fin_events (fits i) (set_timeleft st tl)).
    rewrite channel_cmds_app, channel_cmds_fin_events. apply app_nil_r.
Qed.

(** C5 (amended).  On each accumulating iteration a row holding the
    magnitudes of the packet's lag vector is appended to the buffer of
    every line and of every baseline, whether the line or the baseline is
    enabled or not. *)
Theorem every_stream_gets_a_row (st : @AHP_XC D) (i : tick_input)
  (pkt : ahp_xc_packet) :
  wf st -> room 1 st -> enabled_lines E st <> [] ->
  isConnected i = true -> packet i = Some pkt -> packet_ok pkt ->
  InIntegration st = true -> expired st (now i) = false ->
  exists st',
    Callback_iteration E st i = Ok st'
    /\ (1 < ahp_xc_get_autocorrelator_lagsize E ->
        forall x s, autocorrelations_str st !! x = Some s ->
          exists smp,
            autocorrelations pkt !! x = Some smp
            /\ autocorrelations_str st' !! x = Some (appended E s smp)
            /\ data_rows (appended E s smp) = data_rows s ++ magnitudes smp)
    /\ (1 < ahp_xc_get_crosscorrelator_lagsize E ->
        forall x s, crosscorrelations_str st !! x = Some s ->
          exists smp,
            crosscorrelations pkt !! x = Some smp
            /\ crosscorrelations_str st' !! x = Some (appended E s smp)
            /\ data_rows (appended E s smp) = data_rows s ++ magnitudes smp).
Proof.
  intros Hwf Hroom Hen Hcon Hpkt Hpk Hin Hexp.
  destruct (tick_integrating st i pkt Hwf Hroom Hen Hcon Hpkt Hpk Hin Hexp)
    as (tl & c & dl & ev & p & tc & tcr & _ & Hit & _).
  cbv zeta in Hit. eexists. split; [exact Hit|]. split.
  - intros Hal x s Hx.
    destruct (wf_auto st Hwf Hal) as (Hl & Hs & _).
    destruct (pk_auto pkt Hpk Hal) as (Hpl & Hps).
    destruct (lookup_lt_is_Some_2 (autocorrelations pkt) x) as [smp Hsmp].
    { rewrite Hpl, <- Hl. eapply lookup_lt_Some. exact Hx. }
    exists smp. split; [exact Hsmp|]. split.
    + change (acc_auto st pkt !! x = Some (appended E s smp)).
      unfold acc_auto.
      assert (Hn : (0 < nlines E)%nat).
      { rewrite <- Hl. apply lookup_lt_Some in Hx. lia. }
      destruct (Nat.ltb_spec 0 (nlines E)); [|lia].
      destruct (Z.ltb_spec 1 (ahp_xc_get_autocorrelator_lagsize E)); [|lia].
      simpl. apply lookup_zip_with_Some. exists s, smp. auto.
    + apply (appended_data_rows E (ahp_xc_get_autocorrelator_lagsize E));
        [lia| |].
      * exact (proj1 (Forall_lookup _ _) Hs x _ Hx).
      * exact (proj1 (Forall_lookup _ _) Hps x _ Hsmp).
  - intros Hcl x s Hx.
    destruct (wf_cross st Hwf Hcl) as (Hl & Hs & _).
    pose proof (pk_cross_len pkt Hpk) as Hpl.
    pose proof (pk_cross pkt Hpk Hcl) as Hps.
    destruct (lookup_lt_is_Some_2 (crosscorrelations pkt) x) as [smp Hsmp].
    { rewrite Hpl, <- Hl. eapply lookup_lt_Some. exact Hx. }
    exists smp. split; [exact Hsmp|]. split.
    + change (acc_cross st pkt !! x = Some (appended E s smp)).
      unfold acc_cross.
      assert (Hn : (0 < ahp_xc_get_nbaselines E)%nat).
      { rewrite <- Hl. apply lookup_lt_Some in Hx. lia. }
      destruct (Nat.ltb_spec 0 (ahp_xc_get_nbaselines E)); [|lia].
      destruct (Z.ltb_spec 1 (ahp_xc_get_crosscorrelator_lagsize E)); [|lia].
      simpl. apply lookup_zip_with_Some. exists s, smp. auto.
    + apply (appended_data_rows E
               (ahp_xc_get_crosscorrelator_lagsize E * 2 - 1)); [lia| |].
      * exact (proj1 (Forall_lookup _ _) Hs x _ Hx).
      * exact (proj1 (Forall_lookup _ _) Hps x _ Hsmp).
Qed.

(** The buffers as [Handshake] and finalize leave them: one row. *)
Definition fresh (st : @AHP_XC D) : Prop :=
  Forall (fun s => sizes1 s = 1) (autocorrelations_str st)
  /\ Forall (fun s => sizes1 s = 1) (crosscorrelations_str st).

(** C4 (amended).  A correlator with [nlines] lines has exactly [nlines]
    autocorrelation buffers and [nbaselines = nlines * (nlines - 1) / 2]
    crosscorrelation buffers (when the lag sizes exceed 1), whatever the
    number of enabled lines.  After [K] accumulating iterations started on
    fresh buffers, each buffer keeps its width and has [K + 1] rows: the
    [K] rows of data and the spare row the next iteration would write. *)
Theorem buffers_after_ticks (st : @AHP_XC D) (inputs : list (@tick_input D)) :
  wf st -> InIntegration st = true -> enabled_lines E st <> [] ->
  room (Z.of_nat (length inputs)) st -> fresh st ->
  Forall (accumulating st) inputs ->
  exists st',
    Callback E st inputs = Ok st'
    /\ (1 < ahp_xc_get_autocorrelator_lagsize E ->
        length (autocorrelations_str st') = nlines E
        /\ Forall (fun s => sizes0 s = ahp_xc_get_autocorrelator_lagsize E
                            /\ sizes1 s = Z.of_nat (length inputs) + 1)
             (autocorrelations_str st'))
    /\ (1 < ahp_xc_get_crosscorrelator_lagsize E ->
        length (crosscorrelations_str st') = ahp_xc_get_nbaselines E
        /\ (2 * ahp_xc_get_nbaselines E = nlines E * (nlines E - 1))%nat
        /\ Forall (fun s => sizes0 s
                            = ahp_xc_get_crosscorrelator_lagsize E * 2 - 1
                            /\ sizes1 s = Z.of_nat (length inputs) + 1)
             (crosscorrelations_str st')).
Proof.
  intros Hwf Hin Hen Hroom [Hfa Hfc] Hacc.
  destruct (Callback_accumulating inputs st Hwf Hin Hen Hroom Hacc)
    as (st' & Hrun & Hwf' & _ & _ & Ha & Hc).
  destruct (packets_accumulating st inputs Hacc) as [Hpk Hlen].
  exists st'. split; [exact Hrun|]. split.
  - intros Hal. destruct (wf_auto st' Hwf' Hal) as (Hl' & Hs' & _).
    split; [exact Hl'|].
    destruct (wf_auto st Hwf Hal) as (Hl & Hs & _).
    apply Forall_lookup. intros x s' Hx'.
    destruct (lookup_lt_is_Some_2 (autocorrelations_str st) x) as [s Hx].
    { rewrite Hl, <- Hl'. eapply lookup_lt_Some. exact Hx'. }
    assert (Hon : auto_on = true).
    { unfold auto_on. apply lookup_lt_Some in Hx.
      destruct (Nat.ltb_spec 0 (nlines E)); [|lia].
      destruct (Z.ltb_spec 1 (ahp_xc_get_autocorrelator_lagsize E)); [|lia].
      reflexivity. }
    destruct (foldl_grow_auto_lookup (packets inputs) _ x s Hon Hal Hpk Hl Hs Hx)
      as (s1 & Hs1 & _ & Hh & Hw).
    rewrite <- Ha, Hx' in Hs1. inversion Hs1; subst s1.
    rewrite Hw, Hh, Hlen.
    rewrite (sw_width _ _ (proj1 (Forall_lookup _ _) Hs x _ Hx)).
    rewrite (proj1 (Forall_lookup _ _) Hfa x _ Hx). split; [reflexivity|lia].
  - intros Hcl. destruct (wf_cross st' Hwf' Hcl) as (Hl' & Hs' & _).
    split; [exact Hl'|]. split.
    { rewrite (wf_nbaselines st Hwf). apply length_pairs. }
    destruct (wf_cross st Hwf Hcl) as (Hl & Hs & _).
    apply Forall_lookup. intros x s' Hx'.
    destruct (lookup_lt_is_Some_2 (crosscorrelations_str st) x) as [s Hx].
    { rewrite Hl, <- Hl'. eapply lookup_lt_Some. exact Hx'. }
    assert (Hon : cross_on = true).
    { unfold cross_on. apply lookup_lt_Some in Hx.
      destruct (Nat.ltb_spec 0 (ahp_xc_get_nbaselines E)); [|lia].
      destruct (Z.ltb_spec 1 (ahp_xc_get_crosscorrelator_lagsize E)); [|lia].
      reflexivity. }
    destruct (foldl_grow_cross_lookup (packets inputs) _ x s Hon Hcl Hpk Hl Hs Hx)
      as (s1 & Hs1 & _ & Hh & Hw).
    rewrite <- Hc, Hx' in Hs1. inversion Hs1; subst s1.
    rewrite Hw, Hh, Hlen.
    rewrite (sw_width _ _ (proj1 (Forall_lookup _ _) Hs x _ Hx)).
    rewrite (proj1 (Forall_lookup _ _) Hfc x _ Hx). split; [reflexivity|lia].
Qed.

(** [AbortIntegration] returns true whatever the state and changes
    nothing but the integrating flag, so the buffers keep their rows.  The
    next [StartIntegration] is accepted and resets no buffer either: the
    rows its accumulating iterations append come after the rows the
    buffers held at the abort, for every line and every baseline. *)
Theorem aborted_rows_stay (st : @AHP_XC D) :
  fst (AbortIntegration st) = true
  /\ snd (AbortIntegration st) = set_InIntegration st false
  /\ forall (d : D) (t0 : timeval) (inputs : list (@tick_input D)),
       let started := snd (StartIntegration (snd (AbortIntegration st)) d t0) in
       wf st -> enabled_lines E st <> [] ->
       room (Z.of_nat (length inputs)) st ->
       Forall (accumulating started) inputs ->
       fst (StartIntegration (snd (AbortIntegration st)) d t0) = true
       /\ exists st',
            Callback E started inputs = Ok st'
            /\ (1 < ahp_xc_get_autocorrelator_lagsize E ->
                forall x s, autocorrelations_str st !! x = Some s ->
                  exists s',
                    autocorrelations_str st' !! x = Some s'
                    /\ data_rows s `prefix_of` data_rows s'
                    /\ sizes1 s' = sizes1 s + Z.of_nat (length inputs))
            /\ (1 < ahp_xc_get_crosscorrelator_lagsize E ->
                forall x s, crosscorrelations_str st !! x = Some s ->
                  exists s',
                    crosscorrelations_str st' !! x = Some s'
                    /\ data_rows s `prefix_of` data_rows s'
                    /\ sizes1 s' = sizes1 s + Z.of_nat (length inputs)).
Proof.
  split; [reflexivity|]. split; [reflexivity|].
  intros d t0 inputs started Hwf Hen Hroom Hacc.
  split; [reflexivity|].
  assert (Hst : started
                = set_InIntegration
                    (set_ExpStart
                       (set_IntegrationRequest (set_InIntegration st false) d)
                       t0) true) by reflexivity.
  assert (Hwfs : wf started).
  { rewrite Hst. destruct Hwf as [[H1 H2 H3 H4 H5] H6 H7 H8 H9 H10 H11 H12].
    constructor.
    - constructor; [exact H1|exact H2|exact H3|exact H4|exact H5].
    - exact H6.
    - exact H7.
    - exact H8.
    - exact H9.
    - exact H10.
    - exact H11.
    - exact H12. }
  assert (Hins : InIntegration started = true) by (rewrite Hst; reflexivity).
  assert (Hens : enabled_lines E started = enabled_lines E st)
    by (rewrite Hst; reflexivity).
  assert (Hrs : room (Z.of_nat (length inputs)) started)
    by (rewrite Hst; exact Hroom).
  assert (Has : autocorrelations_str started = autocorrelations_str st)
    by (rewrite Hst; reflexivity).
  assert (Hcs : crosscorrelations_str started = crosscorrelations_str st)
    by (rewrite Hst; reflexivity).
  clearbody started.
  destruct (Callback_accumulating inputs started Hwfs Hins
              ltac:(rewrite Hens; exact Hen) Hrs Hacc)
    as (st1 & Hrun & Hwf1 & Hss & Hr0 & Ha & Hc).
  destruct (packets_accumulating started inputs Hacc) as [Hpks Hlen].
  exists st1. split; [exact Hrun|]. split.
  - intros Hal x s Hx.
    destruct (wf_auto st Hwf Hal) as (Hl & Hs & _).
    assert (Hon : auto_on = true).
    { unfold auto_on. apply lookup_lt_Some in Hx.
      destruct (Nat.ltb_spec 0 (nlines E)); [|lia].
      destruct (Z.ltb_spec 1 (ahp_xc_get_autocorrelator_lagsize E)); [|lia].
      reflexivity. }
    destruct (foldl_grow_auto_lookup (packets inputs) _ x s Hon Hal Hpks Hl Hs Hx)
      as (s' & Hs' & Hpre & Hh & _).
    rewrite <- Has, <- Ha in Hs'.
    exists s'. split; [exact Hs'|]. split; [exact Hpre|].
    rewrite Hh, Hlen. reflexivity.
  - intros Hcl x s Hx.
    destruct (wf_cross st Hwf Hcl) as (Hl & Hs & _).
    assert (Hon : cross_on = true).
    { unfold cross_on. apply lookup_lt_Some in Hx.
      destruct (Nat.ltb_spec 0 (ahp_xc_get_nbaselines E)); [|lia].
      destruct (Z.ltb_spec 1 (ahp_xc_get_crosscorrelator_lagsize E)); [|lia].
      reflexivity. }
    destruct (foldl_grow_cross_lookup (packets inputs) _ x s Hon Hcl Hpks Hl Hs Hx)
      as (s' & Hs' & Hpre & Hh & _).
    rewrite <- Hcs, <- Hc in Hs'.
    exists s'. split; [exact Hs'|]. split; [exact Hpre|].
    rewrite Hh, Hlen. reflexivity.
Qed.

(* ------------------------------------------------------------------ *)
(** ** [Handshake] establishes the invariant *)

Lemma new_stream_wf (w : Z) :
  1 <= w <= INT_MAX ->
  stream_wf w (new_stream E (wrap_int w) 1)
  /\ sizes1 (new_stream E (wrap_int w) 1) = 1
  /\ forall k, 0 <= k -> w * (k + 1) <= INT_MAX ->
               stream_room k (new_stream E (wrap_int w) 1).
Proof.
  intros Hw. unfold new_stream, dsp_stream_new2, dsp_stream_alloc_buffer, realloc.
  cbn [sizes0 sizes1 len buf].
  rewrite (wrap_int_small w) by (unfold INT_MAX in *; lia).
  rewrite Z.mul_1_r, (wrap_int_small w) by (unfold INT_MAX in *; lia).
  split; [|split].
  - constructor; cbn; try lia. rewrite length_resize. reflexivity.
  - reflexivity.
  - intros k Hk Hmax. unfold stream_room. cbn. split; [lia|nia].
Qed.

(** The driver with the arrays [Handshake] writes given one by one. *)
Definition hs_state (st : @AHP_XC D) (en : list bool) (loc : list (@vec3 D))
  (bl : list (@baseline D)) (ps aus cs : list (@dsp_stream D))
  (pb ab cb : list IBLOB) : @AHP_XC D :=
  {| InIntegration := InIntegration st;
     IntegrationRequest := IntegrationRequest st; ExpStart := ExpStart st;
     timeleft := timeleft st; Longitude := Longitude st;
     Latitude := Latitude st; RA := RA st; Dec := Dec st;
     Altitude := Altitude st; Azimuth := Azimuth st;
     lineEnableSP := en; lineLocationNP := loc;
     center := replicate (nlines E) (unset_location E);
     delay := resize (nlines E) (uninit E) (delay st);
     baselines := bl; plot_str := ps; autocorrelations_str := aus;
     crosscorrelations_str := cs; plotB := pb; autocorrelationsB := ab;
     crosscorrelationsB := cb;
     totalcounts := replicate (nlines E) d_zero;
     totalcorrelations :=
       replicate (ahp_xc_get_nbaselines E)
         {| counts := d_zero; magnitude := d_zero |};
     events := events st |}.

(** The driver a [Handshake] that makes no access out of bounds leaves: no
    line is enabled, every location is the origin, every buffer is one
    row; the arrays of streams and of blobs keep what they held when the
    lag size does not exceed 1. *)
Definition Handshake_state (st : @AHP_XC D) (plot_size : Z) : @AHP_XC D :=
  let nb := ahp_xc_get_nbaselines E in
  let al := ahp_xc_get_autocorrelator_lagsize E in
  let cl := ahp_xc_get_crosscorrelator_lagsize E in
  hs_state st (replicate (nlines E) false) (replicate (nlines E) vzero)
    (replicate nb (new_baseline E))
    (replicate nplots (setup_plot E plot_size (new_stream E 1 1)))
    (if 1 <? al then replicate (nlines E) (new_stream E (wrap_int al) 1)
     else autocorrelations_str st)
    (if 1 <? cl then replicate nb (new_stream E (wrap_int (cl * 2 - 1)) 1)
     else crosscorrelations_str st)
    (replicate nplots empty_blob)
    (if 1 <? al
     then if 1 <? cl then replicate (nlines E) empty_blob
          else resize (nlines E) (uninit_blob E) (autocorrelationsB st)
     else autocorrelationsB st)
    (if 1 <? cl then replicate nb empty_blob else crosscorrelationsB st).

(** An array written by a loop that runs under a test. *)
Definition filled_if {A} (c : bool) (f : nat -> A) (k : nat) (l : list A)
  : list A :=
  if c then filled f k l else l.

Lemma length_filled_if {A} (c : bool) (f : nat -> A) (k : nat) (l : list A) :
  length (filled_if c f k l) = length l.
Proof. destruct c; [apply length_filled|reflexivity]. Qed.

Lemma filled_if_0 {A} (c : bool) (f : nat -> A) (l : list A) :
  filled_if c f 0 l = l.
Proof. destruct c; [apply filled_0|reflexivity]. Qed.

Lemma filled_if_all {A} (c : bool) (v : A) (n : nat) (l : list A) :
  (c = true -> length l = n) ->
  filled_if c (fun _ => v) n l = if c then replicate n v else l.
Proof. destruct c; intros H; [apply filled_all; auto|reflexivity]. Qed.

(** Lines 1082-1093, 1100-1112 and 1115-1206 in closed form. *)
Definition hs_at (st : @AHP_XC D) (b p k m : nat) : @AHP_XC D :=
  let nb := ahp_xc_get_nbaselines E in
  let al := ahp_xc_get_autocorrelator_lagsize E in
  let cl := ahp_xc_get_crosscorrelator_lagsize E in
  let a := Handshake_arrays E st in
  hs_state st
    (filled (fun _ => false) k (lineEnableSP a))
    (filled (fun _ => vzero) k (lineLocationNP a))
    (filled (fun _ => new_baseline E) b (baselines a))
    (filled (fun _ => new_stream E 1 1) p (plot_str a))
    (filled_if (1 <? al) (fun _ => new_stream E (wrap_int al) 1) k
       (autocorrelations_str a))
    (filled_if (1 <? cl) (fun _ => new_stream E (wrap_int (cl * 2 - 1)) 1) b
       (crosscorrelations_str a))
    (filled (fun _ => empty_blob) p (plotB a))
    (filled_if (1 <? cl) (fun _ => empty_blob) k (autocorrelationsB a))
    (filled_if (1 <? cl) (fun _ => empty_blob) m (crosscorrelationsB a)).

Lemma hs_at_0 (st : @AHP_XC D) : hs_at st 0 0 0 0 = Handshake_arrays E st.
Proof.
  unfold hs_at, hs_state. rewrite !filled_if_0, !filled_0. reflexivity.
Qed.

Ltac hs_fields :=
  cbn [InIntegration IntegrationRequest ExpStart timeleft lineEnableSP
       lineLocationNP baselines plot_str autocorrelations_str
       crosscorrelations_str plotB autocorrelationsB crosscorrelationsB
       totalcounts totalcorrelations events delay center Altitude Azimuth
       Longitude Latitude RA Dec hs_state
       set_plot_str set_autocorrelations_str set_crosscorrelations_str
       set_plotB set_autocorrelationsB set_crosscorrelationsB
       set_locations set_lineEnableSP Handshake_arrays fst snd bind].

Lemma handshake_baseline_step (st : @AHP_XC D) (b : nat) :
  (b < ahp_xc_get_nbaselines E)%nat ->
  handshake_baseline_body E b (hs_at st b 0 0 0) = Ok (hs_at st (S b) 0 0 0).
Proof.
  intros Hb. unfold handshake_baseline_body, hs_at, filled_if. hs_fields.
  destruct (1 <? ahp_xc_get_crosscorrelator_lagsize E) eqn:Hc.
  - rewrite wrn_Ok by (rewrite length_filled, length_resize; exact Hb).
    hs_fields.
    rewrite wrn_Ok by (rewrite length_filled, length_resize; exact Hb).
    hs_fields. rewrite !filled_S. reflexivity.
  - hs_fields.
    rewrite wrn_Ok by (rewrite length_filled, length_resize; exact Hb).
    hs_fields. rewrite !filled_S. reflexivity.
Qed.

Lemma handshake_plot_step (st : @AHP_XC D) (b p : nat) :
  (p < nplots)%nat ->
  handshake_plot_body E p (hs_at st b p 0 0) = Ok (hs_at st b (S p) 0 0).
Proof.
  intros Hp. unfold handshake_plot_body, hs_at. hs_fields.
  change (0 <? nplots)%nat with true. cbv iota.
  rewrite wrn_Ok by (rewrite length_filled, length_resize; exact Hp).
  hs_fields.
  rewrite wrn_Ok by (rewrite length_filled, length_resize; exact Hp).
  hs_fields. rewrite !filled_S. reflexivity.
Qed.

Lemma handshake_pair_step (st : @AHP_XC D) (b p k m x y : nat) :
  (m < ahp_xc_get_nbaselines E)%nat ->
  handshake_pair_body E x y (hs_at st b p k m, m)
  = Ok (hs_at st b p k (S m), S m).
Proof.
  intros Hm. unfold handshake_pair_body, hs_at, filled_if. hs_fields.
  destruct (Nat.ltb_spec (m * 2 + 1) (ahp_xc_get_nbaselines E * 2)); [|lia].
  destruct (1 <? ahp_xc_get_crosscorrelator_lagsize E) eqn:Hc.
  - rewrite wrn_Ok by (rewrite length_filled, length_resize; exact Hm).
    hs_fields. rewrite !filled_S. reflexivity.
  - hs_fields. reflexivity.
Qed.

(** The hardware [Handshake] can fill: the slots of the autocorrelation
    blobs exist when line 1184 writes them. *)
Definition blobs_allocated : Prop :=
  (0 < nlines E)%nat -> 1 < ahp_xc_get_crosscorrelator_lagsize E ->
  1 < ahp_xc_get_autocorrelator_lagsize E.

Lemma handshake_pairs_loop (st : @AHP_XC D) (b p k m x j : nat) :
  (m + j <= ahp_xc_get_nbaselines E)%nat ->
  for_each (seq (x + 1) j) (handshake_pair_body E x) (hs_at st b p k m, m)
  = Ok (hs_at st b p k (m + j), (m + j)%nat).
Proof.
  intros Hm.
  destruct (for_seq_inv
    (fun i s => s = (hs_at st b p k (m + i), (m + i)%nat))
    (x + 1) j (handshake_pair_body E x) (hs_at st b p k m, m))
    as (s' & Hf & ->).
  - rewrite Nat.add_0_r. reflexivity.
  - intros i s Hi ->. eexists. split.
    + apply handshake_pair_step. lia.
    + rewrite (Nat.add_succ_r m i). reflexivity.
  - exact Hf.
Qed.

Lemma handshake_line_step (st : @AHP_XC D) (b p k : nat) :
  ahp_xc_get_nbaselines E = length (pairs (nlines E)) ->
  blobs_allocated -> (k < nlines E)%nat ->
  handshake_line_body E k
    (hs_at st b p k (length (pairs_before (nlines E) k)),
     length (pairs_before (nlines E) k))
  = Ok (hs_at st b p (S k) (length (pairs_before (nlines E) (S k))),
        length (pairs_before (nlines E) (S k))).
Proof.
  intros Hnb Hfill Hk. unfold handshake_line_body.
  set (m := length (pairs_before (nlines E) k)).
  assert (Hpre : forall (T : Type) (K : @AHP_XC D -> result T),
    (st0 <- (if 1 <? ahp_xc_get_autocorrelator_lagsize E
             then strs <- wrn (autocorrelations_str (hs_at st b p k m)) k
                            (new_stream E
                               (wrap_int (ahp_xc_get_autocorrelator_lagsize E))
                               1) ;;
                  Ok (set_autocorrelations_str (hs_at st b p k m) strs)
             else Ok (hs_at st b p k m)) ;;
     locs <- wrn (lineLocationNP st0) k vzero ;;
     en <- wrn (lineEnableSP (set_locations st0 locs (baselines st0))) k
             false ;;
     st1 <- (if 1 <? ahp_xc_get_crosscorrelator_lagsize E
             then ab <- wrn (autocorrelationsB
                               (set_lineEnableSP
                                  (set_locations st0 locs (baselines st0)) en))
                          k empty_blob ;;
                  Ok (set_autocorrelationsB
                        (set_lineEnableSP
                           (set_locations st0 locs (baselines st0)) en) ab)
             else Ok (set_lineEnableSP
                        (set_locations st0 locs (baselines st0)) en)) ;;
     K st1)
    = K (hs_at st b p (S k) m)).
  { intros T K. unfold hs_at, filled_if. hs_fields.
    destruct (1 <? ahp_xc_get_autocorrelator_lagsize E) eqn:Ha;
      destruct (1 <? ahp_xc_get_crosscorrelator_lagsize E) eqn:Hc;
      hs_fields;
      rewrite ?wrn_Ok by (rewrite length_filled, length_resize; exact Hk);
      hs_fields;
      rewrite ?wrn_Ok by (rewrite length_filled, length_resize; exact Hk);
      hs_fields;
      rewrite ?wrn_Ok by (rewrite length_filled, length_resize; exact Hk);
      hs_fields;
      rewrite ?wrn_Ok by (rewrite length_filled, length_resize; exact Hk);
      hs_fields.
    - rewrite !filled_S. reflexivity.
    - rewrite !filled_S. reflexivity.
    - exfalso. apply Z.ltb_lt in Hc. specialize (Hfill ltac:(lia) Hc).
      apply Z.ltb_lt in Hfill. congruence.
    - rewrite !filled_S. reflexivity. }
  cbv zeta. cbn [fst snd].
  etransitivity;
    [exact (Hpre _ (fun st1 =>
              for_each (above k (nlines E)) (handshake_pair_body E k)
                (st1, m)))|].
  unfold above. rewrite handshake_pairs_loop.
  - rewrite pairs_before_S. reflexivity.
  - rewrite Hnb. pose proof (pairs_before_le (nlines E) (S k) ltac:(lia)) as Hle.
    rewrite pairs_before_S in Hle. fold m in Hle. exact Hle.
Qed.

(** [Handshake] on hardware it can fill makes no access out of bounds. *)
Lemma Handshake_spec (st : @AHP_XC D) (plot_size : Z) :
  ahp_xc_get_nbaselines E = length (pairs (nlines E)) ->
  blobs_allocated ->
  Handshake E st plot_size = Ok (Handshake_state st plot_size).
Proof.
  intros Hnb Hfill. unfold Handshake. cbv zeta.
  rewrite <- hs_at_0.
  destruct (for_upto_inv (fun b s => s = hs_at st b 0 0 0)
              (ahp_xc_get_nbaselines E) (handshake_baseline_body E)
              (hs_at st 0 0 0 0)) as (s1 & Hf1 & ->).
  { reflexivity. }
  { intros b s Hb ->. eexists. split; [|reflexivity].
    apply handshake_baseline_step. exact Hb. }
  rewrite Hf1. cbn [bind].
  destruct (for_upto_inv
              (fun p s => s = hs_at st (ahp_xc_get_nbaselines E) p 0 0)
              nplots (handshake_plot_body E)
              (hs_at st (ahp_xc_get_nbaselines E) 0 0 0)) as (s2 & Hf2 & ->).
  { reflexivity. }
  { intros p s Hp ->. eexists. split; [|reflexivity].
    apply handshake_plot_step. exact Hp. }
  rewrite Hf2. cbn [bind].
  destruct (for_upto_inv
              (fun k s =>
                 s = (hs_at st (ahp_xc_get_nbaselines E) nplots k
                        (length (pairs_before (nlines E) k)),
                      length (pairs_before (nlines E) k)))
              (nlines E) (handshake_line_body E)
              (hs_at st (ahp_xc_get_nbaselines E) nplots 0 0, 0%nat))
    as (s3 & Hf3 & ->).
  { reflexivity. }
  { intros k s Hk ->. eexists. split; [|reflexivity].
    apply handshake_line_step; assumption. }
  rewrite Hf3. cbn [bind fst].
  change (pairs_before (nlines E) (nlines E)) with (pairs (nlines E)).
  rewrite <- Hnb.
  unfold setupParams. change (0 <? nplots)%nat with true. cbv iota.
  unfold hs_at, Handshake_state, filled_if, upto, nplots. simpl seq.
  cbn [for_each]. unfold setupParams_body. hs_fields.
  change (0 <? 1)%nat with true. cbv iota.
  assert (Hab : filled_if (1 <? ahp_xc_get_crosscorrelator_lagsize E)
                  (fun _ => empty_blob) (nlines E)
                  (if 1 <? ahp_xc_get_autocorrelator_lagsize E
                   then resize (nlines E) (uninit_blob E) (autocorrelationsB st)
                   else autocorrelationsB st)
                = if 1 <? ahp_xc_get_autocorrelator_lagsize E
                  then if 1 <? ahp_xc_get_crosscorrelator_lagsize E
                       then replicate (nlines E) empty_blob
                       else resize (nlines E) (uninit_blob E)
                              (autocorrelationsB st)
                  else autocorrelationsB st).
  { unfold filled_if.
    destruct (1 <? ahp_xc_get_autocorrelator_lagsize E) eqn:Ha;
      destruct (1 <? ahp_xc_get_crosscorrelator_lagsize E) eqn:Hc;
      try reflexivity.
    - apply filled_all. apply length_resize.
    - destruct (nlines E) as [|n] eqn:Hn; [apply filled_0|].
      exfalso. apply Z.ltb_lt in Hc. unfold blobs_allocated in Hfill.
      rewrite Hn in Hfill. specialize (Hfill ltac:(lia) Hc).
      apply Z.ltb_lt in Hfill. congruence. }
  unfold filled_if in Hab. rewrite Hab. clear Hab.
  assert (Hc : forall (A : Type) (c : bool) (v p : A) (n : nat) (l : list A),
            (if c then filled (fun _ => v) n (if c then resize n p l else l)
             else (if c then resize n p l else l))
            = if c then replicate n v else l).
  { intros A c v p n l. destruct c; [|reflexivity].
    apply filled_all. apply length_resize. }
  rewrite !Hc. rewrite !filled_all by (apply length_resize).
  reflexivity.
Qed.

(** On hardware with crosscorrelations of more than one lag and
    autocorrelations of one, line 1184 fills [autocorrelationsB[0]], which
    the constructor left without a slot. *)
Lemma Handshake_no_autocorrelator (plot_size : Z) (lon lat ra dec : D)
  (t0 : timeval) :
  (0 < nlines E)%nat -> 1 < ahp_xc_get_crosscorrelator_lagsize E ->
  ahp_xc_get_autocorrelator_lagsize E <= 1 ->
  Handshake E (AHP_XC_new E lon lat ra dec t0) plot_size = Fault OutOfBounds.
Proof.
  intros Hn Hcl Hal. unfold Handshake. cbv zeta.
  set (st := AHP_XC_new E lon lat ra dec t0).
  rewrite <- hs_at_0.
  destruct (for_upto_inv (fun b s => s = hs_at st b 0 0 0)
              (ahp_xc_get_nbaselines E) (handshake_baseline_body E)
              (hs_at st 0 0 0 0)) as (s1 & Hf1 & ->).
  { reflexivity. }
  { intros b s Hb ->. eexists. split; [|reflexivity].
    apply handshake_baseline_step. exact Hb. }
  rewrite Hf1. cbn [bind].
  destruct (for_upto_inv
              (fun p s => s = hs_at st (ahp_xc_get_nbaselines E) p 0 0)
              nplots (handshake_plot_body E)
              (hs_at st (ahp_xc_get_nbaselines E) 0 0 0)) as (s2 & Hf2 & ->).
  { reflexivity. }
  { intros p s Hp ->. eexists. split; [|reflexivity].
    apply handshake_plot_step. exact Hp. }
  rewrite Hf2. cbn [bind].
  unfold upto. destruct (nlines E) as [|n] eqn:Hnl; [lia|].
  rewrite <- cons_seq. cbn [for_each].
  unfold handshake_line_body at 1. unfold hs_at, filled_if. hs_fields.
  destruct (Z.ltb_spec 1 (ahp_xc_get_autocorrelator_lagsize E)); [lia|].
  destruct (Z.ltb_spec 1 (ahp_xc_get_crosscorrelator_lagsize E)); [|lia].
  hs_fields. rewrite Hnl.
  rewrite wrn_Ok by (rewrite length_filled, length_resize; lia). hs_fields.
  rewrite wrn_Ok by (rewrite length_filled, length_resize; lia). hs_fields.
  reflexivity.
Qed.

Lemma Handshake_wf (st : @AHP_XC D) (k : Z) :
  ahp_xc_get_nbaselines E = length (pairs (nlines E)) ->
  1 <= k -> 4 * k * k <= INT_MAX ->
  ahp_xc_get_autocorrelator_lagsize E <= INT_MAX ->
  ahp_xc_get_crosscorrelator_lagsize E * 2 - 1 <= INT_MAX ->
  wf (Handshake_state st (2 * k)).
Proof.
  intros Hnb Hk Hmax Hal Hcl. constructor.
  - constructor; cbn; rewrite ?length_replicate, ?length_resize; auto.
  - exact Hnb.
  - cbn. apply length_replicate.
  - cbn. apply length_replicate.
  - exists k. eexists. split; [reflexivity|].
    unfold setup_plot, new_stream, dsp_stream_new2, dsp_stream_set_dim0,
      dsp_stream_set_dim1, dsp_stream_alloc_buffer, realloc.
    cbn [sizes0 sizes1 len buf].
    assert (Hw : wrap_int (2 * k * (2 * k)) = 4 * k * k).
    { rewrite wrap_int_small by (unfold INT_MAX in *; nia). ring. }
    constructor; cbn [sizes0 sizes1 len buf]; auto.
    rewrite length_resize, Hw. reflexivity.
  - reflexivity.
  - intros H1. cbn.
    destruct (Z.ltb_spec 1 (ahp_xc_get_autocorrelator_lagsize E)); [|lia].
    rewrite !length_replicate. split; [reflexivity|]. split.
    + apply Forall_replicate. apply new_stream_wf. lia.
    + destruct (1 <? ahp_xc_get_crosscorrelator_lagsize E);
        [apply length_replicate|apply length_resize].
  - intros H1. cbn.
    destruct (Z.ltb_spec 1 (ahp_xc_get_crosscorrelator_lagsize E)); [|lia].
    rewrite !length_replicate. split; [reflexivity|]. split; [|reflexivity].
    apply Forall_replicate. apply new_stream_wf. lia.
Qed.

(** On a driver that holds no stream yet, as the constructor leaves it,
    every buffer [Handshake] makes is one row with room for more. *)
Lemma Handshake_fresh (st : @AHP_XC D) (size : Z) :
  (ahp_xc_get_autocorrelator_lagsize E <= 1 -> autocorrelations_str st = []) ->
  (ahp_xc_get_crosscorrelator_lagsize E <= 1 -> crosscorrelations_str st = []) ->
  ahp_xc_get_autocorrelator_lagsize E <= INT_MAX ->
  ahp_xc_get_crosscorrelator_lagsize E * 2 - 1 <= INT_MAX ->
  fresh (Handshake_state st size).
Proof.
  intros Ha Hc Hal Hcl. split; cbn.
  - destruct (Z.ltb_spec 1 (ahp_xc_get_autocorrelator_lagsize E));
      [|rewrite Ha by assumption; constructor].
    apply Forall_replicate. apply new_stream_wf. lia.
  - destruct (Z.ltb_spec 1 (ahp_xc_get_crosscorrelator_lagsize E));
      [|rewrite Hc by assumption; constructor].
    apply Forall_replicate. apply new_stream_wf. lia.
Qed.

Lemma Handshake_room (st : @AHP_XC D) (size n : Z) :
  (ahp_xc_get_autocorrelator_lagsize E <= 1 -> autocorrelations_str st = []) ->
  (ahp_xc_get_crosscorrelator_lagsize E <= 1 -> crosscorrelations_str st = []) ->
  0 <= n ->
  ahp_xc_get_autocorrelator_lagsize E * (n + 1) <= INT_MAX ->
  (ahp_xc_get_crosscorrelator_lagsize E * 2 - 1) * (n + 1) <= INT_MAX ->
  room n (Handshake_state st size).
Proof.
  intros Has Hcs Hn Ha Hc. split; cbn.
  - destruct (Z.ltb_spec 1 (ahp_xc_get_autocorrelator_lagsize E));
      [|rewrite Has by assumption; constructor].
    apply Forall_replicate. apply new_stream_wf; [unfold INT_MAX in *; nia|lia|].
    exact Ha.
  - destruct (Z.ltb_spec 1 (ahp_xc_get_crosscorrelator_lagsize E));
      [|rewrite Hcs by assumption; constructor].
    apply Forall_replicate. apply new_stream_wf; [unfold INT_MAX in *; nia|lia|].
    exact Hc.
Qed.

(** The configuration calls and [StartIntegration] keep it. *)
Lemma wf_enable_line (st : @AHP_XC D) (x : nat) (on : bool) :
  wf st -> wf (enable_line st x on).
Proof.
  intros [[H1 H2 H3 H4 H5] H6 H7 H8 H9 H10 H11 H12]. constructor.
  - constructor; [|exact H2|exact H3|exact H4|exact H5].
    cbn. rewrite length_insert. exact H1.
  - exact H6.
  - exact H7.
  - exact H8.
  - exact H9.
  - exact H10.
  - exact H11.
  - exact H12.
Qed.

Lemma wf_set_locations (st : @AHP_XC D) (locs : list vec3)
  (bls : list baseline) :
  wf st -> length locs = nlines E -> length bls = length (pairs (nlines E)) ->
  wf (set_locations st locs bls).
Proof.
  intros [[H1 H2 H3 H4 H5] H6 H7 H8 H9 H10 H11 H12] Hl Hb. constructor.
  - constructor; [exact H1|exact Hl|exact H3|exact H4|exact Hb].
  - exact H6.
  - exact H7.
  - exact H8.
  - exact H9.
  - exact H10.
  - exact H11.
  - exact H12.
Qed.

Lemma wf_StartIntegration (st : @AHP_XC D) (d : D) (t : timeval) :
  wf st -> wf (snd (StartIntegration st d t)).
Proof.
  intros Hwf. unfold StartIntegration. destruct (InIntegration st); [exact Hwf|].
  destruct Hwf as [[H1 H2 H3 H4 H5] H6 H7 H8 H9 H10 H11 H12]. constructor.
  - constructor; [exact H1|exact H2|exact H3|exact H4|exact H5].
  - exact H6.
  - exact H7.
  - exact H8.
  - exact H9.
  - exact H10.
  - exact H11.
  - exact H12.
Qed.

End TickProps.

(* ------------------------------------------------------------------ *)
(** ** The integration cycle *)

Section CycleProps.
Context {D : Type} {AR : Arith D}.

(** C6.  [StartIntegration] called while an integration is active returns
    false and leaves the driver as it is: the requested duration, the start
    timestamp (hence the time left at any instant) and the integrating flag
    are those of the running cycle. *)
Theorem start_rejected_while_integrating (st : @AHP_XC D) (d : D)
  (t : timeval) :
  InIntegration st = true ->
  fst (StartIntegration st d t) = false
  /\ snd (StartIntegration st d t) = st
  /\ IntegrationRequest (snd (StartIntegration st d t)) = IntegrationRequest st
  /\ ExpStart (snd (StartIntegration st d t)) = ExpStart st
  /\ InIntegration (snd (StartIntegration st d t)) = true
  /\ forall t', CalcTimeLeft (snd (StartIntegration st d t)) t'
                = CalcTimeLeft st t'.
Proof.
  intros Hin. unfold StartIntegration. rewrite Hin. cbn [fst snd].
  repeat split; auto.
Qed.

End CycleProps.

(* ------------------------------------------------------------------ *)
(** ** A three-line correlator in binary64 *)

Module Scenario.
Import Binary64.

(** A correlator with three lines and three baselines, two lags per line,
    a 200 MHz clock and 1024 delay steps.  The source is taken on the
    horizon along the y axis, so that the delay of a baseline is the y
    component of its vector. *)
Definition hw : @Extern float := {|
  ahp_xc_get_nlines := 3;
  ahp_xc_get_nbaselines := 3;
  ahp_xc_get_autocorrelator_lagsize := 2;
  ahp_xc_get_crosscorrelator_lagsize := 2;
  ahp_xc_get_frequency := 200000000;
  ahp_xc_get_delaysize := 1024;
  LIGHTSPEED := 299792458%float;
  baseline_delay := fun alt az b => vy b;
  getDelay := fun bl alt az => vy (b_vector bl);
  getUVCoordinates := fun bl alt az =>
    (PrimFloat.div (vx (b_vector bl)) (b_wavelength bl),
     PrimFloat.div (vz (b_vector bl)) (b_wavelength bl));
  get_local_sidereal_time := fun t lon => lon;
  get_local_hour_angle := fun lst ra => PrimFloat.sub lst ra;
  get_alt_az_coordinates := fun ha dec lat => (0%float, 90%float);
  HasDSP := false;
  new_baseline :=
    {| b_vector := {| vx := 0%float; vy := 0%float; vz := 0%float |};
       b_wavelength := 1%float |};
  uninit := nan;
  uninit_blob := {| blob := None; bloblen := 0 |}
|}.

Definition t0 : timeval := {| tv_sec := 100; tv_usec := 0 |}.

(** The driver a computation leaves, [st] if it faulted. *)
Definition after (r : result (@AHP_XC float)) (st : @AHP_XC float)
  : @AHP_XC float :=
  match r with Ok st' => st' | Fault _ => st end.

(** The driver as the constructor leaves it. *)
Definition constructed : @AHP_XC float :=
  AHP_XC_new hw 0%float 0%float 0%float 0%float t0.

(** The driver after the constructor and [Handshake], with a plot of 8 by
    8. *)
Definition connected : @AHP_XC float :=
  after (Handshake hw constructed 8) constructed.

Lemma Handshake_connected : Handshake hw constructed 8 = Ok connected.
Proof. vm_compute. reflexivity. Qed.

Definition at_y (y : float) : @vec3 float :=
  {| vx := 0%float; vy := y; vz := 0%float |}.

(** [ISNewNumber] on the location of line [x]; the index is in range in
    every use below. *)
Definition locate (st : @AHP_XC float) (x : nat) (v : @vec3 float)
  : @AHP_XC float :=
  match set_line_location hw st x v with
  | Ok st' => st'
  | Fault _ => st
  end.

(** Lines 0 and 1 enabled, one metre apart along y; line 2 is off. *)
Definition short_pair : @AHP_XC float :=
  locate (enable_line (enable_line connected 0 true) 1 true) 1 (at_y 1).

(** Lines 0, 1 and 2 enabled at 0 m, 30 m and 90 m along y. *)
Definition long_row : @AHP_XC float :=
  locate (locate (enable_line (enable_line (enable_line connected 0 true)
                                 1 true) 2 true)
            1 (at_y 30)) 2 (at_y 90).

(** Lines 0, 1 and 2 enabled at the doubles nearest to 0.1 m, 0.2 m and
    0.3 m along x. *)
Definition at_x (x : float) : @vec3 float :=
  {| vx := x; vy := 0%float; vz := 0%float |}.

Definition thirds : @AHP_XC float :=
  locate (locate (locate (enable_line (enable_line (enable_line connected
                                                      0 true) 1 true) 2 true)
                    0 (at_x 0x1.999999999999ap-4))
            1 (at_x 0x1.999999999999ap-3))
    2 (at_x 0x1.3333333333333p-2).

(** The rational number a finite double stands for. *)
Definition exact (f : float) : Q :=
  match Prim2SF f with
  | S754_finite s m e =>
      ((if s then -1 else 1) * inject_Z (Z.pos m) * Qpower 2 e)%Q
  | _ => 0%Q
  end.

(** Only line 1 enabled. *)
Definition single : @AHP_XC float := enable_line connected 1 true.

(** Lines 1 and 2 enabled, ten metres apart along x, that is, across the
    direction of the source; line 0 is off. *)
Definition broadside : @AHP_XC float :=
  locate (enable_line (enable_line connected 1 true) 2 true) 2
    {| vx := 10%float; vy := 0%float; vz := 0%float |}.

(** A packet of the correlator: counts, two autocorrelation lags per line
    and three crosscorrelation lags per baseline. *)
Definition lag (c m : float) : @ahp_xc_correlation float :=
  {| counts := c; magnitude := m |}.

Definition ready_packet : @ahp_xc_packet float := {|
  pkt_counts := [10%float; 20%float; 30%float];
  autocorrelations :=
    [ {| lag_size := 2; correlations := [lag 1 11; lag 2 12] |};
      {| lag_size := 2; correlations := [lag 3 21; lag 4 22] |};
      {| lag_size := 2; correlations := [lag 5 31; lag 6 32] |} ];
  crosscorrelations :=
    [ {| lag_size := 3; correlations := [lag 1 41; lag 2 42; lag 3 43] |};
      {| lag_size := 3; correlations := [lag 4 51; lag 5 52; lag 6 53] |};
      {| lag_size := 3; correlations := [lag 7 61; lag 8 62; lag 9 63] |} ]
|}.

(** An encoding that succeeds within the 5760 bytes the memory file starts
    with. *)
Definition encoding_done : fits_outcome :=
  {| malloc_ok := true; create_memfile_status := 0; create_img_status := 0;
     write_img_status := 0; fits_memsize := 5760 |}.

(** An encoding that fails in [fits_write_img]. *)
Definition encoding_failed : fits_outcome :=
  {| malloc_ok := true; create_memfile_status := 0; create_img_status := 0;
     write_img_status := 1; fits_memsize := 5760 |}.

(** Every encoding succeeds. *)
Definition fits_ok (k : nat) : fits_outcome := encoding_done.


(** The encodings of the plot (call 0), of line 0 (call 1) and of the first
    crosscorrelation buffer (call 4) fail; the others succeed. *)
Definition fits_partial (k : nat) : fits_outcome :=
  if ((k =? 0) || (k =? 1) || (k =? 4))%nat then encoding_failed
  else encoding_done.

(** A ready packet read at second [s]. *)
Definition ready (s : Z) : @tick_input float :=
  {| isConnected := true; packet := Some ready_packet;
     now := {| tv_sec := s; tv_usec := 0 |}; fits := fits_ok |}.

(** A ready packet read at second [s], encoded by [f] should the iteration
    finalize. *)
Definition closing (s : Z) (f : nat -> fits_outcome) : @tick_input float :=
  {| isConnected := true; packet := Some ready_packet;
     now := {| tv_sec := s; tv_usec := 0 |}; fits := f |}.

(** An integration of 10 s started at [t0] on [st]. *)
Definition integrating (st : @AHP_XC float) : @AHP_XC float :=
  snd (StartIntegration st 10%float t0).

(** The driver after one accumulating iteration of an integration on
    [long_row]: every buffer holds one row of data. *)
Definition one_row : @AHP_XC float :=
  after (Callback_iteration hw (integrating long_row) (ready 101))
    (integrating long_row).

(** The second cycle starts at second 200. *)
Definition t1 : timeval := {| tv_sec := 200; tv_usec := 0 |}.

Definition restarted : @AHP_XC float :=
  snd (StartIntegration (snd (AbortIntegration one_row)) 10%float t1).

(** The preconditions at a concrete driver, by evaluation. *)
Ltac by_evaluation :=
  vm_compute;
  repeat first [ reflexivity | discriminate | constructor
               | let H := fresh in intros H; discriminate H ].

Ltac evaluate := vm_compute; reflexivity.

Ltac evaluate_all :=
  repeat match goal with |- _ /\ _ => split end; evaluate.

Ltac concrete_plot :=
  match goal with
  | |- exists k p, plot_str ?st = [p] /\ _ =>
      let l := eval vm_compute in (plot_str st) in
      match l with
      | [?q] => exists 4, q
      end
  end.

Ltac concrete_wf :=
  constructor;
  [ constructor; evaluate | evaluate | evaluate | evaluate
  | concrete_plot; split; [evaluate|constructor; by_evaluation]
  | evaluate
  | intros _; split; [evaluate|]; split; [by_evaluation|evaluate]
  | intros _; split; [evaluate|]; split; [by_evaluation|evaluate] ].

Ltac concrete_room :=
  split;
  [ set (l := autocorrelations_str _); vm_compute in l; subst l
  | set (l := crosscorrelations_str _); vm_compute in l; subst l ];
  repeat constructor; cbn; unfold INT_MAX; lia.

Lemma wf_long_row : wf hw (integrating long_row).
Proof. concrete_wf. Qed.

Lemma wf_one_row : wf hw one_row.
Proof. concrete_wf. Qed.

Lemma room_long_row : room 2 (integrating long_row).
Proof. concrete_room. Qed.

Lemma room_one_row : room 1 one_row.
Proof. concrete_room. Qed.

Lemma room1_long_row : room 1 (integrating long_row).
Proof. concrete_room. Qed.

Lemma room0_one_row : room 0 one_row.
Proof. concrete_room. Qed.

Lemma lines_ok_long_row : lines_ok hw long_row.
Proof. constructor; evaluate. Qed.

Lemma lines_ok_single : lines_ok hw single.
Proof. constructor; evaluate. Qed.

Lemma ready_packet_ok : packet_ok hw ready_packet.
Proof.
  constructor.
  - reflexivity.
  - reflexivity.
  - by_evaluation.
  - intros _. split; [reflexivity|]. repeat constructor.
  - intros _. repeat constructor.
Qed.

Lemma ready_accumulating (st : @AHP_XC float) (s : Z) :
  expired st (now (ready s)) = false -> accumulating hw st (ready s).
Proof.
  intros H. split; [reflexivity|]. split; [|exact H].
  exists ready_packet. split; [reflexivity|apply ready_packet_ok].
Qed.

(** C1 (counterexample).  Lines 0 and 1 are enabled, one metre apart along
    the direction of the source.  Line 1 is the reference and is sent tick
    count 0; the delay of the baseline is one metre, 0.667 clock ticks,
    which truncates to 0: line 0 is sent tick count 0 as well. *)
Lemma short_pair_both_at_zero :
  enabled_lines hw short_pair = [0; 1]%nat
  /\ reference hw short_pair = 1%nat
  /\ exists st',
       delay_compensation hw short_pair = Ok st'
       /\ events st'
          = [ahp_xc_set_channel_auto 1 0 1 1; ahp_xc_set_channel_cross 1 0 1 1;
             ahp_xc_set_channel_auto 0 0 1 1; ahp_xc_set_channel_cross 0 0 1 1]
       /\ cross_values 0 (events st') = [0]
       /\ cross_values 1 (events st') = [0].
Proof.
  split; [evaluate|]. split; [evaluate|].
  exists (after (delay_compensation hw short_pair) short_pair).
  evaluate_all.
Qed.

(** C1 (witness), on [long_row]: line 2 is the reference; lines 0 and 1
    are sent the tick counts of 90 m and 60 m. *)
Lemma delay_tick_counts_witness :
  lines_ok hw long_row /\ enabled_lines hw long_row <> []
  /\ 1 <= ahp_xc_get_delaysize hw < 2 ^ 32
  /\ exists st' evs,
       delay_compensation hw long_row = Ok st'
       /\ events st' = events long_row ++ evs
       /\ cross_values (reference hw long_row) evs = [0].
Proof.
  assert (H1 : lines_ok hw long_row) by apply lines_ok_long_row.
  assert (H2 : enabled_lines hw long_row <> []) by (vm_compute; discriminate).
  assert (H3 : 1 <= ahp_xc_get_delaysize hw < 2 ^ 32) by (simpl; lia).
  split; [exact H1|]. split; [exact H2|]. split; [exact H3|].
  destruct (delay_tick_counts hw long_row H1 H2 H3)
    as (st' & evs & Hr & He & Hz & _).
  exists st', evs. split; [exact Hr|]. split; [exact He|exact Hz].
Defined.

(** C2 (counterexample).  No integration is active on [long_row] and a
    packet is ready.  Delay compensation at the direction of that instant
    would send six channel commands; the iteration sends none, and leaves
    the direction and the delays as they were. *)
Lemma idle_tick_skips_delay_compensation :
  InIntegration long_row = false
  /\ (exists st_d,
        delay_compensation hw (sky_direction hw long_row (now (ready 101)))
        = Ok st_d
        /\ events st_d
           = [ahp_xc_set_channel_auto 2 0 1 1;
              ahp_xc_set_channel_cross 2 0 1 1;
              ahp_xc_set_channel_auto 0 0 1 1;
              ahp_xc_set_channel_cross 0 60 1 1;
              ahp_xc_set_channel_auto 1 0 1 1;
              ahp_xc_set_channel_cross 1 40 1 1]
        /\ Azimuth st_d = 90%float)
  /\ exists st',
       Callback_iteration hw long_row (ready 101) = Ok st'
       /\ events st' = []
       /\ delay st' = delay long_row
       /\ Altitude st' = Altitude long_row
       /\ Azimuth st' = Azimuth long_row
       /\ PrimFloat.eqb (Azimuth st') 90 = false.
Proof.
  split; [evaluate|]. split.
  - exists (after (delay_compensation hw
                     (sky_direction hw long_row (now (ready 101)))) long_row).
    evaluate_all.
  - exists (after (Callback_iteration hw long_row (ready 101)) long_row).
    evaluate_all.
Qed.

(** C2 (witness), on an integration of [long_row] with time left. *)
Lemma delay_compensation_only_while_integrating_witness :
  wf hw (integrating long_row) /\ packet_ok hw ready_packet
  /\ exists st' tl st_d,
       Callback_iteration hw (integrating long_row) (ready 101) = Ok st'
       /\ delay_compensation hw
            (sky_direction hw (set_timeleft (integrating long_row) tl)
               (now (ready 101)))
          = Ok st_d
       /\ delay st' = delay st_d /\ events st' = events st_d.
Proof.
  assert (H1 : wf hw (integrating long_row)) by apply wf_long_row.
  assert (H2 : packet_ok hw ready_packet) by apply ready_packet_ok.
  split; [exact H1|]. split; [exact H2|].
  destruct (delay_compensation_only_while_integrating hw
              (integrating long_row) (ready 101) ready_packet H1
              eq_refl eq_refl H2) as (Hrun & _ & _).
  destruct Hrun as (st' & tl & st_d & Hit & Hdc & _ & _ & Hdl & Hev).
  - reflexivity.
  - vm_compute. reflexivity.
  - apply room1_long_row.
  - vm_compute. discriminate.
  - exists st', tl, st_d. auto.
Defined.

(** C3 (counterexample).  The three lines of [thirds] are enabled, at
    0.1 m, 0.2 m and 0.3 m along x.  The tick computes the centre
    0.1 + ((0.2 - 0.1) + (0.3 - 0.1)) / 3, which is the double nearest to
    0.2.  The sum of the three positions divided by 3 is the next double,
    and the mean of the three positions as rational numbers is neither. *)
Lemma center_is_not_the_mean :
  enabled_lines hw thirds = [0; 1; 2]%nat
  /\ exists c,
       array_center hw thirds = Ok c
       /\ vx c = 0x1.999999999999ap-3%float
       /\ PrimFloat.div
            (PrimFloat.add
               (PrimFloat.add (vx (location thirds 0)) (vx (location thirds 1)))
               (vx (location thirds 2))) 3
          = 0x1.999999999999bp-3%float
       /\ ~ (exact (vx c)
             == (exact (vx (location thirds 0)) + exact (vx (location thirds 1))
                 + exact (vx (location thirds 2))) / 3)%Q.
Proof.
  split; [evaluate|].
  exists (at_x 0x1.999999999999ap-3).
  split; [evaluate|]. split; [evaluate|]. split; [evaluate|].
  intros H. apply Qeq_bool_iff in H. vm_compute in H. discriminate H.
Qed.

(** C3 (witness), on [thirds]. *)
Lemma phase_center_formula_witness :
  lines_ok hw thirds /\ enabled_lines hw thirds <> []
  /\ exists c st',
       array_center hw thirds = Ok c
       /\ c = vadd
                (vdiv
                   (foldl (fun acc x =>
                             vadd acc (vsub (location thirds x)
                                         (location thirds 0)))
                      vzero [1; 2]%nat)
                   (d_of_int (1 + Z.of_nat (length [1; 2]%nat))))
                (location thirds 0)
       /\ delay_compensation hw thirds = Ok st'
       /\ center st' !! 2%nat = Some (vsub (location thirds 2) c).
Proof.
  assert (H1 : lines_ok hw thirds) by (constructor; evaluate).
  assert (H2 : enabled_lines hw thirds <> []) by (vm_compute; discriminate).
  assert (H3 : enabled_lines hw thirds = [0; 1; 2]%nat) by evaluate.
  split; [exact H1|]. split; [exact H2|].
  destruct (phase_center_formula hw thirds H1 H2)
    as (f & rest & c & st' & Hl & Hc & Hf & Hd & Hin & _).
  rewrite H3 in Hl. injection Hl as <- <-.
  exists c, st'. split; [exact Hc|]. split; [exact Hf|]. split; [exact Hd|].
  apply Hin. rewrite H3. apply list_elem_of_lookup. exists 2%nat. reflexivity.
Defined.

(** C4 (counterexample).  Two of the three lines are enabled and one
    accumulating iteration has run: there are three autocorrelation buffers
    and three crosscorrelation buffers, each with two rows. *)
Lemma two_enabled_one_tick :
  enabled_lines hw short_pair = [0; 1]%nat
  /\ exists st',
       Callback hw (integrating short_pair) [ready 101] = Ok st'
       /\ length (autocorrelations_str st') = 3%nat
       /\ length (crosscorrelations_str st') = 3%nat
       /\ sizes1 <$> autocorrelations_str st' = [2; 2; 2]
       /\ sizes1 <$> crosscorrelations_str st' = [2; 2; 2].
Proof.
  split; [evaluate|].
  exists (after (Callback hw (integrating short_pair) [ready 101]) short_pair).
  evaluate_all.
Qed.

(** C4 (witness): two accumulating iterations on [long_row]. *)
Lemma buffers_after_ticks_witness :
  wf hw (integrating long_row) /\ fresh (integrating long_row)
  /\ Forall (accumulating hw (integrating long_row)) [ready 101; ready 102]
  /\ exists st',
       Callback hw (integrating long_row) [ready 101; ready 102] = Ok st'
       /\ Forall (fun s => sizes0 s = 2 /\ sizes1 s = 3)
            (autocorrelations_str st')
       /\ Forall (fun s => sizes0 s = 3 /\ sizes1 s = 3)
            (crosscorrelations_str st').
Proof.
  assert (H1 : wf hw (integrating long_row)) by apply wf_long_row.
  assert (H2 : fresh (integrating long_row))
    by (split; by_evaluation).
  assert (H3 : Forall (accumulating hw (integrating long_row))
                 [ready 101; ready 102])
    by (repeat (constructor; [apply ready_accumulating; evaluate|]);
        constructor).
  split; [exact H1|]. split; [exact H2|]. split; [exact H3|].
  destruct (buffers_after_ticks hw (integrating long_row)
              [ready 101; ready 102] H1 eq_refl
              ltac:(vm_compute; discriminate) room_long_row H2 H3)
    as (st' & Hrun & Ha & Hc).
  exists st'. split; [exact Hrun|]. split.
  - apply Ha. simpl. lia.
  - apply Hc. simpl. lia.
Defined.

(** C5 (counterexample).  Line 2 is disabled, and so is the baseline
    (0, 2), which is number 1.  One accumulating iteration appends the
    packet's row to the buffer of the line and to that of the baseline. *)
Lemma disabled_line_gets_a_row :
  enabled short_pair 2 = false
  /\ pairs 3 !! 1%nat = Some (0%nat, 2%nat)
  /\ data_rows <$> autocorrelations_str (integrating short_pair) !! 2%nat
     = Some []
  /\ data_rows <$> crosscorrelations_str (integrating short_pair) !! 1%nat
     = Some []
  /\ exists st',
       Callback_iteration hw (integrating short_pair) (ready 101) = Ok st'
       /\ data_rows <$> autocorrelations_str st' !! 2%nat
          = Some [31; 32]%float
       /\ data_rows <$> crosscorrelations_str st' !! 1%nat
          = Some [51; 52; 53]%float.
Proof.
  split; [evaluate|]. split; [evaluate|].
  split; [evaluate|]. split; [evaluate|].
  exists (after (Callback_iteration hw (integrating short_pair) (ready 101))
            short_pair).
  evaluate_all.
Qed.

(** C5 (witness): one accumulating iteration on [long_row]. *)
Lemma every_stream_gets_a_row_witness :
  wf hw (integrating long_row) /\ room 1 (integrating long_row)
  /\ packet_ok hw ready_packet
  /\ expired (integrating long_row) (now (ready 101)) = false
  /\ exists st',
       Callback_iteration hw (integrating long_row) (ready 101) = Ok st'
       /\ forall x s,
            autocorrelations_str (integrating long_row) !! x = Some s ->
            exists smp,
              autocorrelations ready_packet !! x = Some smp
              /\ autocorrelations_str st' !! x = Some (appended hw s smp).
Proof.
  assert (H1 : wf hw (integrating long_row)) by apply wf_long_row.
  assert (H2 : room 1 (integrating long_row))
    by apply room1_long_row.
  assert (H3 : packet_ok hw ready_packet) by apply ready_packet_ok.
  assert (H4 : expired (integrating long_row) (now (ready 101)) = false)
    by (evaluate).
  split; [exact H1|]. split; [exact H2|]. split; [exact H3|].
  split; [exact H4|].
  destruct (every_stream_gets_a_row hw (integrating long_row) (ready 101)
              ready_packet H1 H2 ltac:(vm_compute; discriminate)
              eq_refl eq_refl H3 eq_refl H4)
    as (st' & Hrun & Ha & _).
  exists st'. split; [exact Hrun|].
  intros x s Hx. destruct (Ha ltac:(simpl; lia) x s Hx) as (smp & Hp & Hs & _).
  exists smp. auto.
Defined.

(** C6 (witness): a second request while [long_row] integrates. *)
Lemma start_rejected_while_integrating_witness :
  InIntegration (integrating long_row) = true
  /\ fst (StartIntegration (integrating long_row) 5%float t1) = false
  /\ snd (StartIntegration (integrating long_row) 5%float t1)
     = integrating long_row.
Proof.
  split; [evaluate|].
  destruct (start_rejected_while_integrating (integrating long_row) 5%float t1
              eq_refl) as (Hr & Hs & _).
  split; [exact Hr|exact Hs].
Defined.

(** C7 (counterexample).  With line 1 alone enabled, the tick sets
    [delay[0]] and sends two commands to channel 0.  With no line enabled
    the tick reads [lineLocationNP[-1]]. *)
Lemma single_line_pins_reference :
  enabled_lines hw single = [1]%nat
  /\ events single = [] /\ delay single !! 0%nat = Some nan
  /\ (exists st',
        delay_compensation hw single = Ok st'
        /\ events st'
           = [ahp_xc_set_channel_auto 0 0 1 1;
              ahp_xc_set_channel_cross 0 0 1 1]
        /\ delay st' !! 0%nat = Some 0%float)
  /\ enabled_lines hw connected = []
  /\ delay_compensation hw connected = Fault OutOfBounds.
Proof.
  split; [evaluate|]. split; [evaluate|]. split; [evaluate|].
  split; [|evaluate_all].
  exists (after (delay_compensation hw single) single).
  evaluate_all.
Qed.

(** C7 (witness), on [single]. *)
Lemma single_antenna_tick_witness :
  lines_ok hw single /\ enabled_lines hw single = [1]%nat
  /\ exists st',
       delay_compensation hw single = Ok st'
       /\ events st' = events single ++ reference_cmds (reference hw single).
Proof.
  assert (H1 : lines_ok hw single) by apply lines_ok_single.
  assert (H2 : enabled_lines hw single = [1]%nat) by evaluate.
  split; [exact H1|]. split; [exact H2|].
  eexists. split; [exact (single_antenna_tick hw single 1%nat H1 H2)|].
  reflexivity.
Defined.



(** C9.  Lines 1 and 2 are enabled, ten metres apart across the direction
    of the source, and line 0 is disabled.  The ratio of both enabled lines
    is 0, which does not exceed the initial [delay_max]: [farest] keeps its
    initial value 0, and the reference is line 0, a disabled line. *)
Theorem reference_is_a_disabled_line :
  enabled_lines hw broadside = [1; 2]%nat
  /\ enabled broadside 0 = false
  /\ reference hw broadside = 0%nat
  /\ exists ctr fl st',
       array_center hw broadside = Ok ctr
       /\ PrimFloat.eqb (delay_ratio hw broadside (vsub (location broadside 1) ctr)) 0
          = true
       /\ PrimFloat.eqb (delay_ratio hw broadside (vsub (location broadside 2) ctr)) 0
          = true
       /\ select_farest hw broadside ctr = Ok fl
       /\ farest fl = 0%nat
       /\ delay_compensation hw broadside = Ok st'
       /\ events st'
          = [ahp_xc_set_channel_auto 0 0 1 1;
             ahp_xc_set_channel_cross 0 0 1 1].
Proof.
  split; [evaluate|]. split; [evaluate|].
  split; [evaluate|].
  exists {| vx := 5%float; vy := 0%float; vz := 0%float |}.
  exists {| fl_center :=
              [ {| vx := nan; vy := nan; vz := nan |};
                {| vx := (-5)%float; vy := 0%float; vz := 0%float |};
                {| vx := 5%float; vy := 0%float; vz := 0%float |} ];
            farest := 0; delay_max := 0%float |}.
  exists (after (delay_compensation hw broadside) broadside).
  evaluate_all.
Qed.

(** C10.  [one_row] is aborted with one row in every buffer; the next
    cycle starts at second 200, accumulates once and ends at second 210.
    With every encoding succeeding, the copy of the first encoding leaves
    [blob].  With the encoder [fits_partial] finalize completes: the streams
    encoded for the three lines begin with the rows of the aborted cycle,
    but the crosscorrelation loop encodes buffer 0 twice and buffer 1 once.
    Buffer 2 is not encoded: it keeps the row of the aborted cycle and the
    row of the completed one, and its slot stays unset. *)
Theorem aborted_baseline_rows_not_encoded :
  fst (AbortIntegration one_row) = true
  /\ data_rows <$> crosscorrelations_str restarted !! 2%nat
     = Some [61; 62; 63]%float
  /\ Callback hw restarted [ready 201; closing 210 fits_ok]
     = Fault OutOfBounds
  /\ exists st',
       Callback hw restarted [ready 201; closing 210 fits_partial] = Ok st'
       /\ InIntegration st' = false
       /\ data_rows <$> drop 1 (encoded (events st'))
          = [ [11; 12; 11; 12]; [21; 22; 21; 22]; [31; 32; 31; 32];
              [41; 42; 43; 41; 42; 43]; []; [51; 52; 53; 51; 52; 53] ]%float
       /\ data_rows <$> crosscorrelations_str st' !! 2%nat
          = Some [61; 62; 63; 61; 62; 63]%float
       /\ crosscorrelationsB st' !! 2%nat
          = Some {| blob := None; bloblen := 0 |}.
Proof.
  split; [evaluate|]. split; [evaluate|]. split; [evaluate|].
  exists (after (Callback hw restarted [ready 201; closing 210 fits_partial])
            restarted).
  evaluate_all.
Qed.

End Scenario.

(* ------------------------------------------------------------------ *)
(** ** The reader loop keeps the driver well formed *)

Section LoopProps.
Context {D : Type} {AR : Arith D} {LM : Libm D}.
Variable E : @Extern D.

(** Every field of the driver, to compute a projection of a closed form. *)
Ltac fields :=
  unfold tick_state, fin_state;
  cbn [InIntegration IntegrationRequest ExpStart timeleft lineEnableSP
       lineLocationNP baselines plot_str autocorrelations_str
       crosscorrelations_str plotB autocorrelationsB crosscorrelationsB
       totalcounts totalcorrelations events delay center Altitude Azimuth
       set_InIntegration set_timeleft set_Altitude set_Azimuth set_center
       set_delay set_plot_str set_autocorrelations_str
       set_crosscorrelations_str set_plotB set_autocorrelationsB
       set_crosscorrelationsB set_totalcounts set_totalcorrelations
       set_events].

Lemma room_le (j k : Z) (st : @AHP_XC D) : j <= k -> room k st -> room j st.
Proof.
  intros Hjk [Ha Hc]. split.
  - eapply Forall_impl; [exact Ha|]. intros s. apply stream_room_le. exact Hjk.
  - eapply Forall_impl; [exact Hc|]. intros s. apply stream_room_le. exact Hjk.
Qed.

(** Resetting a stream to one row leaves it at least as much room. *)
Lemma fresh_row_room (w k : Z) (s : @dsp_stream D) :
  0 <= k -> stream_wf w s -> stream_room k s ->
  stream_room k (fresh_row s).
Proof.
  intros Hk [Hw Hh Hl Hb] [H0 Hr]. unfold stream_room in *. cbn. split; [exact H0|].
  nia.
Qed.

Lemma ser_strs_room (w k : Z) (l : list nat) (strs : list (@dsp_stream D)) :
  0 <= k -> Forall (stream_wf w) strs -> Forall (stream_room k) strs ->
  Forall (stream_room k) (ser_strs fresh_row l strs).
Proof.
  intros Hk Hw Hr.
  assert (H : Forall (fun s => stream_wf w s /\ stream_room k s)
                (ser_strs fresh_row l strs)).
  { apply ser_strs_Forall.
    - intros s [Hs1 Hs2]. split.
      + destruct Hs1 as [Hw1 Hh Hl Hb]. destruct Hs2 as [H0 _].
        constructor; cbn; try lia. rewrite length_replicate. reflexivity.
      + apply (fresh_row_room w); assumption.
    - apply Forall_and. split; assumption. }
  apply Forall_and in H as [_ H]. exact H.
Qed.

(** Finalize gives no stream less room than it had. *)
Lemma fin_room (k : Z) (st : @AHP_XC D) :
  0 <= k -> wf E st -> room k st ->
  Forall (stream_room k) (fin_autos E st)
  /\ Forall (stream_room k) (fin_cross E st).
Proof.
  intros Hk Hwf [Ha Hc]. unfold fin_autos, fin_cross, auto_on, cross_on. split.
  - destruct (0 <? nlines E)%nat; [|exact Ha].
    destruct (Z.ltb_spec 1 (ahp_xc_get_autocorrelator_lagsize E)); [|exact Ha].
    cbn [andb].
    destruct (wf_auto E st Hwf ltac:(assumption)) as (_ & Hs & _).
    apply (ser_strs_room (ahp_xc_get_autocorrelator_lagsize E)); assumption.
  - destruct (0 <? ahp_xc_get_nbaselines E)%nat; [|exact Hc].
    destruct (Z.ltb_spec 1 (ahp_xc_get_crosscorrelator_lagsize E)); [|exact Hc].
    cbn [andb].
    destruct (wf_cross E st Hwf ltac:(assumption)) as (_ & Hs & _).
    apply (ser_strs_room (ahp_xc_get_crosscorrelator_lagsize E * 2 - 1));
      assumption.
Qed.

(** The iteration [i] finalizes the integration of [st]: a packet is ready
    and the integration has no time left. *)
Definition finalizing (st : @AHP_XC D) (i : @tick_input D) : bool :=
  isConnected i
  && match packet i with Some _ => true | None => false end
  && InIntegration st && expired st (now i).

(** The copy of an encoded buffer leaves [blob] on this iteration. *)
Definition overflowing (st : @AHP_XC D) (i : @tick_input D) : bool :=
  finalizing st i && negb (fin_fits E (fits i) st).

(** One iteration of the loop, whatever it finds: not connected, no packet
    ready, no integration, an integration with time left or one to
    finalize without a copy that leaves [blob]. *)
Lemma Callback_iteration_safe (st : @AHP_XC D) (i : tick_input) (k : Z) :
  wf E st -> 0 <= k -> room (k + 1) st ->
  (InIntegration st = true -> enabled_lines E st <> []) ->
  (forall pkt, packet i = Some pkt -> packet_ok E pkt) ->
  overflowing st i = false ->
  exists st',
    Callback_iteration E st i = Ok st'
    /\ wf E st' /\ room k st'
    /\ lineEnableSP st' = lineEnableSP st
    /\ (InIntegration st' = true -> InIntegration st = true).
Proof.
  intros Hwf Hk Hroom Hen Hpk Hov.
  assert (Hroomk : room k st) by (apply (room_le k (k + 1)); [lia|exact Hroom]).
  destruct (isConnected i) eqn:Hcon.
  2:{ exists st. unfold Callback_iteration. rewrite Hcon. cbn [negb].
      split; [reflexivity|]. auto. }
  destruct (packet i) as [pkt|] eqn:Hpkt.
  2:{ exists st. unfold Callback_iteration. rewrite Hcon, Hpkt. cbn [negb].
      split; [reflexivity|]. auto. }
  specialize (Hpk pkt eq_refl).
  destruct (InIntegration st) eqn:Hin.
  - destruct (expired st (now i)) eqn:Hexp.
    + assert (Hfit : fin_fits E (fits i) st = true).
      { unfold overflowing, finalizing in Hov.
        rewrite Hcon, Hpkt, Hin, Hexp in Hov. cbn [andb] in Hov.
        apply negb_false_iff in Hov. exact Hov. }
      destruct (tick_finalize E st i pkt Hwf
                  (room_le 0 (k + 1) st ltac:(lia) Hroom) Hcon Hpkt Hpk Hin Hexp
                  Hfit)
        as (tl & pb & ab & cb & tc & tcr & _ & Hit & _ & _ & _ & _ & _ & _
            & Hwf' & _).
      eexists. split; [exact Hit|]. split; [exact Hwf'|].
      split; [|split; [reflexivity|intros _; reflexivity]].
      destruct (fin_room k (set_timeleft st tl) Hk (wf_set_timeleft E st tl Hwf))
        as [Ha Hc].
      { exact Hroomk. }
      split; [exact Ha|exact Hc].
    + assert (Hr1 : room 1 st) by (apply (room_le 1 (k + 1)); [lia|exact Hroom]).
      destruct (tick_integrating E st i pkt Hwf Hr1 (Hen eq_refl) Hcon Hpkt Hpk
                  Hin Hexp)
        as (tl & c & dl & ev & p & tc & tcr & _ & Hit & Hwf').
      cbv zeta in Hit, Hwf'.
      eexists. split; [exact Hit|]. split; [exact Hwf'|].
      split; [|split; [reflexivity|intros _; reflexivity]].
      destruct (grow_room E k st pkt Hk Hroom) as [Ga Gc].
      split; [exact Ga|exact Gc].
  - destruct (tick_idle E st i pkt Hwf Hcon Hpkt Hpk Hin)
      as (tl & tc & tcr & Hit & Htc & Htcr).
    eexists. split; [exact Hit|].
    split; [|split; [exact Hroomk|split; [reflexivity|]]].
    + apply wf_set_totals; [apply wf_set_timeleft; exact Hwf|exact Htc|exact Htcr].
    + fields. intros H. rewrite Hin in H. exact H.
Qed.

(** The iteration on which a copy leaves [blob] faults. *)
Lemma Callback_iteration_overflow (st : @AHP_XC D) (i : tick_input) :
  wf E st -> room 0 st -> overflowing st i = true ->
  Callback_iteration E st i = Fault OutOfBounds.
Proof.
  intros Hwf Hroom Hov. unfold overflowing, finalizing in Hov.
  apply andb_prop in Hov as [Hfz Hfit].
  apply andb_prop in Hfz as [Hfz Hexp].
  apply andb_prop in Hfz as [Hfz Hin].
  apply andb_prop in Hfz as [Hcon Hpkt].
  apply negb_true_iff in Hfit.
  destruct (packet i) as [pkt|] eqn:Hp; [|discriminate Hpkt].
  exact (tick_overflow E st i pkt Hwf Hroom Hcon Hp Hin Hexp Hfit).
Qed.

Lemma Callback_cons (st : @AHP_XC D) (i : tick_input)
  (rest : list (@tick_input D)) :
  Callback E st (i :: rest)
  = (st1 <- Callback_iteration E st i ;; Callback E st1 rest).
Proof. reflexivity. Qed.

(** The reader loop, over any sequence of observations, provided a line is
    enabled and each buffer has room for one row per observation.  Either
    it runs to the end, and keeps every array of the driver at its size; or
    it reaches, with the driver well formed, an iteration that finalizes an
    integration and on which the copy of an encoded buffer leaves [blob].
    That copy is the only access out of bounds. *)
Theorem reader_loop_safe (inputs : list (@tick_input D)) :
  forall st : @AHP_XC D,
    wf E st -> room (Z.of_nat (length inputs)) st ->
    enabled_lines E st <> [] ->
    Forall (fun i => forall pkt, packet i = Some pkt -> packet_ok E pkt)
      inputs ->
    (exists st',
       Callback E st inputs = Ok st'
       /\ wf E st' /\ room 0 st' /\ lineEnableSP st' = lineEnableSP st)
    \/ (exists done i rest st1,
          inputs = done ++ i :: rest
          /\ Callback E st done = Ok st1
          /\ wf E st1 /\ lineEnableSP st1 = lineEnableSP st
          /\ finalizing st1 i = true
          /\ fin_fits E (fits i) st1 = false
          /\ Callback E st inputs = Fault OutOfBounds).
Proof.
  induction inputs as [|i rest IH]; intros st Hwf Hroom Hen Hpk.
  - left. exists st. split; [reflexivity|]. auto.
  - apply Forall_cons in Hpk as [Hp Hpk].
    assert (Hr1 : room (Z.of_nat (length rest) + 1) st).
    { replace (Z.of_nat (length rest) + 1)
        with (Z.of_nat (length (i :: rest))) by (simpl length; lia).
      exact Hroom. }
    destruct (overflowing st i) eqn:Hov.
    + right. exists [], i, rest, st.
      split; [reflexivity|]. split; [reflexivity|]. split; [exact Hwf|].
      split; [reflexivity|].
      pose proof (Callback_iteration_overflow st i Hwf
                    (room_le 0 (Z.of_nat (length rest) + 1) st ltac:(lia) Hr1)
                    Hov) as Hf.
      unfold overflowing in Hov. apply andb_prop in Hov as [Hfz Hfit].
      apply negb_true_iff in Hfit.
      split; [exact Hfz|]. split; [exact Hfit|].
      rewrite Callback_cons, Hf. reflexivity.
    + destruct (Callback_iteration_safe st i (Z.of_nat (length rest)) Hwf
                  ltac:(lia) Hr1 ltac:(intros _; exact Hen) Hp Hov)
        as (st1 & Hit & Hwf1 & Hroom1 & He1 & _).
      assert (Hen1 : enabled_lines E st1 = enabled_lines E st).
      { unfold enabled_lines, enabled_upto, enabled. rewrite He1. reflexivity. }
      destruct (IH st1 Hwf1 Hroom1 ltac:(rewrite Hen1; exact Hen) Hpk)
        as [(st' & Hrun & Hwf' & Hr' & He')
           |(done & j & rest' & st2 & Hsplit & Hrun & Hwf2 & He2 & Hfz & Hfit
             & Hfault)].
      * left. exists st'. rewrite Callback_cons, Hit. cbn [bind].
        split; [exact Hrun|]. split; [exact Hwf'|].
        split; [exact Hr'|]. rewrite He'. exact He1.
      * right. exists (i :: done), j, rest', st2.
        split; [rewrite Hsplit; reflexivity|].
        split; [rewrite Callback_cons, Hit; exact Hrun|].
        split; [exact Hwf2|]. split; [rewrite He2; exact He1|].
        split; [exact Hfz|]. split; [exact Hfit|].
        rewrite Callback_cons, Hit. exact Hfault.
Qed.

End LoopProps.

(* ------------------------------------------------------------------ *)
(** ** From [Handshake] to the first integration *)

Section SetupProps.
Context {D : Type} {AR : Arith D} {LM : Libm D}.
Variable E : @Extern D.

Lemma enabled_lines_replicate (st : @AHP_XC D) :
  lineEnableSP st = replicate (nlines E) false -> enabled_lines E st = [].
Proof.
  intros Hl. destruct (enabled_lines E st) as [|x l] eqn:Hen; [reflexivity|].
  assert (Hx : x ∈ enabled_lines E st) by (rewrite Hen; left).
  apply elem_of_enabled_upto in Hx as [Hlt Hx].
  unfold enabled in Hx. rewrite Hl in Hx.
  rewrite (list_lookup_total_correct _ x false) in Hx; [discriminate Hx|].
  apply lookup_replicate_2. exact Hlt.
Qed.

(** [Handshake] on a correlator with [n (n - 1) / 2] baselines and a plot
    of even side [2 k] runs to its end and leaves the driver well formed,
    provided the slots it fills have been allocated (the autocorrelation
    slots are allocated when the autocorrelation lag size exceeds 1 and
    filled when the crosscorrelation lag size does) and the streams it does
    not allocate are absent, as in the constructed driver.  Every array has
    one entry per line, per baseline or per plot, every correlation buffer
    has one row of the lag-size width with room for [rows] more, the plot
    is square, the totals are zero and no line is enabled. *)
Theorem Handshake_ready (st : @AHP_XC D) (k rows : Z) :
  ahp_xc_get_nbaselines E = length (pairs (nlines E)) ->
  blobs_allocated E ->
  (ahp_xc_get_autocorrelator_lagsize E <= 1 -> autocorrelations_str st = []) ->
  (ahp_xc_get_crosscorrelator_lagsize E <= 1 -> crosscorrelations_str st = []) ->
  1 <= k -> 4 * k * k <= INT_MAX -> 0 <= rows ->
  ahp_xc_get_autocorrelator_lagsize E * (rows + 1) <= INT_MAX ->
  (ahp_xc_get_crosscorrelator_lagsize E * 2 - 1) * (rows + 1) <= INT_MAX ->
  exists st',
    Handshake E st (2 * k) = Ok st'
    /\ wf E st'
    /\ fresh st'
    /\ room rows st'
    /\ enabled_lines E st' = []
    /\ totalcounts st' = replicate (nlines E) d_zero
    /\ InIntegration st' = InIntegration st
    /\ events st' = events st.
Proof.
  intros Hnb Hblobs Has Hcs Hk Hmax Hrows Ha Hc.
  assert (Hal : ahp_xc_get_autocorrelator_lagsize E <= INT_MAX)
    by (unfold INT_MAX in *; nia).
  assert (Hcl : ahp_xc_get_crosscorrelator_lagsize E * 2 - 1 <= INT_MAX)
    by (unfold INT_MAX in *; nia).
  exists (Handshake_state E st (2 * k)).
  split; [apply Handshake_spec; assumption|].
  split; [apply Handshake_wf; assumption|].
  split; [apply Handshake_fresh; assumption|].
  split; [apply Handshake_room; assumption|].
  split; [apply enabled_lines_replicate; reflexivity|].
  split; [reflexivity|]. split; reflexivity.
Qed.

(** An integration started while no line is enabled, as after [Handshake]:
    the first iteration that finds a packet and time left reads
    [lineLocationNP[-1]] (line 319). *)
Theorem integration_without_lines_faults (st : @AHP_XC D) (i : tick_input)
  (pkt : ahp_xc_packet) :
  wf E st -> enabled_lines E st = [] ->
  isConnected i = true -> packet i = Some pkt ->
  InIntegration st = true -> expired st (now i) = false ->
  Callback_iteration E st i = Fault OutOfBounds.
Proof.
  intros Hwf Hen Hcon Hpkt Hin Hexp.
  unfold Callback_iteration. rewrite Hcon, Hpkt. cbn [negb].
  set (tl := if d_le (CalcTimeLeft st (now i)) d_zero then d_zero
             else CalcTimeLeft st (now i)).
  change (InIntegration (set_timeleft st tl)) with (InIntegration st).
  rewrite Hin. change (timeleft (set_timeleft st tl)) with tl.
  unfold expired in Hexp. fold tl in Hexp. rewrite Hexp.
  unfold integrate.
  rewrite delay_compensation_none_enabled; [reflexivity| |exact Hen].
  destruct (wf_lines E st Hwf) as [H1 H2 H3 H4 H5]. constructor; assumption.
Qed.

End SetupProps.

(* ------------------------------------------------------------------ *)
(** ** What finalize leaves behind *)

(** Every field of the driver, to compute a projection of a closed form. *)
Ltac driver_fields :=
  unfold tick_state, fin_state;
  cbn [InIntegration IntegrationRequest ExpStart timeleft lineEnableSP
       lineLocationNP baselines plot_str autocorrelations_str
       crosscorrelations_str plotB autocorrelationsB crosscorrelationsB
       totalcounts totalcorrelations events delay center Altitude Azimuth
       set_InIntegration set_timeleft set_Altitude set_Azimuth set_center
       set_delay set_plot_str set_autocorrelations_str
       set_crosscorrelations_str set_plotB set_autocorrelationsB
       set_crosscorrelationsB set_totalcounts set_totalcorrelations
       set_events].

Section FinalizeProps.
Context {D : Type} {AR : Arith D} {LM : Libm D}.
Variable E : @Extern D.

#[local] Instance stream_inhabited : Inhabited (@dsp_stream D) :=
  populate {| sizes0 := 0; sizes1 := 0; len := 0; buf := [] |}.

Lemma fresh_row_idemp (s : @dsp_stream D) :
  fresh_row (fresh_row s) = fresh_row s.
Proof. reflexivity. Qed.

(** A serialization loop resets the streams it visits, once or more, and
    no other. *)
Lemma ser_strs_lookup (reset' : @dsp_stream D -> @dsp_stream D) (l : list nat) :
  (forall s, reset' (reset' s) = reset' s) ->
  forall (strs : list (@dsp_stream D)) (x : nat),
    ser_strs reset' l strs !! x
    = if decide (x ∈ l) then reset' <$> strs !! x else strs !! x.
Proof.
  intros Hid. induction l as [|y l IH]; intros strs x.
  - simpl. destruct (decide (x ∈ [])) as [H|_]; [|reflexivity].
    apply elem_of_nil in H. destruct H.
  - simpl. rewrite IH. destruct (decide (x = y)) as [->|Hne].
    + destruct (decide (y ∈ y :: l)) as [_|H]; [|exfalso; apply H; left].
      destruct (strs !! y) as [s|] eqn:Hy.
      * rewrite list_lookup_insert_eq by (eapply lookup_lt_Some; exact Hy).
        rewrite (list_lookup_total_correct _ _ _ Hy). simpl. rewrite Hid.
        destruct (decide (y ∈ l)); reflexivity.
      * rewrite list_insert_ge by (apply lookup_ge_None; exact Hy).
        rewrite Hy. destruct (decide (y ∈ l)); reflexivity.
    + rewrite list_lookup_insert_ne by auto.
      destruct (decide (x ∈ l)) as [H|H];
        destruct (decide (x ∈ y :: l)) as [H'|H']; try reflexivity.
      * exfalso. apply H'. right. exact H.
      * exfalso. apply elem_of_cons in H' as [H'|H']; auto.
Qed.

Lemma ser_strs_upto (reset' : @dsp_stream D -> @dsp_stream D)
  (strs : list (@dsp_stream D)) :
  (forall s, reset' (reset' s) = reset' s) ->
  ser_strs reset' (upto (length strs)) strs = reset' <$> strs.
Proof.
  intros Hid. apply list_eq. intros x. rewrite ser_strs_lookup by exact Hid.
  rewrite list_lookup_fmap. unfold upto.
  destruct (decide (x ∈ seq 0 (length strs))) as [H|H]; [reflexivity|].
  rewrite elem_of_seq in H.
  rewrite (proj2 (lookup_ge_None strs x)) by lia. reflexivity.
Qed.

(** The first lines of the baselines: line [x] is one when a line follows. *)
Lemma elem_of_cross_visits (x : nat) :
  x ∈ cross_visits E <-> (x + 1 < nlines E)%nat.
Proof.
  unfold cross_visits. rewrite list_elem_of_fmap. split.
  - intros ([x' y] & -> & Hp). apply elem_of_pairs in Hp. cbn [fst]. lia.
  - intros Hx. exists (x, S x). split; [reflexivity|].
    apply elem_of_pairs. lia.
Qed.

(** With no integration active, an iteration sends nothing and leaves the
    plot, the buffers and the slots alone, whatever it finds. *)
Lemma idle_iteration (st : @AHP_XC D) (j : tick_input) :
  wf E st -> InIntegration st = false ->
  (forall pkt, packet j = Some pkt -> packet_ok E pkt) ->
  exists st',
    Callback_iteration E st j = Ok st'
    /\ wf E st'
    /\ InIntegration st' = false
    /\ events st' = events st
    /\ plot_str st' = plot_str st
    /\ autocorrelations_str st' = autocorrelations_str st
    /\ crosscorrelations_str st' = crosscorrelations_str st
    /\ plotB st' = plotB st
    /\ autocorrelationsB st' = autocorrelationsB st
    /\ crosscorrelationsB st' = crosscorrelationsB st.
Proof.
  intros Hwf Hin Hpk.
  destruct (isConnected j) eqn:Hcon.
  2:{ exists st. unfold Callback_iteration. rewrite Hcon. cbn [negb].
      repeat match goal with |- _ /\ _ => split end; auto. }
  destruct (packet j) as [pkt|] eqn:Hpkt.
  2:{ exists st. unfold Callback_iteration. rewrite Hcon, Hpkt. cbn [negb].
      repeat match goal with |- _ /\ _ => split end; auto. }
  destruct (tick_idle E st j pkt Hwf Hcon Hpkt (Hpk pkt eq_refl) Hin)
    as (tl & tc & tcr & Hit & Htc & Htcr).
  eexists. split; [exact Hit|].
  split.
  { apply wf_set_totals; [apply wf_set_timeleft; exact Hwf|exact Htc|exact Htcr]. }
  split; [driver_fields; exact Hin|].
  repeat match goal with |- _ /\ _ => split end; driver_fields; reflexivity.
Qed.

Lemma idle_run (later : list (@tick_input D)) :
  forall st : @AHP_XC D,
    wf E st -> InIntegration st = false ->
    Forall (fun j => forall pkt, packet j = Some pkt -> packet_ok E pkt)
      later ->
    exists st',
      Callback E st later = Ok st'
      /\ InIntegration st' = false
      /\ events st' = events st
      /\ plot_str st' = plot_str st
      /\ autocorrelations_str st' = autocorrelations_str st
      /\ crosscorrelations_str st' = crosscorrelations_str st
      /\ plotB st' = plotB st
      /\ autocorrelationsB st' = autocorrelationsB st
      /\ crosscorrelationsB st' = crosscorrelationsB st.
Proof.
  induction later as [|j later IH]; intros st Hwf Hin Hpk.
  - exists st. repeat match goal with |- _ /\ _ => split end; auto.
  - apply Forall_cons in Hpk as [Hp Hpk].
    destruct (idle_iteration st j Hwf Hin Hp)
      as (st1 & Hit & Hwf1 & Hin1 & H1 & H2 & H3 & H4 & H5 & H6 & H7).
    destruct (IH st1 Hwf1 Hin1 Hpk)
      as (st2 & Hrun & Hin2 & G1 & G2 & G3 & G4 & G5 & G6 & G7).
    exists st2. unfold Callback in *. simpl for_each. rewrite Hit. cbn [bind].
    split; [exact Hrun|]. split; [exact Hin2|].
    repeat match goal with |- _ /\ _ => split end; congruence.
Qed.

(** The iteration that finds the time elapsed ends the integration, hands
    the plot and the buffers to the encoder and, when no copy of an encoded
    buffer leaves [blob], zeroes the plot and brings every autocorrelation
    buffer back to one row of zeros.  However many iterations follow,
    until the next [StartIntegration], they issue no call and leave the
    plot, the buffers and the slots alone: an integration is serialized
    once. *)
Theorem integration_serialized_once (st : @AHP_XC D) (i : tick_input)
  (pkt : ahp_xc_packet) :
  wf E st -> room 0 st ->
  isConnected i = true -> packet i = Some pkt -> packet_ok E pkt ->
  InIntegration st = true -> expired st (now i) = true ->
  fin_fits E (fits i) st = true ->
  exists st',
    Callback_iteration E st i = Ok st'
    /\ InIntegration st' = false
    /\ plot_str st' = zeroed <$> plot_str st
    /\ (1 < ahp_xc_get_autocorrelator_lagsize E ->
        autocorrelations_str st' = fresh_row <$> autocorrelations_str st)
    /\ forall later : list (@tick_input D),
         Forall (fun j => forall pkt', packet j = Some pkt' -> packet_ok E pkt')
           later ->
         exists st'',
           Callback E st' later = Ok st''
           /\ InIntegration st'' = false
           /\ events st'' = events st'
           /\ plot_str st'' = plot_str st'
           /\ autocorrelations_str st'' = autocorrelations_str st'
           /\ crosscorrelations_str st'' = crosscorrelations_str st'
           /\ plotB st'' = plotB st'
           /\ autocorrelationsB st'' = autocorrelationsB st'
           /\ crosscorrelationsB st'' = crosscorrelationsB st'.
Proof.
  intros Hwf Hroom Hcon Hpkt Hpk Hin Hexp Hfit.
  destruct (tick_finalize E st i pkt Hwf Hroom Hcon Hpkt Hpk Hin Hexp Hfit)
    as (tl & pb & ab & cb & tc & tcr & _ & Hit & _ & _ & _ & _ & _ & _ & Hwf'
        & _).
  eexists. split; [exact Hit|]. split; [driver_fields; reflexivity|].
  split; [|split].
  - driver_fields. unfold fin_plots, plot_visits.
    destruct (wf_plot E st Hwf) as (k & p & Hp & _).
    driver_fields. rewrite Hp. reflexivity.
  - intros Hal. driver_fields.
    unfold fin_autos, auto_on, auto_visits. driver_fields.
    destruct (wf_auto E st Hwf Hal) as (Hl & _ & _).
    destruct (Z.ltb_spec 1 (ahp_xc_get_autocorrelator_lagsize E)); [|lia].
    destruct (Nat.ltb_spec 0 (nlines E)).
    + cbn [andb]. rewrite <- Hl. apply ser_strs_upto. exact fresh_row_idemp.
    + cbn [andb]. destruct (autocorrelations_str st); [reflexivity|].
      simpl in Hl. lia.
  - intros later Hlater.
    apply (idle_run later _ Hwf'); [driver_fields; reflexivity|exact Hlater].
Qed.

(** The iteration that finalizes an integration encodes the plot first.
    When that encoding succeeds, [createFITS] has left in [memsize] the size
    of its memory file (line 126 sets it to 5760 and cfitsio may grow it),
    and line 220 copies the plot at that offset of a [blob] that has the
    size of the plot alone: the copy leaves [blob]. *)
Theorem first_encoding_leaves_blob (st : @AHP_XC D) (i : tick_input)
  (pkt : ahp_xc_packet) :
  wf E st -> room 0 st ->
  isConnected i = true -> packet i = Some pkt ->
  InIntegration st = true -> expired st (now i) = true ->
  fst (createFITS (fits i 0%nat) (-64) 0) = true ->
  0 < snd (createFITS (fits i 0%nat) (-64) 0) ->
  fin_fits E (fits i) st = false
  /\ Callback_iteration E st i = Fault OutOfBounds.
Proof.
  intros Hwf Hroom Hcon Hpkt Hin Hexp Hok Hsize.
  assert (Hfit : fin_fits E (fits i) st = false).
  { unfold fin_fits, plots_fit, plot_visits, upto, nplots.
    destruct (wf_plot E st Hwf) as (k & p & Hp & Hpo).
    rewrite Hp. cbn [seq ser_inputs ser_fits]. rewrite Hok.
    unfold copy_in_bounds.
    destruct Hpo as [Hk Hmax Hw Hh Hlen Hbuf].
    change ([p] !!! 0%nat) with p.
    assert (Hn : 0 <= wrap_uint (len p) * 8 < 2 ^ 64).
    { unfold wrap_uint.
      pose proof (Z.mod_pos_bound (len p) (2 ^ 32) ltac:(lia)). lia. }
    unfold wrap_size at 1. rewrite Z.add_0_l, Z.mod_small by exact Hn.
    destruct (Z.leb_spec
                (snd (createFITS (fits i 0%nat) (-64) 0) + wrap_uint (len p) * 8)
                (wrap_uint (len p) * 8)); [lia|].
    rewrite andb_false_r. reflexivity. }
  split; [exact Hfit|].
  exact (tick_overflow E st i pkt Hwf Hroom Hcon Hpkt Hin Hexp Hfit).
Qed.

(** Finalize indexes the crosscorrelation buffers and slots by the first
    line of each pair (lines 265-278).  Hence buffer [z] is brought back to
    one row of zeros when a line follows line [z]; the buffers from
    [nlines - 1] on are not reset and their slots are not filled, whenever
    finalize runs to its end, that is, when no copy of an encoded buffer
    leaves [blob]. *)
Theorem finalize_crosscorrelation_buffers (fits : nat -> fits_outcome)
  (st : @AHP_XC D) :
  wf E st -> room 0 st ->
  (0 < ahp_xc_get_nbaselines E)%nat ->
  1 < ahp_xc_get_crosscorrelator_lagsize E ->
  fin_fits E fits st = true ->
  exists st',
    finalize E fits st = Ok st'
    /\ forall (z : nat) (s : @dsp_stream D),
         crosscorrelations_str st !! z = Some s ->
         ((z + 1 < nlines E)%nat ->
          crosscorrelations_str st' !! z = Some (fresh_row s))
         /\ ((nlines E <= z + 1)%nat ->
             crosscorrelations_str st' !! z = Some s
             /\ crosscorrelationsB st' !! z = crosscorrelationsB st !! z).
Proof.
  intros Hwf Hroom Hnb Hcl Hfit.
  destruct (finalize_spec E fits st Hwf Hroom Hfit)
    as (pb & ab & cb & Hf & _ & _ & _ & _ & _ & Hc & _).
  eexists. split; [exact Hf|]. intros z s Hz.
  driver_fields. unfold fin_cross, cross_on.
  destruct (Nat.ltb_spec 0 (ahp_xc_get_nbaselines E)); [|lia].
  destruct (Z.ltb_spec 1 (ahp_xc_get_crosscorrelator_lagsize E)); [|lia].
  cbn [andb]. rewrite (ser_strs_lookup fresh_row _ fresh_row_idemp).
  split.
  - intros Hlt.
    destruct (decide (z ∈ cross_visits E)) as [_|Hv].
    + rewrite Hz. reflexivity.
    + exfalso. apply Hv. apply elem_of_cross_visits. exact Hlt.
  - intros Hge.
    assert (Hnot : z ∉ cross_visits E).
    { intros Hv. apply elem_of_cross_visits in Hv. lia. }
    split.
    + destruct (decide (z ∈ cross_visits E)) as [Hin|_];
        [contradiction|exact Hz].
    + apply Hc. intros j Hj. exfalso. apply Hnot.
      eapply list_elem_of_lookup_2. exact Hj.
Qed.

End FinalizeProps.

(* ------------------------------------------------------------------ *)
(** ** The running totals (lines 425-441) *)

Section TotalsProps.
Context {D : Type} {AR : Arith D} {LM : Libm D}.
Variable E : @Extern D.

#[local] Instance D_inhabited' : Inhabited D := populate d_zero.
#[local] Instance correlation_inhabited : Inhabited (@ahp_xc_correlation D) :=
  populate {| counts := d_zero; magnitude := d_zero |}.
#[local] Instance sample_inhabited' : Inhabited (@ahp_xc_sample D) :=
  populate {| lag_size := 0; correlations := [] |}.

(** The centre lag of the crosscorrelation sample of baseline [idx]. *)
Definition lag_center (pkt : @ahp_xc_packet D) (idx : nat)
  : @ahp_xc_correlation D :=
  correlations (crosscorrelations pkt !!! idx)
    !!! (lag_size (crosscorrelations pkt !!! idx) / 2)%nat.

Definition add_lag (t c : @ahp_xc_correlation D) : @ahp_xc_correlation D :=
  {| counts := d_add (counts t) (counts c);
     magnitude := d_add (magnitude t) (magnitude c) |}.

(** The totals once the lines below [k] and the baselines below [m] have
    been visited. *)
Definition counted (st : @AHP_XC D) (pkt : @ahp_xc_packet D) (k : nat)
  : list D :=
  imap (fun x t => if (x <? k)%nat && enabled st x
                   then d_add t (pkt_counts pkt !!! x) else t)
    (totalcounts st).

Definition correlated (st : @AHP_XC D) (pkt : @ahp_xc_packet D) (m : nat)
  : list (@ahp_xc_correlation D) :=
  imap (fun idx t =>
          match pairs (nlines E) !! idx with
          | Some (x, y) =>
              if (idx <? m)%nat && (enabled st x && enabled st y)
              then add_lag t (lag_center pkt idx) else t
          | None => t
          end)
    (totalcorrelations st).

Lemma length_counted (st : @AHP_XC D) (pkt : @ahp_xc_packet D) (k : nat) :
  length (counted st pkt k) = length (totalcounts st).
Proof. apply length_imap. Qed.

Lemma length_correlated (st : @AHP_XC D) (pkt : @ahp_xc_packet D) (m : nat) :
  length (correlated st pkt m) = length (totalcorrelations st).
Proof. apply length_imap. Qed.

Lemma counted_0 (st : @AHP_XC D) (pkt : @ahp_xc_packet D) :
  counted st pkt 0 = totalcounts st.
Proof.
  apply list_eq. intros x. unfold counted. rewrite list_lookup_imap.
  destruct (totalcounts st !! x) as [t|]; reflexivity.
Qed.

Lemma correlated_0 (st : @AHP_XC D) (pkt : @ahp_xc_packet D) :
  correlated st pkt 0 = totalcorrelations st.
Proof.
  apply list_eq. intros x. unfold correlated. rewrite list_lookup_imap.
  destruct (totalcorrelations st !! x) as [t|]; [|reflexivity]. simpl.
  destruct (pairs (nlines E) !! x) as [[xa ya]|]; reflexivity.
Qed.

Lemma counted_at (st : @AHP_XC D) (pkt : @ahp_xc_packet D) (k : nat) :
  (k < length (totalcounts st))%nat ->
  counted st pkt k !!! k = totalcounts st !!! k.
Proof.
  intros Hk. apply list_lookup_total_correct. unfold counted.
  rewrite list_lookup_imap, (list_lookup_lookup_total_lt _ _ Hk). simpl.
  rewrite Nat.ltb_irrefl. reflexivity.
Qed.

Lemma counted_S (st : @AHP_XC D) (pkt : @ahp_xc_packet D) (k : nat) :
  counted st pkt (S k)
  = if enabled st k
    then <[k := d_add (totalcounts st !!! k) (pkt_counts pkt !!! k)]>
           (counted st pkt k)
    else counted st pkt k.
Proof.
  apply list_eq. intros x.
  assert (Hne : x <> k -> (x <? S k)%nat = (x <? k)%nat).
  { intros Hx. destruct (Nat.ltb_spec x (S k)), (Nat.ltb_spec x k);
      try reflexivity; lia. }
  destruct (enabled st k) eqn:Hen.
  - destruct (decide (x = k)) as [->|Hx].
    + destruct (totalcounts st !! k) as [t|] eqn:Ht.
      * rewrite list_lookup_insert_eq
          by (rewrite length_counted; eapply lookup_lt_Some; exact Ht).
        unfold counted. rewrite list_lookup_imap, Ht. simpl.
        rewrite (proj2 (Nat.ltb_lt k (S k))) by lia. rewrite Hen. simpl.
        rewrite (list_lookup_total_correct _ _ _ Ht). reflexivity.
      * rewrite list_insert_ge
          by (rewrite length_counted; apply lookup_ge_None; exact Ht).
        unfold counted. rewrite !list_lookup_imap, Ht. reflexivity.
    + rewrite list_lookup_insert_ne by auto.
      unfold counted. rewrite !list_lookup_imap, (Hne Hx). reflexivity.
  - unfold counted. rewrite !list_lookup_imap.
    destruct (totalcounts st !! x) as [t|]; [|reflexivity]. simpl.
    destruct (decide (x = k)) as [->|Hx].
    + rewrite Hen, !andb_false_r. reflexivity.
    + rewrite (Hne Hx). reflexivity.
Qed.

Lemma correlated_at (st : @AHP_XC D) (pkt : @ahp_xc_packet D) (m : nat) :
  (m < length (totalcorrelations st))%nat ->
  correlated st pkt m !!! m = totalcorrelations st !!! m.
Proof.
  intros Hm. apply list_lookup_total_correct. unfold correlated.
  rewrite list_lookup_imap, (list_lookup_lookup_total_lt _ _ Hm). simpl.
  rewrite Nat.ltb_irrefl.
  destruct (pairs (nlines E) !! m) as [[xa ya]|]; reflexivity.
Qed.

Lemma correlated_S (st : @AHP_XC D) (pkt : @ahp_xc_packet D) (m x y : nat) :
  pairs (nlines E) !! m = Some (x, y) ->
  correlated st pkt (S m)
  = if enabled st x && enabled st y
    then <[m := add_lag (totalcorrelations st !!! m) (lag_center pkt m)]>
           (correlated st pkt m)
    else correlated st pkt m.
Proof.
  intros Hp. apply list_eq. intros z.
  assert (Hne : z <> m -> (z <? S m)%nat = (z <? m)%nat).
  { intros Hz. destruct (Nat.ltb_spec z (S m)), (Nat.ltb_spec z m);
      try reflexivity; lia. }
  destruct (enabled st x && enabled st y) eqn:Hen.
  - destruct (decide (z = m)) as [->|Hz].
    + destruct (totalcorrelations st !! m) as [t|] eqn:Ht.
      * rewrite list_lookup_insert_eq
          by (rewrite length_correlated; eapply lookup_lt_Some; exact Ht).
        unfold correlated. rewrite list_lookup_imap, Ht. simpl.
        rewrite Hp, (proj2 (Nat.ltb_lt m (S m))) by lia. rewrite Hen. simpl.
        rewrite (list_lookup_total_correct _ _ _ Ht). reflexivity.
      * rewrite list_insert_ge
          by (rewrite length_correlated; apply lookup_ge_None; exact Ht).
        unfold correlated. rewrite !list_lookup_imap, Ht. reflexivity.
    + rewrite list_lookup_insert_ne by auto.
      unfold correlated. rewrite !list_lookup_imap.
      destruct (totalcorrelations st !! z) as [t|]; [|reflexivity]. simpl.
      destruct (pairs (nlines E) !! z) as [[xa ya]|]; [|reflexivity].
      rewrite (Hne Hz). reflexivity.
  - unfold correlated. rewrite !list_lookup_imap.
    destruct (totalcorrelations st !! z) as [t|]; [|reflexivity]. simpl.
    destruct (decide (z = m)) as [->|Hz].
    + rewrite Hp, Hen, !andb_false_r. reflexivity.
    + destruct (pairs (nlines E) !! z) as [[xa ya]|]; [|reflexivity].
      rewrite (Hne Hz). reflexivity.
Qed.

(** The position of the pair [(k, k + 1 + j)] among the baselines. *)
Lemma pairs_lookup_at (n k j : nat) :
  (k < n)%nat -> (j < n - (k + 1))%nat ->
  pairs n !! (length (pairs_before n k) + j)%nat = Some (k, (k + 1 + j)%nat).
Proof.
  intros Hk Hj. unfold pairs, pairs_before, upto.
  assert (Hs : seq 0 n = seq 0 k ++ k :: seq (S k) (n - S k)).
  { replace n with (k + S (n - S k))%nat at 1 by lia.
    rewrite seq_app. simpl. reflexivity. }
  rewrite Hs, bind_app, bind_cons.
  rewrite lookup_app_r by lia.
  replace (length (seq 0 k ≫= λ x, (λ y, (x, y)) <$> above x n) + j
           - length (seq 0 k ≫= λ x, (λ y, (x, y)) <$> above x n))%nat
    with j by lia.
  rewrite lookup_app_l by (rewrite length_fmap; unfold above; rewrite length_seq; lia).
  rewrite list_lookup_fmap. unfold above.
  rewrite lookup_seq_lt by lia. reflexivity.
Qed.

Lemma center_lag_total (pkt : @ahp_xc_packet D) (idx : nat) :
  packet_ok E pkt -> (idx < ahp_xc_get_nbaselines E)%nat ->
  center_lag pkt idx = Ok (lag_center pkt idx).
Proof.
  intros Hp Hidx. unfold center_lag, lag_center.
  rewrite (rdn_total (crosscorrelations pkt) idx)
    by (rewrite (pk_cross_len E pkt Hp); exact Hidx).
  cbn [bind].
  assert (Hs : crosscorrelations pkt !! idx
               = Some (crosscorrelations pkt !!! idx)).
  { apply list_lookup_lookup_total_lt. rewrite (pk_cross_len E pkt Hp).
    exact Hidx. }
  destruct (proj1 (Forall_lookup _ _) (pk_cross_lags E pkt Hp) idx _ Hs)
    as [Hl H1].
  apply rdn_total. rewrite Hl. apply Nat.div_lt; lia.
Qed.

(** Lines 425-441 in closed form. *)
Lemma totals_closed (st : @AHP_XC D) (pkt : @ahp_xc_packet D) :
  wf E st -> packet_ok E pkt ->
  totals E st pkt
  = Ok (set_totalcorrelations
          (set_totalcounts st (counted st pkt (nlines E)))
          (correlated st pkt (length (pairs (nlines E))))).
Proof.
  intros Hwf Hpk. unfold totals.
  set (n := nlines E).
  pose proof (wf_totalcounts E st Hwf) as Hltc. fold n in Hltc.
  pose proof (wf_totalcorrelations E st Hwf) as Hltcr.
  pose (I := fun (k m : nat) (s : @AHP_XC D * nat) =>
    s = (set_totalcorrelations (set_totalcounts st (counted st pkt k))
           (correlated st pkt m), m)).
  destruct (for_upto_inv
    (fun k s => I k (length (pairs_before n k)) s) n (totals_body E pkt)
    (st, 0%nat)) as (s' & Hf & Hs').
  - unfold I. simpl. rewrite counted_0, correlated_0. f_equal.
    destruct st; reflexivity.
  - intros k s Hk ->.
    unfold totals_body. cbn [fst snd].
    change (lineEnableSP (set_totalcorrelations _ _)) with (lineEnableSP st).
    rewrite (rdn_total (lineEnableSP st) k)
      by (rewrite (ok_enable E st (wf_lines E st Hwf)); exact Hk).
    cbn [bind].
    assert (Hline :
      (if ((lineEnableSP st : list bool) !!! k : bool)
       then t <- rdn (totalcounts
                        (set_totalcorrelations
                           (set_totalcounts st (counted st pkt k))
                           (correlated st pkt (length (pairs_before n k))))) k ;;
            c <- rdn (pkt_counts pkt) k ;;
            tc0 <- wrn (totalcounts
                          (set_totalcorrelations
                             (set_totalcounts st (counted st pkt k))
                             (correlated st pkt (length (pairs_before n k)))))
                     k (d_add t c) ;;
            Ok (set_totalcounts
                  (set_totalcorrelations
                     (set_totalcounts st (counted st pkt k))
                     (correlated st pkt (length (pairs_before n k)))) tc0)
       else Ok (set_totalcorrelations
                  (set_totalcounts st (counted st pkt k))
                  (correlated st pkt (length (pairs_before n k)))))
      = Ok (set_totalcorrelations
              (set_totalcounts st (counted st pkt (S k)))
              (correlated st pkt (length (pairs_before n k))))).
    { rewrite counted_S. change (enabled st k) with (lineEnableSP st !!! k).
      destruct (lineEnableSP st !!! k); [|reflexivity].
      cbn [totalcounts set_totalcorrelations set_totalcounts].
      rewrite (rdn_total (counted st pkt k) k) by (rewrite length_counted; lia).
      cbn [bind].
      rewrite (rdn_total (pkt_counts pkt) k)
        by (rewrite (pk_counts E pkt Hpk); exact Hk).
      cbn [bind]. rewrite wrn_Ok by (rewrite length_counted; lia).
      cbn [bind]. rewrite counted_at by lia. reflexivity. }
    rewrite Hline. cbn [bind]. unfold above.
    destruct (for_seq_inv
      (fun j s => I (S k) (length (pairs_before n k) + j)%nat s)
      (k + 1) (n - (k + 1)) (totals_pair_body pkt k)
      (set_totalcorrelations (set_totalcounts st (counted st pkt (S k)))
         (correlated st pkt (length (pairs_before n k))),
       length (pairs_before n k))) as (s2 & Hf2 & HI2).
    + unfold I. rewrite Nat.add_0_r. reflexivity.
    + intros j s Hj ->.
      assert (Hidx : (length (pairs_before n k) + j
                      < ahp_xc_get_nbaselines E)%nat).
      { rewrite (wf_nbaselines E st Hwf).
        pose proof (pairs_before_le n (S k) ltac:(lia)) as Hle.
        rewrite pairs_before_S in Hle. fold n. lia. }
      unfold totals_pair_body. cbn [fst snd].
      rewrite both_enabled_spec
        by (cbn; rewrite (ok_enable E st (wf_lines E st Hwf)); fold n; lia).
      cbn [bind]. unfold I.
      rewrite (Nat.add_succ_r (length (pairs_before n k)) j).
      rewrite (correlated_S st pkt _ k (k + 1 + j)%nat)
        by (apply pairs_lookup_at; lia).
      change (enabled (set_totalcorrelations _ _) ?a) with (enabled st a).
      destruct (enabled st k && enabled st (k + 1 + j)).
      2:{ cbn [bind]. eexists; split; reflexivity. }
      cbn [totalcorrelations set_totalcorrelations set_totalcounts].
      rewrite (center_lag_total pkt _ Hpk Hidx).
      rewrite (rdn_total (correlated st pkt _))
        by (rewrite length_correlated; lia).
      cbn [bind]. rewrite wrn_Ok by (rewrite length_correlated; lia).
      cbn [bind].
      rewrite (rdn_total (<[_ := _]> (correlated st pkt _)))
        by (rewrite length_insert, length_correlated; lia).
      cbn [bind].
      rewrite wrn_Ok by (rewrite length_insert, length_correlated; lia).
      cbn [bind].
      rewrite list_lookup_total_insert_eq by (rewrite length_correlated; lia).
      rewrite list_insert_insert_eq.
      rewrite correlated_at by lia.
      eexists; split; reflexivity.
    + exists s2. split; [exact Hf2|]. rewrite pairs_before_S. exact HI2.
  - rewrite Hf, Hs'. cbn [bind fst]. do 3 f_equal.
Qed.

(** Each iteration that receives a packet adds the packet's count to the
    total of every enabled line, and the counts and the magnitude of the
    centre lag to the total of every baseline whose two lines are enabled;
    the totals of the other lines and baselines, and every other field of
    the driver, are left as they are. *)
Theorem totals_adds_packet (st : @AHP_XC D) (pkt : @ahp_xc_packet D) :
  wf E st -> packet_ok E pkt ->
  exists st',
    totals E st pkt = Ok st'
    /\ st' = set_totalcorrelations (set_totalcounts st (totalcounts st'))
               (totalcorrelations st')
    /\ (forall (x : nat) (t : D),
          totalcounts st !! x = Some t ->
          totalcounts st' !! x
          = Some (if enabled st x then d_add t (pkt_counts pkt !!! x) else t))
    /\ (forall (idx x y : nat) (t : @ahp_xc_correlation D),
          pairs (nlines E) !! idx = Some (x, y) ->
          totalcorrelations st !! idx = Some t ->
          totalcorrelations st' !! idx
          = Some (if enabled st x && enabled st y
                  then add_lag t (lag_center pkt idx) else t)).
Proof.
  intros Hwf Hpk. eexists. split; [apply totals_closed; assumption|].
  split; [reflexivity|]. split.
  - intros x t Ht.
    change (counted st pkt (nlines E) !! x
            = Some (if enabled st x then d_add t (pkt_counts pkt !!! x) else t)).
    unfold counted. rewrite list_lookup_imap, Ht. simpl.
    assert (Hx : (x < nlines E)%nat).
    { rewrite <- (wf_totalcounts E st Hwf). eapply lookup_lt_Some. exact Ht. }
    rewrite (proj2 (Nat.ltb_lt x (nlines E)) Hx). reflexivity.
  - intros idx x y t Hp Ht.
    change (correlated st pkt (length (pairs (nlines E))) !! idx
            = Some (if enabled st x && enabled st y
                    then add_lag t (lag_center pkt idx) else t)).
    unfold correlated. rewrite list_lookup_imap, Ht. simpl. rewrite Hp.
    rewrite (proj2 (Nat.ltb_lt idx (length (pairs (nlines E)))))
      by (eapply lookup_lt_Some; exact Hp).
    reflexivity.
Qed.

End TotalsProps.

(* ------------------------------------------------------------------ *)
(** ** [AHP_XC::TimerHit] (lines 938-982) *)

Section Timer.
Context {D : Type} {AR : Arith D} {LM : Libm D}.

(** What [TimerHit] takes from the base class, from the settings and from
    the photometry library. *)
Record Stats_extern := {
  primaryAperture : D;
  primaryFocalLength : D;
  getCurrentPollingPeriod : Z;
  wavelength : D;                 (* settingsNP.np[0].value *)
  bandwidth : D;                  (* settingsNP.np[1].value *)
  asin : D -> D;
  LUMEN : D -> D;
  calc_photon_flux : D -> D -> D -> D -> D;
  calc_rel_magnitude : D -> D -> D -> D -> D
}.

(** [lineStatsNP[x].np[0 .. 3].value]. *)
Record line_stats := {
  LINE_COUNTS : D;
  LINE_FLUX : D;
  LINE_FLUX0 : D;
  LINE_MAGNITUDE : D
}.

Inductive timer_event :=
| IDSetNumber_lineDelayNP (x : nat)
| IDSetNumber_lineStatsNP (x : nat)
| IDSetNumber_correlationsNP
| setIntegrationLeft (v : D)
| SetTimer (period : Z).

(** The number properties [TimerHit] publishes: one delay and four
    statistics per line, two numbers per baseline, and the calls made to the
    client and to the timer. *)
Record panel := {
  lineDelayNP : list D;
  lineStatsNP : list line_stats;
  correlationsNP : list D;
  sent : list timer_event
}.

Record timer_loop := { t_st : @AHP_XC D; t_panel : panel; t_idx : nat }.

Variable E : @Extern D.
Variable T : Stats_extern.

(** [x * 1000.0 / getCurrentPollingPeriod ()]. *)
Definition per_second (x : D) : D :=
  d_div (d_mul x (d_of_int 1000)) (d_of_int (getCurrentPollingPeriod T)).

Definition steradian : D :=
  d_pow (asin T (d_div (d_mul (primaryAperture T)
                          (d_div (d_of_int 1) (d_of_int 2)))
                   (primaryFocalLength T)))
        (d_of_int 2).

(** Lines 949-958: the statistics of a line whose total is [tc]. *)
Definition stats_of (tc : D) : line_stats :=
  let photon_flux := per_second tc in
  let photon_flux0 :=
    calc_photon_flux T d_zero (bandwidth T) (wavelength T) steradian in
  {| LINE_COUNTS := per_second tc;
     LINE_FLUX := d_div photon_flux (LUMEN T (wavelength T));
     LINE_FLUX0 := d_div photon_flux0 (LUMEN T (wavelength T));
     LINE_MAGNITUDE :=
       calc_rel_magnitude T photon_flux (bandwidth T) (wavelength T)
         steradian |}.

(** Line 964: the coherence ratio of a baseline. *)
Definition coherence (t : @ahp_xc_correlation D) : D :=
  d_div (magnitude t) (counts t).

Definition zero_correlation : @ahp_xc_correlation D :=
  {| counts := d_zero; magnitude := d_zero |}.

(** Lines 963-969; the record has no [phase], which the driver never
    reads. *)
Definition timer_pair_body (x y : nat) (s : timer_loop) : result timer_loop :=
  let st := t_st s in
  let pn := t_panel s in
  let idx := t_idx s in
  t <- rdn (totalcorrelations st) idx ;;
  cn <- wrn (correlationsNP pn) (idx * 2) (per_second (magnitude t)) ;;
  t <- rdn (totalcorrelations st) idx ;;
  cn <- wrn cn (idx * 2 + 1) (coherence t) ;;
  tcr <- wrn (totalcorrelations st) idx zero_correlation ;;
  Ok {| t_st := set_totalcorrelations st tcr;
        t_panel := {| lineDelayNP := lineDelayNP pn;
                      lineStatsNP := lineStatsNP pn;
                      correlationsNP := cn; sent := sent pn |};
        t_idx := S idx |}.

(** Lines 947-970. *)
Definition timer_line_body (x : nat) (s : timer_loop) : result timer_loop :=
  let st := t_st s in
  let pn := t_panel s in
  line_delay <- rdn (delay st) x ;;
  tc <- rdn (totalcounts st) x ;;
  ld <- wrn (lineDelayNP pn) x line_delay ;;
  ls <- wrn (lineStatsNP pn) x (stats_of tc) ;;
  tcs <- wrn (totalcounts st) x d_zero ;;
  for_each (above x (nlines E)) (timer_pair_body x)
    {| t_st := set_totalcounts st tcs;
       t_panel := {| lineDelayNP := ld; lineStatsNP := ls;
                     correlationsNP := correlationsNP pn;
                     sent := sent pn ++ [IDSetNumber_lineDelayNP x;
                                         IDSetNumber_lineStatsNP x] |};
       t_idx := t_idx s |}.

Definition TimerHit (connected : bool) (st : @AHP_XC D) (pn : panel)
  : result (@AHP_XC D * panel) :=
  if negb connected then Ok (st, pn)
  else
    s <- for_each (upto (nlines E)) timer_line_body
           {| t_st := st; t_panel := pn; t_idx := 0 |} ;;
    let pn := t_panel s in
    let out := sent pn ++ [IDSetNumber_correlationsNP]
               ++ (if InIntegration (t_st s)
                   then [setIntegrationLeft (timeleft (t_st s))] else [])
               ++ [SetTimer (getCurrentPollingPeriod T)] in
    Ok (t_st s,
        {| lineDelayNP := lineDelayNP pn; lineStatsNP := lineStatsNP pn;
           correlationsNP := correlationsNP pn; sent := out |}).

End Timer.

(* ------------------------------------------------------------------ *)
(** ** What [TimerHit] publishes and resets *)

Section TimerProps.
Context {D : Type} {AR : Arith D} {LM : Libm D}.
Variable E : @Extern D.
Variable T : @Stats_extern D.

#[local] Instance D_inhabited'' : Inhabited D := populate d_zero.
#[local] Instance correlation_inhabited' :
  Inhabited (@ahp_xc_correlation D) := populate zero_correlation.

(** The published arrays as [Handshake] sizes them (lines 1009-1050). *)
Record panel_ok (pn : @panel D) : Prop := {
  pn_delay : length (lineDelayNP pn) = nlines E;
  pn_stats : length (lineStatsNP pn) = nlines E;
  pn_correlations :
    length (correlationsNP pn) = (2 * ahp_xc_get_nbaselines E)%nat
}.

(** The two numbers of baseline [i / 2]: the rate of the magnitude and
    the coherence ratio. *)
Definition correlation_numbers (st : @AHP_XC D) (i : nat) : D :=
  if Nat.even i
  then per_second T (magnitude (totalcorrelations st !!! (i / 2)%nat))
  else coherence (totalcorrelations st !!! (i / 2)%nat).

(** The calls to the client made for the lines below [k]. *)
Definition line_calls (k : nat) : list (@timer_event D) :=
  x ← seq 0 k; [IDSetNumber_lineDelayNP x; IDSetNumber_lineStatsNP x].

(** The loop state once the lines below [k] and the baselines below [m]
    have been visited. *)
Definition timer_at (st : @AHP_XC D) (pn : @panel D) (k m : nat)
  : @timer_loop D :=
  {| t_st :=
       set_totalcorrelations
         (set_totalcounts st
            (filled (fun _ => d_zero) k (totalcounts st)))
         (filled (fun _ => zero_correlation) m (totalcorrelations st));
     t_panel :=
       {| lineDelayNP := filled (fun x => delay st !!! x) k (lineDelayNP pn);
          lineStatsNP :=
            filled (fun x => stats_of T (totalcounts st !!! x)) k
              (lineStatsNP pn);
          correlationsNP :=
            filled (correlation_numbers st) (2 * m) (correlationsNP pn);
          sent := sent pn ++ line_calls k |};
     t_idx := m |}.

Lemma timer_at_0 (st : @AHP_XC D) (pn : @panel D) :
  timer_at st pn 0 0 = {| t_st := st; t_panel := pn; t_idx := 0 |}.
Proof.
  unfold timer_at, line_calls. simpl. rewrite !filled_0, app_nil_r.
  destruct st, pn; reflexivity.
Qed.

Lemma timer_pair_step (st : @AHP_XC D) (pn : @panel D) (k m x y : nat) :
  (m < length (totalcorrelations st))%nat ->
  (2 * m + 1 < length (correlationsNP pn))%nat ->
  timer_pair_body T x y (timer_at st pn k m) = Ok (timer_at st pn k (S m)).
Proof.
  intros Hm Hc. unfold timer_pair_body, timer_at.
  cbn [t_st t_panel t_idx totalcorrelations set_totalcorrelations
       set_totalcounts correlationsNP lineDelayNP lineStatsNP sent].
  rewrite (rdn_total (filled _ m (totalcorrelations st)) m)
    by (rewrite length_filled; exact Hm).
  cbn [bind]. rewrite filled_total_ge by lia.
  rewrite wrn_Ok by (rewrite length_filled; lia). cbn [bind].
  rewrite wrn_Ok by (rewrite length_insert, length_filled; lia). cbn [bind].
  rewrite wrn_Ok by (rewrite length_filled; exact Hm). cbn [bind].
  rewrite (filled_S (fun _ : nat => zero_correlation) m (totalcorrelations st)).
  assert (Hcn :
    filled (correlation_numbers st) (2 * S m) (correlationsNP pn)
    = <[(m * 2 + 1)%nat := coherence (totalcorrelations st !!! m)]>
        (<[(m * 2)%nat := per_second T (magnitude (totalcorrelations st !!! m))]>
           (filled (correlation_numbers st) (2 * m) (correlationsNP pn)))).
  { replace (2 * S m)%nat with (S (S (2 * m))) by lia.
    rewrite !filled_S.
    replace (m * 2)%nat with (2 * m)%nat by lia.
    replace (2 * m + 1)%nat with (S (2 * m)) by lia.
    unfold correlation_numbers.
    assert (He : Nat.even (2 * m) = true)
      by (rewrite Nat.even_mul; reflexivity).
    assert (Ho : Nat.even (S (2 * m)) = false)
      by (rewrite Nat.even_succ, <- Nat.negb_even, He; reflexivity).
    rewrite He, Ho.
    replace (2 * m / 2)%nat with m
      by (rewrite Nat.mul_comm, Nat.div_mul by lia; reflexivity).
    replace (S (2 * m) / 2)%nat with m
      by (apply (Nat.div_unique (S (2 * m)) 2 m 1); lia).
    reflexivity. }
  rewrite Hcn. reflexivity.
Qed.

Lemma line_calls_S (k : nat) :
  line_calls (S k)
  = line_calls k ++ [IDSetNumber_lineDelayNP k; IDSetNumber_lineStatsNP k].
Proof.
  unfold line_calls. rewrite seq_S, bind_app. reflexivity.
Qed.

Lemma timer_line_step (st : @AHP_XC D) (pn : @panel D) (k : nat) :
  wf E st -> panel_ok pn -> (k < nlines E)%nat ->
  timer_line_body E T k (timer_at st pn k (length (pairs_before (nlines E) k)))
  = Ok (timer_at st pn (S k) (length (pairs_before (nlines E) (S k)))).
Proof.
  intros Hwf [Hd Hs Hc] Hk.
  set (m := length (pairs_before (nlines E) k)).
  pose proof (wf_totalcounts E st Hwf) as Htc.
  pose proof (wf_totalcorrelations E st Hwf) as Htcr.
  pose proof (ok_delay E st (wf_lines E st Hwf)) as Hdl.
  assert (Hpre :
    timer_line_body E T k (timer_at st pn k m)
    = for_each (seq (k + 1) (nlines E - (k + 1))) (timer_pair_body T k)
        (timer_at st pn (S k) m)).
  { unfold timer_line_body, timer_at, above.
    cbn [t_st t_panel t_idx totalcorrelations totalcounts delay
         set_totalcorrelations set_totalcounts correlationsNP lineDelayNP
         lineStatsNP sent].
    rewrite (rdn_total (delay st) k) by lia. cbn [bind].
    rewrite (rdn_total (filled _ k (totalcounts st)) k)
      by (rewrite length_filled; lia).
    cbn [bind]. rewrite filled_total_ge by lia.
    rewrite wrn_Ok by (rewrite length_filled; lia). cbn [bind].
    rewrite wrn_Ok by (rewrite length_filled; lia). cbn [bind].
    rewrite wrn_Ok by (rewrite length_filled; lia). cbn [bind].
    rewrite !filled_S, line_calls_S, app_assoc. reflexivity. }
  rewrite Hpre.
  destruct (for_seq_inv
    (fun j s => s = timer_at st pn (S k) (m + j)) (k + 1)
    (nlines E - (k + 1)) (timer_pair_body T k) (timer_at st pn (S k) m))
    as (s' & Hf & ->).
  - rewrite Nat.add_0_r. reflexivity.
  - intros j s Hj ->.
    assert (Hidx : (m + j < ahp_xc_get_nbaselines E)%nat).
    { rewrite (wf_nbaselines E st Hwf).
      pose proof (pairs_before_le (nlines E) (S k) ltac:(lia)) as Hle.
      rewrite pairs_before_S in Hle. fold m in Hle. lia. }
    eexists. split.
    + apply timer_pair_step; lia.
    + rewrite (Nat.add_succ_r m j). reflexivity.
  - rewrite Hf. rewrite pairs_before_S. reflexivity.
Qed.

(** The loop over the lines (lines 945-971) visits every line and every
    baseline. *)
Lemma TimerHit_loop (st : @AHP_XC D) (pn : @panel D) :
  wf E st -> panel_ok pn ->
  for_each (upto (nlines E)) (timer_line_body E T)
    {| t_st := st; t_panel := pn; t_idx := 0 |}
  = Ok (timer_at st pn (nlines E) (ahp_xc_get_nbaselines E)).
Proof.
  intros Hwf Hpn. pose proof Hpn as [Hd Hs Hc].
  pose proof (wf_totalcounts E st Hwf) as Htc.
  pose proof (wf_totalcorrelations E st Hwf) as Htcr.
  pose proof (ok_delay E st (wf_lines E st Hwf)) as Hdl.
  destruct (for_upto_inv
    (fun k s => s = timer_at st pn k (length (pairs_before (nlines E) k)))
    (nlines E) (timer_line_body E T)
    {| t_st := st; t_panel := pn; t_idx := 0 |}) as (s' & Hf & ->).
  - symmetry. apply timer_at_0.
  - intros k s Hk ->. eexists. split; [|reflexivity].
    apply timer_line_step; assumption.
  - rewrite Hf.
    assert (Hall : length (pairs_before (nlines E) (nlines E))
                   = ahp_xc_get_nbaselines E).
    { rewrite (wf_nbaselines E st Hwf). reflexivity. }
    rewrite Hall. reflexivity.
Qed.

(** The totals a [TimerHit] leaves and the statistics it publishes for the
    lines. *)
Lemma TimerHit_counts (st : @AHP_XC D) (pn : @panel D) :
  wf E st -> panel_ok pn ->
  exists st' pn',
    TimerHit E T true st pn = Ok (st', pn')
    /\ st' = set_totalcorrelations (set_totalcounts st (totalcounts st'))
               (totalcorrelations st')
    /\ totalcounts st' = replicate (nlines E) d_zero
    /\ totalcorrelations st'
       = replicate (ahp_xc_get_nbaselines E) zero_correlation
    /\ (forall x tc, totalcounts st !! x = Some tc ->
          lineStatsNP pn' !! x = Some (stats_of T tc))
    /\ panel_ok pn'.
Proof.
  intros Hwf Hpn. pose proof Hpn as [Hd Hs Hc].
  pose proof (wf_totalcounts E st Hwf) as Htc.
  pose proof (wf_totalcorrelations E st Hwf) as Htcr.
  unfold TimerHit. cbn [negb].
  rewrite (TimerHit_loop st pn Hwf Hpn). cbn [bind].
  eexists _, _. split; [reflexivity|].
  unfold timer_at.
  cbn [t_st t_panel t_idx totalcorrelations totalcounts
       set_totalcorrelations set_totalcounts correlationsNP lineDelayNP
       lineStatsNP sent].
  split; [reflexivity|]. split; [|split; [|split]].
  - apply filled_all. exact Htc.
  - apply filled_all. exact Htcr.
  - intros x tc Hx.
    rewrite filled_full by (try (eapply lookup_lt_Some in Hx); lia).
    rewrite (list_lookup_total_correct _ _ _ Hx). reflexivity.
  - constructor; cbn; rewrite length_filled; assumption.
Qed.

(** While connected, [TimerHit] makes no access out of bounds.  It
    publishes, for every line, its delay and the statistics of its running
    total (the count rate is the total times 1000 over the polling period)
    and, for every baseline, the rate of its total magnitude and its
    coherence ratio; it then leaves every total at zero, for the enabled and
    the disabled lines alike, and changes nothing else in the driver. *)
Theorem TimerHit_publishes_and_resets (st : @AHP_XC D) (pn : @panel D) :
  wf E st -> panel_ok pn ->
  exists st' pn',
    TimerHit E T true st pn = Ok (st', pn')
    /\ st' = set_totalcorrelations (set_totalcounts st (totalcounts st'))
               (totalcorrelations st')
    /\ totalcounts st' = replicate (nlines E) d_zero
    /\ totalcorrelations st'
       = replicate (ahp_xc_get_nbaselines E) zero_correlation
    /\ lineDelayNP pn' = delay st
    /\ (forall x tc, totalcounts st !! x = Some tc ->
          lineStatsNP pn' !! x = Some (stats_of T tc)
          /\ LINE_COUNTS (stats_of T tc) = per_second T tc)
    /\ (forall idx t, totalcorrelations st !! idx = Some t ->
          correlationsNP pn' !! (2 * idx)%nat
          = Some (per_second T (magnitude t))
          /\ correlationsNP pn' !! (2 * idx + 1)%nat = Some (coherence t))
    /\ panel_ok pn'.
Proof.
  intros Hwf Hpn. pose proof Hpn as [Hd Hs Hc].
  pose proof (wf_totalcounts E st Hwf) as Htc.
  pose proof (wf_totalcorrelations E st Hwf) as Htcr.
  pose proof (ok_delay E st (wf_lines E st Hwf)) as Hdl.
  unfold TimerHit. cbn [negb].
  rewrite (TimerHit_loop st pn Hwf Hpn). cbn [bind].
  eexists _, _. split; [reflexivity|].
  unfold timer_at.
  cbn [t_st t_panel t_idx totalcorrelations totalcounts
       set_totalcorrelations set_totalcounts correlationsNP lineDelayNP
       lineStatsNP sent].
  split; [reflexivity|]. split; [|split; [|split; [|split; [|split]]]].
  - apply filled_all. exact Htc.
  - apply filled_all. exact Htcr.
  - apply list_eq. intros x. destruct (Nat.lt_ge_cases x (nlines E)).
    + rewrite filled_full by lia. symmetry.
      apply list_lookup_lookup_total_lt. lia.
    + rewrite (proj2 (lookup_ge_None _ x)) by (rewrite length_filled; lia).
      symmetry. apply lookup_ge_None. lia.
  - intros x tc Hx. split; [|reflexivity].
    rewrite filled_full by (try (eapply lookup_lt_Some in Hx); lia).
    rewrite (list_lookup_total_correct _ _ _ Hx). reflexivity.
  - intros idx t Ht. pose proof (lookup_lt_Some _ _ _ Ht) as Hidx.
    assert (He : (2 * idx / 2)%nat = idx)
      by (rewrite Nat.mul_comm, Nat.div_mul by lia; reflexivity).
    assert (Ho : ((2 * idx + 1) / 2)%nat = idx)
      by (symmetry; apply (Nat.div_unique (2 * idx + 1) 2 idx 1); lia).
    split.
    + rewrite filled_full by lia. unfold correlation_numbers.
      rewrite Nat.even_mul. simpl orb. cbv iota.
      rewrite He, (list_lookup_total_correct _ _ _ Ht). reflexivity.
    + rewrite filled_full by lia. unfold correlation_numbers.
      assert (Hev : Nat.even (2 * idx + 1) = false)
        by (rewrite Nat.add_1_r, Nat.even_succ, <- Nat.negb_even,
              Nat.even_mul; reflexivity).
      rewrite Hev, Ho, (list_lookup_total_correct _ _ _ Ht). reflexivity.
  - constructor; cbn; rewrite length_filled; assumption.
Qed.

(** When the driver is not connected [TimerHit] does nothing: it publishes
    nothing, resets nothing and does not rearm the timer. *)
Lemma TimerHit_disconnected (st : @AHP_XC D) (pn : @panel D) :
  TimerHit E T false st pn = Ok (st, pn).
Proof. reflexivity. Qed.

End TimerProps.

(* ------------------------------------------------------------------ *)
(** ** The count rate between two [TimerHit] *)

Section RateProps.
Context {D : Type} {AR : Arith D} {LM : Libm D}.
Variable E : @Extern D.
Variable T : @Stats_extern D.

#[local] Instance D_inhabited3 : Inhabited D := populate d_zero.

Lemma counted_frame (st st1 : @AHP_XC D) (pkt : @ahp_xc_packet D) (k : nat) :
  totalcounts st1 = totalcounts st -> lineEnableSP st1 = lineEnableSP st ->
  counted st1 pkt k = counted st pkt k.
Proof.
  intros Ht He. unfold counted, enabled. rewrite Ht, He. reflexivity.
Qed.

(** Lines 290-421 leave a well-formed driver whose totals and enable
    switches are those it started from. *)
Lemma integrate_frame (st : @AHP_XC D) (pkt : @ahp_xc_packet D)
  (t : timeval) :
  wf E st -> room 1 st -> enabled_lines E st <> [] -> packet_ok E pkt ->
  exists st1,
    integrate E st pkt t = Ok st1
    /\ wf E st1
    /\ totalcounts st1 = totalcounts st
    /\ lineEnableSP st1 = lineEnableSP st.
Proof.
  intros Hwf Hroom Hen Hpk. unfold integrate.
  set (sky := sky_direction E st t).
  assert (Hwfs : wf E sky).
  { destruct Hwf as [[H1 H2 H3 H4 H5] H6 H7 H8 H9 H10 H11 H12].
    constructor; try assumption. constructor; assumption. }
  destruct (enabled_lines E st) as [|f rest] eqn:Hl; [congruence|].
  assert (Hl' : enabled_lines E sky = f :: rest) by exact Hl.
  rewrite (delay_compensation_spec E sky f rest (wf_lines E sky Hwfs) Hl').
  cbn [bind].
  set (c := centers_of sky (center_of sky f rest) (f :: rest)).
  set (dl := apply_writes (<[reference E sky := d_zero]> (delay sky))
               (delay_writes E sky (reference E sky))).
  set (ev := events sky ++ reference_cmds (reference E sky)
             ++ write_cmds E (delay_writes E sky (reference E sky))).
  assert (Hc : length c = nlines E).
  { unfold c. rewrite length_centers_of.
    exact (ok_center E sky (wf_lines E sky Hwfs)). }
  assert (Hd : length dl = nlines E).
  { unfold dl. rewrite length_apply_writes, length_insert.
    exact (ok_delay E sky (wf_lines E sky Hwfs)). }
  set (st1 := set_events (set_delay (set_center sky c) dl) ev).
  assert (Hwf1 : wf E st1).
  { destruct Hwfs as [[H1 H2 H3 H4 H5] H6 H7 H8 H9 H10 H11 H12].
    constructor; try assumption. constructor; assumption. }
  destruct (wf_plot E st Hwf) as (k & p & Hp & Hpo).
  destruct (fill_plot_spec E st1 pkt k p Hwf1 Hpk Hp Hpo) as (p' & Hfp & Hpo').
  rewrite Hfp. cbn [bind].
  set (st2 := set_plot_str st1 [p']).
  assert (Hwf2 : wf E st2).
  { destruct Hwf1 as [[H1 H2 H3 H4 H5] H6 H7 H8 H9 H10 H11 H12].
    constructor; try assumption.
    - constructor; assumption.
    - exists k, p'. split; [reflexivity|exact Hpo']. }
  rewrite (accumulate_spec E st2 pkt Hwf2 Hpk Hroom).
  eexists. split; [reflexivity|].
  destruct (wf_acc_auto E st pkt Hwf Hpk) as [Hal Haw].
  destruct (wf_acc_cross E st pkt Hwf Hpk) as [Hxl Hxw].
  split; [|split; reflexivity].
  destruct Hwf2 as [[H1 H2 H3 H4 H5] H6 H7 H8 H9 H10 H11 H12].
  constructor; try assumption.
  - constructor; assumption.
  - intros Hlag. destruct (H11 Hlag) as (Hn & _ & Hb).
    split; [exact (eq_trans Hal Hn)|]. split; [exact (Haw Hlag)|exact Hb].
  - intros Hlag. destruct (H12 Hlag) as (Hn & _ & Hb).
    split; [exact (eq_trans Hxl Hn)|]. split; [exact (Hxw Hlag)|exact Hb].
Qed.

(** Whatever else an iteration does, its packet goes to the totals. *)
Lemma iteration_totalcounts (st st' : @AHP_XC D) (i : tick_input)
  (pkt : ahp_xc_packet) :
  wf E st -> room 1 st ->
  (InIntegration st = true -> enabled_lines E st <> []) ->
  isConnected i = true -> packet i = Some pkt -> packet_ok E pkt ->
  Callback_iteration E st i = Ok st' ->
  totalcounts st' = counted st pkt (nlines E).
Proof.
  intros Hwf Hroom Hen Hcon Hpkt Hpk Hrun.
  unfold Callback_iteration in Hrun. rewrite Hcon, Hpkt in Hrun.
  cbn [negb] in Hrun.
  set (tl := if d_le (CalcTimeLeft st (now i)) d_zero then d_zero
             else CalcTimeLeft st (now i)) in Hrun.
  pose proof (wf_set_timeleft E st tl Hwf) as Hwf0.
  change (InIntegration (set_timeleft st tl)) with (InIntegration st) in Hrun.
  change (timeleft (set_timeleft st tl)) with tl in Hrun.
  assert (Hmid : forall st1,
            wf E st1 -> totalcounts st1 = totalcounts st ->
            lineEnableSP st1 = lineEnableSP st ->
            totals E st1 pkt = Ok st' ->
            totalcounts st' = counted st pkt (nlines E)).
  { intros st1 Hwf1 Ht He Htot.
    rewrite (totals_closed E st1 pkt Hwf1 Hpk) in Htot.
    inversion Htot. apply counted_frame; assumption. }
  destruct (InIntegration st) eqn:Hin.
  - destruct (d_eq tl d_zero).
    + assert (Hr0 : room 0 (set_timeleft st tl))
        by (apply (room_le 0 1); [lia|exact Hroom]).
      destruct (fin_fits E (fits i) (set_timeleft st tl)) eqn:Hfit.
      2:{ rewrite (finalize_overflow E (fits i) _ Hwf0 Hr0 Hfit) in Hrun.
          discriminate Hrun. }
      destruct (finalize_spec E (fits i) (set_timeleft st tl) Hwf0 Hr0 Hfit)
        as (pb & ab & cb & Hf & Hlp & Hla & Hlc & _).
      rewrite Hf in Hrun. cbn [bind] in Hrun.
      apply (Hmid _ (wf_fin_state E (fits i) _ pb ab cb Hwf0 Hlp Hla Hlc));
        [reflexivity|reflexivity|exact Hrun].
    + destruct (integrate_frame (set_timeleft st tl) pkt (now i) Hwf0 Hroom
                  (Hen eq_refl) Hpk) as (st1 & Hint & Hwf1 & Ht & He).
      rewrite Hint in Hrun. cbn [bind] in Hrun.
      apply (Hmid st1 Hwf1 Ht He Hrun).
  - cbn [bind] in Hrun. apply (Hmid _ Hwf0); [reflexivity|reflexivity|exact Hrun].
Qed.

(** The counts of line [x] in the packets of a run. *)
Definition line_counts (x : nat) (inputs : list (@tick_input D)) : list D :=
  (fun pkt => pkt_counts pkt !!! x) <$> packets inputs.

Lemma Callback_totalcounts (inputs : list (@tick_input D)) :
  forall st st' : @AHP_XC D,
    wf E st -> room (Z.of_nat (length inputs)) st ->
    enabled_lines E st <> [] ->
    Forall (fun i => isConnected i = true
                     /\ exists pkt, packet i = Some pkt /\ packet_ok E pkt)
      inputs ->
    Callback E st inputs = Ok st' ->
    lineEnableSP st' = lineEnableSP st
    /\ wf E st'
    /\ forall x t, totalcounts st !! x = Some t ->
         totalcounts st' !! x
         = Some (if enabled st x then foldl d_add t (line_counts x inputs)
                 else t).
Proof.
  induction inputs as [|i rest IH]; intros st st' Hwf Hroom Hen Hin Hrun.
  - inversion Hrun; subst st'. split; [reflexivity|]. split; [exact Hwf|].
    intros x t Hx. rewrite Hx. unfold line_counts. simpl.
    destruct (enabled st x); reflexivity.
  - apply Forall_cons in Hin as [(Hcon & pkt & Hpkt & Hpk) Hin].
    assert (Hr1 : room (Z.of_nat (length rest) + 1) st).
    { replace (Z.of_nat (length rest) + 1)
        with (Z.of_nat (length (i :: rest))) by (simpl length; lia).
      exact Hroom. }
    assert (Hov : overflowing E st i = false).
    { destruct (overflowing E st i) eqn:Hov; [|reflexivity].
      pose proof (Callback_iteration_overflow E st i Hwf
                    (room_le 0 (Z.of_nat (length rest) + 1) st ltac:(lia) Hr1)
                    Hov) as Hf.
      unfold Callback in Hrun. simpl for_each in Hrun. rewrite Hf in Hrun.
      discriminate Hrun. }
    destruct (Callback_iteration_safe E st i (Z.of_nat (length rest)) Hwf
                (Nat2Z.is_nonneg (length rest)) Hr1 (fun _ => Hen))
      as (st1 & Hit & Hwf1 & Hroom1 & He1 & _).
    { intros pkt0 H0. rewrite Hpkt in H0. inversion H0; subst. exact Hpk. }
    { exact Hov. }
    assert (Hr : room 1 st)
      by (apply (room_le 1 (Z.of_nat (length rest) + 1)); [lia|exact Hr1]).
    pose proof (iteration_totalcounts st st1 i pkt Hwf Hr (fun _ => Hen)
                  Hcon Hpkt Hpk Hit) as Htc1.
    unfold Callback in Hrun. simpl for_each in Hrun. rewrite Hit in Hrun.
    cbn [bind] in Hrun.
    assert (Hen1 : enabled_lines E st1 = enabled_lines E st).
    { unfold enabled_lines, enabled_upto, enabled. rewrite He1. reflexivity. }
    destruct (IH st1 st' Hwf1 Hroom1 ltac:(rewrite Hen1; exact Hen) Hin Hrun)
      as (He' & Hwf' & Hsum).
    split; [rewrite He'; exact He1|]. split; [exact Hwf'|].
    intros x t Hx.
    assert (Hx1 : totalcounts st1 !! x
                  = Some (if enabled st x
                          then d_add t (pkt_counts pkt !!! x) else t)).
    { rewrite Htc1. unfold counted. rewrite list_lookup_imap, Hx. simpl.
      assert (Hlt : (x < nlines E)%nat).
      { rewrite <- (wf_totalcounts E st Hwf). eapply lookup_lt_Some. exact Hx. }
      rewrite (proj2 (Nat.ltb_lt x (nlines E)) Hlt). reflexivity. }
    rewrite (Hsum x _ Hx1).
    assert (Hex : enabled st1 x = enabled st x)
      by (unfold enabled; rewrite He1; reflexivity).
    rewrite Hex. unfold line_counts, packets. simpl omap. rewrite Hpkt.
    destruct (enabled st x); reflexivity.
Qed.

(** Between two [TimerHit] the reader loop adds the counts of every packet
    to the totals of the enabled lines, so the count rate the second
    [TimerHit] publishes for an enabled line is the sum of the counts of the
    packets received since the first, times 1000 over the polling period;
    for a disabled line it is the rate of a zero total. *)
Theorem count_rate_between_timer_hits (st st0 st1 st2 : @AHP_XC D)
  (pn pn0 pn2 : @panel D) (inputs : list (@tick_input D)) :
  wf E st -> panel_ok E pn ->
  room (Z.of_nat (length inputs)) st -> enabled_lines E st <> [] ->
  Forall (fun i => isConnected i = true
                   /\ exists pkt, packet i = Some pkt /\ packet_ok E pkt)
    inputs ->
  TimerHit E T true st pn = Ok (st0, pn0) ->
  Callback E st0 inputs = Ok st1 ->
  TimerHit E T true st1 pn0 = Ok (st2, pn2) ->
  forall x, (x < nlines E)%nat ->
    LINE_COUNTS <$> lineStatsNP pn2 !! x
    = Some (per_second T
              (if enabled st x
               then foldl d_add d_zero (line_counts x inputs)
               else d_zero)).
Proof.
  intros Hwf Hpn Hroom Hen Hin Ht0 Hrun Ht2 x Hx.
  destruct (TimerHit_counts E T st pn Hwf Hpn)
    as (st0' & pn0' & Ht0' & Hfr & Hz & Hzc & _ & Hpn0).
  rewrite Ht0 in Ht0'. inversion Ht0'; subst st0' pn0'.
  assert (Hwf0 : wf E st0).
  { rewrite Hfr. apply wf_set_totals; [exact Hwf| |].
    - rewrite Hz. apply length_replicate.
    - rewrite Hzc. apply length_replicate. }
  assert (He0 : lineEnableSP st0 = lineEnableSP st) by (rewrite Hfr; reflexivity).
  assert (Hen0 : enabled_lines E st0 = enabled_lines E st).
  { unfold enabled_lines, enabled_upto, enabled. rewrite He0. reflexivity. }
  assert (Hroom0 : room (Z.of_nat (length inputs)) st0)
    by (rewrite Hfr; exact Hroom).
  destruct (Callback_totalcounts inputs st0 st1 Hwf0 Hroom0
              ltac:(rewrite Hen0; exact Hen) Hin Hrun) as (He1 & Hwf1 & Hsum).
  destruct (TimerHit_counts E T st1 pn0 Hwf1 Hpn0)
    as (st2' & pn2' & Ht2' & _ & _ & _ & Hstats & _).
  rewrite Ht2 in Ht2'. inversion Ht2'; subst st2' pn2'.
  assert (Hx0 : totalcounts st0 !! x = Some d_zero).
  { rewrite Hz. apply lookup_replicate_2. exact Hx. }
  pose proof (Hstats x _ (Hsum x _ Hx0)) as Hs.
  assert (Hex : enabled st0 x = enabled st x)
    by (unfold enabled; rewrite He0; reflexivity).
  rewrite Hex in Hs. rewrite Hs. reflexivity.
Qed.

End RateProps.

(* ------------------------------------------------------------------ *)
(** ** The rows a cycle accumulates *)

Section RowsProps.
Context {D : Type} {AR : Arith D} {LM : Libm D}.
Variable E : @Extern D.

#[local] Instance sample_inhabited3 : Inhabited (@ahp_xc_sample D) :=
  populate {| lag_size := 0; correlations := [] |}.

(** The rows the packets hold for line [x] and for baseline [x], in the
    order of arrival. *)
Definition auto_rows (x : nat) (pkts : list (@ahp_xc_packet D)) : list D :=
  concat ((fun pkt => magnitudes (autocorrelations pkt !!! x)) <$> pkts).

Definition cross_rows (x : nat) (pkts : list (@ahp_xc_packet D)) : list D :=
  concat ((fun pkt => magnitudes (crosscorrelations pkt !!! x)) <$> pkts).

Lemma fresh_data_rows (w : Z) (s : @dsp_stream D) :
  stream_wf w s -> sizes1 s = 1 -> data_rows s = [].
Proof.
  intros [Hw Hh Hl Hb] H1. unfold data_rows.
  replace (len s - sizes0 s) with 0 by (rewrite Hl, Hw, H1; lia).
  reflexivity.
Qed.

Lemma foldl_grow_auto_rows (pkts : list (@ahp_xc_packet D)) :
  forall (strs : list (@dsp_stream D)) (x : nat) (s : @dsp_stream D),
    auto_on E = true -> 1 < ahp_xc_get_autocorrelator_lagsize E ->
    Forall (packet_ok E) pkts -> length strs = nlines E ->
    Forall (stream_wf (ahp_xc_get_autocorrelator_lagsize E)) strs ->
    strs !! x = Some s ->
    exists s',
      foldl (grow_auto E) strs pkts !! x = Some s'
      /\ data_rows s' = data_rows s ++ auto_rows x pkts.
Proof.
  induction pkts as [|pkt pkts IH]; intros strs x s Hon Hal Hpk Hl Hwf Hx.
  - exists s. simpl. split; [exact Hx|]. unfold auto_rows. simpl.
    rewrite app_nil_r. reflexivity.
  - apply Forall_cons in Hpk as [Hp Hpk].
    destruct (pk_auto E pkt Hp Hal) as [Hpl Hps].
    destruct (lookup_lt_is_Some_2 (autocorrelations pkt) x) as [smp Hsmp].
    { rewrite Hpl, <- Hl. eapply lookup_lt_Some. exact Hx. }
    assert (Hx1 : grow_auto E strs pkt !! x = Some (appended E s smp)).
    { unfold grow_auto. rewrite Hon. apply lookup_zip_with_Some.
      exists s, smp. auto. }
    assert (Hs : stream_wf (ahp_xc_get_autocorrelator_lagsize E) s)
      by exact (proj1 (Forall_lookup _ _) Hwf x _ Hx).
    assert (Hm : sample_ok (ahp_xc_get_autocorrelator_lagsize E) smp)
      by exact (proj1 (Forall_lookup _ _) Hps x _ Hsmp).
    destruct (IH (grow_auto E strs pkt) x (appended E s smp) Hon Hal Hpk)
      as (s' & Hs' & Hrows).
    + unfold grow_auto. rewrite Hon, length_zip_with. lia.
    + unfold grow_auto. rewrite Hon. apply zip_appended_wf; auto; lia.
    + exact Hx1.
    + exists s'. simpl foldl. split; [exact Hs'|]. rewrite Hrows.
      rewrite (appended_data_rows E (ahp_xc_get_autocorrelator_lagsize E) s smp)
        by (auto; lia).
      unfold auto_rows. simpl. rewrite (list_lookup_total_correct _ _ _ Hsmp).
      rewrite <- app_assoc. reflexivity.
Qed.

Lemma foldl_grow_cross_rows (pkts : list (@ahp_xc_packet D)) :
  forall (strs : list (@dsp_stream D)) (x : nat) (s : @dsp_stream D),
    cross_on E = true -> 1 < ahp_xc_get_crosscorrelator_lagsize E ->
    Forall (packet_ok E) pkts -> length strs = ahp_xc_get_nbaselines E ->
    Forall (stream_wf (ahp_xc_get_crosscorrelator_lagsize E * 2 - 1)) strs ->
    strs !! x = Some s ->
    exists s',
      foldl (grow_cross E) strs pkts !! x = Some s'
      /\ data_rows s' = data_rows s ++ cross_rows x pkts.
Proof.
  induction pkts as [|pkt pkts IH]; intros strs x s Hon Hcl Hpk Hl Hwf Hx.
  - exists s. simpl. split; [exact Hx|]. unfold cross_rows. simpl.
    rewrite app_nil_r. reflexivity.
  - apply Forall_cons in Hpk as [Hp Hpk].
    pose proof (pk_cross_len E pkt Hp) as Hpl.
    pose proof (pk_cross E pkt Hp Hcl) as Hps.
    destruct (lookup_lt_is_Some_2 (crosscorrelations pkt) x) as [smp Hsmp].
    { rewrite Hpl, <- Hl. eapply lookup_lt_Some. exact Hx. }
    assert (Hx1 : grow_cross E strs pkt !! x = Some (appended E s smp)).
    { unfold grow_cross. rewrite Hon. apply lookup_zip_with_Some.
      exists s, smp. auto. }
    assert (Hs : stream_wf (ahp_xc_get_crosscorrelator_lagsize E * 2 - 1) s)
      by exact (proj1 (Forall_lookup _ _) Hwf x _ Hx).
    assert (Hm : sample_ok (ahp_xc_get_crosscorrelator_lagsize E * 2 - 1) smp)
      by exact (proj1 (Forall_lookup _ _) Hps x _ Hsmp).
    destruct (IH (grow_cross E strs pkt) x (appended E s smp) Hon Hcl Hpk)
      as (s' & Hs' & Hrows).
    + unfold grow_cross. rewrite Hon, length_zip_with. lia.
    + unfold grow_cross. rewrite Hon. apply zip_appended_wf; auto; lia.
    + exact Hx1.
    + exists s'. simpl foldl. split; [exact Hs'|]. rewrite Hrows.
      rewrite (appended_data_rows E
                 (ahp_xc_get_crosscorrelator_lagsize E * 2 - 1) s smp)
        by (auto; lia).
      unfold cross_rows. simpl. rewrite (list_lookup_total_correct _ _ _ Hsmp).
      rewrite <- app_assoc. reflexivity.
Qed.

(** After any number of accumulating iterations started on fresh buffers,
    the data of the buffer of each line, and of each baseline, is the
    concatenation of the lag magnitudes of the packets received, in the
    order of arrival: the buffers can be derived again from the packets. *)
Theorem buffers_hold_packet_rows (st : @AHP_XC D)
  (inputs : list (@tick_input D)) :
  wf E st -> InIntegration st = true -> enabled_lines E st <> [] ->
  room (Z.of_nat (length inputs)) st -> fresh st ->
  Forall (accumulating E st) inputs ->
  exists st',
    Callback E st inputs = Ok st'
    /\ (1 < ahp_xc_get_autocorrelator_lagsize E ->
        forall x, (x < nlines E)%nat ->
          exists s', autocorrelations_str st' !! x = Some s'
                     /\ data_rows s' = auto_rows x (packets inputs))
    /\ (1 < ahp_xc_get_crosscorrelator_lagsize E ->
        forall x, (x < ahp_xc_get_nbaselines E)%nat ->
          exists s', crosscorrelations_str st' !! x = Some s'
                     /\ data_rows s' = cross_rows x (packets inputs)).
Proof.
  intros Hwf Hin Hen Hroom [Hfa Hfc] Hacc.
  destruct (Callback_accumulating E inputs st Hwf Hin Hen Hroom Hacc)
    as (st' & Hrun & _ & _ & _ & Ha & Hc).
  destruct (packets_accumulating E st inputs Hacc) as [Hpk _].
  exists st'. split; [exact Hrun|]. split.
  - intros Hal x Hx. destruct (wf_auto E st Hwf Hal) as (Hl & Hs & _).
    destruct (lookup_lt_is_Some_2 (autocorrelations_str st) x) as [s Hs0];
      [lia|].
    assert (Hon : auto_on E = true).
    { unfold auto_on.
      destruct (Nat.ltb_spec 0 (nlines E)); [|lia].
      destruct (Z.ltb_spec 1 (ahp_xc_get_autocorrelator_lagsize E)); [|lia].
      reflexivity. }
    destruct (foldl_grow_auto_rows (packets inputs) _ x s Hon Hal Hpk Hl Hs Hs0)
      as (s' & Hs' & Hrows).
    exists s'. rewrite Ha. split; [exact Hs'|]. rewrite Hrows.
    rewrite (fresh_data_rows (ahp_xc_get_autocorrelator_lagsize E) s).
    + reflexivity.
    + exact (proj1 (Forall_lookup _ _) Hs x _ Hs0).
    + exact (proj1 (Forall_lookup _ _) Hfa x _ Hs0).
  - intros Hcl x Hx. destruct (wf_cross E st Hwf Hcl) as (Hl & Hs & _).
    destruct (lookup_lt_is_Some_2 (crosscorrelations_str st) x) as [s Hs0];
      [lia|].
    assert (Hon : cross_on E = true).
    { unfold cross_on.
      destruct (Nat.ltb_spec 0 (ahp_xc_get_nbaselines E)); [|lia].
      destruct (Z.ltb_spec 1 (ahp_xc_get_crosscorrelator_lagsize E)); [|lia].
      reflexivity. }
    destruct (foldl_grow_cross_rows (packets inputs) _ x s Hon Hcl Hpk Hl Hs Hs0)
      as (s' & Hs' & Hrows).
    exists s'. rewrite Hc. split; [exact Hs'|]. rewrite Hrows.
    rewrite (fresh_data_rows (ahp_xc_get_crosscorrelator_lagsize E * 2 - 1) s).
    + reflexivity.
    + exact (proj1 (Forall_lookup _ _) Hs x _ Hs0).
    + exact (proj1 (Forall_lookup _ _) Hfc x _ Hs0).
Qed.

End RowsProps.

(* ------------------------------------------------------------------ *)
(** ** [AHP_XC::ActiveLine] (lines 1223-1226) *)

(** The flags [ActiveLine] passes to [ahp_xc_set_leds]. *)
Definition leds_flags (on power active_low edge_triggered differential : bool)
  : Z :=
  Z.lor (Z.lor (Z.lor (Z.lor (if on then 1 else 0) (if power then 2 else 0))
                  (if active_low then 4 else 0))
           (if edge_triggered then 8 else 0))
    (if differential then 16 else 0).

(** The call [ahp_xc_set_leds (line, flags)] it makes. *)
Definition ActiveLine (line : nat)
  (on power active_low edge_triggered differential : bool) : nat * Z :=
  (line, leds_flags on power active_low edge_triggered differential).

(** The flags are a five-bit number from which each of the five arguments
    can be read back, so two calls send the same flags only for the same
    arguments; all the arguments off, as [Disconnect] passes them, is
    flags 0. *)
Theorem ActiveLine_flags_decode (line : nat)
  (on power active_low edge_triggered differential : bool) :
  let flags :=
    snd (ActiveLine line on power active_low edge_triggered differential) in
  fst (ActiveLine line on power active_low edge_triggered differential) = line
  /\ 0 <= flags < 32
  /\ Z.testbit flags 0 = on
  /\ Z.testbit flags 1 = power
  /\ Z.testbit flags 2 = active_low
  /\ Z.testbit flags 3 = edge_triggered
  /\ Z.testbit flags 4 = differential
  /\ (flags = 0 <->
      on = false /\ power = false /\ active_low = false
      /\ edge_triggered = false /\ differential = false).
Proof.
  destruct on, power, active_low, edge_triggered, differential;
    cbv zeta; cbn [fst snd ActiveLine];
    (split; [reflexivity|]); (split; [vm_compute; split; congruence|]);
    repeat (split; [reflexivity|]);
    vm_compute; split; intros H; try discriminate H;
    try (repeat split; reflexivity);
    try (destruct H as (H1 & H2 & H3 & H4 & H5); congruence).
Qed.

(* ------------------------------------------------------------------ *)
(** ** [AHP_XC::ISNewNumber] on the settings (lines 742-770) and
       [AHP_XC::setupParams] (lines 666-678) *)

Section Tuning.
Context {D : Type} {AR : Arith D}.
Variable E : @Extern D.

(** [settingsN[0].value], [settingsN[1].value] and
    [SpectrographSettingsN[SPECTROGRAPH_LOWFREQ].value], [..._HIGHFREQ]. *)
Record tuning := {
  CROSSCORRELATOR_WAVELENGTH_VALUE : D;
  CROSSCORRELATOR_BANDWIDTH_VALUE : D;
  SPECTROGRAPH_LOWFREQ : D;
  SPECTROGRAPH_HIGHFREQ : D
}.

(** Lines 751-754: [baselines[x]->setWavelength (w)] for every baseline. *)
Definition set_wavelength_body (w : D) (x : nat) (st : @AHP_XC D)
  : result (@AHP_XC D) :=
  b <- rdn (baselines st) x ;;
  bls <- wrn (baselines st) x
           {| b_vector := b_vector b; b_wavelength := w |} ;;
  Ok (set_locations st (lineLocationNP st) bls).

(** Lines 742-758.  [after0] and [after1] are what [IUUpdateNumber] leaves
    in [settingsN[0]] and [settingsN[1]]; the frequencies are computed from
    the values they held before it. *)
Definition ISNewNumber_settings (tn : tuning) (after0 after1 : D) (size : Z)
  (st : @AHP_XC D) : result (tuning * @AHP_XC D) :=
  let center_freq := d_div (LIGHTSPEED E) (CROSSCORRELATOR_WAVELENGTH_VALUE tn) in
  let bandwidth_freq :=
    d_div (LIGHTSPEED E) (CROSSCORRELATOR_BANDWIDTH_VALUE tn) in
  let lofreq := d_sub center_freq (d_div bandwidth_freq (d_of_int 2)) in
  let hifreq := d_add center_freq (d_div bandwidth_freq (d_of_int 2)) in
  st <- for_each (upto (ahp_xc_get_nbaselines E)) (set_wavelength_body after0)
          st ;;
  st <- setupParams E size st ;;
  Ok ({| CROSSCORRELATOR_WAVELENGTH_VALUE := after0;
         CROSSCORRELATOR_BANDWIDTH_VALUE := after1;
         SPECTROGRAPH_LOWFREQ := lofreq;
         SPECTROGRAPH_HIGHFREQ := hifreq |}, st).

(** Lines 760-770.  [lo] and [hi] are what [IUUpdateNumber] leaves in the
    two frequencies of [SpectrographSettingsN]. *)
Definition ISNewNumber_spectrograph (tn : tuning) (lo hi : D) : tuning :=
  let bandwidth_freq := d_sub hi lo in
  let center_freq := d_add lo (d_div bandwidth_freq (d_of_int 2)) in
  {| CROSSCORRELATOR_WAVELENGTH_VALUE := d_div (LIGHTSPEED E) center_freq;
     CROSSCORRELATOR_BANDWIDTH_VALUE := d_div (LIGHTSPEED E) bandwidth_freq;
     SPECTROGRAPH_LOWFREQ := lo;
     SPECTROGRAPH_HIGHFREQ := hi |}.

End Tuning.

(* ------------------------------------------------------------------ *)
(** ** What a settings update does *)

Section TuningProps.
Context {D : Type} {AR : Arith D} {LM : Libm D}.
Variable E : @Extern D.

#[local] Instance baseline_inhabited3 : Inhabited (@baseline D) :=
  populate {| b_vector := vzero; b_wavelength := d_zero |}.

Definition with_wavelength (w : D) (b : @baseline D) : @baseline D :=
  {| b_vector := b_vector b; b_wavelength := w |}.

Lemma set_wavelengths_spec (st : @AHP_XC D) (w : D) :
  length (baselines st) = ahp_xc_get_nbaselines E ->
  for_each (upto (ahp_xc_get_nbaselines E)) (set_wavelength_body w) st
  = Ok (set_locations st (lineLocationNP st)
          (with_wavelength w <$> baselines st)).
Proof.
  intros Hl.
  destruct (for_upto_inv
    (fun k s => s = set_locations st (lineLocationNP st)
                      (filled (fun x => with_wavelength w (baselines st !!! x))
                         k (baselines st)))
    (ahp_xc_get_nbaselines E) (set_wavelength_body w) st) as (s' & Hf & ->).
  - rewrite filled_0. destruct st; reflexivity.
  - intros k s Hk ->. unfold set_wavelength_body.
    cbn [baselines lineLocationNP set_locations].
    rewrite (rdn_total (filled _ k (baselines st)) k)
      by (rewrite length_filled; lia).
    cbn [bind]. rewrite filled_total_ge by lia.
    rewrite wrn_Ok by (rewrite length_filled; lia). cbn [bind].
    eexists. split; [reflexivity|]. rewrite filled_S. reflexivity.
  - rewrite Hf. do 2 f_equal. apply list_eq. intros x.
    rewrite list_lookup_fmap.
    destruct (baselines st !! x) as [b|] eqn:Hb.
    + rewrite filled_full by (try (eapply lookup_lt_Some in Hb); lia).
      rewrite (list_lookup_total_correct _ _ _ Hb). reflexivity.
    + rewrite filled_lookup, Hb. reflexivity.
Qed.

Lemma setup_plot_ok (k : Z) (p : @dsp_stream D) :
  1 <= k -> 4 * k * k <= INT_MAX -> plot_ok k (setup_plot E (2 * k) p).
Proof.
  intros Hk Hmax.
  unfold setup_plot, dsp_stream_set_dim0, dsp_stream_set_dim1,
    dsp_stream_alloc_buffer, realloc.
  cbn [sizes0 sizes1 len buf].
  assert (Hw : wrap_int (2 * k * (2 * k)) = 4 * k * k).
  { rewrite wrap_int_small by (unfold INT_MAX in *; nia). ring. }
  constructor; cbn [sizes0 sizes1 len buf]; auto.
  rewrite length_resize, Hw. reflexivity.
Qed.

(** A settings update with a plot size [2 k] that fits an [int] makes no
    access out of bounds and leaves the driver well formed: every baseline
    has the new wavelength and the vector it had, the plot is [2 k] by
    [2 k], and the lines, the buffers and the totals are left as they
    were.  The frequencies it publishes are those of the wavelength and the
    bandwidth held before the update. *)
Theorem settings_update_ready (tn : @tuning D) (after0 after1 : D) (k : Z)
  (st : @AHP_XC D) :
  wf E st -> 1 <= k -> 4 * k * k <= INT_MAX ->
  exists tn' st',
    ISNewNumber_settings E tn after0 after1 (2 * k) st = Ok (tn', st')
    /\ wf E st'
    /\ baselines st' = with_wavelength after0 <$> baselines st
    /\ (exists p', plot_str st' = [p'] /\ sizes0 p' = 2 * k
                   /\ sizes1 p' = 2 * k
                   /\ length (buf p') = Z.to_nat (4 * k * k))
    /\ st' = set_plot_str
               (set_locations st (lineLocationNP st) (baselines st'))
               (plot_str st')
    /\ CROSSCORRELATOR_WAVELENGTH_VALUE tn' = after0
    /\ CROSSCORRELATOR_BANDWIDTH_VALUE tn' = after1
    /\ SPECTROGRAPH_LOWFREQ tn'
       = d_sub (d_div (LIGHTSPEED E) (CROSSCORRELATOR_WAVELENGTH_VALUE tn))
           (d_div (d_div (LIGHTSPEED E) (CROSSCORRELATOR_BANDWIDTH_VALUE tn))
              (d_of_int 2))
    /\ SPECTROGRAPH_HIGHFREQ tn'
       = d_add (d_div (LIGHTSPEED E) (CROSSCORRELATOR_WAVELENGTH_VALUE tn))
           (d_div (d_div (LIGHTSPEED E) (CROSSCORRELATOR_BANDWIDTH_VALUE tn))
              (d_of_int 2)).
Proof.
  intros Hwf Hk Hmax. unfold ISNewNumber_settings.
  assert (Hlb : length (baselines st) = ahp_xc_get_nbaselines E).
  { rewrite (ok_baselines E st (wf_lines E st Hwf)).
    symmetry. apply (wf_nbaselines E st Hwf). }
  rewrite (set_wavelengths_spec st after0 Hlb). cbn [bind].
  destruct (wf_plot E st Hwf) as (k0 & p & Hp & Hpo).
  unfold setupParams, nplots, upto. simpl Nat.ltb. cbv iota. simpl seq.
  simpl for_each. unfold setupParams_body.
  cbn [plot_str set_locations]. rewrite Hp.
  change (rdn [p] 0) with (Ok p). cbn [bind].
  change (wrn [p] 0 (setup_plot E (2 * k) p))
    with (Ok [setup_plot E (2 * k) p]).
  cbn [bind].
  pose proof (setup_plot_ok k p Hk Hmax) as Hpo'.
  eexists _, _. split; [reflexivity|].
  split; [|split; [reflexivity|split; [|split; [reflexivity|]]]].
  - destruct Hwf as [[H1 H2 H3 H4 H5] H6 H7 H8 H9 H10 H11 H12].
    constructor; try assumption.
    + constructor; try assumption. cbn. rewrite length_fmap. exact H5.
    + exists k. eexists. split; [reflexivity|exact Hpo'].
  - eexists. split; [reflexivity|].
    destruct Hpo' as [_ _ Hw Hh _ Hb]. auto.
  - repeat split; reflexivity.
Qed.

End TuningProps.

(* ------------------------------------------------------------------ *)
(** ** [AHP_XC::ISNewNumber] on the location of a line (lines 717-740) *)

Section LocationProps.
Context {D : Type} {AR : Arith D} {LM : Libm D}.
Variable E : @Extern D.

#[local] Instance vec3_inhabited3 : Inhabited (@vec3 D) := populate vzero.
#[local] Instance baseline_inhabited4 : Inhabited (@baseline D) :=
  populate {| b_vector := vzero; b_wavelength := d_zero |}.

(** The baseline [b] of the pair [(x, y)] once the locations are [locs]. *)
Definition rejoined (locs : list (@vec3 D)) (x y : nat) (b : @baseline D)
  : @baseline D :=
  {| b_vector := vsub (locs !!! y) (locs !!! x);
     b_wavelength := b_wavelength b |}.

(** The baselines once the pairs below [m] have been visited. *)
Definition relocated (st : @AHP_XC D) (locs : list (@vec3 D)) (i m : nat)
  : list (@baseline D) :=
  imap (fun idx b =>
          match pairs (nlines E) !! idx with
          | Some (x, y) =>
              if (idx <? m)%nat && ((x =? i)%nat || (y =? i)%nat)
              then rejoined locs x y b else b
          | None => b
          end)
    (baselines st).

Lemma length_relocated (st : @AHP_XC D) (locs : list (@vec3 D)) (i m : nat) :
  length (relocated st locs i m) = length (baselines st).
Proof. apply length_imap. Qed.

Lemma relocated_0 (st : @AHP_XC D) (locs : list (@vec3 D)) (i : nat) :
  relocated st locs i 0 = baselines st.
Proof.
  apply list_eq. intros z. unfold relocated. rewrite list_lookup_imap.
  destruct (baselines st !! z) as [b|]; [|reflexivity]. simpl.
  destruct (pairs (nlines E) !! z) as [[xa ya]|]; reflexivity.
Qed.

Lemma relocated_at (st : @AHP_XC D) (locs : list (@vec3 D)) (i m : nat) :
  (m < length (baselines st))%nat ->
  relocated st locs i m !!! m = baselines st !!! m.
Proof.
  intros Hm. apply list_lookup_total_correct. unfold relocated.
  rewrite list_lookup_imap, (list_lookup_lookup_total_lt _ _ Hm). simpl.
  rewrite Nat.ltb_irrefl.
  destruct (pairs (nlines E) !! m) as [[xa ya]|]; reflexivity.
Qed.

Lemma relocated_S (st : @AHP_XC D) (locs : list (@vec3 D)) (i m x y : nat) :
  pairs (nlines E) !! m = Some (x, y) ->
  relocated st locs i (S m)
  = if (x =? i)%nat || (y =? i)%nat
    then <[m := rejoined locs x y (baselines st !!! m)]>
           (relocated st locs i m)
    else relocated st locs i m.
Proof.
  intros Hp. apply list_eq. intros z.
  assert (Hne : z <> m -> (z <? S m)%nat = (z <? m)%nat).
  { intros Hz. destruct (Nat.ltb_spec z (S m)), (Nat.ltb_spec z m);
      try reflexivity; lia. }
  destruct ((x =? i)%nat || (y =? i)%nat) eqn:Hon.
  - destruct (decide (z = m)) as [->|Hz].
    + destruct (baselines st !! m) as [b|] eqn:Hb.
      * rewrite list_lookup_insert_eq
          by (rewrite length_relocated; eapply lookup_lt_Some; exact Hb).
        unfold relocated. rewrite list_lookup_imap, Hb. simpl.
        rewrite Hp, (proj2 (Nat.ltb_lt m (S m))) by lia. rewrite Hon. simpl.
        rewrite (list_lookup_total_correct _ _ _ Hb). reflexivity.
      * rewrite list_insert_ge
          by (rewrite length_relocated; apply lookup_ge_None; exact Hb).
        unfold relocated. rewrite !list_lookup_imap, Hb. reflexivity.
    + rewrite list_lookup_insert_ne by auto.
      unfold relocated. rewrite !list_lookup_imap.
      destruct (baselines st !! z) as [b|]; [|reflexivity]. simpl.
      destruct (pairs (nlines E) !! z) as [[xa ya]|]; [|reflexivity].
      rewrite (Hne Hz). reflexivity.
  - unfold relocated. rewrite !list_lookup_imap.
    destruct (baselines st !! z) as [b|]; [|reflexivity]. simpl.
    destruct (decide (z = m)) as [->|Hz].
    + rewrite Hp, Hon, !andb_false_r. reflexivity.
    + destruct (pairs (nlines E) !! z) as [[xa ya]|]; [|reflexivity].
      rewrite (Hne Hz). reflexivity.
Qed.

(** Every baseline joins its two lines. *)
Definition baselines_follow (st : @AHP_XC D) : Prop :=
  forall idx x y b,
    pairs (nlines E) !! idx = Some (x, y) ->
    baselines st !! idx = Some b ->
    b_vector b = vsub (location st y) (location st x).

(** A new location for line [i] is stored, and the vector of every baseline
    that has line [i] at one end becomes the difference of the locations of
    its two lines; the other baselines, the wavelengths and the rest of the
    driver are left as they are.  Hence baselines that joined their lines
    before the update still do after it. *)
Theorem location_update_moves_baselines (st : @AHP_XC D) (i : nat)
  (v : @vec3 D) :
  lines_ok E st -> (i < nlines E)%nat ->
  exists st',
    set_line_location E st i v = Ok st'
    /\ lineLocationNP st' = <[i := v]> (lineLocationNP st)
    /\ st' = set_locations st (lineLocationNP st') (baselines st')
    /\ (forall idx x y b,
          pairs (nlines E) !! idx = Some (x, y) ->
          baselines st !! idx = Some b ->
          baselines st' !! idx
          = Some (if (x =? i)%nat || (y =? i)%nat
                  then {| b_vector := vsub (location st' y) (location st' x);
                          b_wavelength := b_wavelength b |}
                  else b))
    /\ (baselines_follow st -> baselines_follow st').
Proof.
  intros Hok Hi. unfold set_line_location.
  pose proof (ok_location E st Hok) as Hll.
  pose proof (ok_baselines E st Hok) as Hlb.
  rewrite wrn_Ok by lia. cbn [bind].
  set (locs := <[i := v]> (lineLocationNP st)).
  assert (Hlocs : length locs = nlines E)
    by (unfold locs; rewrite length_insert; exact Hll).
  rewrite for_pairs_flat.
  destruct (for_each_inv
    (fun done s => s = (set_locations st locs
                          (relocated st locs i (length done)), length done))
    (pairs (nlines E)) (fun q => location_pair_body i (fst q) (snd q))
    (set_locations st locs (baselines st), 0%nat)) as (s' & Hf & ->).
  - simpl. rewrite relocated_0. reflexivity.
  - intros done q rest s Hq ->.
    destruct (pairs_split_inv _ _ _ _ Hq) as (Hxy & Hy & Hidx).
    destruct q as [x y]. cbn [fst snd] in *.
    assert (Hp : pairs (nlines E) !! length done = Some (x, y)).
    { rewrite Hq. apply list_lookup_middle. reflexivity. }
    unfold location_pair_body. cbn [fst snd].
    rewrite length_app, Nat.add_1_r.
    rewrite (relocated_S st locs i _ x y Hp).
    destruct ((x =? i)%nat || (y =? i)%nat).
    2:{ cbn [bind]. eexists. split; reflexivity. }
    cbn [lineLocationNP baselines set_locations].
    rewrite (rdn_total locs y) by lia. cbn [bind].
    rewrite (rdn_total locs x) by lia. cbn [bind].
    rewrite (rdn_total (relocated st locs i (length done)))
      by (rewrite length_relocated; lia).
    cbn [bind]. rewrite wrn_Ok by (rewrite length_relocated; lia).
    cbn [bind]. rewrite relocated_at by lia.
    eexists. split; reflexivity.
  - rewrite Hf. cbn [bind fst].
    assert (Hnew : forall idx x y b,
      pairs (nlines E) !! idx = Some (x, y) ->
      baselines st !! idx = Some b ->
      relocated st locs i (length (pairs (nlines E))) !! idx
      = Some (if (x =? i)%nat || (y =? i)%nat
              then rejoined locs x y b else b)).
    { intros idx x y b Hp Hb. unfold relocated.
      rewrite list_lookup_imap, Hb. simpl. rewrite Hp.
      rewrite (proj2 (Nat.ltb_lt idx (length (pairs (nlines E)))))
        by (eapply lookup_lt_Some; exact Hp).
      reflexivity. }
    eexists. split; [reflexivity|]. split; [reflexivity|].
    split; [reflexivity|]. split; [exact Hnew|].
    intros Hfol idx x y b' Hp Hb'.
    change (relocated st locs i (length (pairs (nlines E))) !! idx = Some b')
      in Hb'.
    change (b_vector b' = vsub (locs !!! y) (locs !!! x)).
    destruct (lookup_lt_is_Some_2 (baselines st) idx) as [b Hb].
    { rewrite Hlb. eapply lookup_lt_Some. exact Hp. }
    rewrite (Hnew idx x y b Hp Hb) in Hb'. inversion Hb'; subst b'. clear Hb'.
    destruct (Nat.eqb_spec x i) as [Hx|Hx]; [reflexivity|].
    destruct (Nat.eqb_spec y i) as [Hy|Hy]; [reflexivity|].
    cbn [orb]. rewrite (Hfol idx x y b Hp Hb). unfold location, locs.
    rewrite !list_lookup_total_insert_ne by auto. reflexivity.
Qed.

End LocationProps.

(* ------------------------------------------------------------------ *)
(** ** The plot stays symmetric (lines 367-395) *)

Section PlotProps.
Context {D : Type} {AR : Arith D} {LM : Libm D}.
Variable E : @Extern D.

#[local] Instance D_inhabited4 : Inhabited D := populate d_zero.
#[local] Instance baseline_inhabited5 : Inhabited (@baseline D) :=
  populate {| b_vector := vzero; b_wavelength := d_zero |}.

(** Each cell holds what the opposite cell holds. *)
Definition symmetric (b : list D) : Prop :=
  forall j, (j < length b)%nat -> b !! j = b !! (length b - 1 - j)%nat.

Definition plot_symmetric (p : @dsp_stream D) : Prop := symmetric (buf p).

Lemma symmetric_replicate (n : nat) (v : D) : symmetric (replicate n v).
Proof.
  intros j Hj. rewrite length_replicate in *.
  rewrite !lookup_replicate_2 by lia. reflexivity.
Qed.

(** Adding the same amount to a cell and to the opposite cell. *)
Lemma symmetric_add (b : list D) (z : nat) (r : D) :
  (z < length b)%nat -> Nat.Even (length b) -> symmetric b ->
  symmetric
    (<[(length b - 1 - z)%nat :=
         d_add (<[z := d_add (b !!! z) r]> b !!! (length b - 1 - z)%nat) r]>
       (<[z := d_add (b !!! z) r]> b)).
Proof.
  intros Hz [m Hm] Hs j Hj. rewrite !length_insert in *.
  set (n := length b) in *. set (zm := (n - 1 - z)%nat).
  assert (Hne : z <> zm) by (unfold zm; lia).
  assert (Hzm : (zm < n)%nat) by (unfold zm; lia).
  assert (Hval : b !!! z = b !!! zm).
  { rewrite !list_lookup_total_alt. rewrite (Hs z Hz). reflexivity. }
  rewrite (list_lookup_total_insert_ne b z zm) by exact Hne.
  rewrite Hval.
  destruct (decide (j = z)) as [->|Hjz].
  - rewrite list_lookup_insert_ne by auto.
    rewrite list_lookup_insert_eq by lia.
    fold zm. rewrite list_lookup_insert_eq by (rewrite length_insert; lia).
    reflexivity.
  - destruct (decide (j = zm)) as [->|Hjm].
    + rewrite list_lookup_insert_eq by (rewrite length_insert; lia).
      replace (n - 1 - zm)%nat with z by (unfold zm; lia).
      rewrite list_lookup_insert_ne by auto.
      rewrite list_lookup_insert_eq by lia. reflexivity.
    + rewrite !list_lookup_insert_ne by (fold zm; lia).
      apply Hs. exact Hj.
Qed.

Lemma plot_mirror_eq (k z : Z) :
  1 <= k -> 4 * k * k <= INT_MAX -> 0 <= z < 4 * k * k ->
  plot_mirror (2 * k) (2 * k) z = 4 * k * k - 1 - z.
Proof.
  intros Hk Hmax Hz. unfold plot_mirror, INT_MAX in *.
  rewrite (wrap_int_small (2 * k * (2 * k))) by (unfold INT_MAX; lia).
  rewrite (wrap_int_small (2 * k * (2 * k) - 1)) by (unfold INT_MAX; lia).
  rewrite wrap_int_small by (unfold INT_MAX; lia). ring.
Qed.

(** Finalize leaves a plot of zeros, which is symmetric, and an
    accumulating iteration adds each visible baseline to a cell and to the
    opposite cell: from the first finalize on, the plot is symmetric about
    its centre. *)
Theorem plot_stays_symmetric (st : @AHP_XC D) (pkt : @ahp_xc_packet D)
  (k : Z) (p : @dsp_stream D) :
  wf E st -> packet_ok E pkt -> plot_str st = [p] -> plot_ok k p ->
  plot_symmetric (zeroed p)
  /\ (plot_symmetric p ->
      exists p', fill_plot E st pkt = Ok (set_plot_str st [p'])
                 /\ plot_ok k p' /\ plot_symmetric p').
Proof.
  intros Hwf Hpk Hp Hpo. split.
  - destruct Hpo as [Hk Hmax Hw Hh Hlen Hbuf]. unfold plot_symmetric, zeroed.
    cbn [buf]. rewrite drop_ge by lia. rewrite app_nil_r.
    apply symmetric_replicate.
  - intros Hsym. unfold fill_plot. simpl (0 <? nplots)%nat. cbv iota.
    rewrite for_pairs_flat.
    destruct (for_each_inv
      (fun done s => exists p', s = (set_plot_str st [p'], length done)
                                /\ plot_ok k p' /\ plot_symmetric p')
      (pairs (nlines E)) (fun q => plot_pair_body E pkt (fst q) (snd q))
      (st, 0%nat)) as (s' & Hf & p' & Hs' & Hpo' & Hsym').
    + exists p. split; [|split; [exact Hpo|exact Hsym]]. simpl. f_equal.
      rewrite <- Hp. destruct st; reflexivity.
    + intros done q rest s Hq (p1 & -> & Hpo1 & Hsym1).
      destruct (pairs_split_inv _ _ _ _ Hq) as (Hxy & Hy & Hidx).
      destruct q as [x y]. cbn [fst snd] in *.
      unfold plot_pair_body. cbn [fst snd].
      rewrite both_enabled_spec
        by (cbn; rewrite (ok_enable E st (wf_lines E st Hwf)); lia).
      cbn [bind]. destruct (enabled _ x && enabled _ y).
      2:{ cbn [bind]. eexists; split; [reflexivity|]. exists p1.
          rewrite length_app, Nat.add_1_r. auto. }
      change (rdn (plot_str (set_plot_str st [p1])) 0) with (Ok p1).
      cbn [bind].
      rewrite (rdn_total (baselines _) (length done))
        by (cbn; rewrite (ok_baselines E st (wf_lines E st Hwf)); exact Hidx).
      cbn [bind].
      destruct Hpo1 as [Hk Hmax Hw Hh Hlen Hbuf].
      rewrite Hw, Hh.
      match goal with |- context [plot_visible _ _ ?a ?b] =>
        set (xx := a); set (yy := b) end.
      destruct (plot_visible (2 * k) (2 * k) xx yy) eqn:Hvis.
      2:{ cbn [bind]. eexists; split; [reflexivity|]. exists p1.
          rewrite length_app, Nat.add_1_r. split; [reflexivity|].
          split; [constructor; assumption|exact Hsym1]. }
      destruct (plot_z_bounds k xx yy Hk Hmax Hvis) as [Hz Hz'].
      destruct (center_lag_ok E pkt (length done) Hpk) as [c Hc].
      { rewrite (wf_nbaselines E st Hwf). exact Hidx. }
      rewrite Hc. cbn [bind].
      rewrite rd_Ok by (rewrite Hbuf; lia). cbn [bind].
      rewrite wr_Ok by (rewrite Hbuf; lia). cbn [bind].
      rewrite rd_Ok by (rewrite length_insert, Hbuf; lia). cbn [bind].
      rewrite wr_Ok by (rewrite length_insert, Hbuf; lia). cbn [bind].
      eexists; split; [reflexivity|]. eexists. split.
      * rewrite length_app, Nat.add_1_r. reflexivity.
      * split; [constructor; cbn; auto; rewrite !length_insert; exact Hbuf|].
        unfold plot_symmetric. cbn [buf].
        set (z := plot_z (2 * k) (2 * k) xx yy) in *.
        rewrite (plot_mirror_eq k z Hk Hmax Hz).
        replace (Z.to_nat (4 * k * k - 1 - z))
          with (length (buf p1) - 1 - Z.to_nat z)%nat by (rewrite Hbuf; lia).
        apply symmetric_add; [rewrite Hbuf; lia| |exact Hsym1].
        rewrite Hbuf. exists (Z.to_nat (2 * k * k)). lia.
    + exists p'. rewrite Hf, Hs'. split; [reflexivity|]. split; assumption.
Qed.

End PlotProps.

(* ------------------------------------------------------------------ *)
(** ** The preconditions hold on the three-line correlator *)

Module Checks.
Import Binary64.
Import Scenario.

(** Two accumulating iterations, the iteration that finalizes and an idle
    one. *)
Definition whole_cycle : list (@tick_input float) :=
  [ready 101; ready 102; closing 110 fits_partial; ready 111].

Lemma cycle_packets_ok :
  Forall (fun i : @tick_input float =>
            forall pkt, packet i = Some pkt -> packet_ok hw pkt) whole_cycle.
Proof.
  repeat (constructor;
          [intros pkt H; inversion H; apply ready_packet_ok|]).
  constructor.
Qed.

Lemma room4_long_row :
  room (Z.of_nat (length whole_cycle)) (integrating long_row).
Proof. concrete_room. Qed.

Lemma long_row_enabled : enabled_lines hw (integrating long_row) <> [].
Proof. vm_compute. discriminate. Qed.

Lemma whole_cycle_runs :
  Callback hw (integrating long_row) whole_cycle
  = Ok (after (Callback hw (integrating long_row) whole_cycle) long_row).
Proof. evaluate. Qed.

Lemma reader_loop_safe_witness :
  wf hw (integrating long_row)
  /\ room (Z.of_nat (length whole_cycle)) (integrating long_row)
  /\ enabled_lines hw (integrating long_row) <> []
  /\ exists st',
       Callback hw (integrating long_row) whole_cycle = Ok st'
       /\ wf hw st' /\ room 0 st'
       /\ lineEnableSP st' = lineEnableSP (integrating long_row).
Proof.
  split; [exact wf_long_row|]. split; [exact room4_long_row|].
  split; [exact long_row_enabled|].
  destruct (reader_loop_safe hw whole_cycle (integrating long_row) wf_long_row
              room4_long_row long_row_enabled cycle_packets_ok)
    as [H|(done & i & rest & st1 & _ & _ & _ & _ & _ & _ & Hf)].
  - exact H.
  - rewrite whole_cycle_runs in Hf. discriminate Hf.
Defined.

Lemma hw_baselines : ahp_xc_get_nbaselines hw = length (pairs (nlines hw)).
Proof. reflexivity. Qed.

Lemma hw_blobs_allocated : blobs_allocated hw.
Proof. intros _ _. vm_compute. reflexivity. Qed.

Lemma constructed_no_autocorrelations :
  ahp_xc_get_autocorrelator_lagsize hw <= 1 ->
  autocorrelations_str constructed = [].
Proof. intros _. reflexivity. Qed.

Lemma constructed_no_crosscorrelations :
  ahp_xc_get_crosscorrelator_lagsize hw <= 1 ->
  crosscorrelations_str constructed = [].
Proof. intros _. reflexivity. Qed.

Lemma Handshake_ready_witness :
  ahp_xc_get_nbaselines hw = length (pairs (nlines hw))
  /\ blobs_allocated hw
  /\ 1 <= 4 /\ 4 * 4 * 4 <= INT_MAX /\ 0 <= 10
  /\ ahp_xc_get_autocorrelator_lagsize hw * (10 + 1) <= INT_MAX
  /\ (ahp_xc_get_crosscorrelator_lagsize hw * 2 - 1) * (10 + 1) <= INT_MAX
  /\ exists st',
       Handshake hw constructed (2 * 4) = Ok st'
       /\ wf hw st' /\ room 10 st' /\ enabled_lines hw st' = [].
Proof.
  assert (H2 : 1 <= 4) by lia.
  assert (H3 : 4 * 4 * 4 <= INT_MAX) by (unfold INT_MAX; lia).
  assert (H4 : 0 <= 10) by lia.
  assert (H5 : ahp_xc_get_autocorrelator_lagsize hw * (10 + 1) <= INT_MAX)
    by (vm_compute; discriminate).
  assert (H6 : (ahp_xc_get_crosscorrelator_lagsize hw * 2 - 1) * (10 + 1)
               <= INT_MAX) by (vm_compute; discriminate).
  destruct (Handshake_ready hw constructed 4 10 hw_baselines
              hw_blobs_allocated constructed_no_autocorrelations
              constructed_no_crosscorrelations H2 H3 H4 H5 H6)
    as (st' & Hrun & Hwf & _ & Hr & He & _).
  split; [exact hw_baselines|]. split; [exact hw_blobs_allocated|].
  split; [exact H2|]. split; [exact H3|]. split; [exact H4|].
  split; [exact H5|]. split; [exact H6|].
  exists st'. split; [exact Hrun|]. split; [exact Hwf|].
  split; [exact Hr|exact He].
Defined.

(** The same correlator with autocorrelations of one lag. *)
Definition hw_one_lag : @Extern float := {|
  ahp_xc_get_nlines := ahp_xc_get_nlines hw;
  ahp_xc_get_nbaselines := ahp_xc_get_nbaselines hw;
  ahp_xc_get_autocorrelator_lagsize := 1;
  ahp_xc_get_crosscorrelator_lagsize := ahp_xc_get_crosscorrelator_lagsize hw;
  ahp_xc_get_frequency := ahp_xc_get_frequency hw;
  ahp_xc_get_delaysize := ahp_xc_get_delaysize hw;
  LIGHTSPEED := LIGHTSPEED hw;
  baseline_delay := baseline_delay hw;
  getDelay := getDelay hw;
  getUVCoordinates := getUVCoordinates hw;
  get_local_sidereal_time := get_local_sidereal_time hw;
  get_local_hour_angle := get_local_hour_angle hw;
  get_alt_az_coordinates := get_alt_az_coordinates hw;
  HasDSP := HasDSP hw;
  new_baseline := new_baseline hw;
  uninit := uninit hw;
  uninit_blob := uninit_blob hw
|}.

Lemma Handshake_no_autocorrelator_witness :
  (0 < nlines hw_one_lag)%nat
  /\ 1 < ahp_xc_get_crosscorrelator_lagsize hw_one_lag
  /\ ahp_xc_get_autocorrelator_lagsize hw_one_lag <= 1
  /\ Handshake hw_one_lag
       (AHP_XC_new hw_one_lag 0%float 0%float 0%float 0%float t0) 8
     = Fault OutOfBounds.
Proof.
  assert (H1 : (0 < nlines hw_one_lag)%nat) by (vm_compute; lia).
  assert (H2 : 1 < ahp_xc_get_crosscorrelator_lagsize hw_one_lag)
    by (vm_compute; reflexivity).
  assert (H3 : ahp_xc_get_autocorrelator_lagsize hw_one_lag <= 1)
    by (vm_compute; discriminate).
  split; [exact H1|]. split; [exact H2|]. split; [exact H3|].
  exact (Handshake_no_autocorrelator hw_one_lag 8 0%float 0%float 0%float
           0%float t0 H1 H2 H3).
Defined.

Lemma wf_started_connected : wf hw (integrating connected).
Proof. concrete_wf. Qed.

Lemma started_connected_none :
  enabled_lines hw (integrating connected) = [].
Proof. evaluate. Qed.

Lemma started_connected_running : InIntegration (integrating connected) = true.
Proof. evaluate. Qed.

Lemma started_connected_time :
  expired (integrating connected) (now (ready 101)) = false.
Proof. evaluate. Qed.

Lemma integration_without_lines_faults_witness :
  wf hw (integrating connected)
  /\ enabled_lines hw (integrating connected) = []
  /\ isConnected (ready 101) = true
  /\ packet (ready 101) = Some ready_packet
  /\ InIntegration (integrating connected) = true
  /\ expired (integrating connected) (now (ready 101)) = false
  /\ Callback_iteration hw (integrating connected) (ready 101)
     = Fault OutOfBounds.
Proof.
  repeat match goal with |- _ /\ _ => split end;
    [ exact wf_started_connected | exact started_connected_none
    | reflexivity | reflexivity
    | exact started_connected_running | exact started_connected_time | ].
  exact (integration_without_lines_faults hw (integrating connected)
           (ready 101) ready_packet wf_started_connected
           started_connected_none eq_refl eq_refl
           started_connected_running started_connected_time).
Defined.

Lemma one_row_integrating : InIntegration one_row = true.
Proof. evaluate. Qed.

Lemma one_row_expired :
  expired one_row (now (closing 110 fits_partial)) = true.
Proof. evaluate. Qed.

Lemma one_row_fits : fin_fits hw fits_partial one_row = true.
Proof. evaluate. Qed.

Lemma integration_serialized_once_witness :
  wf hw one_row /\ room 0 one_row
  /\ isConnected (closing 110 fits_partial) = true
  /\ packet (closing 110 fits_partial) = Some ready_packet
  /\ packet_ok hw ready_packet
  /\ InIntegration one_row = true
  /\ expired one_row (now (closing 110 fits_partial)) = true
  /\ fin_fits hw (fits (closing 110 fits_partial)) one_row = true
  /\ exists st',
       Callback_iteration hw one_row (closing 110 fits_partial) = Ok st'
       /\ InIntegration st' = false
       /\ plot_str st' = zeroed <$> plot_str one_row
       /\ exists st'',
            Callback hw st' [ready 111; ready 112] = Ok st''
            /\ events st'' = events st'.
Proof.
  repeat match goal with |- _ /\ _ => split end;
    [ exact wf_one_row | exact room0_one_row | reflexivity | reflexivity
    | exact ready_packet_ok | exact one_row_integrating
    | exact one_row_expired | exact one_row_fits | ].
  destruct (integration_serialized_once hw one_row (closing 110 fits_partial)
              ready_packet wf_one_row room0_one_row eq_refl eq_refl
              ready_packet_ok one_row_integrating one_row_expired one_row_fits)
    as (st' & Hrun & Hin & Hp & _ & Hlater).
  exists st'. split; [exact Hrun|]. split; [exact Hin|]. split; [exact Hp|].
  destruct (Hlater [ready 111; ready 112]) as (st'' & Hrun' & _ & Hev & _).
  - repeat (constructor;
            [intros pkt H; inversion H; apply ready_packet_ok|]).
    constructor.
  - exists st''. split; [exact Hrun'|exact Hev].
Defined.

Lemma one_row_closes : expired one_row (now (ready 110)) = true.
Proof. evaluate. Qed.

Lemma first_encoding_leaves_blob_witness :
  wf hw one_row /\ room 0 one_row
  /\ InIntegration one_row = true
  /\ expired one_row (now (ready 110)) = true
  /\ fst (createFITS (fits (ready 110) 0%nat) (-64) 0) = true
  /\ 0 < snd (createFITS (fits (ready 110) 0%nat) (-64) 0)
  /\ Callback_iteration hw one_row (ready 110) = Fault OutOfBounds.
Proof.
  repeat match goal with |- _ /\ _ => split end;
    [ exact wf_one_row | exact room0_one_row | exact one_row_integrating
    | exact one_row_closes | reflexivity | reflexivity | ].
  exact (proj2 (first_encoding_leaves_blob hw one_row (ready 110)
                  ready_packet wf_one_row room0_one_row eq_refl eq_refl
                  one_row_integrating one_row_closes eq_refl eq_refl)).
Defined.

Lemma hw_has_baselines : (0 < ahp_xc_get_nbaselines hw)%nat.
Proof. vm_compute. lia. Qed.

Lemma hw_cross_lags : 1 < ahp_xc_get_crosscorrelator_lagsize hw.
Proof. vm_compute. reflexivity. Qed.

Lemma finalize_crosscorrelation_buffers_witness :
  wf hw one_row /\ room 0 one_row
  /\ (0 < ahp_xc_get_nbaselines hw)%nat
  /\ 1 < ahp_xc_get_crosscorrelator_lagsize hw
  /\ fin_fits hw fits_partial one_row = true
  /\ exists st',
       finalize hw fits_partial one_row = Ok st'
       /\ forall (z : nat) (s : @dsp_stream float),
            crosscorrelations_str one_row !! z = Some s ->
            ((z + 1 < nlines hw)%nat ->
             crosscorrelations_str st' !! z = Some (fresh_row s))
            /\ ((nlines hw <= z + 1)%nat ->
                crosscorrelations_str st' !! z = Some s
                /\ crosscorrelationsB st' !! z
                   = crosscorrelationsB one_row !! z).
Proof.
  exact (conj wf_one_row (conj room0_one_row (conj hw_has_baselines
    (conj hw_cross_lags (conj one_row_fits
       (finalize_crosscorrelation_buffers hw fits_partial one_row wf_one_row
          room0_one_row hw_has_baselines hw_cross_lags one_row_fits)))))).
Defined.

Lemma one_row_enabled : enabled_lines hw one_row <> [].
Proof. vm_compute. discriminate. Qed.

Lemma restarted_accumulating :
  Forall (accumulating hw restarted) [ready 201].
Proof.
  repeat (constructor; [apply ready_accumulating; evaluate|]). constructor.
Qed.

Lemma aborted_rows_stay_witness :
  wf hw one_row /\ enabled_lines hw one_row <> []
  /\ room (Z.of_nat (length [ready 201])) one_row
  /\ Forall (accumulating hw restarted) [ready 201]
  /\ exists st',
       Callback hw restarted [ready 201] = Ok st'
       /\ forall x s, crosscorrelations_str one_row !! x = Some s ->
            exists s',
              crosscorrelations_str st' !! x = Some s'
              /\ data_rows s `prefix_of` data_rows s'
              /\ sizes1 s' = sizes1 s + Z.of_nat (length [ready 201]).
Proof.
  split; [exact wf_one_row|]. split; [exact one_row_enabled|].
  split; [exact room_one_row|]. split; [exact restarted_accumulating|].
  destruct (aborted_rows_stay hw one_row) as (_ & _ & H).
  destruct (H 10%float t1 [ready 201] wf_one_row one_row_enabled room_one_row
              restarted_accumulating) as (_ & st' & Hrun & _ & Hc).
  exists st'. split; [exact Hrun|]. exact (Hc hw_cross_lags).
Defined.

Lemma totals_adds_packet_witness :
  wf hw (integrating long_row) /\ packet_ok hw ready_packet
  /\ exists st',
       totals hw (integrating long_row) ready_packet = Ok st'
       /\ st' = set_totalcorrelations
                  (set_totalcounts (integrating long_row) (totalcounts st'))
                  (totalcorrelations st').
Proof.
  split; [exact wf_long_row|]. split; [exact ready_packet_ok|].
  destruct (totals_adds_packet hw (integrating long_row) ready_packet
              wf_long_row ready_packet_ok) as (st' & Hrun & Hfr & _).
  exists st'. split; [exact Hrun|exact Hfr].
Defined.

Lemma long_row_fresh : fresh (integrating long_row).
Proof. split; by_evaluation. Qed.

Lemma long_row_running : InIntegration (integrating long_row) = true.
Proof. evaluate. Qed.

Lemma two_accumulating :
  Forall (accumulating hw (integrating long_row)) [ready 101; ready 102].
Proof.
  repeat (constructor; [apply ready_accumulating; evaluate|]). constructor.
Qed.

Lemma hw_auto_lags : 1 < ahp_xc_get_autocorrelator_lagsize hw.
Proof. vm_compute. reflexivity. Qed.

Lemma buffers_hold_packet_rows_witness :
  wf hw (integrating long_row)
  /\ InIntegration (integrating long_row) = true
  /\ enabled_lines hw (integrating long_row) <> []
  /\ room (Z.of_nat (length [ready 101; ready 102])) (integrating long_row)
  /\ fresh (integrating long_row)
  /\ Forall (accumulating hw (integrating long_row)) [ready 101; ready 102]
  /\ exists st',
       Callback hw (integrating long_row) [ready 101; ready 102] = Ok st'
       /\ forall x, (x < nlines hw)%nat ->
            exists s', autocorrelations_str st' !! x = Some s'
                       /\ data_rows s'
                          = auto_rows x (packets [ready 101; ready 102]).
Proof.
  repeat match goal with |- _ /\ _ => split end;
    [ exact wf_long_row | exact long_row_running | exact long_row_enabled
    | exact room_long_row | exact long_row_fresh | exact two_accumulating | ].
  destruct (buffers_hold_packet_rows hw (integrating long_row)
              [ready 101; ready 102] wf_long_row long_row_running
              long_row_enabled room_long_row long_row_fresh two_accumulating)
    as (st' & Hrun & Ha & _).
  exists st'. split; [exact Hrun|exact (Ha hw_auto_lags)].
Defined.

Lemma line_1_in_range : (1 < nlines hw)%nat.
Proof. vm_compute. lia. Qed.

Lemma location_update_moves_baselines_witness :
  lines_ok hw long_row /\ (1 < nlines hw)%nat
  /\ exists st',
       set_line_location hw long_row 1 (at_y 35) = Ok st'
       /\ lineLocationNP st' = <[1%nat := at_y 35]> (lineLocationNP long_row).
Proof.
  split; [exact lines_ok_long_row|]. split; [exact line_1_in_range|].
  destruct (location_update_moves_baselines hw long_row 1 (at_y 35)
              lines_ok_long_row line_1_in_range) as (st' & Hrun & Hl & _).
  exists st'. split; [exact Hrun|exact Hl].
Defined.

(** Settings of one metre and one megahertz. *)
Definition settings : @tuning float :=
  {| CROSSCORRELATOR_WAVELENGTH_VALUE := 1%float;
     CROSSCORRELATOR_BANDWIDTH_VALUE := 1000000%float;
     SPECTROGRAPH_LOWFREQ := 0%float;
     SPECTROGRAPH_HIGHFREQ := 0%float |}.

Lemma plot_16_fits : 4 * 8 * 8 <= INT_MAX.
Proof. unfold INT_MAX. lia. Qed.

Lemma plot_16_positive : 1 <= 8.
Proof. lia. Qed.

Lemma settings_update_ready_witness :
  wf hw (integrating long_row) /\ 1 <= 8 /\ 4 * 8 * 8 <= INT_MAX
  /\ exists tn' st',
       ISNewNumber_settings hw settings 0.5%float 2000000%float (2 * 8)
         (integrating long_row) = Ok (tn', st')
       /\ wf hw st'
       /\ baselines st'
          = with_wavelength 0.5%float <$> baselines (integrating long_row).
Proof.
  split; [exact wf_long_row|]. split; [exact plot_16_positive|].
  split; [exact plot_16_fits|].
  destruct (settings_update_ready hw settings 0.5%float 2000000%float 8
              (integrating long_row) wf_long_row plot_16_positive
              plot_16_fits) as (tn' & st' & Hrun & Hwf & Hb & _).
  exists tn', st'. split; [exact Hrun|]. split; [exact Hwf|exact Hb].
Defined.

(** The plot of a driver with one plot. *)
Definition the_plot (st : @AHP_XC float) : @dsp_stream float :=
  match plot_str st with
  | p :: _ => p
  | [] => {| sizes0 := 0; sizes1 := 0; len := 0; buf := [] |}
  end.

Lemma one_row_plot : plot_str one_row = [the_plot one_row].
Proof. evaluate. Qed.

Lemma one_row_plot_ok : plot_ok 4 (the_plot one_row).
Proof. constructor; by_evaluation. Qed.

Lemma plot_stays_symmetric_witness :
  wf hw one_row /\ packet_ok hw ready_packet
  /\ plot_str one_row = [the_plot one_row]
  /\ plot_ok 4 (the_plot one_row)
  /\ plot_symmetric (zeroed (the_plot one_row)).
Proof.
  split; [exact wf_one_row|]. split; [exact ready_packet_ok|].
  split; [exact one_row_plot|]. split; [exact one_row_plot_ok|].
  exact (proj1 (plot_stays_symmetric hw one_row ready_packet 4
                  (the_plot one_row) wf_one_row ready_packet_ok one_row_plot
                  one_row_plot_ok)).
Defined.

(** A telescope of 100 mm aperture and 1000 mm focal length polled every
    half second; the photometry functions are stand-ins. *)
Definition photometry : @Stats_extern float :=
  {| primaryAperture := 100%float;
     primaryFocalLength := 1000%float;
     getCurrentPollingPeriod := 500;
     wavelength := 1%float;
     bandwidth := 1000000%float;
     asin := fun x => x;
     LUMEN := fun _ => 1%float;
     calc_photon_flux := fun _ _ _ _ => 0%float;
     calc_rel_magnitude := fun flux _ _ _ => flux |}.

Definition blank_panel : @panel float :=
  {| lineDelayNP := replicate 3 0%float;
     lineStatsNP :=
       replicate 3 {| LINE_COUNTS := 0%float; LINE_FLUX := 0%float;
                      LINE_FLUX0 := 0%float; LINE_MAGNITUDE := 0%float |};
     correlationsNP := replicate 6 0%float;
     sent := [] |}.

Lemma blank_panel_ok : panel_ok hw blank_panel.
Proof. constructor; reflexivity. Qed.

(** [long_row] after two accumulating iterations. *)
Definition two_rows : @AHP_XC float :=
  after (Callback hw (integrating long_row) [ready 101; ready 102]) long_row.

Lemma wf_two_rows : wf hw two_rows.
Proof. concrete_wf. Qed.

Lemma TimerHit_publishes_and_resets_witness :
  wf hw two_rows /\ panel_ok hw blank_panel
  /\ exists st' pn',
       TimerHit hw photometry true two_rows blank_panel = Ok (st', pn')
       /\ totalcounts st' = replicate (nlines hw) d_zero
       /\ lineDelayNP pn' = delay two_rows.
Proof.
  split; [exact wf_two_rows|]. split; [exact blank_panel_ok|].
  destruct (TimerHit_publishes_and_resets hw photometry two_rows blank_panel
              wf_two_rows blank_panel_ok)
    as (st' & pn' & Hrun & _ & Hz & _ & Hd & _).
  exists st', pn'. split; [exact Hrun|]. split; [exact Hz|exact Hd].
Defined.

Definition timer_after (r : result (@AHP_XC float * @panel float))
  : @AHP_XC float * @panel float :=
  match r with
  | Ok x => x
  | Fault _ => (long_row, blank_panel)
  end.

(** A [TimerHit], two packets, a [TimerHit]. *)
Definition first_hit : @AHP_XC float * @panel float :=
  timer_after (TimerHit hw photometry true (integrating long_row) blank_panel).

Definition between_hits : @AHP_XC float :=
  after (Callback hw (fst first_hit) [ready 101; ready 102]) long_row.

Definition second_hit : @AHP_XC float * @panel float :=
  timer_after (TimerHit hw photometry true between_hits (snd first_hit)).

Lemma two_packets :
  Forall (fun i : @tick_input float =>
            isConnected i = true
            /\ exists pkt, packet i = Some pkt /\ packet_ok hw pkt)
    [ready 101; ready 102].
Proof.
  repeat (constructor;
          [split; [reflexivity|];
           exists ready_packet; split; [reflexivity|apply ready_packet_ok]|]).
  constructor.
Qed.

Lemma first_hit_runs :
  TimerHit hw photometry true (integrating long_row) blank_panel
  = Ok (fst first_hit, snd first_hit).
Proof. evaluate. Qed.

Lemma between_hits_runs :
  Callback hw (fst first_hit) [ready 101; ready 102] = Ok between_hits.
Proof. evaluate. Qed.

Lemma second_hit_runs :
  TimerHit hw photometry true between_hits (snd first_hit)
  = Ok (fst second_hit, snd second_hit).
Proof. evaluate. Qed.

Lemma count_rate_between_timer_hits_witness :
  wf hw (integrating long_row) /\ panel_ok hw blank_panel
  /\ room (Z.of_nat (length [ready 101; ready 102])) (integrating long_row)
  /\ enabled_lines hw (integrating long_row) <> []
  /\ TimerHit hw photometry true (integrating long_row) blank_panel
     = Ok (fst first_hit, snd first_hit)
  /\ Callback hw (fst first_hit) [ready 101; ready 102] = Ok between_hits
  /\ TimerHit hw photometry true between_hits (snd first_hit)
     = Ok (fst second_hit, snd second_hit)
  /\ forall x, (x < nlines hw)%nat ->
       LINE_COUNTS <$> lineStatsNP (snd second_hit) !! x
       = Some (per_second photometry
                 (if enabled (integrating long_row) x
                  then foldl d_add d_zero
                         (line_counts x [ready 101; ready 102])
                  else d_zero)).
Proof.
  repeat match goal with |- _ /\ _ => split end;
    [ exact wf_long_row | exact blank_panel_ok | exact room_long_row
    | exact long_row_enabled | exact first_hit_runs
    | exact between_hits_runs | exact second_hit_runs | ].
  exact (count_rate_between_timer_hits hw photometry (integrating long_row)
           (fst first_hit) between_hits (fst second_hit) blank_panel
           (snd first_hit) (snd second_hit) [ready 101; ready 102]
           wf_long_row blank_panel_ok room_long_row long_row_enabled
           two_packets first_hit_runs between_hits_runs second_hit_runs).
Defined.

End Checks.
